(** * Accela: the editing engine of a terminal text editor (main.go)

    A shallow embedding of the buffer operations of [main.go]: the line
    store, cursor, selection, clipboard-style text insertion, literal search,
    the highlight cache with its dirty range, word motion and the
    character-to-visual-column mapping.

    Conventions.
    - A Go [string] is an immutable byte sequence: [str := list byte].
      [len(s)] and [s[a:b]] count bytes; [[]rune(s)] decodes UTF-8.
    - A Go [int] is modelled by [Z].  Every integer the code computes is a
      slice length, an index below one, or such a value plus a small
      constant, so 64-bit wrap-around is never reached and is not written;
      the one exception is the line number of the goto command, which the
      user chooses ([wrapInt] in [gotoLine]).
    - A run-time panic (index or slice bounds out of range) is [None]. *)

From Stdlib Require Import ZArith List Lia Bool Strings.Byte String.
From stdpp Require Import base tactics option list.
Import ListNotations.
Local Open Scope Z_scope.

(** ** Go values: strings, slices, panics *)

Definition str := list byte.
Definition rune := Z.

(** A string literal of the source, as its bytes. *)
Definition lit (s : string) : str := list_byte_of_string s.

Definition len {A : Type} (l : list A) : Z := Z.of_nat (length l).

Notation "'let?' x ':=' e 'in' k" :=
  (match e with Some x => k | None => None end)
  (at level 10, x name, e at level 100, k at level 200, only parsing).

(** [l[i]]: panics when [i] is out of range. *)
Definition index {A : Type} (l : list A) (i : Z) : option A :=
  if 0 <=? i then l !! Z.to_nat i else None.

(** [l[lo:hi]]: panics unless [0 <= lo <= hi <= len(l)].  (Go allows
    [hi <= cap(l)]; the model takes the capacity to be the length.) *)
Definition slice {A : Type} (l : list A) (lo hi : Z) : option (list A) :=
  if (0 <=? lo) && (lo <=? hi) && (hi <=? len l)
  then Some (take (Z.to_nat (hi - lo)) (drop (Z.to_nat lo) l))
  else None.

(** [l[lo:]] and [l[:hi]]. *)
Definition sliceFrom {A : Type} (l : list A) (lo : Z) : option (list A) :=
  slice l lo (len l).
Definition sliceTo {A : Type} (l : list A) (hi : Z) : option (list A) :=
  slice l 0 hi.

(** [l[i] = v]: panics when [i] is out of range. *)
Definition store {A : Type} (l : list A) (i : Z) (v : A) : option (list A) :=
  if (0 <=? i) && (i <? len l) then Some (<[Z.to_nat i := v]> l) else None.

Definition byteZ (b : byte) : Z := Z.of_N (Byte.to_N b).
Definition zbyte (z : Z) : byte :=
  match Byte.of_N (Z.to_N (z mod 256)) with Some b => b | None => x00 end.

Definition NL : byte := x0a.
Definition CR : byte := x0d.
Definition TAB : rune := 9.

(** ** Package unicode/utf8 (Go standard library)

    [DecodeRune] follows [utf8.DecodeRuneInString]: the first byte selects
    the sequence length and the accepted range of the second byte; a
    malformed or truncated sequence decodes to U+FFFD of width 1. *)
Module utf8.

Definition RuneError : rune := 65533.
Definition MaxRune : rune := 1114111.

(** The [first] table: [Some (size, lo, hi)] for a lead byte of a
    multi-byte sequence whose second byte must lie in [lo..hi]; [None] for
    a byte that cannot start one. *)
Definition first (b0 : Z) : option (Z * Z * Z) :=
  if b0 <? 194 then None
  else if b0 <? 224 then Some (2, 128, 191)
  else if b0 =? 224 then Some (3, 160, 191)
  else if b0 <? 237 then Some (3, 128, 191)
  else if b0 =? 237 then Some (3, 128, 159)
  else if b0 <? 240 then Some (3, 128, 191)
  else if b0 =? 240 then Some (4, 144, 191)
  else if b0 <? 244 then Some (4, 128, 191)
  else if b0 =? 244 then Some (4, 128, 143)
  else None.

Definition cont (b : Z) : bool := (128 <=? b) && (b <=? 191).

(** Returns the rune and its width in bytes; width 0 only for the empty
    string. *)
Definition DecodeRune (s : str) : rune * nat :=
  match s with
  | [] => (RuneError, 0%nat)
  | c0 :: s1 =>
    let b0 := byteZ c0 in
    if b0 <? 128 then (b0, 1%nat)
    else match first b0 with
    | None => (RuneError, 1%nat)
    | Some (sz, lo, hi) =>
      if len s <? sz then (RuneError, 1%nat)
      else match s1 with
      | [] => (RuneError, 1%nat)
      | c1 :: s2 =>
        let b1 := byteZ c1 in
        if (b1 <? lo) || (hi <? b1) then (RuneError, 1%nat)
        else if sz <=? 2
        then (Z.lor (Z.shiftl (Z.land b0 31) 6) (Z.land b1 63), 2%nat)
        else match s2 with
        | [] => (RuneError, 1%nat)
        | c2 :: s3 =>
          let b2 := byteZ c2 in
          if negb (cont b2) then (RuneError, 1%nat)
          else if sz <=? 3
          then (Z.lor (Z.lor (Z.shiftl (Z.land b0 15) 12)
                             (Z.shiftl (Z.land b1 63) 6))
                      (Z.land b2 63), 3%nat)
          else match s3 with
          | [] => (RuneError, 1%nat)
          | c3 :: _ =>
            let b3 := byteZ c3 in
            if negb (cont b3) then (RuneError, 1%nat)
            else (Z.lor (Z.lor (Z.lor (Z.shiftl (Z.land b0 7) 18)
                                      (Z.shiftl (Z.land b1 63) 12))
                               (Z.shiftl (Z.land b2 63) 6))
                        (Z.land b3 63), 4%nat)
          end
        end
      end
    end
  end.

(** [utf8.AppendRune]: surrogates and values outside the Unicode range are
    written as U+FFFD. *)
Definition EncodeRune (r : rune) : str :=
  if (0 <=? r) && (r <=? 127) then [zbyte r]
  else if (0 <=? r) && (r <=? 2047)
  then [zbyte (Z.lor 192 (Z.shiftr r 6)); zbyte (Z.lor 128 (Z.land r 63))]
  else if (r <? 0) || (MaxRune <? r) || ((55296 <=? r) && (r <=? 57343))
  then [xef; xbf; xbd]
  else if r <=? 65535
  then [zbyte (Z.lor 224 (Z.shiftr r 12));
        zbyte (Z.lor 128 (Z.land (Z.shiftr r 6) 63));
        zbyte (Z.lor 128 (Z.land r 63))]
  else [zbyte (Z.lor 240 (Z.shiftr r 18));
        zbyte (Z.lor 128 (Z.land (Z.shiftr r 12) 63));
        zbyte (Z.lor 128 (Z.land (Z.shiftr r 6) 63));
        zbyte (Z.lor 128 (Z.land r 63))].

End utf8.

(** [[]rune(s)]: decode rune after rune.  Every step consumes at least one
    byte, so [length s] steps are enough. *)
Fixpoint decodeRunes (fuel : nat) (s : str) : list rune :=
  match fuel with
  | O => []
  | S fuel' =>
    match s with
    | [] => []
    | _ :: _ =>
      let '(r, n) := utf8.DecodeRune s in r :: decodeRunes fuel' (drop n s)
    end
  end.

Definition runes (s : str) : list rune := decodeRunes (length s) s.

(** [string(rs)] for a rune slice. *)
Definition ofRunes (rs : list rune) : str := concat (map utf8.EncodeRune rs).

(** ** Package strings (Go standard library) *)
Module strings.

Fixpoint HasPrefix (s prefix : str) : bool :=
  match prefix, s with
  | [], _ => true
  | p :: prefix', c :: s' => Byte.eqb c p && HasPrefix s' prefix'
  | _ :: _, [] => false
  end.

(** [strings.Index(s, substr)]: byte offset of the first occurrence, or -1. *)
Fixpoint Index (s substr : str) : Z :=
  if HasPrefix s substr then 0
  else match s with
       | [] => -1
       | _ :: s' => let i := Index s' substr in if i <? 0 then -1 else i + 1
       end.

(** [strings.Join(elems, sep)]. *)
Fixpoint Join (elems : list str) (sep : str) : str :=
  match elems with
  | [] => []
  | [e] => e
  | e :: rest => e ++ sep ++ Join rest sep
  end.

(** [strings.Split(s, "\n")]: the separator of every call in main.go is the
    one-byte string "\n".  The result is never empty. *)
Fixpoint SplitNL (s : str) : list str :=
  match s with
  | [] => [[]]
  | c :: s' =>
    if Byte.eqb c NL then [] :: SplitNL s'
    else match SplitNL s' with
         | h :: t => (c :: h) :: t
         | [] => [[c]]
         end
  end.

(** [strings.ReplaceAll(s, "\r\n", "\n")]: non-overlapping occurrences,
    left to right. *)
Fixpoint ReplaceCRLF (s : str) : str :=
  match s with
  | [] => []
  | c :: s' =>
    match s' with
    | c' :: s'' =>
      if Byte.eqb c CR && Byte.eqb c' NL then NL :: ReplaceCRLF s''
      else c :: ReplaceCRLF s'
    | [] => [c]
    end
  end.

End strings.

(** ** Terminal and lexer capabilities (tcell, chroma): the data they
    exchange with the buffer *)
Module tcell.

Inductive Color := ColorDefault | RGBColor (r g b : Z).

Record Style := mkStyle { Fg : Color; IsBold : bool; IsItalic : bool }.

Definition StyleDefault : Style := mkStyle ColorDefault false false.
Definition Foreground (s : Style) (c : Color) : Style :=
  mkStyle c (IsBold s) (IsItalic s).
Definition Bold (s : Style) (on : bool) : Style :=
  mkStyle (Fg s) on (IsItalic s).
Definition Italic (s : Style) (on : bool) : Style :=
  mkStyle (Fg s) (IsBold s) on.

End tcell.

Module chroma.

(** A colour is either unset or an RGB triple. *)
Definition Colour := option (Z * Z * Z).

Inductive Trilean := Pass | Yes | No.

Record StyleEntry := mkEntry
  { EColour : Colour; EBold : Trilean; EItalic : Trilean }.

Definition TokenType := Z.

Record Token := mkToken { TType : TokenType; Value : str }.

(** A style maps a token type to its entry ([Style.Get]); a lexer turns a
    text into tokens or fails ([Lexer.Tokenise]). *)
Definition Style := TokenType -> StyleEntry.
Record Lexer := mkLexer { Tokenise : str -> option (list Token) }.

Definition isYes (t : Trilean) : bool :=
  match t with Yes => true | _ => false end.

End chroma.

(** ** Data model *)

Module Selection.
Record t := mk
  { StartLine : Z; StartCol : Z; EndLine : Z; EndCol : Z; Active : bool }.
End Selection.

Module TokenInfo.
Record t := mk { Col : Z; Len : Z; Style : tcell.Style }.
End TokenInfo.

Module SearchMatch.
Record t := mk { Line : Z; Col : Z; Len : Z }.
End SearchMatch.

Record Buffer := mkBuffer
  { Lines : list str;
    Filename : str;
    CursorX : Z;
    CursorY : Z;
    OffsetX : Z;
    OffsetY : Z;
    Selection : Selection.t;
    Lexer : option chroma.Lexer;
    Style : option chroma.Style;
    TokenCache : list (list TokenInfo.t);
    Dirty : bool;
    DirtyLineStart : Z;
    DirtyLineEnd : Z }.

Record Pane := mkPane
  { X : Z; Y : Z; Width : Z; Height : Z; GutterWidth : Z }.

(** Field updates. *)
Definition withLines (b : Buffer) (ls : list str) : Buffer :=
  mkBuffer ls (Filename b) (CursorX b) (CursorY b) (OffsetX b) (OffsetY b)
    (Selection b) (Lexer b) (Style b) (TokenCache b) (Dirty b)
    (DirtyLineStart b) (DirtyLineEnd b).
Definition withFilename (b : Buffer) (f : str) : Buffer :=
  mkBuffer (Lines b) f (CursorX b) (CursorY b) (OffsetX b) (OffsetY b)
    (Selection b) (Lexer b) (Style b) (TokenCache b) (Dirty b)
    (DirtyLineStart b) (DirtyLineEnd b).
Definition withCursorX (b : Buffer) (x : Z) : Buffer :=
  mkBuffer (Lines b) (Filename b) x (CursorY b) (OffsetX b) (OffsetY b)
    (Selection b) (Lexer b) (Style b) (TokenCache b) (Dirty b)
    (DirtyLineStart b) (DirtyLineEnd b).
Definition withCursorY (b : Buffer) (y : Z) : Buffer :=
  mkBuffer (Lines b) (Filename b) (CursorX b) y (OffsetX b) (OffsetY b)
    (Selection b) (Lexer b) (Style b) (TokenCache b) (Dirty b)
    (DirtyLineStart b) (DirtyLineEnd b).
Definition withOffsetX (b : Buffer) (x : Z) : Buffer :=
  mkBuffer (Lines b) (Filename b) (CursorX b) (CursorY b) x (OffsetY b)
    (Selection b) (Lexer b) (Style b) (TokenCache b) (Dirty b)
    (DirtyLineStart b) (DirtyLineEnd b).
Definition withOffsetY (b : Buffer) (y : Z) : Buffer :=
  mkBuffer (Lines b) (Filename b) (CursorX b) (CursorY b) (OffsetX b) y
    (Selection b) (Lexer b) (Style b) (TokenCache b) (Dirty b)
    (DirtyLineStart b) (DirtyLineEnd b).
Definition withActive (b : Buffer) (a : bool) : Buffer :=
  let s := Selection b in
  mkBuffer (Lines b) (Filename b) (CursorX b) (CursorY b) (OffsetX b)
    (OffsetY b)
    (Selection.mk (Selection.StartLine s) (Selection.StartCol s)
       (Selection.EndLine s) (Selection.EndCol s) a)
    (Lexer b) (Style b) (TokenCache b) (Dirty b)
    (DirtyLineStart b) (DirtyLineEnd b).
Definition withLexer (b : Buffer) (l : option chroma.Lexer) : Buffer :=
  mkBuffer (Lines b) (Filename b) (CursorX b) (CursorY b) (OffsetX b)
    (OffsetY b) (Selection b) l (Style b) (TokenCache b) (Dirty b)
    (DirtyLineStart b) (DirtyLineEnd b).
Definition withTokenCache (b : Buffer) (c : list (list TokenInfo.t)) : Buffer :=
  mkBuffer (Lines b) (Filename b) (CursorX b) (CursorY b) (OffsetX b)
    (OffsetY b) (Selection b) (Lexer b) (Style b) c (Dirty b)
    (DirtyLineStart b) (DirtyLineEnd b).
Definition withDirty (b : Buffer) (d : bool) (s e : Z) : Buffer :=
  mkBuffer (Lines b) (Filename b) (CursorX b) (CursorY b) (OffsetX b)
    (OffsetY b) (Selection b) (Lexer b) (Style b) (TokenCache b) d s e.

(** ** Buffer creation and the highlight cache *)

(** [styles.Get("monokai")] is data of the style library: a parameter. *)
Definition NewBuffer (monokai : chroma.Style) : Buffer :=
  mkBuffer [[]] [] 0 0 0 0 (Selection.mk 0 0 0 0 false) None (Some monokai)
    [] false (-1) (-1).

Definition chromaToTcell (c : chroma.Colour) : tcell.Color :=
  match c with
  | None => tcell.ColorDefault
  | Some (r, g, b) => tcell.RGBColor r g b
  end.

(** The display style of a token type (the head of the token loop of
    [UpdateTokenCacheRange]). *)
Definition tokenStyle (st : chroma.Style) (ty : chroma.TokenType) : tcell.Style :=
  let entry := st ty in
  let fg := chromaToTcell (chroma.EColour entry) in
  let style := tcell.Foreground tcell.StyleDefault fg in
  let style := if chroma.isYes (chroma.EBold entry)
               then tcell.Bold style true else style in
  if chroma.isYes (chroma.EItalic entry)
  then tcell.Italic style true else style.

Abbreviation Cache := (list (list TokenInfo.t)) (only parsing).

(** [make([][]TokenInfo, n)] followed by [copy(newCache, old)]. *)
Definition resizeCache (old : Cache) (n : nat) : Cache :=
  take n old ++ replicate (n - length old) [].

(** [for i := startLine; i <= endLine && i < len(cache); i++
       { cache[i] = []TokenInfo{} }], with [0 <= startLine]. *)
Definition clearRange (cache : Cache) (startLine endLine : Z) : Cache :=
  imap (fun i e =>
          if (startLine <=? Z.of_nat i) && (Z.of_nat i <=? endLine)
          then [] else e) cache.

(** The inner loop over the parts of one token value split on "\n":
    every part but the first starts a new line at column 0. *)
Fixpoint walkParts (style : tcell.Style) (isFirst : bool) (parts : list str)
    (lineNum col : Z) (cache : Cache) : Z * Z * Cache :=
  match parts with
  | [] => (lineNum, col, cache)
  | part :: rest =>
    let lineNum := if isFirst then lineNum else lineNum + 1 in
    let col := if isFirst then col else 0 in
    let cache :=
      if (lineNum <? len cache) && (0 <? len part)
      then alter (fun l => l ++ [TokenInfo.mk col (len part) style])
                 (Z.to_nat lineNum) cache
      else cache in
    walkParts style false rest lineNum (col + len part) cache
  end.

(** The outer loop over the token stream. *)
Fixpoint walkTokens (st : chroma.Style) (tokens : list chroma.Token)
    (lineNum col : Z) (cache : Cache) : Cache :=
  match tokens with
  | [] => cache
  | token :: rest =>
    let '(lineNum', col', cache') :=
      walkParts (tokenStyle st (chroma.TType token)) true
        (strings.SplitNL (chroma.Value token)) lineNum col cache in
    walkTokens st rest lineNum' col' cache'
  end.

Definition contextLines : Z := 50.

Definition UpdateTokenCacheRange (b : Buffer) (startLine endLine : Z)
    : option Buffer :=
  match Lexer b, Style b with
  | Some lexer, Some st =>
    let startLine := Z.max 0 (startLine - contextLines) in
    let endLine := Z.min (len (Lines b) - 1) (endLine + contextLines) in
    let cache :=
      if len (TokenCache b) =? len (Lines b) then TokenCache b
      else resizeCache (TokenCache b) (length (Lines b)) in
    let cache := clearRange cache startLine endLine in
    let? window := slice (Lines b) startLine (endLine + 1) in
    let content := strings.Join window [NL] in
    match chroma.Tokenise lexer content with
    | None => Some (withTokenCache b cache)
    | Some tokens =>
      Some (withTokenCache b (walkTokens st tokens startLine 0 cache))
    end
  | _, _ => Some b
  end.

Definition UpdateTokenCache (b : Buffer) : option Buffer :=
  UpdateTokenCacheRange b 0 (len (Lines b) - 1).

(** The first span of the line that contains the column. *)
Fixpoint findStyle (tokens : list TokenInfo.t) (col : Z) : tcell.Style :=
  match tokens with
  | [] => tcell.StyleDefault
  | token :: rest =>
    if (TokenInfo.Col token <=? col)
       && (col <? TokenInfo.Col token + TokenInfo.Len token)
    then TokenInfo.Style token
    else findStyle rest col
  end.

Definition GetStyleAt (b : Buffer) (line col : Z) : option tcell.Style :=
  if len (TokenCache b) <=? line then Some tcell.StyleDefault
  else let? tokens := index (TokenCache b) line in
       Some (findStyle tokens col).

Definition MarkDirtyLines (b : Buffer) (start end_ : Z) : Buffer :=
  let s := if (DirtyLineStart b <? 0) || (start <? DirtyLineStart b)
           then start else DirtyLineStart b in
  let e := if DirtyLineEnd b <? end_ then end_ else DirtyLineEnd b in
  withDirty b true s e.

Definition MarkDirty (b : Buffer) : Buffer :=
  MarkDirtyLines b (CursorY b) (CursorY b).

Definition RefreshIfDirty (b : Buffer) : option Buffer :=
  if Dirty b && (0 <=? DirtyLineStart b)
  then let? b' := UpdateTokenCacheRange b (DirtyLineStart b) (DirtyLineEnd b) in
       Some (withDirty b' false (-1) (-1))
  else Some b.

(** ** Loading and saving *)

(** What [os.ReadFile] answered. *)
Inductive ReadResult :=
| ReadOk (data : str)
| ReadNotExist
| ReadError.

Section Lexers.

(** [lexers.Match], [lexers.Fallback] and [chroma.Coalesce] belong to the
    lexer library. *)
Variable lexersMatch : str -> option chroma.Lexer.
Variable lexersFallback : chroma.Lexer.
Variable Coalesce : chroma.Lexer -> chroma.Lexer.

Definition SetupHighlighting (b : Buffer) : option Buffer :=
  match Filename b with
  | [] => Some (withLexer b (Some lexersFallback))
  | _ :: _ =>
    let lexer := match lexersMatch (Filename b) with
                 | Some l => l
                 | None => lexersFallback
                 end in
    UpdateTokenCache (withLexer b (Some (Coalesce lexer)))
  end.

(** The boolean is [err != nil]. *)
Definition LoadFile (b : Buffer) (filename : str) (r : ReadResult)
    : option (Buffer * bool) :=
  match r with
  | ReadNotExist =>
    let? b' := SetupHighlighting (withLines (withFilename b filename) [[]]) in
    Some (b', false)
  | ReadError => Some (b, true)
  | ReadOk data =>
    let content := strings.ReplaceCRLF data in
    let lines := strings.SplitNL content in
    let lines := if len lines =? 0 then [[]] else lines in
    let? b' := SetupHighlighting (withLines (withFilename b filename) lines) in
    Some (b', false)
  end.

End Lexers.

(** What [SaveFile] does: fail with "no filename", or hand the content to
    [os.WriteFile]. *)
Inductive SaveResult :=
| SaveNoFilename
| SaveWrite (filename content : str).

Definition SaveFile (b : Buffer) : SaveResult :=
  match Filename b with
  | [] => SaveNoFilename
  | _ :: _ => SaveWrite (Filename b) (strings.Join (Lines b) [NL])
  end.

(** ** Selection: extraction and deletion *)

(** The swap that puts the textually earlier endpoint first. *)
Definition normalize (s : Selection.t) : Z * Z * Z * Z :=
  let startLine := Selection.StartLine s in
  let startCol := Selection.StartCol s in
  let endLine := Selection.EndLine s in
  let endCol := Selection.EndCol s in
  if (endLine <? startLine) || ((startLine =? endLine) && (endCol <? startCol))
  then (endLine, endCol, startLine, startCol)
  else (startLine, startCol, endLine, endCol).

(** The loop [for i := startLine; i <= endLine; i++] of [GetSelectedText];
    [n] is the number of iterations left. *)
Fixpoint selectedLoop (n : nat) (lines : list str)
    (startLine startCol endLine endCol i : Z) (result : str) : option str :=
  match n with
  | O => Some result
  | S n' =>
    let? line := index lines i in
    let? result' :=
      if i =? startLine then
        let? part := if startCol <? len line then sliceFrom line startCol
                     else Some [] in
        Some (result ++ part ++ [NL])
      else if i =? endLine then
        let endCol := if len line <? endCol then len line else endCol in
        let? part := sliceTo line endCol in
        Some (result ++ part)
      else Some (result ++ line ++ [NL]) in
    selectedLoop n' lines startLine startCol endLine endCol (i + 1) result'
  end.

Definition GetSelectedText (b : Buffer) : option str :=
  if negb (Selection.Active (Selection b)) then Some []
  else
    let '(startLine, startCol, endLine, endCol) := normalize (Selection b) in
    if startLine =? endLine then
      let? line := index (Lines b) startLine in
      let startCol := if len line <? startCol then len line else startCol in
      let endCol := if len line <? endCol then len line else endCol in
      slice line startCol endCol
    else
      selectedLoop (Z.to_nat (endLine - startLine + 1)) (Lines b)
        startLine startCol endLine endCol startLine [].

Definition DeleteSelection (b : Buffer) : option Buffer :=
  if negb (Selection.Active (Selection b)) then Some b
  else
    let '(startLine, startCol, endLine, endCol) := normalize (Selection b) in
    let? first := index (Lines b) startLine in
    let startCol := if len first <? startCol then len first else startCol in
    let? last := index (Lines b) endLine in
    let endCol := if len last <? endCol then len last else endCol in
    let? beforeStart := sliceTo first startCol in
    let? afterEnd := sliceFrom last endCol in
    let? head := sliceTo (Lines b) startLine in
    let? tail := sliceFrom (Lines b) (endLine + 1) in
    let newLines := head ++ [beforeStart ++ afterEnd] ++ tail in
    let b := withLines b newLines in
    let b := withCursorX b startCol in
    let b := withCursorY b startLine in
    let b := withActive b false in
    Some (MarkDirtyLines b startLine (len (Lines b) - 1)).

(** ** Text insertion *)

Definition InsertText (b : Buffer) (text : str) : option Buffer :=
  let lines := strings.SplitNL text in
  let startLine := CursorY b in
  if len lines =? 1 then
    let? line := index (Lines b) (CursorY b) in
    let? before := sliceTo line (CursorX b) in
    let? after := sliceFrom line (CursorX b) in
    let? ls := store (Lines b) (CursorY b) (before ++ text ++ after) in
    let b := withLines b ls in
    let b := withCursorX b (CursorX b + len text) in
    Some (MarkDirty b)
  else
    let? currentLine := index (Lines b) (CursorY b) in
    let? beforeCursor := sliceTo currentLine (CursorX b) in
    let? afterCursor := sliceFrom currentLine (CursorX b) in
    let? lines0 := index lines 0 in
    let? ls := store (Lines b) (CursorY b) (beforeCursor ++ lines0) in
    let? head := sliceTo ls (CursorY b + 1) in
    (* for i := 1; i < len(lines)-1; i++ *)
    let middle := take (Z.to_nat (len lines - 2)) (drop 1 lines) in
    let? lastLine := index lines (len lines - 1) in
    let lastNewLine := lastLine ++ afterCursor in
    let? tail := sliceFrom ls (CursorY b + 1) in
    let newLines := head ++ middle ++ [lastNewLine] ++ tail in
    let b := withLines b newLines in
    let b := withCursorY b (CursorY b + (len lines - 1)) in
    let b := withCursorX b (len lastLine) in
    Some (MarkDirtyLines b startLine (len (Lines b) - 1)).

(** ** Word motion *)

Section WordMotion.

(** [unicode.IsLetter] and [unicode.IsDigit]: tables of the Unicode
    library. *)
Variable IsLetter IsDigit : rune -> bool.

Definition isWordChar (ch : rune) : bool :=
  IsLetter ch || IsDigit ch || (ch =? 95).

(** [for x < len(runes) && p(runes[x]) { x++ }], read over the runes that
    remain at and after [x]: the loop goes on while there is a next rune
    and it satisfies [p]. *)
Fixpoint skipRight (p : rune -> bool) (rest : list rune) (x : Z) : Z :=
  match rest with
  | [] => x
  | ch :: rest' => if p ch then skipRight p rest' (x + 1) else x
  end.

(** [for x > 0 && p(runes[x-1]) { x-- }], read over the runes before [x],
    nearest first. *)
Fixpoint skipLeft (p : rune -> bool) (before : list rune) (x : Z) : Z :=
  match before with
  | [] => x
  | ch :: before' => if p ch then skipLeft p before' (x - 1) else x
  end.

Definition MoveWordLeft (b : Buffer) : option Buffer :=
  let? line := index (Lines b) (CursorY b) in
  let rs := runes line in
  if CursorX b =? 0 then
    if 0 <? CursorY b then
      let? prev := index (Lines b) (CursorY b - 1) in
      Some (withCursorX (withCursorY b (CursorY b - 1)) (len (runes prev)))
    else Some b
  else
    let x := if len rs <? CursorX b then len rs else CursorX b in
    let before := rev (take (Z.to_nat x) rs) in
    let x := skipLeft (fun ch => negb (isWordChar ch)) before x in
    let before := rev (take (Z.to_nat x) rs) in
    let x := skipLeft isWordChar before x in
    Some (withCursorX b x).

Definition MoveWordRight (b : Buffer) : option Buffer :=
  let? line := index (Lines b) (CursorY b) in
  let rs := runes line in
  if len rs <=? CursorX b then
    if CursorY b <? len (Lines b) - 1
    then Some (withCursorX (withCursorY b (CursorY b + 1)) 0)
    else Some b
  else if CursorX b <? 0 then None (* runes[CursorX] out of range *)
  else
    (* Skip word chars going right *)
    let x := skipRight isWordChar (drop (Z.to_nat (CursorX b)) rs) (CursorX b) in
    (* Skip whitespace/non-word chars going right *)
    let x := skipRight (fun ch => negb (isWordChar ch))
               (drop (Z.to_nat x) rs) x in
    Some (withCursorX b x).

End WordMotion.

(** ** Visual columns and scrolling *)

Definition tabWidth : Z := 4.

(** One iteration of the loop of [charToVisualCol]. *)
Definition advance (visualCol : Z) (r : rune) : Z :=
  if r =? TAB then visualCol + (tabWidth - visualCol mod tabWidth)
  else visualCol + 1.

(** The loop [for i := 0; i < charCol && i < len(runes); i++] visits the
    first [charCol] runes, or all of them when there are fewer. *)
Definition charToVisualCol (b : Buffer) (line charCol : Z) : option Z :=
  if len (Lines b) <=? line then Some charCol
  else
    let? l := index (Lines b) line in
    Some (fold_left advance (take (Z.to_nat charCol) (runes l)) 0).

Definition ScrollToCursor (pane : Pane) (b : Buffer) : option Buffer :=
  let b :=
    if CursorY b <? OffsetY b then withOffsetY b (CursorY b)
    else if OffsetY b + Height pane <=? CursorY b
    then withOffsetY b (CursorY b - Height pane + 1)
    else b in
  let textAreaWidth := Width pane - GutterWidth pane in
  let textAreaWidth := if textAreaWidth <? 1 then 1 else textAreaWidth in
  let? visualX := charToVisualCol b (CursorY b) (CursorX b) in
  if visualX <? OffsetX b then Some (withOffsetX b visualX)
  else if OffsetX b + textAreaWidth <=? visualX
  then Some (withOffsetX b (visualX - textAreaWidth + 1))
  else Some b.

(** ** The editor: search and key handling

    The editor is modelled through its active pane: the pane's geometry,
    the buffer bound to it, the search state and the clipboard it talks
    to.  Status messages are not modelled. *)

Record Editor := mkEditor
  { CurrentBuffer : Buffer;
    CurrentPane : Pane;
    SearchQuery : str;
    SearchMatches : list SearchMatch.t;
    SearchIndex : Z;
    Clipboard : str }.

Definition withBuffer (e : Editor) (b : Buffer) : Editor :=
  mkEditor b (CurrentPane e) (SearchQuery e) (SearchMatches e)
    (SearchIndex e) (Clipboard e).
Definition withSearch (e : Editor) (q : str) (ms : list SearchMatch.t)
    (i : Z) : Editor :=
  mkEditor (CurrentBuffer e) (CurrentPane e) q ms i (Clipboard e).
Definition withClipboard (e : Editor) (c : str) : Editor :=
  mkEditor (CurrentBuffer e) (CurrentPane e) (SearchQuery e)
    (SearchMatches e) (SearchIndex e) c.

(** The inner [for] of [ExecuteSearch] on one line: look for the query in
    [line[start:]], record the match, resume one byte after its start.
    [None] is a panic or an exhausted [fuel]. *)
Fixpoint searchLine (fuel : nat) (query line : str) (lineIdx start : Z)
    (found : list SearchMatch.t) : option (list SearchMatch.t) :=
  match fuel with
  | O => None
  | S fuel' =>
    let? rest := sliceFrom line start in
    let idx := strings.Index rest query in
    if idx =? -1 then Some found
    else searchLine fuel' query line lineIdx (start + idx + 1)
           (found ++ [SearchMatch.mk lineIdx (start + idx) (len query)])
  end.

(** The outer [for lineIdx, line := range buf.Lines]. *)
Fixpoint searchLines (query : str) (lines : list str) (lineIdx : Z)
    (found : list SearchMatch.t) : option (list SearchMatch.t) :=
  match lines with
  | [] => Some found
  | line :: rest =>
    let? found' := searchLine (S (length line)) query line lineIdx 0 found in
    searchLines query rest (lineIdx + 1) found'
  end.

Definition JumpToSearchMatch (e : Editor) : option Editor :=
  if len (SearchMatches e) =? 0 then Some e
  else
    let? m := index (SearchMatches e) (SearchIndex e) in
    let b := CurrentBuffer e in
    let b := withCursorY b (SearchMatch.Line m) in
    let b := withCursorX b (SearchMatch.Col m) in
    let? b := ScrollToCursor (CurrentPane e) b in
    Some (withBuffer e b).

Definition ExecuteSearch (e : Editor) : option Editor :=
  match SearchQuery e with
  | [] => Some e
  | _ :: _ =>
    let? found := searchLines (SearchQuery e) (Lines (CurrentBuffer e)) 0 [] in
    if 0 <? len found
    then JumpToSearchMatch (withSearch e (SearchQuery e) found 0)
    else Some (withSearch e (SearchQuery e) found (SearchIndex e))
  end.

(** The keys of normal mode that edit the buffer or use the clipboard. *)
Inductive Key :=
| KeyRune (r : rune)
| KeyEnter
| KeyBackspace
| KeyDelete
| KeyTab
| KeyCtrlC
| KeyCtrlV
| KeyCtrlX.

(** [if buf.Selection.Active { buf.DeleteSelection() }]. *)
Definition deleteIfActive (b : Buffer) : option Buffer :=
  if Selection.Active (Selection b) then DeleteSelection b else Some b.

(** [if buf.CursorX > len(runes) { buf.CursorX = len(runes) }]. *)
Definition clampCursorX (b : Buffer) (rs : list rune) : Buffer :=
  if len rs <? CursorX b then withCursorX b (len rs) else b.

(** The buffer edit of [case tcell.KeyRune] (after the search keys). *)
Definition insertRune (b : Buffer) (r : rune) : option Buffer :=
  let? b := deleteIfActive b in
  let? line := index (Lines b) (CursorY b) in
  let rs := runes line in
  let b := clampCursorX b rs in
  let? before := sliceTo rs (CursorX b) in
  let? after := sliceFrom rs (CursorX b) in
  let? ls := store (Lines b) (CursorY b)
               (ofRunes before ++ utf8.EncodeRune r ++ ofRunes after) in
  let b := withLines b ls in
  let b := withCursorX b (CursorX b + 1) in
  Some (MarkDirty b).

(** The buffer edit of [case tcell.KeyEnter]. *)
Definition insertNewline (b : Buffer) : option Buffer :=
  let? b := deleteIfActive b in
  let? line := index (Lines b) (CursorY b) in
  let rs := runes line in
  let b := clampCursorX b rs in
  let? before := sliceTo rs (CursorX b) in
  let? ls := store (Lines b) (CursorY b) (ofRunes before) in
  let b := withLines b ls in
  let? after := sliceFrom rs (CursorX b) in
  let newLine := ofRunes after in
  let? head := sliceTo (Lines b) (CursorY b + 1) in
  let? tail := sliceFrom (Lines b) (CursorY b + 1) in
  let b := withLines b (head ++ [newLine] ++ tail) in
  let b := MarkDirtyLines b (CursorY b) (len (Lines b) - 1) in
  let b := withCursorY b (CursorY b + 1) in
  Some (withCursorX b 0).

(** The buffer edit of [case tcell.KeyBackspace, tcell.KeyBackspace2]. *)
Definition deleteBackward (b : Buffer) : option Buffer :=
  if Selection.Active (Selection b) then DeleteSelection b
  else if 0 <? CursorX b then
    let? line := index (Lines b) (CursorY b) in
    let rs := runes line in
    let b := clampCursorX b rs in
    if 0 <? CursorX b then
      let? before := sliceTo rs (CursorX b - 1) in
      let? after := sliceFrom rs (CursorX b) in
      let? ls := store (Lines b) (CursorY b) (ofRunes before ++ ofRunes after) in
      let b := withLines b ls in
      let b := withCursorX b (CursorX b - 1) in
      Some (MarkDirty b)
    else Some b
  else if 0 <? CursorY b then
    let? prev := index (Lines b) (CursorY b - 1) in
    let b := withCursorX b (len (runes prev)) in
    let? cur := index (Lines b) (CursorY b) in
    let? ls := store (Lines b) (CursorY b - 1) (prev ++ cur) in
    let b := withLines b ls in
    let? head := sliceTo (Lines b) (CursorY b) in
    let? tail := sliceFrom (Lines b) (CursorY b + 1) in
    let b := withLines b (head ++ tail) in
    let b := withCursorY b (CursorY b - 1) in
    Some (MarkDirtyLines b (CursorY b) (len (Lines b) - 1))
  else Some b.

(** The buffer edit of [case tcell.KeyDelete]. *)
Definition deleteForward (b : Buffer) : option Buffer :=
  if Selection.Active (Selection b) then DeleteSelection b
  else
    let? line := index (Lines b) (CursorY b) in
    let rs := runes line in
    if CursorX b <? len rs then
      let? before := sliceTo rs (CursorX b) in
      let? after := sliceFrom rs (CursorX b + 1) in
      let? ls := store (Lines b) (CursorY b) (ofRunes before ++ ofRunes after) in
      Some (MarkDirty (withLines b ls))
    else if CursorY b <? len (Lines b) - 1 then
      let? next := index (Lines b) (CursorY b + 1) in
      let? ls := store (Lines b) (CursorY b) (line ++ next) in
      let b := withLines b ls in
      let? head := sliceTo (Lines b) (CursorY b + 1) in
      let? tail := sliceFrom (Lines b) (CursorY b + 2) in
      let b := withLines b (head ++ tail) in
      Some (MarkDirtyLines b (CursorY b) (len (Lines b) - 1))
    else Some b.

(** [HandleKey] in normal mode, for the keys above. *)
Definition HandleKey (e : Editor) (k : Key) : option Editor :=
  let buf := CurrentBuffer e in
  let pane := CurrentPane e in
  match k with
  | KeyCtrlC =>
    if Selection.Active (Selection buf) then
      let? text := GetSelectedText buf in
      Some (withClipboard e text)
    else Some e
  | KeyCtrlV =>
    match Clipboard e with
    | [] => Some e
    | _ :: _ =>
      let? buf := deleteIfActive buf in
      let? buf := InsertText buf (Clipboard e) in
      Some (withBuffer e buf)
    end
  | KeyCtrlX =>
    if Selection.Active (Selection buf) then
      let? text := GetSelectedText buf in
      let? buf := DeleteSelection buf in
      Some (withBuffer (withClipboard e text) buf)
    else Some e
  | KeyEnter =>
    let? buf := insertNewline buf in
    let? buf := ScrollToCursor pane buf in
    Some (withBuffer e buf)
  | KeyBackspace =>
    let? buf := deleteBackward buf in
    let? buf := ScrollToCursor pane buf in
    Some (withBuffer e buf)
  | KeyDelete =>
    let? buf := deleteForward buf in
    Some (withBuffer e buf)
  | KeyTab =>
    let? buf := deleteIfActive buf in
    let? buf := InsertText buf [x09] in
    Some (withBuffer e buf)
  | KeyRune r =>
    if (r =? 110) && (0 <? len (SearchMatches e)) then
      JumpToSearchMatch
        (withSearch e (SearchQuery e) (SearchMatches e)
           (Z.rem (SearchIndex e + 1) (len (SearchMatches e))))
    else if (r =? 78) && (0 <? len (SearchMatches e)) then
      JumpToSearchMatch
        (withSearch e (SearchQuery e) (SearchMatches e)
           (Z.rem (SearchIndex e - 1 + len (SearchMatches e))
              (len (SearchMatches e))))
    else
      let? buf := insertRune buf r in
      let? buf := ScrollToCursor pane buf in
      Some (withBuffer e buf)
  end.

(** ** Sample values used to run the definitions *)

(** A buffer without lexer holding [lines], cursor at column [x] of line
    [y], with selection [sel]. *)
Definition plainBuffer (lines : list str) (x y : Z) (sel : Selection.t)
    : Buffer :=
  mkBuffer lines [] x y 0 0 sel None None [] false (-1) (-1).

Definition noSelection : Selection.t := Selection.mk 0 0 0 0 false.

Definition plainPane : Pane := mkPane 0 0 80 24 3.

Definition plainEditor (b : Buffer) (clip : str) : Editor :=
  mkEditor b plainPane [] [] 0 clip.

(** "é" in UTF-8. *)
Definition eAcute : str := [xc3; xa9].

(** ** Readings in character positions *)

(** The reading of [insertText] for a one-line text in character
    positions: the text goes after the first [c] runes of the line. *)
Definition spliceAtRune (line : str) (c : Z) (text : str) : str :=
  ofRunes (take (Z.to_nat c) (runes line) ++ runes text
           ++ drop (Z.to_nat c) (runes line)).

(** The rune column of byte offset [off] in [line], when [off] falls on a
    rune boundary. *)
Definition runeColumn (line : str) (off : Z) : Z :=
  len (runes (take (Z.to_nat off) line)).

(** A style that sets nothing. *)
Definition noStyle : chroma.Style :=
  fun _ => chroma.mkEntry None chroma.Pass chroma.Pass.


(** ** Readings of search *)

(** Every byte offset of [s] at which [query] occurs, overlapping
    occurrences included, in increasing order; [c] is the offset of the
    head of [s] in its line. *)
Fixpoint occurrencesFrom (query s : str) (c : Z) : list Z :=
  (if strings.HasPrefix s query then [c] else [])
  ++ match s with
     | [] => []
     | _ :: s' => occurrencesFrom query s' (c + 1)
     end.

Definition matchesOfLine (query : str) (lineIdx : Z) (line : str)
    : list SearchMatch.t :=
  map (fun c => SearchMatch.mk lineIdx c (len query))
      (occurrencesFrom query line 0).

(** The matches of all lines, in document order. *)
Fixpoint allMatches (query : str) (lines : list str) (lineIdx : Z)
    : list SearchMatch.t :=
  match lines with
  | [] => []
  | line :: rest =>
    matchesOfLine query lineIdx line ++ allMatches query rest (lineIdx + 1)
  end.


(** ** Readings of word motion *)

(** [unicode.IsLetter] and [unicode.IsDigit] restricted to ASCII, where
    the letters are A-Z and a-z and the digits 0-9; used to run word
    motion on ASCII text. *)
Definition asciiIsLetter (r : rune) : bool :=
  ((65 <=? r) && (r <=? 90)) || ((97 <=? r) && (r <=? 122)).
Definition asciiIsDigit (r : rune) : bool := (48 <=? r) && (r <=? 57).

(** Word motion to the right in the order "non-word run first, then the
    word run", for a cursor inside the line. *)
Definition MoveWordRight_nonword_first (IsLetter IsDigit : rune -> bool)
    (b : Buffer) : option Buffer :=
  let? line := index (Lines b) (CursorY b) in
  let rs := runes line in
  if len rs <=? CursorX b then
    if CursorY b <? len (Lines b) - 1
    then Some (withCursorX (withCursorY b (CursorY b + 1)) 0)
    else Some b
  else if CursorX b <? 0 then None
  else
    let x := skipRight (fun ch => negb (isWordChar IsLetter IsDigit ch))
               (drop (Z.to_nat (CursorX b)) rs) (CursorX b) in
    let x := skipRight (isWordChar IsLetter IsDigit)
               (drop (Z.to_nat x) rs) x in
    Some (withCursorX b x).

(** [x'] is where the maximal run of runes satisfying [p] that starts at
    [x] ends: all runes in [x, x') satisfy [p], and the rune at [x'], if
    there is one, does not. *)
Definition endsRun (p : rune -> bool) (rs : list rune) (x x' : Z) : Prop :=
  x <= x' <= len rs
  /\ (forall (i : Z) (ch : rune),
        x <= i < x' -> index rs i = Some ch -> p ch = true)
  /\ (forall ch : rune, index rs x' = Some ch -> p ch = false).


(** A lexer that returns the whole text as one token. *)
Definition wholeLexer : chroma.Lexer :=
  chroma.mkLexer (fun s => Some [chroma.mkToken 0 s]).

(** A document of 1000 one-character lines, every line cached as one
    bold span, with line 10 marked dirty. *)
Definition thousandLines : Buffer :=
  mkBuffer (replicate 1000 (lit "x")) (lit "f.go") 0 10 0 0 noSelection
    (Some wholeLexer) (Some noStyle)
    (replicate 1000 [TokenInfo.mk 0 1 (tcell.mkStyle tcell.ColorDefault true false)])
    true 10 10.

(** ** Readings of the persisted format *)

(** Whether some carriage return of [s] is not directly followed by a line
    feed. *)
Fixpoint loneCR (s : str) : bool :=
  match s with
  | [] => false
  | c :: s' =>
    (Byte.eqb c CR
     && negb (match s' with c' :: _ => Byte.eqb c' NL | [] => false end))
    || loneCR s'
  end.


(** ** States on which the handlers do not panic *)

(** The cursor is on a line of the store, at a byte offset inside it. *)
Definition cursorInBounds (b : Buffer) : Prop :=
  exists line,
    index (Lines b) (CursorY b) = Some line /\ 0 <= CursorX b <= len line.

(** An active selection has its endpoints on lines of the store, at
    non-negative columns. *)
Definition selectionInBounds (b : Buffer) : Prop :=
  Selection.Active (Selection b) = true ->
  0 <= Selection.StartLine (Selection b) < len (Lines b)
  /\ 0 <= Selection.EndLine (Selection b) < len (Lines b)
  /\ 0 <= Selection.StartCol (Selection b)
  /\ 0 <= Selection.EndCol (Selection b).

Definition searchInBounds (e : Editor) : Prop :=
  0 <= SearchIndex e
  /\ forall m, In m (SearchMatches e) -> 0 <= SearchMatch.Line m.

Definition wellFormed (e : Editor) : Prop :=
  cursorInBounds (CurrentBuffer e)
  /\ selectionInBounds (CurrentBuffer e)
  /\ searchInBounds e.


(** ** The lexer contract used by the highlight cache *)

(** Number of line breaks in a text. *)
Fixpoint countNL (s : str) : nat :=
  match s with
  | [] => 0%nat
  | c :: s' => ((if Byte.eqb c NL then 1 else 0) + countNL s')%nat
  end.

(** The token stream of a text has no more line breaks than the text: the
    lexer may regroup the text into tokens but does not invent lines. *)
Definition lexerKeepsLines (lexer : chroma.Lexer) : Prop :=
  forall (content : str) (tokens : list chroma.Token),
    chroma.Tokenise lexer content = Some tokens ->
    (countNL (concat (map chroma.Value tokens)) <= countNL content)%nat.


(** ** Cell tests used by the renderer *)

Definition isSelected (b : Buffer) (line col : Z) : bool :=
  if negb (Selection.Active (Selection b)) then false
  else
    let '(startLine, startCol, endLine, endCol) := normalize (Selection b) in
    if (line <? startLine) || (endLine <? line) then false
    else if (line =? startLine) && (line =? endLine)
    then (startCol <=? col) && (col <? endCol)
    else if line =? startLine then startCol <=? col
    else if line =? endLine then col <? endCol
    else true.

(** The loop returns at the first match that covers the cell. *)
Definition isSearchMatch (e : Editor) (line col : Z) : bool :=
  existsb (fun m => (SearchMatch.Line m =? line)
                    && (SearchMatch.Col m <=? col)
                    && (col <? SearchMatch.Col m + SearchMatch.Len m))
          (SearchMatches e).

Definition withSelection (b : Buffer) (s : Selection.t) : Buffer :=
  mkBuffer (Lines b) (Filename b) (CursorX b) (CursorY b) (OffsetX b)
    (OffsetY b) s (Lexer b) (Style b) (TokenCache b) (Dirty b)
    (DirtyLineStart b) (DirtyLineEnd b).

(** ** Cursor keys and selection extension *)

(** Modifier masks of the terminal library ([1 << iota]). *)
Definition ModShift : Z := 1.
Definition ModCtrl : Z := 2.
Definition ModAlt : Z := 4.
Definition ModMeta : Z := 8.

Inductive ArrowKey := KeyUp | KeyDown | KeyLeft | KeyRight.

(** [if selecting && !buf.Selection.Active { ... }]: the selection starts
    at the cursor. *)
Definition beginSelection (selecting : bool) (b : Buffer) : Buffer :=
  if selecting && negb (Selection.Active (Selection b))
  then withSelection b
         (Selection.mk (CursorY b) (CursorX b)
            (Selection.EndLine (Selection b)) (Selection.EndCol (Selection b))
            true)
  else b.

(** [if selecting { End = cursor } else { Active = false }]. *)
Definition endSelection (selecting : bool) (b : Buffer) : Buffer :=
  if selecting
  then withSelection b
         (Selection.mk (Selection.StartLine (Selection b))
            (Selection.StartCol (Selection b)) (CursorY b) (CursorX b)
            (Selection.Active (Selection b)))
  else withActive b false.

(** [lineLen := len([]rune(buf.Lines[buf.CursorY]));
     if buf.CursorX > lineLen { buf.CursorX = lineLen }]. *)
Definition clampToLine (b : Buffer) : option Buffer :=
  let? line := index (Lines b) (CursorY b) in
  Some (clampCursorX b (runes line)).

Section CursorKeys.

Variable IsLetter IsDigit : rune -> bool.

(** The cases [KeyUp], [KeyDown], [KeyLeft], [KeyRight] of [HandleKey];
    [mods] is [ev.Modifiers()]. *)
Definition HandleArrow (e : Editor) (k : ArrowKey) (mods : Z)
    : option Editor :=
  let buf := CurrentBuffer e in
  let pane := CurrentPane e in
  let selecting := negb (Z.land mods ModCtrl =? 0) in
  match k with
  | KeyUp =>
    let buf := beginSelection selecting buf in
    let? buf := if 0 <? CursorY buf
                then clampToLine (withCursorY buf (CursorY buf - 1))
                else Some buf in
    let buf := endSelection selecting buf in
    let? buf := ScrollToCursor pane buf in
    Some (withBuffer e buf)
  | KeyDown =>
    let buf := beginSelection selecting buf in
    let? buf := if CursorY buf <? len (Lines buf) - 1
                then clampToLine (withCursorY buf (CursorY buf + 1))
                else Some buf in
    let buf := endSelection selecting buf in
    let? buf := ScrollToCursor pane buf in
    Some (withBuffer e buf)
  | KeyLeft =>
    let wordJumpSelect :=
      Z.land mods (Z.lor ModCtrl ModAlt) =? Z.lor ModCtrl ModAlt in
    let wordJumpNoSelect := mods =? ModAlt in
    let buf := beginSelection (selecting || wordJumpSelect) buf in
    let? buf :=
      if wordJumpSelect || wordJumpNoSelect then MoveWordLeft IsLetter IsDigit buf
      else if 0 <? CursorX buf then Some (withCursorX buf (CursorX buf - 1))
      else if 0 <? CursorY buf then
        let? prev := index (Lines buf) (CursorY buf - 1) in
        Some (withCursorX (withCursorY buf (CursorY buf - 1))
                (len (runes prev)))
      else Some buf in
    let buf := endSelection (selecting || wordJumpSelect) buf in
    let? buf := ScrollToCursor pane buf in
    Some (withBuffer e buf)
  | KeyRight =>
    let wordJumpSelect :=
      Z.land mods (Z.lor ModCtrl ModAlt) =? Z.lor ModCtrl ModAlt in
    let wordJumpNoSelect := mods =? ModAlt in
    let buf := beginSelection (selecting || wordJumpSelect) buf in
    let? line := index (Lines buf) (CursorY buf) in
    let lineLen := len (runes line) in
    let? buf :=
      if wordJumpSelect || wordJumpNoSelect then MoveWordRight IsLetter IsDigit buf
      else if CursorX buf <? lineLen then Some (withCursorX buf (CursorX buf + 1))
      else if CursorY buf <? len (Lines buf) - 1
      then Some (withCursorX (withCursorY buf (CursorY buf + 1)) 0)
      else Some buf in
    let buf := endSelection (selecting || wordJumpSelect) buf in
    let? buf := ScrollToCursor pane buf in
    Some (withBuffer e buf)
  end.

End CursorKeys.

(** The range of a Go [int] on a 64-bit platform, and the value an
    arithmetic result takes in it. *)
Definition minInt : Z := - 2 ^ 63.
Definition maxInt : Z := 2 ^ 63 - 1.
Definition wrapInt (z : Z) : Z := (z + 2 ^ 63) mod 2 ^ 64 - 2 ^ 63.

(** The body of [case "goto", "g"] of [ExecuteCommand] once
    [strconv.Atoi] has returned [lineNum], any [int].  [lineNum--] wraps
    around at [minInt]. *)
Definition gotoLine (e : Editor) (lineNum : Z) : option Editor :=
  let buf := CurrentBuffer e in
  let lineNum := wrapInt (lineNum - 1) in
  let lineNum := if lineNum <? 0 then 0
                 else if len (Lines buf) <=? lineNum then len (Lines buf) - 1
                 else lineNum in
  let buf := withCursorY buf lineNum in
  let buf := withCursorX buf 0 in
  let? buf := ScrollToCursor (CurrentPane e) buf in
  Some (withBuffer e buf).

(** ** Panes and layout *)

Inductive SplitType := SplitNone | SplitHorizontal | SplitVertical.

(** A pane of the source: its rectangle and the buffer it points to. *)
Record BoundPane := mkBoundPane { Geometry : Pane; PaneBuffer : Buffer }.

Record Layout := mkLayout
  { Panes : list BoundPane; ActivePane : Z; Split : SplitType }.

Definition place (p : BoundPane) (x y w h : Z) : BoundPane :=
  mkBoundPane (mkPane x y w h (GutterWidth (Geometry p))) (PaneBuffer p).

(** [w, h] is [Screen.Size()]; Go's [/] truncates. *)
Definition UpdatePaneSizes (w h : Z) (l : Layout) : Layout :=
  let editHeight := h - 2 in
  match Panes l with
  | [p0] => mkLayout [place p0 0 0 w editHeight] (ActivePane l) (Split l)
  | [p0; p1] =>
    match Split l with
    | SplitHorizontal =>
      let halfH := Z.quot editHeight 2 in
      mkLayout [place p0 0 0 w halfH;
                place p1 0 halfH w (editHeight - halfH)]
        (ActivePane l) (Split l)
    | _ =>
      let halfW := Z.quot w 2 in
      mkLayout [place p0 0 0 halfW editHeight;
                place p1 halfW 0 (w - halfW) editHeight]
        (ActivePane l) (Split l)
    end
  | _ => l
  end.

(** The commands [hsplit] and [vsplit] without a file argument. *)
Definition splitPane (kind : SplitType) (monokai : chroma.Style) (l : Layout)
    : Layout :=
  if len (Panes l) <? 2
  then mkLayout (Panes l ++ [mkBoundPane (mkPane 0 0 0 0 0) (NewBuffer monokai)])
         (ActivePane l) kind
  else l.

(** The command [close]. *)
Definition closePane (l : Layout) : option Layout :=
  if 1 <? len (Panes l) then
    let? head := sliceTo (Panes l) (ActivePane l) in
    let? tail := sliceFrom (Panes l) (ActivePane l + 1) in
    let panes := head ++ tail in
    let active := if len panes <=? ActivePane l then len panes - 1
                  else ActivePane l in
    Some (mkLayout panes active SplitNone)
  else Some l.

(** [case tcell.KeyCtrlW] of [HandleKey]. *)
Definition nextPane (l : Layout) : Layout :=
  if 1 <? len (Panes l)
  then mkLayout (Panes l) (Z.rem (ActivePane l + 1) (len (Panes l))) (Split l)
  else l.


(** [x'] is where the maximal run of runes satisfying [p] that ends just
    before [x] begins: all runes in [x', x) satisfy [p], and the rune
    before [x'], if there is one, does not. *)
Definition beginsRun (p : rune -> bool) (rs : list rune) (x x' : Z) : Prop :=
  0 <= x' <= x
  /\ (forall (i : Z) (ch : rune),
        x' <= i < x -> index rs i = Some ch -> p ch = true)
  /\ (forall ch : rune, index rs (x' - 1) = Some ch -> p ch = false).


(** One or two panes, and the active index names one of them. *)
Definition layoutOk (l : Layout) : Prop :=
  1 <= len (Panes l) <= 2 /\ 0 <= ActivePane l < len (Panes l).


(** The cursor is on a line of the store, at a rune position inside it. *)
Definition cursorOnRune (b : Buffer) : Prop :=
  exists line,
    index (Lines b) (CursorY b) = Some line
    /\ 0 <= CursorX b <= len (runes line).


(** The three steps that the four cursor-key cases share, named: whether
    the key extends the selection, whether it jumps by words, and the
    cursor motion between the two selection updates. *)
Definition extendsSelection (k : ArrowKey) (mods : Z) : bool :=
  let selecting := negb (Z.land mods ModCtrl =? 0) in
  match k with
  | KeyUp | KeyDown => selecting
  | KeyLeft | KeyRight =>
    selecting || (Z.land mods (Z.lor ModCtrl ModAlt) =? Z.lor ModCtrl ModAlt)
  end.

Definition jumpsByWord (mods : Z) : bool :=
  (Z.land mods (Z.lor ModCtrl ModAlt) =? Z.lor ModCtrl ModAlt)
  || (mods =? ModAlt).

Definition arrowMove (IsLetter IsDigit : rune -> bool) (k : ArrowKey)
    (mods : Z) (buf : Buffer) : option Buffer :=
  match k with
  | KeyUp =>
    if 0 <? CursorY buf
    then clampToLine (withCursorY buf (CursorY buf - 1))
    else Some buf
  | KeyDown =>
    if CursorY buf <? len (Lines buf) - 1
    then clampToLine (withCursorY buf (CursorY buf + 1))
    else Some buf
  | KeyLeft =>
    if jumpsByWord mods then MoveWordLeft IsLetter IsDigit buf
    else if 0 <? CursorX buf then Some (withCursorX buf (CursorX buf - 1))
    else if 0 <? CursorY buf then
      let? prev := index (Lines buf) (CursorY buf - 1) in
      Some (withCursorX (withCursorY buf (CursorY buf - 1))
              (len (runes prev)))
    else Some buf
  | KeyRight =>
    let? line := index (Lines buf) (CursorY buf) in
    let lineLen := len (runes line) in
    if jumpsByWord mods then MoveWordRight IsLetter IsDigit buf
    else if CursorX buf <? lineLen then Some (withCursorX buf (CursorX buf + 1))
    else if CursorY buf <? len (Lines buf) - 1
    then Some (withCursorX (withCursorY buf (CursorY buf + 1)) 0)
    else Some buf
  end.


(** ** The dirty range as a record of what changed *)

(** Every line of [b'] that is not the same line of [b] lies in the dirty
    range of [b']. *)
Definition marksChanges (b b' : Buffer) : Prop :=
  forall (i : Z) (l' : str),
    index (Lines b') i = Some l' ->
    index (Lines b) i <> Some l' ->
    Dirty b' = true
    /\ 0 <= DirtyLineStart b' <= i /\ i <= DirtyLineEnd b'.

(** A pending dirty range of [b] is still pending, and not smaller, in
    [b']. *)
Definition keepsDirty (b b' : Buffer) : Prop :=
  Dirty b = true -> 0 <= DirtyLineStart b ->
  Dirty b' = true
  /\ 0 <= DirtyLineStart b' <= DirtyLineStart b
  /\ DirtyLineEnd b <= DirtyLineEnd b'.


(** ** Reading of a search match *)

(** The query stands in the line at byte offset [c]. *)
Definition occursAt (query line : str) (c : Z) : Prop :=
  exists pre post, line = pre ++ query ++ post /\ len pre = c.


(** ** Readings of the highlight cache *)

(** The token stream spells the text it was made from. *)
Definition lexerSpellsContent (lexer : chroma.Lexer) : Prop :=
  forall (content : str) (tokens : list chroma.Token),
    chroma.Tokenise lexer content = Some tokens ->
    concat (map chroma.Value tokens) = content.

(** The spans cover the columns from [c] up to [limit]: each starts where
    the one before it ends, and none is empty. *)
Fixpoint tiles (c : Z) (spans : list TokenInfo.t) (limit : Z) : Prop :=
  match spans with
  | [] => c = limit
  | t :: rest =>
    TokenInfo.Col t = c /\ 0 < TokenInfo.Len t
    /\ tiles (c + TokenInfo.Len t) rest limit
  end.

(** The lines [ls], each one after a line break. *)
Definition tailText (ls : list str) : str :=
  concat (map (fun l => NL :: l) ls).

(** Where the token loop of [UpdateTokenCacheRange] stands after it has
    read the window [W] (whose first line is line [lo]) up to column [col]
    of the window's line [k], with the text [R] still to come: the rows of
    the lines already read are tiled, the row of line [k] is tiled up to
    [col], and the rows of the lines to come are empty. *)
Definition walkInv (W : list str) (lo k : nat) (col : Z)
    (cache : Cache) (R : str) : Prop :=
  exists wk,
    W !! k = Some wk
    /\ 0 <= col <= len wk
    /\ R = drop (Z.to_nat col) wk ++ tailText (drop (S k) W)
    /\ (forall j wj,
          (j < k)%nat -> W !! j = Some wj ->
          exists spans,
            cache !! (lo + j)%nat = Some spans /\ tiles 0 spans (len wj))
    /\ (exists spans,
          cache !! (lo + k)%nat = Some spans /\ tiles 0 spans col)
    /\ (forall j, (k < j < length W)%nat -> cache !! (lo + j)%nat = Some []).


(** ** Readings of the UTF-8 conversions *)

(** What [string(r)] keeps of a rune: a surrogate or a value outside the
    Unicode range becomes U+FFFD. *)
Definition validRune (r : rune) : rune :=
  if (r <? 0) || (utf8.MaxRune <? r) || ((55296 <=? r) && (r <=? 57343))
  then utf8.RuneError else r.

(** Decoding the encoding of [r] gives [r] back (U+FFFD for a value that
    is not a rune) and reads exactly the bytes written; a one-byte
    encoding is an ASCII byte. *)
Definition roundTrips (r : rune) : bool :=
  let s := utf8.EncodeRune r in
  let '(r', w) := utf8.DecodeRune s in
  (r' =? validRune r) && Nat.eqb w (length s)
  && (if Nat.eqb w 1 then byteZ (hd x00 s) <? 128 else true).

(** [P] holds of the [fuel] integers from [z] on. *)
Fixpoint checkFrom (P : Z -> bool) (fuel : nat) (z : Z) : bool :=
  match fuel with
  | O => true
  | S f => P z && checkFrom P f (z + 1)
  end.

(** The line is the encoding of its runes: it is valid UTF-8. *)
Definition validUTF8 (line : str) : Prop := ofRunes (runes line) = line.


(** The checks below are run on the few hundred values each of them
    ranges over.  [lead3 p] and [lead4 q] are about the leading two bytes
    of a three-byte and of a four-byte encoding, as functions of the rune
    without its low 6 and its low 12 bits: they are accepted by
    [DecodeRune] and decode to those high bits; [trail d] is about a
    continuation byte with the 6 bits [d]. *)
Definition lead3 (p : Z) : bool :=
  let b0 := byteZ (zbyte (Z.lor 224 (Z.shiftr p 6))) in
  let b1 := byteZ (zbyte (Z.lor 128 (Z.land p 63))) in
  negb (b0 <? 128)
  && match utf8.first b0 with
     | Some (sz, lo, hi) =>
       (sz =? 3) && negb ((b1 <? lo) || (hi <? b1))
       && (Z.lor (Z.shiftl (Z.land b0 15) 12) (Z.shiftl (Z.land b1 63) 6)
           =? p * 2 ^ 6)
     | None => false
     end.

Definition lead4 (q : Z) : bool :=
  let b0 := byteZ (zbyte (Z.lor 240 (Z.shiftr q 6))) in
  let b1 := byteZ (zbyte (Z.lor 128 (Z.land q 63))) in
  negb (b0 <? 128)
  && match utf8.first b0 with
     | Some (sz, lo, hi) =>
       (sz =? 4) && negb ((b1 <? lo) || (hi <? b1))
       && (Z.lor (Z.shiftl (Z.land b0 7) 18) (Z.shiftl (Z.land b1 63) 12)
           =? q * 2 ^ 12)
     | None => false
     end.

Definition trail (d : Z) : bool :=
  let b := byteZ (zbyte (Z.lor 128 d)) in
  utf8.cont b && (Z.land b 63 =? d).


(** ** A session in normal mode *)

(** A key of normal mode: an editing key, or a cursor key with its
    modifiers. *)
Inductive NormalKey :=
| EditKey (k : Key)
| CursorKey (k : ArrowKey) (mods : Z).

Section Session.

Variable IsLetter IsDigit : rune -> bool.

(** [HandleKey] in normal mode, all cases. *)
Definition pressKey (e : Editor) (k : NormalKey) : option Editor :=
  match k with
  | EditKey k => HandleKey e k
  | CursorKey k mods => HandleArrow IsLetter IsDigit e k mods
  end.

(** One key after the other; a panic ends the session. *)
Fixpoint pressKeys (e : Editor) (ks : list NormalKey) : option Editor :=
  match ks with
  | [] => Some e
  | k :: ks' => let? e' := pressKey e k in pressKeys e' ks'
  end.

End Session.

(** The cursor is on a line of the store at a byte offset inside it, an
    active selection has its endpoints on lines of the store, and no
    search matches are held. *)
Definition steady (e : Editor) : Prop :=
  cursorInBounds (CurrentBuffer e)
  /\ selectionInBounds (CurrentBuffer e)
  /\ SearchMatches e = [].


(** ** The search prompt *)

(** The keys that [HandleSearchKey] tells apart; any other key is ignored. *)
Inductive PromptKey :=
| PromptEscape
| PromptEnter
| PromptBackspace
| PromptRune (r : rune)
| PromptOther.

(** The editor together with [e.SearchMode]. *)
Record SearchPrompt := mkSearchPrompt
  { SearchMode : bool;
    PromptEditor : Editor }.

Definition HandleSearchKey (p : SearchPrompt) (k : PromptKey)
    : option SearchPrompt :=
  let e := PromptEditor p in
  match k with
  | PromptEscape =>
    Some (mkSearchPrompt false (withSearch e [] [] (SearchIndex e)))
  | PromptEnter =>
    let? e' := ExecuteSearch e in
    Some (mkSearchPrompt false e')
  | PromptBackspace =>
    if 0 <? len (SearchQuery e) then
      let? q := sliceTo (SearchQuery e) (len (SearchQuery e) - 1) in
      Some (mkSearchPrompt (SearchMode p)
              (withSearch e q (SearchMatches e) (SearchIndex e)))
    else Some (mkSearchPrompt false e)
  | PromptRune r =>
    Some (mkSearchPrompt (SearchMode p)
            (withSearch e (SearchQuery e ++ utf8.EncodeRune r)
               (SearchMatches e) (SearchIndex e)))
  | PromptOther => Some p
  end.

(** ** A lexer that normalises line ends *)

(** Carriage returns read as line breaks: CR LF becomes LF and a carriage
    return on its own becomes LF.  This is what chroma's lexers do to
    their input under the default options, the ones [Tokenise(nil, ...)]
    selects. *)
Fixpoint ensureLF (s : str) : str :=
  match s with
  | [] => []
  | c :: s' =>
    if Byte.eqb c CR
    then match s' with
         | c' :: _ => if Byte.eqb c' NL then ensureLF s' else NL :: ensureLF s'
         | [] => [NL]
         end
    else c :: ensureLF s'
  end.

(** A lexer that normalises the line ends and returns the text as one
    token. *)
Definition lineFeedLexer : chroma.Lexer :=
  chroma.mkLexer (fun s => Some [chroma.mkToken 0 (ensureLF s)]).

(** A style with one colour for every token type. *)
Definition oneColour : chroma.Style :=
  fun _ => chroma.mkEntry (Some (248, 248, 242)) chroma.Pass chroma.Pass.

(** The span of a token of [n] bytes at the start of a line. *)
Definition textSpan (n : Z) : TokenInfo.t :=
  TokenInfo.mk 0 n (tokenStyle oneColour 0).

(** A text of 63 lines: "ab" everywhere but on lines 10, 60 ("abc") and
    61. *)
Definition sixtyThreeLines (line10 line61 : str) : list str :=
  replicate 10 (lit "ab") ++ [line10] ++ replicate 49 (lit "ab")
  ++ [lit "abc"; line61; lit "ab"].

(** The buffer of a file whose line 10 holds a carriage return on its own,
    after "a" was inserted in the empty line 61, the screen redrawn, and
    "x" inserted at the start of line 10: the refresh for line 10 is
    pending. *)
Definition carriageReturnDocument : Buffer :=
  mkBuffer
    (sixtyThreeLines (lit "xa" ++ [CR] ++ lit "b") (lit "a"))
    (lit "f.txt") 1 10 0 0 (Selection.mk 0 0 0 0 false)
    (Some lineFeedLexer) (Some oneColour)
    (replicate 10 [textSpan 2] ++ [[textSpan 1]]
     ++ replicate 49 [textSpan 2]
     ++ [[textSpan 3]; [textSpan 1]; [textSpan 2]])
    true 10 10.

(** The content of that file on disk, before the two insertions. *)
Definition carriageReturnFile : str :=
  strings.Join (sixtyThreeLines (lit "a" ++ [CR] ++ lit "b") []) [NL].

(** * Properties *)

(** ** Slices and indices *)

Lemma len_nonneg {A : Type} (l : list A) : 0 <= len l.
Proof. unfold len. lia. Qed.

Lemma len_app {A : Type} (l k : list A) : len (l ++ k) = len l + len k.
Proof. unfold len. rewrite length_app. lia. Qed.

Lemma len_cons {A : Type} (x : A) (l : list A) : len (x :: l) = 1 + len l.
Proof. unfold len. simpl. lia. Qed.

Lemma index_Some {A : Type} (l : list A) (i : Z) (x : A) :
  index l i = Some x -> 0 <= i < len l.
Proof.
  unfold index, len. destruct (Z.leb_spec 0 i) as [Hi|Hi]; [|discriminate].
  intros Hx%lookup_lt_Some. lia.
Qed.

Lemma index_lookup {A : Type} (l : list A) (i : Z) :
  0 <= i -> index l i = l !! Z.to_nat i.
Proof. unfold index. destruct (Z.leb_spec 0 i); [reflexivity|lia]. Qed.

Lemma index_in_range {A : Type} (l : list A) (i : Z) :
  0 <= i < len l -> exists x, index l i = Some x.
Proof.
  intros H. rewrite index_lookup by lia.
  destruct (lookup_lt_is_Some_2 l (Z.to_nat i)) as [x Hx];
    [unfold len in H; lia | eauto].
Qed.

Lemma index_middle {A : Type} (l1 l2 : list A) (x : A) :
  index (l1 ++ x :: l2) (len l1) = Some x.
Proof.
  rewrite index_lookup by apply len_nonneg.
  unfold len. rewrite Nat2Z.id. apply list_lookup_middle. reflexivity.
Qed.

Lemma slice_ok {A : Type} (l : list A) (lo hi : Z) :
  0 <= lo -> lo <= hi -> hi <= len l ->
  slice l lo hi = Some (take (Z.to_nat (hi - lo)) (drop (Z.to_nat lo) l)).
Proof.
  intros H1 H2 H3. unfold slice.
  destruct (Z.leb_spec 0 lo); [|lia].
  destruct (Z.leb_spec lo hi); [|lia].
  destruct (Z.leb_spec hi (len l)); [|lia]. reflexivity.
Qed.

Lemma slice_Some {A : Type} (l r : list A) (lo hi : Z) :
  slice l lo hi = Some r ->
  0 <= lo /\ lo <= hi /\ hi <= len l /\
  r = take (Z.to_nat (hi - lo)) (drop (Z.to_nat lo) l).
Proof.
  unfold slice.
  destruct (Z.leb_spec 0 lo); [|discriminate].
  destruct (Z.leb_spec lo hi); [|discriminate].
  destruct (Z.leb_spec hi (len l)); [|discriminate].
  simpl. intros [= <-]. auto.
Qed.

Lemma sliceTo_ok {A : Type} (l : list A) (hi : Z) :
  0 <= hi <= len l -> sliceTo l hi = Some (take (Z.to_nat hi) l).
Proof.
  intros H. unfold sliceTo. rewrite slice_ok by lia.
  rewrite Z.sub_0_r. reflexivity.
Qed.

Lemma sliceFrom_ok {A : Type} (l : list A) (lo : Z) :
  0 <= lo <= len l -> sliceFrom l lo = Some (drop (Z.to_nat lo) l).
Proof.
  intros H. unfold sliceFrom. rewrite slice_ok by lia.
  f_equal. apply take_ge. rewrite length_drop. unfold len in *. lia.
Qed.

Lemma sliceTo_Some {A : Type} (l r : list A) (hi : Z) :
  sliceTo l hi = Some r -> 0 <= hi <= len l /\ r = take (Z.to_nat hi) l.
Proof.
  intros H. assert (0 <= hi <= len l)
    by (apply slice_Some in H; lia).
  rewrite sliceTo_ok in H by assumption. split; congruence.
Qed.

Lemma sliceFrom_Some {A : Type} (l r : list A) (lo : Z) :
  sliceFrom l lo = Some r -> 0 <= lo <= len l /\ r = drop (Z.to_nat lo) l.
Proof.
  intros H. assert (0 <= lo <= len l)
    by (apply slice_Some in H; lia).
  rewrite sliceFrom_ok in H by assumption. split; congruence.
Qed.

Lemma store_ok {A : Type} (l : list A) (i : Z) (v : A) :
  0 <= i < len l -> store l i v = Some (<[Z.to_nat i := v]> l).
Proof.
  intros H. unfold store.
  destruct (Z.leb_spec 0 i); [|lia].
  destruct (Z.ltb_spec i (len l)); [|lia]. reflexivity.
Qed.

Lemma store_Some {A : Type} (l r : list A) (i : Z) (v : A) :
  store l i v = Some r -> 0 <= i < len l /\ r = <[Z.to_nat i := v]> l.
Proof.
  unfold store.
  destruct (Z.leb_spec 0 i); [|discriminate].
  destruct (Z.ltb_spec i (len l)); [|discriminate].
  simpl. intros [= <-]. auto.
Qed.

Lemma store_len {A : Type} (l r : list A) (i : Z) (v : A) :
  store l i v = Some r -> len r = len l.
Proof.
  intros [_ ->]%store_Some. unfold len. rewrite length_insert. reflexivity.
Qed.

Lemma store_middle {A : Type} (l1 l2 : list A) (x v : A) :
  store (l1 ++ x :: l2) (len l1) v = Some (l1 ++ v :: l2).
Proof.
  rewrite store_ok.
  - unfold len. rewrite Nat2Z.id, insert_app_r_alt by lia.
    rewrite Nat.sub_diag. reflexivity.
  - rewrite len_app, len_cons. pose proof (len_nonneg l1).
    pose proof (len_nonneg l2). lia.
Qed.


(** ** Decoding terminates within its fuel *)

Lemma DecodeRune_width (c : byte) (s : str) :
  (1 <= snd (utf8.DecodeRune (c :: s)))%nat.
Proof.
  unfold utf8.DecodeRune.
  repeat match goal with
         | |- context [if ?x then _ else _] => destruct x
         | |- context [match ?x with _ => _ end] => destruct x
         end; simpl; lia.
Qed.

(** More fuel than the length of the string changes nothing. *)
Lemma decodeRunes_fuel (n m : nat) (s : str) :
  (length s <= n)%nat -> (length s <= m)%nat ->
  decodeRunes n s = decodeRunes m s.
Proof.
  revert m s. induction n as [|n IH]; intros m s Hn Hm.
  - destruct s; [|simpl in Hn; lia]. destruct m; reflexivity.
  - destruct s as [|c s]; [destruct m; reflexivity|].
    destruct m as [|m]; [simpl in Hm; lia|].
    cbn [decodeRunes]. pose proof (DecodeRune_width c s) as Hw.
    destruct (utf8.DecodeRune (c :: s)) as [r w]. simpl in Hw.
    f_equal. apply IH; rewrite length_drop; simpl in *; lia.
Qed.

Lemma runes_fuel (n : nat) (s : str) :
  (length s <= n)%nat -> decodeRunes n s = runes s.
Proof. intros H. apply decodeRunes_fuel; [exact H|lia]. Qed.

(** ** Column units: runes and bytes *)

(** C2 (the code departs from the claim).  [InsertText] takes the cursor
    column as a byte offset: on the line "éa" with the cursor after the
    first character (column 1), inserting "x" cuts the two-byte "é" in
    half, where the splice after the first rune gives "éxa", which is also
    what typing "x" at the same cursor gives.  Likewise [ExecuteSearch]
    reports the match of "a" in "éa" at column 2, its byte offset, while
    its rune column is 1. *)
Theorem C2_insertText_and_search_use_byte_offsets :
  let line := eAcute ++ lit "a" in
  let b := plainBuffer [line] 1 0 noSelection in
  (exists b', InsertText b (lit "x") = Some b' /\
     Lines b' = [[xc3; "x"%byte; xa9; "a"%byte]] /\
     Lines b' <> [spliceAtRune line 1 (lit "x")]) /\
  spliceAtRune line 1 (lit "x") = eAcute ++ lit "xa" /\
  (exists b', insertRune b 120 = Some b' /\
     Lines b' = [spliceAtRune line 1 (lit "x")]) /\
  searchLines (lit "a") [line] 0 [] = Some [SearchMatch.mk 0 2 1] /\
  runeColumn line 2 = 1.
Proof.
  cbv zeta. split; [|split; [|split]].
  - eexists. split; [vm_compute; reflexivity|].
    split; [reflexivity|]. vm_compute. discriminate.
  - vm_compute. reflexivity.
  - eexists. split; vm_compute; reflexivity.
  - split; vm_compute; reflexivity.
Qed.

(** C3 (the code departs from the claim).  Pasting the one-character text
    "é" into a fresh buffer leaves the cursor at column 2 of a line that
    has one character: [InsertText] advances the column by the byte length
    of the text, while the other key handlers measure lines in runes
    (typing "é" leaves the cursor at column 1 of the same line). *)
Theorem C3_paste_moves_cursor_past_line_end :
  let e := plainEditor (NewBuffer noStyle) eAcute in
  (exists e', HandleKey e KeyCtrlV = Some e' /\
     Lines (CurrentBuffer e') = [eAcute] /\
     CursorY (CurrentBuffer e') = 0 /\
     CursorX (CurrentBuffer e') = 2 /\
     index (Lines (CurrentBuffer e')) 0 = Some eAcute) /\
  len (runes eAcute) = 1 /\
  (exists e', HandleKey e (KeyRune 233) = Some e' /\
     Lines (CurrentBuffer e') = [eAcute] /\
     CursorY (CurrentBuffer e') = 0 /\
     CursorX (CurrentBuffer e') = 1).
Proof.
  cbv zeta. split; [|split].
  - eexists. split; [vm_compute; reflexivity|].
    repeat split; vm_compute; reflexivity.
  - vm_compute. reflexivity.
  - eexists. split; [vm_compute; reflexivity|].
    repeat split; vm_compute; reflexivity.
Qed.

(** ** Inactive selection *)

(** C10.  When the selection is not active, [GetSelectedText] returns the
    empty string and [DeleteSelection] returns the buffer as it was: line
    store, cursor and dirty range are all untouched. *)
Theorem C10_inactive_selection_is_ignored (b : Buffer) :
  Selection.Active (Selection b) = false ->
  GetSelectedText b = Some [] /\ DeleteSelection b = Some b.
Proof.
  intros H. unfold GetSelectedText, DeleteSelection. rewrite H. auto.
Qed.

Lemma C10_inactive_selection_is_ignored_witness :
  let b := plainBuffer [lit "abc"; lit "de"] 1 0 (Selection.mk 0 1 1 1 false) in
  GetSelectedText b = Some [] /\ DeleteSelection b = Some b.
Proof.
  apply (C10_inactive_selection_is_ignored
           (plainBuffer [lit "abc"; lit "de"] 1 0 (Selection.mk 0 1 1 1 false))).
  reflexivity.
Defined.

(** ** Scrolling changes offsets only *)

Lemma charToVisualCol_total (b : Buffer) (line charCol : Z) :
  0 <= line -> exists v, charToVisualCol b line charCol = Some v.
Proof.
  intros H. unfold charToVisualCol.
  destruct (Z.leb_spec (len (Lines b)) line); [eauto|].
  destruct (index_in_range (Lines b) line) as [l ->]; [lia|eauto].
Qed.

Lemma ScrollToCursor_fields (pane : Pane) (b b' : Buffer) :
  ScrollToCursor pane b = Some b' ->
  Lines b' = Lines b /\ CursorX b' = CursorX b /\ CursorY b' = CursorY b
  /\ Selection b' = Selection b /\ TokenCache b' = TokenCache b.
Proof.
  unfold ScrollToCursor.
  set (b1 := if CursorY b <? OffsetY b then _ else _).
  assert (H1 : Lines b1 = Lines b /\ CursorX b1 = CursorX b
               /\ CursorY b1 = CursorY b /\ Selection b1 = Selection b
               /\ TokenCache b1 = TokenCache b).
  { subst b1. destruct (CursorY b <? OffsetY b); [simpl; auto|].
    destruct (OffsetY b + Height pane <=? CursorY b); simpl; auto. }
  destruct H1 as (E1 & E2 & E3 & E4 & E5).
  destruct (charToVisualCol b1 (CursorY b1) (CursorX b1)) as [v|];
    [|discriminate].
  destruct (v <? OffsetX b1).
  { intros [= <-]. simpl. auto. }
  destruct (_ <=? v); intros [= <-]; simpl; auto.
Qed.

Lemma ScrollToCursor_total (pane : Pane) (b : Buffer) :
  0 <= CursorY b -> exists b', ScrollToCursor pane b = Some b'.
Proof.
  intros H. unfold ScrollToCursor.
  set (b1 := if CursorY b <? OffsetY b then _ else _).
  assert (H1 : CursorY b1 = CursorY b).
  { subst b1. destruct (CursorY b <? OffsetY b); [reflexivity|].
    destruct (OffsetY b + Height pane <=? CursorY b); reflexivity. }
  destruct (charToVisualCol_total b1 (CursorY b1) (CursorX b1)) as [v ->];
    [lia|].
  destruct (v <? OffsetX b1); [eauto|].
  destruct (_ <=? v); eauto.
Qed.

(** ** Search *)

Lemma HasPrefix_nil_l (query : str) :
  query <> [] -> strings.HasPrefix [] query = false.
Proof. destruct query; [congruence|reflexivity]. Qed.

(** [strings.Index] either fails, and then the query occurs nowhere, or
    returns the first occurrence, which lies inside the string. *)
Lemma Index_occurrences (query : str) :
  query <> [] ->
  forall (s : str) (c : Z),
    (strings.Index s query = -1 /\ occurrencesFrom query s c = [])
    \/ (exists k : nat,
          strings.Index s query = Z.of_nat k /\ (k < length s)%nat
          /\ occurrencesFrom query s c
             = (c + Z.of_nat k)
               :: occurrencesFrom query (drop (S k) s) (c + Z.of_nat k + 1)).
Proof.
  intros Hq. induction s as [|a s IH]; intros c.
  - left. simpl. destruct query; [congruence|]. auto.
  - cbn [strings.Index occurrencesFrom].
    destruct (strings.HasPrefix (a :: s) query) eqn:Hp.
    + right. exists 0%nat. simpl. rewrite Z.add_0_r. repeat split. lia.
    + destruct (IH (c + 1)) as [[Hi Ho]|(k & Hi & Hk & Ho)].
      * left. rewrite Hi, Ho. auto.
      * right. exists (S k). rewrite Hi.
        destruct (Z.ltb_spec (Z.of_nat k) 0); [lia|].
        split; [lia|]. split; [simpl; lia|].
        rewrite Ho. simpl. f_equal; [lia|]. f_equal. lia.
Qed.

Lemma searchLine_all (query : str) (line : str) (lineIdx : Z) :
  query <> [] ->
  forall (fuel n : nat) (found : list SearchMatch.t),
    (n <= length line)%nat -> (length line - n < fuel)%nat ->
    searchLine fuel query line lineIdx (Z.of_nat n) found
    = Some (found ++ map (fun c => SearchMatch.mk lineIdx c (len query))
                         (occurrencesFrom query (drop n line) (Z.of_nat n))).
Proof.
  intros Hq. induction fuel as [|fuel IH]; intros n found Hn Hf; [lia|].
  cbn [searchLine]. rewrite sliceFrom_ok by (unfold len; lia).
  rewrite Nat2Z.id.
  destruct (Index_occurrences query Hq (drop n line) (Z.of_nat n))
    as [[Hi Ho]|(k & Hi & Hk & Ho)].
  - rewrite Hi, Ho. simpl. rewrite app_nil_r. reflexivity.
  - rewrite Hi, Ho. destruct (Z.eqb_spec (Z.of_nat k) (-1)); [lia|].
    rewrite length_drop in Hk.
    replace (Z.of_nat n + Z.of_nat k + 1) with (Z.of_nat (n + S k)) by lia.
    rewrite IH by lia. rewrite drop_drop. simpl.
    rewrite <- app_assoc. simpl.
    replace (Z.of_nat n + Z.of_nat k + 1) with (Z.of_nat (n + S k)) by lia.
    reflexivity.
Qed.

Lemma searchLines_all (query : str) :
  query <> [] ->
  forall (lines : list str) (lineIdx : Z) (found : list SearchMatch.t),
    searchLines query lines lineIdx found
    = Some (found ++ allMatches query lines lineIdx).
Proof.
  intros Hq. induction lines as [|line rest IH]; intros lineIdx found.
  - simpl. rewrite app_nil_r. reflexivity.
  - cbn [searchLines allMatches].
    rewrite (searchLine_all query line lineIdx Hq (S (length line)) 0)
      by lia.
    rewrite IH, <- app_assoc. reflexivity.
Qed.

Lemma allMatches_line (query : str) (lines : list str) (lineIdx : Z)
    (m : SearchMatch.t) :
  In m (allMatches query lines lineIdx) -> lineIdx <= SearchMatch.Line m.
Proof.
  revert lineIdx. induction lines as [|line rest IH]; intros lineIdx;
    [contradiction|].
  simpl. rewrite in_app_iff. intros [H|H].
  - unfold matchesOfLine in H. apply in_map_iff in H as (c & <- & _).
    simpl. lia.
  - apply IH in H. lia.
Qed.

(** C4.  For a non-empty query [ExecuteSearch] returns, and its match list
    is exactly the list of all occurrences of the query, overlapping ones
    included, line after line and left to right within a line, each with
    the length of the query; the buffer text is not changed.  In
    particular "ab" over the single line "ababab" gives columns 0, 2, 4. *)
Theorem C4_search_finds_overlapping_matches :
  (forall e : Editor,
     SearchQuery e <> [] ->
     exists e', ExecuteSearch e = Some e'
       /\ SearchMatches e'
          = allMatches (SearchQuery e) (Lines (CurrentBuffer e)) 0
       /\ Lines (CurrentBuffer e') = Lines (CurrentBuffer e))
  /\ (exists e',
        ExecuteSearch (mkEditor (plainBuffer [lit "ababab"] 0 0 noSelection)
                         plainPane (lit "ab") [] 0 []) = Some e'
        /\ SearchMatches e'
           = [SearchMatch.mk 0 0 2; SearchMatch.mk 0 2 2;
              SearchMatch.mk 0 4 2]).
Proof.
  split; [|eexists; split; vm_compute; reflexivity].
  intros e Hq. unfold ExecuteSearch.
  destruct (SearchQuery e) as [|q0 q] eqn:Eq; [congruence|].
  rewrite searchLines_all by discriminate. cbn [app].
  set (found := allMatches (q0 :: q) (Lines (CurrentBuffer e)) 0).
  destruct (Z.ltb_spec 0 (len found)) as [Hlen|Hlen].
  - unfold JumpToSearchMatch, withSearch.
    cbn [SearchMatches SearchIndex CurrentBuffer CurrentPane].
    destruct (Z.eqb_spec (len found) 0); [lia|].
    destruct (index_in_range found 0) as [m Hm]; [lia|]. rewrite Hm.
    assert (Hline : 0 <= SearchMatch.Line m).
    { apply (allMatches_line (q0 :: q) (Lines (CurrentBuffer e))).
      rewrite index_lookup in Hm by lia.
      apply list_elem_of_In, list_elem_of_lookup. eauto. }
    destruct (ScrollToCursor_total (CurrentPane e)
                (withCursorX (withCursorY (CurrentBuffer e)
                                (SearchMatch.Line m)) (SearchMatch.Col m)))
      as [b' Hb']; [simpl; lia|].
    rewrite Hb'. eexists. split; [reflexivity|].
    apply ScrollToCursor_fields in Hb' as (HL & _). simpl. auto.
  - eexists. split; [reflexivity|]. simpl. auto.
Qed.

Lemma C4_search_finds_overlapping_matches_witness :
  exists e',
    ExecuteSearch (mkEditor (plainBuffer [lit "aaa"; lit "xaa"] 0 0 noSelection)
                     plainPane (lit "aa") [] 0 []) = Some e'
    /\ SearchMatches e'
       = allMatches (lit "aa") [lit "aaa"; lit "xaa"] 0
    /\ Lines (CurrentBuffer e') = [lit "aaa"; lit "xaa"].
Proof.
  apply (proj1 C4_search_finds_overlapping_matches
           (mkEditor (plainBuffer [lit "aaa"; lit "xaa"] 0 0 noSelection)
              plainPane (lit "aa") [] 0 [])).
  simpl. discriminate.
Defined.

(** ** Visual columns *)

Lemma advance_gt (v : Z) (r : rune) : v < advance v r.
Proof.
  unfold advance, tabWidth. destruct (r =? TAB); [|lia].
  pose proof (Z.mod_pos_bound v 4). lia.
Qed.

Lemma fold_advance_ge (rs : list rune) (v : Z) :
  v <= fold_left advance rs v.
Proof.
  revert v. induction rs as [|r rs IH]; intros v; simpl; [lia|].
  pose proof (advance_gt v r). pose proof (IH (advance v r)). lia.
Qed.

Lemma fold_advance_no_tab (rs : list rune) (v : Z) :
  ~ In TAB rs -> fold_left advance rs v = v + len rs.
Proof.
  revert v. induction rs as [|r rs IH]; intros v Hin.
  - simpl. unfold len. simpl. lia.
  - simpl. rewrite IH by (intros H; apply Hin; right; exact H).
    unfold advance. destruct (Z.eqb_spec r TAB) as [->|_].
    + exfalso. apply Hin. left. reflexivity.
    + rewrite len_cons. lia.
Qed.

Lemma fold_advance_take_mono (rs : list rune) (n1 n2 : nat) :
  (n1 <= n2)%nat ->
  fold_left advance (take n1 rs) 0 <= fold_left advance (take n2 rs) 0.
Proof.
  intros H.
  rewrite <- (take_drop n1 (take n2 rs)), take_take, fold_left_app.
  replace (n1 `min` n2)%nat with n1 by lia.
  apply fold_advance_ge.
Qed.

(** C7 (as amended).  On every line of the document, and past its end,
    [charToVisualCol] is non-decreasing in the character column; on a line
    without tab characters it returns the character column itself for
    every column from 0 to the length of the line in runes.  (Beyond the
    end of the line the loop stops at the last rune, so the result stays
    at the line length.) *)
Theorem C7_charToVisualCol_monotone_identity_within_line
    (b : Buffer) (line : Z) :
  0 <= line ->
  (forall c1 c2 : Z,
     c1 <= c2 ->
     exists v1 v2,
       charToVisualCol b line c1 = Some v1
       /\ charToVisualCol b line c2 = Some v2 /\ v1 <= v2)
  /\ (forall (l : str) (c : Z),
        index (Lines b) line = Some l ->
        ~ In TAB (runes l) ->
        0 <= c <= len (runes l) ->
        charToVisualCol b line c = Some c).
Proof.
  intros Hline. split.
  - intros c1 c2 Hc. unfold charToVisualCol.
    destruct (Z.leb_spec (len (Lines b)) line).
    + exists c1, c2. auto.
    + destruct (index_in_range (Lines b) line) as [l ->]; [lia|].
      do 2 eexists. split; [reflexivity|]. split; [reflexivity|].
      apply fold_advance_take_mono. lia.
  - intros l c Hl Hin Hc. unfold charToVisualCol.
    pose proof (index_Some _ _ _ Hl).
    destruct (Z.leb_spec (len (Lines b)) line); [lia|].
    rewrite Hl. f_equal. rewrite fold_advance_no_tab.
    + unfold len in *. rewrite length_take. lia.
    + intros Hin'. apply Hin.
      apply list_elem_of_In in Hin'. apply list_elem_of_In.
      eapply subseteq_take, Hin'.
Qed.

Lemma C7_charToVisualCol_monotone_identity_within_line_witness :
  (forall c1 c2 : Z,
     c1 <= c2 ->
     exists v1 v2,
       charToVisualCol (plainBuffer [lit "a" ++ [x09] ++ lit "b"; lit "cd"]
                          0 0 noSelection) 1 c1 = Some v1
       /\ charToVisualCol (plainBuffer [lit "a" ++ [x09] ++ lit "b"; lit "cd"]
                             0 0 noSelection) 1 c2 = Some v2
       /\ v1 <= v2)
  /\ (forall (l : str) (c : Z),
        index [lit "a" ++ [x09] ++ lit "b"; lit "cd"] 1 = Some l ->
        ~ In TAB (runes l) ->
        0 <= c <= len (runes l) ->
        charToVisualCol (plainBuffer [lit "a" ++ [x09] ++ lit "b"; lit "cd"]
                           0 0 noSelection) 1 c = Some c).
Proof.
  apply (C7_charToVisualCol_monotone_identity_within_line
           (plainBuffer [lit "a" ++ [x09] ++ lit "b"; lit "cd"]
              0 0 noSelection) 1).
  lia.
Defined.

(** The claim as stated fails past the end of a line: "ab" has no tab, and
    column 5 maps to visual column 2. *)
Lemma C7_identity_fails_past_line_end :
  ~ (forall (b : Buffer) (line : Z) (l : str) (c : Z),
       index (Lines b) line = Some l ->
       ~ In TAB (runes l) ->
       charToVisualCol b line c = Some c).
Proof.
  intros H.
  specialize (H (plainBuffer [lit "ab"] 0 0 noSelection) 0 (lit "ab") 5).
  assert (Hv : charToVisualCol (plainBuffer [lit "ab"] 0 0 noSelection) 0 5
               = Some 2) by (vm_compute; reflexivity).
  rewrite Hv in H. discriminate H; [reflexivity|].
  vm_compute. intros [H1|[H1|[]]]; discriminate H1.
Qed.

(** ** Word motion to the right *)

Lemma skipRight_run (p : rune -> bool) (rest : list rune) (x : Z) :
  let x' := skipRight p rest x in
  x <= x' <= x + len rest
  /\ (forall (k : nat) (ch : rune),
        (k < Z.to_nat (x' - x))%nat -> rest !! k = Some ch -> p ch = true)
  /\ (forall ch : rune, rest !! Z.to_nat (x' - x) = Some ch -> p ch = false).
Proof.
  revert x. induction rest as [|c rest IH]; intros x; cbn [skipRight].
  - rewrite Z.sub_diag. unfold len. simpl. repeat split; try lia.
    intros ch H. discriminate H.
  - destruct (p c) eqn:Hp.
    + destruct (IH (x + 1)) as (H1 & H2 & H3). rewrite len_cons.
      split; [lia|]. split.
      * intros [|k] ch Hk Hl; [simpl in Hl; congruence|].
        simpl in Hl. apply (H2 k); [lia|exact Hl].
      * intros ch Hl.
        replace (Z.to_nat (skipRight p rest (x + 1) - x))
          with (S (Z.to_nat (skipRight p rest (x + 1) - (x + 1))))
          in Hl by lia.
        apply H3. exact Hl.
    + rewrite Z.sub_diag, len_cons. pose proof (len_nonneg rest).
      split; [lia|]. split; [intros k ch Hk; simpl in Hk; lia|].
      simpl. congruence.
Qed.

Lemma skipRight_endsRun (p : rune -> bool) (rs : list rune) (x : Z) :
  0 <= x <= len rs ->
  endsRun p rs x (skipRight p (drop (Z.to_nat x) rs) x).
Proof.
  intros Hx.
  destruct (skipRight_run p (drop (Z.to_nat x) rs) x) as (H1 & H2 & H3).
  set (x' := skipRight p (drop (Z.to_nat x) rs) x) in *.
  assert (Hlen : len (drop (Z.to_nat x) rs) = len rs - x).
  { unfold len in *. rewrite length_drop. lia. }
  split; [lia|]. split.
  - intros i ch Hi Hl. rewrite index_lookup in Hl by lia.
    apply (H2 (Z.to_nat (i - x))); [lia|].
    rewrite lookup_drop. rewrite <- Hl. f_equal. lia.
  - intros ch Hl. rewrite index_lookup in Hl by lia.
    apply H3. rewrite lookup_drop. rewrite <- Hl. f_equal. lia.
Qed.

(** C6 (as amended).  From a cursor inside the line [MoveWordRight] first
    skips the maximal run of word characters at the cursor (possibly
    empty), then the maximal run of non-word characters that follows, and
    stays on its line; at the end of a line that is not the last it moves
    to column 0 of the next line and skips nothing; at the end of the last
    line it does not move. *)
Theorem C6_moveWordRight_skips_word_then_nonword
    (IsLetter IsDigit : rune -> bool) (b : Buffer) (line : str) :
  index (Lines b) (CursorY b) = Some line ->
  (0 <= CursorX b < len (runes line) ->
   exists m x',
     MoveWordRight IsLetter IsDigit b = Some (withCursorX b x')
     /\ endsRun (isWordChar IsLetter IsDigit) (runes line) (CursorX b) m
     /\ endsRun (fun ch => negb (isWordChar IsLetter IsDigit ch))
          (runes line) m x')
  /\ (len (runes line) <= CursorX b ->
      CursorY b < len (Lines b) - 1 ->
      MoveWordRight IsLetter IsDigit b
      = Some (withCursorX (withCursorY b (CursorY b + 1)) 0))
  /\ (len (runes line) <= CursorX b ->
      len (Lines b) - 1 <= CursorY b ->
      MoveWordRight IsLetter IsDigit b = Some b).
Proof.
  intros Hl. unfold MoveWordRight. rewrite Hl. repeat split.
  - intros Hx.
    destruct (Z.leb_spec (len (runes line)) (CursorX b)); [lia|].
    destruct (Z.ltb_spec (CursorX b) 0); [lia|].
    pose proof (skipRight_endsRun (isWordChar IsLetter IsDigit)
                  (runes line) (CursorX b)) as Hm.
    set (m := skipRight (isWordChar IsLetter IsDigit) _ (CursorX b)) in *.
    specialize (Hm ltac:(lia)).
    assert (Hm' := Hm). destruct Hm' as (Hm1 & _).
    pose proof (skipRight_endsRun
                  (fun ch => negb (isWordChar IsLetter IsDigit ch))
                  (runes line) m ltac:(lia)) as Hx'.
    eexists m, _. split; [reflexivity|]. split; assumption.
  - intros Hx Hy.
    destruct (Z.leb_spec (len (runes line)) (CursorX b)); [|lia].
    destruct (Z.ltb_spec (CursorY b) (len (Lines b) - 1)); [|lia].
    reflexivity.
  - intros Hx Hy.
    destruct (Z.leb_spec (len (runes line)) (CursorX b)); [|lia].
    destruct (Z.ltb_spec (CursorY b) (len (Lines b) - 1)); [lia|].
    reflexivity.
Qed.

Lemma C6_moveWordRight_skips_word_then_nonword_witness :
  let b := plainBuffer [lit "ab  cd"; lit "e"] 1 0 noSelection in
  (0 <= CursorX b < len (runes (lit "ab  cd")) ->
   exists m x',
     MoveWordRight asciiIsLetter asciiIsDigit b = Some (withCursorX b x')
     /\ endsRun (isWordChar asciiIsLetter asciiIsDigit)
          (runes (lit "ab  cd")) (CursorX b) m
     /\ endsRun (fun ch => negb (isWordChar asciiIsLetter asciiIsDigit ch))
          (runes (lit "ab  cd")) m x')
  /\ (len (runes (lit "ab  cd")) <= CursorX b ->
      CursorY b < len (Lines b) - 1 ->
      MoveWordRight asciiIsLetter asciiIsDigit b
      = Some (withCursorX (withCursorY b (CursorY b + 1)) 0))
  /\ (len (runes (lit "ab  cd")) <= CursorX b ->
      len (Lines b) - 1 <= CursorY b ->
      MoveWordRight asciiIsLetter asciiIsDigit b = Some b).
Proof.
  apply (C6_moveWordRight_skips_word_then_nonword asciiIsLetter asciiIsDigit
           (plainBuffer [lit "ab  cd"; lit "e"] 1 0 noSelection)
           (lit "ab  cd")).
  reflexivity.
Defined.

(** The claim as stated fails: on "ab cd" with the cursor at column 0 the
    code goes over "ab" and the blank to column 3, while skipping the
    non-word run first and then the word run stops at column 2. *)
Lemma C6_nonword_first_reading_fails :
  let b := plainBuffer [lit "ab cd"] 0 0 noSelection in
  MoveWordRight asciiIsLetter asciiIsDigit b = Some (withCursorX b 3)
  /\ MoveWordRight_nonword_first asciiIsLetter asciiIsDigit b
     = Some (withCursorX b 2)
  /\ MoveWordRight asciiIsLetter asciiIsDigit b
     <> MoveWordRight_nonword_first asciiIsLetter asciiIsDigit b.
Proof.
  cbv zeta. split; [vm_compute; reflexivity|].
  split; [vm_compute; reflexivity|]. vm_compute. discriminate.
Qed.

(** ** Splitting and joining lines *)

Lemma byte_eqb_spec (c d : byte) : reflect (c = d) (Byte.eqb c d).
Proof.
  destruct (Byte.eqb c d) eqn:E; constructor.
  - apply Byte.byte_dec_bl. exact E.
  - apply Byte.eqb_false. exact E.
Qed.

Lemma SplitNL_nonempty (s : str) : strings.SplitNL s <> [].
Proof.
  induction s as [|c s IH]; simpl; [discriminate|].
  destruct (Byte.eqb c NL); [discriminate|].
  destruct (strings.SplitNL s); discriminate.
Qed.

Lemma SplitNL_len (s : str) : 1 <= len (strings.SplitNL s).
Proof.
  pose proof (SplitNL_nonempty s). unfold len.
  destruct (strings.SplitNL s); [congruence|simpl; lia].
Qed.

Lemma SplitNL_no_NL (s : str) : ~ In NL s -> strings.SplitNL s = [s].
Proof.
  induction s as [|c s IH]; intros H; [reflexivity|]. simpl.
  destruct (byte_eqb_spec c NL) as [->|_]; [exfalso; apply H; left; reflexivity|].
  rewrite IH by (intros H'; apply H; right; exact H'). reflexivity.
Qed.

Lemma SplitNL_app_NL (a rest : str) :
  ~ In NL a -> strings.SplitNL (a ++ NL :: rest) = a :: strings.SplitNL rest.
Proof.
  induction a as [|c a IH]; intros H; [reflexivity|]. simpl.
  destruct (byte_eqb_spec c NL) as [->|_]; [exfalso; apply H; left; reflexivity|].
  rewrite IH by (intros H'; apply H; right; exact H'). reflexivity.
Qed.

Lemma Join_cons (e : str) (rest : list str) (sep : str) :
  rest <> [] -> strings.Join (e :: rest) sep = e ++ sep ++ strings.Join rest sep.
Proof. destruct rest; [congruence|reflexivity]. Qed.

Lemma Join_SplitNL (s : str) : strings.Join (strings.SplitNL s) [NL] = s.
Proof.
  induction s as [|c s IH]; [reflexivity|]. cbn [strings.SplitNL].
  pose proof (SplitNL_nonempty s) as Hne.
  destruct (byte_eqb_spec c NL) as [->|_].
  - rewrite Join_cons by exact Hne. simpl. rewrite IH. reflexivity.
  - destruct (strings.SplitNL s) as [|h t]; [congruence|].
    destruct t as [|h' t].
    + simpl in *. congruence.
    + rewrite Join_cons by discriminate.
      rewrite Join_cons in IH by discriminate.
      simpl. rewrite <- IH. reflexivity.
Qed.

Lemma SplitNL_Join (lines : list str) :
  lines <> [] ->
  (forall l, In l lines -> ~ In NL l) ->
  strings.SplitNL (strings.Join lines [NL]) = lines.
Proof.
  induction lines as [|l rest IH]; intros Hne Hnl; [congruence|].
  destruct rest as [|l' rest].
  - simpl. apply SplitNL_no_NL. apply Hnl. left. reflexivity.
  - rewrite Join_cons by discriminate. cbn [app].
    rewrite SplitNL_app_NL by (apply Hnl; left; reflexivity).
    rewrite IH; [reflexivity|discriminate|].
    intros k Hk. apply Hnl. right. exact Hk.
Qed.

Lemma SplitNL_bytes (s l : str) (c : byte) :
  In l (strings.SplitNL s) -> In c l -> In c s.
Proof.
  revert l. induction s as [|d s IH]; intros l Hl Hc.
  - simpl in Hl. destruct Hl as [<-|[]]. exact Hc.
  - simpl in Hl. destruct (Byte.eqb d NL).
    + destruct Hl as [<-|Hl]; [contradiction|]. right. eapply IH; eauto.
    + pose proof (SplitNL_nonempty s) as Hne.
      destruct (strings.SplitNL s) as [|h t]; [congruence|].
      destruct Hl as [<-|Hl].
      * destruct Hc as [<-|Hc]; [left; reflexivity|].
        right. apply (IH h); [left; reflexivity|exact Hc].
      * right. apply (IH l); [right; exact Hl|exact Hc].
Qed.

Lemma ReplaceCRLF_cons2 (c c' : byte) (s : str) :
  strings.ReplaceCRLF (c :: c' :: s)
  = if Byte.eqb c CR && Byte.eqb c' NL then NL :: strings.ReplaceCRLF s
    else c :: strings.ReplaceCRLF (c' :: s).
Proof. reflexivity. Qed.

Lemma ReplaceCRLF_no_CR_upto (n : nat) (s : str) :
  (length s <= n)%nat -> loneCR s = false -> ~ In CR (strings.ReplaceCRLF s).
Proof.
  revert s. induction n as [|n IH]; intros s Hn Hl.
  - destruct s; [intros []|simpl in Hn; lia].
  - destruct s as [|c [|c' s'']]; [intros []| |].
    + simpl in *. destruct (byte_eqb_spec c CR); [discriminate|].
      intros [H|[]]. congruence.
    + cbn [loneCR] in Hl. apply orb_false_elim in Hl as [H1 H2].
      rewrite ReplaceCRLF_cons2.
      destruct (byte_eqb_spec c CR) as [->|Hc];
        destruct (byte_eqb_spec c' NL) as [->|Hc']; simpl in H1;
        try discriminate.
      * cbn [andb In]. intros [H|H]; [discriminate H|].
        revert H. apply IH; [simpl in Hn; lia|].
        cbn [loneCR] in H2. apply orb_false_elim in H2 as [_ H2]. exact H2.
      * cbn [andb In]. intros [H|H]; [congruence|].
        revert H. apply IH; [simpl in *; lia|exact H2].
      * cbn [andb In]. intros [H|H]; [congruence|].
        revert H. apply IH; [simpl in *; lia|exact H2].
Qed.

Lemma ReplaceCRLF_no_CR (s : str) :
  loneCR s = false -> ~ In CR (strings.ReplaceCRLF s).
Proof. apply (ReplaceCRLF_no_CR_upto (length s)). lia. Qed.

Lemma ReplaceCRLF_id_upto (n : nat) (s : str) :
  (length s <= n)%nat -> ~ In CR s -> strings.ReplaceCRLF s = s.
Proof.
  revert s. induction n as [|n IH]; intros s Hn Hin.
  - destruct s; [reflexivity|simpl in Hn; lia].
  - destruct s as [|c [|c' s'']]; [reflexivity|reflexivity|].
    rewrite ReplaceCRLF_cons2.
    destruct (byte_eqb_spec c CR) as [->|Hc];
      [exfalso; apply Hin; left; reflexivity|].
    cbn [andb]. f_equal. apply IH; [simpl in *; lia|].
    intros H. apply Hin. right. exact H.
Qed.

(** ** Re-tokenizing keeps the text *)

Lemma UpdateTokenCacheRange_Lines (b b' : Buffer) (s e : Z) :
  UpdateTokenCacheRange b s e = Some b' ->
  Lines b' = Lines b /\ Filename b' = Filename b
  /\ Dirty b' = Dirty b /\ DirtyLineStart b' = DirtyLineStart b
  /\ DirtyLineEnd b' = DirtyLineEnd b.
Proof.
  unfold UpdateTokenCacheRange.
  destruct (Lexer b) as [lexer|]; [|intros [= <-]; auto].
  destruct (Style b) as [st|]; [|intros [= <-]; auto].
  destruct (slice _ _ _); [|discriminate].
  destruct (chroma.Tokenise _ _); intros [= <-]; simpl; auto.
Qed.

Lemma UpdateTokenCacheRange_total (b : Buffer) (s e : Z) :
  Z.max 0 (s - contextLines)
  <= Z.min (len (Lines b) - 1) (e + contextLines) + 1 ->
  exists b', UpdateTokenCacheRange b s e = Some b'.
Proof.
  intros H. unfold UpdateTokenCacheRange.
  destruct (Lexer b) as [lexer|]; [|eauto].
  destruct (Style b) as [st|]; [|eauto].
  rewrite slice_ok by lia.
  destruct (chroma.Tokenise _ _); eauto.
Qed.

Lemma UpdateTokenCache_total (b : Buffer) :
  exists b', UpdateTokenCache b = Some b'.
Proof.
  apply UpdateTokenCacheRange_total. pose proof (len_nonneg (Lines b)).
  unfold contextLines. lia.
Qed.

Section LexersProperties.

Variable lexersMatch : str -> option chroma.Lexer.
Variable lexersFallback : chroma.Lexer.
Variable Coalesce : chroma.Lexer -> chroma.Lexer.

Lemma SetupHighlighting_total (b : Buffer) :
  exists b', SetupHighlighting lexersMatch lexersFallback Coalesce b = Some b'
             /\ Lines b' = Lines b /\ Filename b' = Filename b.
Proof.
  unfold SetupHighlighting. destruct (Filename b) eqn:Hf.
  - eexists. split; [reflexivity|]. simpl. auto.
  - match goal with |- context [UpdateTokenCache ?x] =>
      destruct (UpdateTokenCache_total x) as [b' Hb'] end.
    rewrite Hb'. exists b'. split; [reflexivity|].
    apply UpdateTokenCacheRange_Lines in Hb' as (-> & -> & _).
    simpl. auto.
Qed.

Lemma LoadFile_ok (b : Buffer) (filename data : str) :
  exists b',
    LoadFile lexersMatch lexersFallback Coalesce b filename (ReadOk data)
    = Some (b', false)
    /\ Lines b' = strings.SplitNL (strings.ReplaceCRLF data).
Proof.
  unfold LoadFile.
  pose proof (SplitNL_len (strings.ReplaceCRLF data)) as Hlen.
  destruct (Z.eqb_spec (len (strings.SplitNL (strings.ReplaceCRLF data))) 0);
    [lia|].
  match goal with |- context [SetupHighlighting _ _ _ ?x] =>
    destruct (SetupHighlighting_total x) as (b' & Hb' & HL & _) end.
  rewrite Hb'. exists b'. split; [reflexivity|]. rewrite HL. reflexivity.
Qed.

Lemma LoadFile_not_exist (b : Buffer) (filename : str) :
  exists b',
    LoadFile lexersMatch lexersFallback Coalesce b filename ReadNotExist
    = Some (b', false)
    /\ Lines b' = [[]].
Proof.
  unfold LoadFile.
  match goal with |- context [SetupHighlighting _ _ _ ?x] =>
    destruct (SetupHighlighting_total x) as (b' & Hb' & HL & _) end.
  rewrite Hb'. exists b'. split; [reflexivity|]. rewrite HL. reflexivity.
Qed.

End LexersProperties.

(** ** Persisted format *)

(** C9 (as amended).  On load every CR LF pair is replaced by LF and the
    result is split on LF; a carriage return that is not directly followed
    by a line feed is kept.  So joining the loaded lines with "\n" gives
    the file content with CR LF replaced by LF (the content itself when it
    has no CR), and when no CR of the file stands alone no loaded line
    contains a CR.  On save the lines are joined with "\n" and nothing is
    appended: splitting the saved content on "\n" gives the line store
    back. *)
Theorem C9_load_replaces_crlf_and_save_joins
    (lexersMatch : str -> option chroma.Lexer)
    (lexersFallback : chroma.Lexer)
    (Coalesce : chroma.Lexer -> chroma.Lexer)
    (b : Buffer) (filename data : str) :
  (exists b',
     LoadFile lexersMatch lexersFallback Coalesce b filename (ReadOk data)
     = Some (b', false)
     /\ Lines b' = strings.SplitNL (strings.ReplaceCRLF data)
     /\ strings.Join (Lines b') [NL] = strings.ReplaceCRLF data
     /\ (~ In CR data -> strings.Join (Lines b') [NL] = data)
     /\ (loneCR data = false -> forall l, In l (Lines b') -> ~ In CR l))
  /\ (Filename b <> [] ->
      SaveFile b = SaveWrite (Filename b) (strings.Join (Lines b) [NL]))
  /\ (Lines b <> [] ->
      (forall l, In l (Lines b) -> ~ In NL l) ->
      strings.SplitNL (strings.Join (Lines b) [NL]) = Lines b).
Proof.
  split; [|split].
  - destruct (LoadFile_ok lexersMatch lexersFallback Coalesce b filename data)
      as (b' & Hload & HL).
    exists b'. split; [exact Hload|]. split; [exact HL|].
    rewrite HL, Join_SplitNL. split; [reflexivity|]. split.
    + intros Hcr. apply (ReplaceCRLF_id_upto (length data)); [lia|exact Hcr].
    + intros Hlone l Hl Hc.
      apply (ReplaceCRLF_no_CR data Hlone).
      eapply SplitNL_bytes; eauto.
  - intros Hf. unfold SaveFile. destruct (Filename b); [congruence|reflexivity].
  - apply SplitNL_Join.
Qed.

Lemma C9_load_replaces_crlf_and_save_joins_witness :
  let b := plainBuffer [lit "ab"; lit "c"] 0 0 noSelection in
  let b1 := withFilename b (lit "f.txt") in
  let data := lit "x" ++ [CR; NL] ++ lit "y" ++ [NL] in
  (exists b',
     LoadFile (fun _ => None) wholeLexer (fun l => l) b1 (lit "g.txt")
       (ReadOk data) = Some (b', false)
     /\ Lines b' = strings.SplitNL (strings.ReplaceCRLF data)
     /\ strings.Join (Lines b') [NL] = strings.ReplaceCRLF data
     /\ (~ In CR data -> strings.Join (Lines b') [NL] = data)
     /\ (loneCR data = false -> forall l, In l (Lines b') -> ~ In CR l))
  /\ SaveFile b1 = SaveWrite (lit "f.txt") (lit "ab" ++ [NL] ++ lit "c")
  /\ strings.SplitNL (lit "ab" ++ [NL] ++ lit "c") = [lit "ab"; lit "c"].
Proof.
  cbv zeta.
  destruct (C9_load_replaces_crlf_and_save_joins (fun _ => None) wholeLexer
              (fun l => l)
              (withFilename (plainBuffer [lit "ab"; lit "c"] 0 0 noSelection)
                 (lit "f.txt"))
              (lit "g.txt") (lit "x" ++ [CR; NL] ++ lit "y" ++ [NL]))
    as (H1 & H2 & H3).
  split; [exact H1|]. split.
  - apply H2. simpl. discriminate.
  - apply H3; [simpl; discriminate|].
    simpl. intros l [<-|[<-|[]]] Hin; simpl in Hin;
      repeat (destruct Hin as [Hin|Hin]; [discriminate Hin|]); exact Hin.
Defined.

(** The claim as stated fails: the file content "a\rb" loads as the single
    line "a\rb", which contains a carriage return. *)
Lemma C9_lone_carriage_return_is_kept :
  ~ (forall (lexersMatch : str -> option chroma.Lexer)
            (lexersFallback : chroma.Lexer)
            (Coalesce : chroma.Lexer -> chroma.Lexer)
            (b b' : Buffer) (filename data : str),
       LoadFile lexersMatch lexersFallback Coalesce b filename (ReadOk data)
       = Some (b', false) ->
       forall l, In l (Lines b') -> ~ In CR l).
Proof.
  intros H.
  refine (H (fun _ => None) wholeLexer (fun l => l)
            (plainBuffer [[]] 0 0 noSelection) _ (lit "f.txt")
            [x61; CR; x62] eq_refl [x61; CR; x62] _ _).
  - left. reflexivity.
  - right. left. reflexivity.
Qed.

(** ** The line store is never empty *)

Lemma len_take {A : Type} (l : list A) (n : Z) :
  0 <= n <= len l -> len (take (Z.to_nat n) l) = n.
Proof. intros H. unfold len in *. rewrite length_take. lia. Qed.

Lemma len_drop {A : Type} (l : list A) (n : Z) :
  0 <= n <= len l -> len (drop (Z.to_nat n) l) = len l - n.
Proof. intros H. unfold len in *. rewrite length_drop. lia. Qed.

(** Inversion of a successful run: every step that could panic did not. *)
Ltac run_inv H :=
  repeat match type of H with
  | match ?e with Some _ => _ | None => None end = Some _ =>
    let E := fresh "E" in destruct e eqn:E; [|discriminate H]
  | Some _ = Some _ => injection H as H
  | None = Some _ => discriminate H
  end.

Lemma MarkDirtyLines_Lines (b : Buffer) (s e : Z) :
  Lines (MarkDirtyLines b s e) = Lines b.
Proof. reflexivity. Qed.

Lemma DeleteSelection_nonempty (b b' : Buffer) :
  1 <= len (Lines b) -> DeleteSelection b = Some b' -> 1 <= len (Lines b').
Proof.
  intros Hb H. unfold DeleteSelection in H.
  destruct (Selection.Active (Selection b)); [|simpl in H; congruence].
  simpl in H. destruct (normalize (Selection b)) as [[[sl sc] el] ec].
  run_inv H. subst b'. simpl. rewrite len_app, len_cons.
  match goal with |- context [len ?a + (1 + len ?c)] =>
    pose proof (len_nonneg a); pose proof (len_nonneg c) end. lia.
Qed.

Lemma deleteIfActive_nonempty (b b' : Buffer) :
  1 <= len (Lines b) -> deleteIfActive b = Some b' -> 1 <= len (Lines b').
Proof.
  unfold deleteIfActive. destruct (Selection.Active (Selection b)).
  - apply DeleteSelection_nonempty.
  - congruence.
Qed.

Lemma InsertText_nonempty (b b' : Buffer) (text : str) :
  InsertText b text = Some b' -> 1 <= len (Lines b').
Proof.
  intros H. unfold InsertText in H.
  destruct (len (strings.SplitNL text) =? 1).
  - run_inv H. subst b'. simpl.
    match goal with E : store _ _ _ = Some _, E' : index _ _ = Some _ |- _ =>
      apply store_len in E; apply index_Some in E' end. lia.
  - run_inv H. subst b'. simpl. rewrite !len_app, len_cons.
    match goal with |- context [len ?a + (len ?m + (1 + len ?c))] =>
      pose proof (len_nonneg a); pose proof (len_nonneg m);
      pose proof (len_nonneg c) end. lia.
Qed.

Lemma clampCursorX_fields (b : Buffer) (rs : list rune) :
  Lines (clampCursorX b rs) = Lines b
  /\ CursorY (clampCursorX b rs) = CursorY b
  /\ Selection (clampCursorX b rs) = Selection b.
Proof. unfold clampCursorX. destruct (len rs <? CursorX b); simpl; auto. Qed.

Lemma insertRune_nonempty (b b' : Buffer) (r : rune) :
  insertRune b r = Some b' -> 1 <= len (Lines b').
Proof.
  intros H. unfold insertRune in H. run_inv H. subst b'. simpl.
  match goal with E : store _ _ _ = Some _ |- _ =>
    pose proof (store_Some _ _ _ _ E) as [Hi _]; apply store_len in E end.
  lia.
Qed.

Lemma insertNewline_nonempty (b b' : Buffer) :
  insertNewline b = Some b' -> 1 <= len (Lines b').
Proof.
  intros H. unfold insertNewline in H. run_inv H. subst b'. simpl.
  rewrite len_app, len_cons.
  match goal with |- context [len ?a + (1 + len ?c)] =>
    pose proof (len_nonneg a); pose proof (len_nonneg c) end. lia.
Qed.

Lemma deleteBackward_nonempty (b b' : Buffer) :
  1 <= len (Lines b) -> deleteBackward b = Some b' -> 1 <= len (Lines b').
Proof.
  intros Hb H. unfold deleteBackward in H.
  destruct (Selection.Active (Selection b));
    [eapply DeleteSelection_nonempty; eauto|].
  destruct (0 <? CursorX b).
  - run_inv H.
    match type of H with context [clampCursorX b ?rs] =>
      destruct (clampCursorX_fields b rs) as (HL & _) end.
    destruct (0 <? CursorX (clampCursorX b _)).
    + run_inv H. subst b'. simpl.
      match goal with E : store _ _ _ = Some _ |- _ =>
        apply store_len in E; rewrite HL in E end. lia.
    + run_inv H. subst b'. rewrite HL. lia.
  - destruct (Z.ltb_spec 0 (CursorY b)); [|run_inv H; subst b'; exact Hb].
    run_inv H. subst b'. simpl in *.
    match goal with E : sliceTo _ _ = Some _ |- _ =>
      apply sliceTo_Some in E as [Hr ->] end.
    rewrite len_app, len_take by exact Hr.
    match goal with |- context [len ?c] => pose proof (len_nonneg c) end.
    lia.
Qed.

Lemma deleteForward_nonempty (b b' : Buffer) :
  1 <= len (Lines b) -> deleteForward b = Some b' -> 1 <= len (Lines b').
Proof.
  intros Hb H. unfold deleteForward in H.
  destruct (Selection.Active (Selection b));
    [eapply DeleteSelection_nonempty; eauto|].
  run_inv H. destruct (CursorX b <? len (runes _)).
  - run_inv H. subst b'. simpl.
    match goal with E : store _ _ _ = Some _ |- _ =>
      apply store_len in E end. lia.
  - destruct (CursorY b <? len (Lines b) - 1); [|run_inv H; subst b'; exact Hb].
    run_inv H. subst b'. simpl in *.
    match goal with E : sliceTo _ _ = Some _,
                    E' : index _ (CursorY b) = Some _ |- _ =>
      apply sliceTo_Some in E as [Hr ->]; apply index_Some in E' end.
    rewrite len_app, len_take by exact Hr.
    match goal with |- context [_ + len ?c] => pose proof (len_nonneg c) end.
    lia.
Qed.

Lemma JumpToSearchMatch_Lines (e e' : Editor) :
  JumpToSearchMatch e = Some e' ->
  Lines (CurrentBuffer e') = Lines (CurrentBuffer e).
Proof.
  intros H. unfold JumpToSearchMatch in H.
  destruct (len (SearchMatches e) =? 0); [congruence|].
  run_inv H. subst e'. simpl.
  match goal with E : ScrollToCursor _ _ = Some _ |- _ =>
    apply ScrollToCursor_fields in E as (-> & _) end.
  reflexivity.
Qed.

Lemma HandleKey_nonempty (e e' : Editor) (k : Key) :
  1 <= len (Lines (CurrentBuffer e)) ->
  HandleKey e k = Some e' ->
  1 <= len (Lines (CurrentBuffer e')).
Proof.
  intros Hb H. unfold HandleKey in H. destruct k.
  - destruct (_ && _).
    { apply JumpToSearchMatch_Lines in H. rewrite H. exact Hb. }
    destruct (_ && _).
    { apply JumpToSearchMatch_Lines in H. rewrite H. exact Hb. }
    run_inv H. subst e'. simpl.
    match goal with E : ScrollToCursor _ _ = Some _ |- _ =>
      apply ScrollToCursor_fields in E as (-> & _) end.
    eapply insertRune_nonempty; eauto.
  - run_inv H. subst e'. simpl.
    match goal with E : ScrollToCursor _ _ = Some _ |- _ =>
      apply ScrollToCursor_fields in E as (-> & _) end.
    eapply insertNewline_nonempty; eauto.
  - run_inv H. subst e'. simpl.
    match goal with E : ScrollToCursor _ _ = Some _ |- _ =>
      apply ScrollToCursor_fields in E as (-> & _) end.
    eapply deleteBackward_nonempty; eauto.
  - run_inv H. subst e'. simpl. eapply deleteForward_nonempty; eauto.
  - run_inv H. subst e'. simpl. eapply InsertText_nonempty; eauto.
  - destruct (Selection.Active _); run_inv H; subst e'; exact Hb.
  - destruct (Clipboard e); run_inv H; subst e'; [exact Hb|].
    simpl. eapply InsertText_nonempty; eauto.
  - destruct (Selection.Active _); run_inv H; subst e'; [|exact Hb].
    simpl. eapply DeleteSelection_nonempty; eauto.
Qed.

(** ** The handlers return on well-formed states *)

Lemma clamp_bounds (n c : Z) :
  0 <= n -> 0 <= c ->
  0 <= (if n <? c then n else c) <= n /\ (if n <? c then n else c) <= c.
Proof. intros Hn Hc. destruct (Z.ltb_spec n c); lia. Qed.

Lemma normalize_cases (s : Selection.t) (sl sc el ec : Z) :
  normalize s = (sl, sc, el, ec) ->
  ((sl, sc, el, ec)
   = (Selection.StartLine s, Selection.StartCol s,
      Selection.EndLine s, Selection.EndCol s)
   \/ (sl, sc, el, ec)
      = (Selection.EndLine s, Selection.EndCol s,
         Selection.StartLine s, Selection.StartCol s))
  /\ (sl < el \/ (sl = el /\ sc <= ec)).
Proof.
  unfold normalize.
  destruct (Z.ltb_spec (Selection.EndLine s) (Selection.StartLine s));
    destruct (Z.eqb_spec (Selection.StartLine s) (Selection.EndLine s));
    destruct (Z.ltb_spec (Selection.EndCol s) (Selection.StartCol s));
    simpl; intros [= <- <- <- <-]; (split; [auto|lia]).
Qed.

(** What [DeleteSelection] computes for an active selection whose
    normalized endpoints lie on lines of the store. *)
Lemma DeleteSelection_active (b : Buffer) (sl sc el ec : Z)
    (first last : str) :
  Selection.Active (Selection b) = true ->
  normalize (Selection b) = (sl, sc, el, ec) ->
  index (Lines b) sl = Some first ->
  index (Lines b) el = Some last ->
  0 <= sc -> 0 <= ec ->
  let sc' := if len first <? sc then len first else sc in
  let ec' := if len last <? ec then len last else ec in
  let newLines :=
    take (Z.to_nat sl) (Lines b)
    ++ [take (Z.to_nat sc') first ++ drop (Z.to_nat ec') last]
    ++ drop (Z.to_nat (el + 1)) (Lines b) in
  DeleteSelection b
  = Some (MarkDirtyLines
            (withActive (withCursorY (withCursorX (withLines b newLines) sc')
                           sl) false)
            sl (len newLines - 1)).
Proof.
  intros Ha Hn Hf Hl Hsc Hec. cbv zeta. unfold DeleteSelection.
  rewrite Ha, Hn. cbn [negb]. rewrite Hf, Hl.
  pose proof (index_Some _ _ _ Hf). pose proof (index_Some _ _ _ Hl).
  pose proof (clamp_bounds (len first) sc (len_nonneg _) Hsc).
  pose proof (clamp_bounds (len last) ec (len_nonneg _) Hec).
  rewrite (sliceTo_ok first) by lia.
  rewrite (sliceFrom_ok last) by lia.
  rewrite (sliceTo_ok (Lines b)) by lia.
  rewrite (sliceFrom_ok (Lines b)) by lia.
  reflexivity.
Qed.

Lemma take_app_middle {A : Type} (l : list A) (n : nat) (x : A) (k : list A) :
  (n <= length l)%nat -> (take n l ++ x :: k) !! n = Some x.
Proof.
  intros H. apply list_lookup_middle. rewrite length_take. lia.
Qed.

Lemma DeleteSelection_total (b : Buffer) :
  cursorInBounds b -> selectionInBounds b ->
  exists b', DeleteSelection b = Some b' /\ cursorInBounds b'
             /\ Selection.Active (Selection b') = false.
Proof.
  intros Hc Hs. destruct (Selection.Active (Selection b)) eqn:Ha.
  - destruct (Hs Ha) as (H1 & H2 & H3 & H4).
    destruct (normalize (Selection b)) as [[[sl sc] el] ec] eqn:Hn.
    apply normalize_cases in Hn as Hn'. destruct Hn' as [Hcase Hord].
    assert (Hb : 0 <= sl < len (Lines b) /\ 0 <= el < len (Lines b)
                 /\ 0 <= sc /\ 0 <= ec).
    { destruct Hcase as [Hcase|Hcase]; injection Hcase as -> -> -> ->; lia. }
    destruct Hb as (Hsl & Hel & Hsc & Hec).
    destruct (index_in_range (Lines b) sl Hsl) as [first Hf].
    destruct (index_in_range (Lines b) el Hel) as [last Hl].
    rewrite (DeleteSelection_active b sl sc el ec first last) by assumption.
    eexists. split; [reflexivity|]. split; [|reflexivity].
    pose proof (clamp_bounds (len first) sc (len_nonneg _) Hsc) as Hcl.
    eexists. cbn [Lines CursorX CursorY MarkDirtyLines withDirty withActive
                  withCursorX withCursorY withLines]. split.
    + rewrite index_lookup by lia. cbn [app].
      apply take_app_middle. unfold len in *. lia.
    + rewrite len_app, len_take by lia.
      pose proof (len_nonneg (drop (Z.to_nat (if len last <? ec then len last else ec)) last)).
      lia.
  - exists b. unfold DeleteSelection. rewrite Ha. auto.
Qed.

Lemma deleteIfActive_total (b : Buffer) :
  cursorInBounds b -> selectionInBounds b ->
  exists b', deleteIfActive b = Some b' /\ cursorInBounds b'.
Proof.
  intros Hc Hs. unfold deleteIfActive.
  destruct (Selection.Active (Selection b)) eqn:Ha; [|eauto].
  destruct (DeleteSelection_total b Hc Hs) as (b' & H1 & H2 & _). eauto.
Qed.

Lemma InsertText_total (b : Buffer) (text : str) :
  cursorInBounds b -> exists b', InsertText b text = Some b'.
Proof.
  intros (line & Hl & Hx). unfold InsertText. rewrite Hl.
  pose proof (index_Some _ _ _ Hl) as Hy.
  rewrite (sliceTo_ok line), (sliceFrom_ok line) by lia.
  pose proof (SplitNL_len text) as Hn.
  destruct (Z.eqb_spec (len (strings.SplitNL text)) 1).
  - rewrite store_ok by lia. eauto.
  - destruct (index_in_range (strings.SplitNL text) 0) as [l0 ->]; [lia|].
    rewrite store_ok by lia.
    rewrite sliceTo_ok, sliceFrom_ok
      by (unfold len in *; rewrite length_insert; lia).
    destruct (index_in_range (strings.SplitNL text)
                (len (strings.SplitNL text) - 1)) as [ll ->]; [lia|].
    eauto.
Qed.

Lemma clampCursorX_bounds (b : Buffer) (rs : list rune) :
  0 <= CursorX b -> 0 <= CursorX (clampCursorX b rs) <= len rs.
Proof.
  intros H. unfold clampCursorX. pose proof (len_nonneg rs).
  destruct (Z.ltb_spec (len rs) (CursorX b)); simpl; lia.
Qed.

Lemma insertRune_total (b : Buffer) (r : rune) :
  cursorInBounds b -> selectionInBounds b ->
  exists b', insertRune b r = Some b' /\ 0 <= CursorY b'.
Proof.
  intros Hc Hs. unfold insertRune.
  destruct (deleteIfActive_total b Hc Hs) as (b1 & -> & line & Hl & Hx).
  rewrite Hl. pose proof (index_Some _ _ _ Hl) as Hy.
  destruct (clampCursorX_fields b1 (runes line)) as (HL & HY & _).
  pose proof (clampCursorX_bounds b1 (runes line) ltac:(lia)) as HX.
  rewrite sliceTo_ok, sliceFrom_ok by lia.
  rewrite HL, HY, store_ok by lia.
  eexists. split; [reflexivity|]. simpl. lia.
Qed.

Lemma insertNewline_total (b : Buffer) :
  cursorInBounds b -> selectionInBounds b ->
  exists b', insertNewline b = Some b' /\ 0 <= CursorY b'.
Proof.
  intros Hc Hs. unfold insertNewline.
  destruct (deleteIfActive_total b Hc Hs) as (b1 & -> & line & Hl & Hx).
  rewrite Hl. pose proof (index_Some _ _ _ Hl) as Hy.
  destruct (clampCursorX_fields b1 (runes line)) as (HL & HY & _).
  pose proof (clampCursorX_bounds b1 (runes line) ltac:(lia)) as HX.
  rewrite sliceTo_ok by lia.
  rewrite HL, HY, store_ok by lia.
  cbn [CursorX CursorY Lines withLines withCursorX withCursorY].
  rewrite sliceFrom_ok by lia.
  rewrite sliceTo_ok, sliceFrom_ok
    by (unfold len in *; rewrite length_insert; lia).
  eexists. split; [reflexivity|]. simpl. lia.
Qed.

Lemma deleteBackward_total (b : Buffer) :
  cursorInBounds b -> selectionInBounds b ->
  exists b', deleteBackward b = Some b' /\ 0 <= CursorY b'.
Proof.
  intros Hc Hs. unfold deleteBackward.
  destruct (Selection.Active (Selection b)) eqn:Ha.
  { destruct (DeleteSelection_total b Hc Hs)
      as (b' & -> & (l' & Hl' & _) & _).
    apply index_Some in Hl'. exists b'. split; [reflexivity|lia]. }
  destruct Hc as (line & Hl & Hx). pose proof (index_Some _ _ _ Hl) as Hy.
  destruct (Z.ltb_spec 0 (CursorX b)).
  - rewrite Hl.
    destruct (clampCursorX_fields b (runes line)) as (HL & HY & _).
    pose proof (clampCursorX_bounds b (runes line) ltac:(lia)) as HX.
    destruct (Z.ltb_spec 0 (CursorX (clampCursorX b (runes line)))).
    + rewrite sliceTo_ok, sliceFrom_ok by lia.
      rewrite HL, HY, store_ok by lia.
      eexists. split; [reflexivity|]. simpl. lia.
    + eexists. split; [reflexivity|]. lia.
  - destruct (Z.ltb_spec 0 (CursorY b)); [|exists b; split; [reflexivity|lia]].
    destruct (index_in_range (Lines b) (CursorY b - 1)) as [prev ->]; [lia|].
    cbn [CursorX CursorY Lines withLines withCursorX withCursorY]. rewrite Hl.
    rewrite store_ok by lia. cbn [CursorX CursorY Lines withLines withCursorX withCursorY].
    rewrite sliceTo_ok, sliceFrom_ok
      by (unfold len in *; rewrite length_insert; lia).
    eexists. split; [reflexivity|]. simpl. lia.
Qed.

Lemma deleteForward_total (b : Buffer) :
  cursorInBounds b -> selectionInBounds b ->
  exists b', deleteForward b = Some b'.
Proof.
  intros Hc Hs. unfold deleteForward.
  destruct (Selection.Active (Selection b)) eqn:Ha.
  { destruct (DeleteSelection_total b Hc Hs) as (b' & -> & _). eauto. }
  destruct Hc as (line & Hl & Hx). pose proof (index_Some _ _ _ Hl) as Hy.
  rewrite Hl. destruct (Z.ltb_spec (CursorX b) (len (runes line))).
  - rewrite sliceTo_ok, sliceFrom_ok, store_ok by lia. eauto.
  - destruct (Z.ltb_spec (CursorY b) (len (Lines b) - 1)); [|eauto].
    destruct (index_in_range (Lines b) (CursorY b + 1)) as [next ->]; [lia|].
    rewrite store_ok by lia. cbn [CursorX CursorY Lines withLines withCursorX withCursorY].
    rewrite sliceTo_ok, sliceFrom_ok
      by (unfold len in *; rewrite length_insert; lia).
    eauto.
Qed.

Lemma JumpToSearchMatch_total (e : Editor) :
  0 <= SearchIndex e < len (SearchMatches e) ->
  (forall m, In m (SearchMatches e) -> 0 <= SearchMatch.Line m) ->
  exists e', JumpToSearchMatch e = Some e'.
Proof.
  intros Hi Hm. unfold JumpToSearchMatch.
  destruct (Z.eqb_spec (len (SearchMatches e)) 0); [lia|].
  destruct (index_in_range (SearchMatches e) (SearchIndex e) Hi) as [m Hx].
  rewrite Hx.
  assert (0 <= SearchMatch.Line m).
  { apply Hm. rewrite index_lookup in Hx by lia.
    apply list_elem_of_In, list_elem_of_lookup. eauto. }
  match goal with |- context [ScrollToCursor ?p ?x] =>
    destruct (ScrollToCursor_total p x) as [b' ->]; [simpl; lia|] end.
  eauto.
Qed.

(** ** What the selection functions compute *)

(** Two lines of a list, with what lies before, between and after. *)
Lemma split_two_lines {A : Type} (L : list A) (sl el : Z) :
  0 <= sl -> sl < el -> el < len L ->
  exists pre first mid last post,
    L = pre ++ first :: mid ++ last :: post
    /\ len pre = sl /\ len mid = el - sl - 1
    /\ index L sl = Some first /\ index L el = Some last
    /\ take (Z.to_nat sl) L = pre /\ drop (Z.to_nat (el + 1)) L = post.
Proof.
  intros H1 H2 H3. unfold len in *.
  destruct (lookup_lt_is_Some_2 L (Z.to_nat sl)) as [first Hf]; [lia|].
  destruct (lookup_lt_is_Some_2 L (Z.to_nat el)) as [last Hl]; [lia|].
  exists (take (Z.to_nat sl) L), first,
    (take (Z.to_nat (el - sl - 1)) (drop (S (Z.to_nat sl)) L)), last,
    (drop (S (Z.to_nat el)) L).
  split; [|split; [|split; [|split; [|split; [|split]]]]].
  - rewrite <- (take_drop_middle L (Z.to_nat sl) first Hf) at 1.
    f_equal. f_equal.
    rewrite <- (take_drop (Z.to_nat (el - sl - 1)) (drop (S (Z.to_nat sl)) L))
      at 1.
    f_equal. rewrite drop_drop.
    replace (S (Z.to_nat sl) + Z.to_nat (el - sl - 1))%nat
      with (Z.to_nat el) by lia.
    apply drop_S. exact Hl.
  - rewrite length_take. lia.
  - rewrite length_take, length_drop. lia.
  - rewrite index_lookup by lia. exact Hf.
  - rewrite index_lookup by lia. exact Hl.
  - reflexivity.
  - f_equal. lia.
Qed.

Lemma len_snoc {A : Type} (l : list A) (x : A) : len (l ++ [x]) = len l + 1.
Proof. unfold len. rewrite length_app. simpl. lia. Qed.

Lemma selectedLoop_S (n : nat) (L : list str)
    (sl sc el ec i : Z) (result : str) :
  selectedLoop (S n) L sl sc el ec i result
  = let? line := index L i in
    let? result' :=
      if i =? sl then
        let? part := if sc <? len line then sliceFrom line sc else Some [] in
        Some (result ++ part ++ [NL])
      else if i =? el then
        let ec' := if len line <? ec then len line else ec in
        let? part := sliceTo line ec' in
        Some (result ++ part)
      else Some (result ++ line ++ [NL]) in
    selectedLoop n L sl sc el ec (i + 1) result'.
Proof. reflexivity. Qed.

Lemma selectedLoop_rest (L : list str) (sl sc el ec : Z) (last : str)
    (post : list str) :
  0 <= ec ->
  forall (mid pre : list str) (result : str),
    L = pre ++ mid ++ last :: post ->
    sl < len pre -> el = len pre + len mid ->
    selectedLoop (S (length mid)) L sl sc el ec (len pre) result
    = Some (result ++ concat (map (fun l => l ++ [NL]) mid)
            ++ take (Z.to_nat (if len last <? ec then len last else ec)) last).
Proof.
  intros Hec. induction mid as [|m mid IH]; intros pre result HL Hsl Hel.
  - cbn [length]. rewrite selectedLoop_S. simpl in HL.
    rewrite HL, index_middle.
    unfold len in Hel at 2. simpl in Hel. rewrite Z.add_0_r in Hel.
    destruct (Z.eqb_spec (len pre) sl); [lia|].
    destruct (Z.eqb_spec (len pre) el); [|lia].
    pose proof (clamp_bounds (len last) ec (len_nonneg _) Hec).
    cbv zeta. rewrite sliceTo_ok by lia. reflexivity.
  - cbn [length]. rewrite selectedLoop_S. cbn [app] in HL.
    rewrite HL at 1. rewrite index_middle. rewrite len_cons in Hel.
    pose proof (len_nonneg mid).
    destruct (Z.eqb_spec (len pre) sl); [lia|].
    destruct (Z.eqb_spec (len pre) el); [lia|].
    rewrite <- (len_snoc pre m).
    rewrite (IH (pre ++ [m])).
    + cbn [map concat]. rewrite <- !app_assoc. reflexivity.
    + rewrite HL, <- app_assoc. reflexivity.
    + rewrite len_snoc. lia.
    + rewrite len_snoc. lia.
Qed.

(** [GetSelectedText] on a selection inside one line. *)
Lemma GetSelectedText_one_line (b : Buffer) (sl sc ec : Z) (line : str) :
  Selection.Active (Selection b) = true ->
  normalize (Selection b) = (sl, sc, sl, ec) ->
  index (Lines b) sl = Some line ->
  0 <= sc -> sc <= ec ->
  let sc' := if len line <? sc then len line else sc in
  let ec' := if len line <? ec then len line else ec in
  GetSelectedText b
  = Some (take (Z.to_nat (ec' - sc')) (drop (Z.to_nat sc') line)).
Proof.
  intros Ha Hn Hl Hsc Hord. cbv zeta. unfold GetSelectedText.
  rewrite Ha, Hn. cbn [negb]. rewrite Z.eqb_refl, Hl.
  pose proof (len_nonneg line).
  apply slice_ok;
    destruct (Z.ltb_spec (len line) sc); destruct (Z.ltb_spec (len line) ec);
    lia.
Qed.

(** [GetSelectedText] on a selection that spans several lines. *)
Lemma GetSelectedText_lines (b : Buffer) (sl sc el ec : Z)
    (pre : list str) (first : str) (mid : list str) (last : str)
    (post : list str) :
  Selection.Active (Selection b) = true ->
  normalize (Selection b) = (sl, sc, el, ec) ->
  Lines b = pre ++ first :: mid ++ last :: post ->
  len pre = sl -> len mid = el - sl - 1 ->
  0 <= sc -> 0 <= ec ->
  let sc' := if len first <? sc then len first else sc in
  let ec' := if len last <? ec then len last else ec in
  GetSelectedText b
  = Some (drop (Z.to_nat sc') first ++ [NL]
          ++ concat (map (fun l => l ++ [NL]) mid)
          ++ take (Z.to_nat ec') last).
Proof.
  intros Ha Hn HL Hpre Hmid Hsc Hec. cbv zeta. unfold GetSelectedText.
  rewrite Ha, Hn. cbn [negb]. pose proof (len_nonneg mid).
  pose proof (len_nonneg pre).
  destruct (Z.eqb_spec sl el); [lia|].
  replace (Z.to_nat (el - sl + 1)) with (S (S (length mid)))
    by (unfold len in *; lia).
  rewrite selectedLoop_S. rewrite HL at 1. rewrite <- Hpre at 1.
  rewrite index_middle, Z.eqb_refl.
  assert (Hpart : (if sc <? len first then sliceFrom first sc else Some [])
                  = Some (drop (Z.to_nat (if len first <? sc then len first
                                          else sc)) first)).
  { pose proof (len_nonneg first).
    destruct (Z.ltb_spec sc (len first));
      destruct (Z.ltb_spec (len first) sc); try lia.
    - apply sliceFrom_ok. lia.
    - f_equal. symmetry. apply drop_ge. unfold len. lia.
    - f_equal. symmetry. apply drop_ge. unfold len in *. lia. }
  rewrite Hpart. cbn [app].
  replace (sl + 1) with (len (pre ++ [first])) by (rewrite len_snoc; lia).
  rewrite (selectedLoop_rest (Lines b) sl sc el ec last post Hec
             mid (pre ++ [first])).
  - rewrite <- app_assoc. reflexivity.
  - rewrite HL, <- app_assoc. reflexivity.
  - rewrite len_snoc. lia.
  - rewrite len_snoc. lia.
Qed.

Lemma GetSelectedText_total (b : Buffer) :
  selectionInBounds b -> exists text, GetSelectedText b = Some text.
Proof.
  intros Hs. destruct (Selection.Active (Selection b)) eqn:Ha.
  - destruct (Hs Ha) as (H1 & H2 & H3 & H4).
    destruct (normalize (Selection b)) as [[[sl sc] el] ec] eqn:Hn.
    apply normalize_cases in Hn as Hn'. destruct Hn' as [Hcase Hord].
    assert (Hb : 0 <= sl < len (Lines b) /\ 0 <= el < len (Lines b)
                 /\ 0 <= sc /\ 0 <= ec).
    { destruct Hcase as [Hcase|Hcase]; injection Hcase as -> -> -> ->; lia. }
    destruct Hb as (Hsl & Hel & Hsc & Hec).
    destruct Hord as [Hlt|[-> Hle]].
    + destruct (split_two_lines (Lines b) sl el)
        as (pre & first & mid & last & post & HL & Hp & Hm & _); [lia..|].
      erewrite GetSelectedText_lines by eassumption. eauto.
    + destruct (index_in_range (Lines b) el Hel) as [line Hl].
      erewrite GetSelectedText_one_line by eassumption. eauto.
  - exists []. unfold GetSelectedText. rewrite Ha. reflexivity.
Qed.

Lemma HandleKey_total (e : Editor) (k : Key) :
  wellFormed e -> exists e', HandleKey e k = Some e'.
Proof.
  intros (Hc & Hs & Hi & Hm). unfold HandleKey. destruct k.
  - destruct (Z.ltb_spec 0 (len (SearchMatches e))) as [Hn|Hn];
      rewrite ?andb_false_r.
    + destruct (r =? 110).
      { apply JumpToSearchMatch_total; [|exact Hm].
        cbn [SearchIndex SearchMatches withSearch].
        pose proof (Z.rem_bound_pos (SearchIndex e + 1)
                      (len (SearchMatches e))). lia. }
      destruct (r =? 78).
      { apply JumpToSearchMatch_total; [|exact Hm].
        cbn [SearchIndex SearchMatches withSearch].
        pose proof (Z.rem_bound_pos
                      (SearchIndex e - 1 + len (SearchMatches e))
                      (len (SearchMatches e))). lia. }
      cbn [andb].
      destruct (insertRune_total _ r Hc Hs) as (b' & -> & Hy).
      destruct (ScrollToCursor_total (CurrentPane e) b' Hy) as [b'' ->]. eauto.
    + destruct (insertRune_total _ r Hc Hs) as (b' & -> & Hy).
      destruct (ScrollToCursor_total (CurrentPane e) b' Hy) as [b'' ->]. eauto.
  - destruct (insertNewline_total _ Hc Hs) as (b' & -> & Hy).
    destruct (ScrollToCursor_total (CurrentPane e) b' Hy) as [b'' ->]. eauto.
  - destruct (deleteBackward_total _ Hc Hs) as (b' & -> & Hy).
    destruct (ScrollToCursor_total (CurrentPane e) b' Hy) as [b'' ->]. eauto.
  - destruct (deleteForward_total _ Hc Hs) as (b' & ->). eauto.
  - destruct (deleteIfActive_total _ Hc Hs) as (b' & -> & Hc').
    destruct (InsertText_total b' [x09] Hc') as (b'' & ->). eauto.
  - destruct (Selection.Active _) eqn:Ha; [|eauto].
    destruct (GetSelectedText_total _ Hs) as (text & ->). eauto.
  - destruct (Clipboard e) as [|c0 clip] eqn:Hclip; [eauto|].
    destruct (deleteIfActive_total _ Hc Hs) as (b' & -> & Hc').
    destruct (InsertText_total b' (c0 :: clip) Hc') as (b'' & ->). eauto.
  - destruct (Selection.Active _) eqn:Ha; [|eauto].
    destruct (GetSelectedText_total _ Hs) as (text & ->).
    destruct (DeleteSelection_total _ Hc Hs) as (b' & -> & _). eauto.
Qed.

(** C8.  The line store always holds at least one line.  A new buffer is
    the single empty line; loading returns and leaves at least one line
    (the single empty line for a missing or an empty file); every editing
    key of [HandleKey] (character, Enter, Backspace and Delete with their
    line merges, Tab, copy, paste, cut with its selection delete) that runs
    on a non-empty store leaves a non-empty store, and on a well-formed
    editor it does run to completion. *)
Theorem C8_line_store_never_empty :
  (forall monokai : chroma.Style, Lines (NewBuffer monokai) = [[]])
  /\ (forall (lexersMatch : str -> option chroma.Lexer)
             (lexersFallback : chroma.Lexer)
             (Coalesce : chroma.Lexer -> chroma.Lexer)
             (b : Buffer) (filename : str) (r : ReadResult),
        1 <= len (Lines b) ->
        exists b' err,
          LoadFile lexersMatch lexersFallback Coalesce b filename r
          = Some (b', err)
          /\ 1 <= len (Lines b')
          /\ (r = ReadNotExist \/ r = ReadOk [] -> Lines b' = [[]]))
  /\ (forall (e e' : Editor) (k : Key),
        1 <= len (Lines (CurrentBuffer e)) ->
        HandleKey e k = Some e' ->
        1 <= len (Lines (CurrentBuffer e')))
  /\ (forall (e : Editor) (k : Key),
        wellFormed e ->
        exists e', HandleKey e k = Some e'
                   /\ 1 <= len (Lines (CurrentBuffer e'))).
Proof.
  split; [reflexivity|]. split; [|split].
  - intros lm lf co b filename r Hb. destruct r as [data| |].
    + destruct (LoadFile_ok lm lf co b filename data) as (b' & H & HL).
      exists b', false. split; [exact H|]. split.
      * rewrite HL. apply SplitNL_len.
      * intros [Hr|Hr]; [discriminate Hr|]. injection Hr as ->. exact HL.
    + destruct (LoadFile_not_exist lm lf co b filename) as (b' & H & HL).
      exists b', false. split; [exact H|]. split.
      * rewrite HL. unfold len. simpl. lia.
      * intros _. exact HL.
    + exists b, true. split; [reflexivity|]. split; [exact Hb|].
      intros [Hr|Hr]; discriminate Hr.
  - intros e e' k. apply HandleKey_nonempty.
  - intros e k Hwf. destruct (HandleKey_total e k Hwf) as [e' He'].
    exists e'. split; [exact He'|].
    eapply HandleKey_nonempty; [|exact He'].
    destruct Hwf as ((line & Hl & _) & _). apply index_Some in Hl. lia.
Qed.

Lemma C8_line_store_never_empty_witness :
  1 <= len (Lines (CurrentBuffer
                     (mkEditor
                        (mkBuffer [lit "ab"] [] 1 0 0 0 noSelection None None
                           [] true 0 0)
                        plainPane [] [] 0 []))).
Proof.
  apply (proj1 (proj2 (proj2 C8_line_store_never_empty))
           (plainEditor (plainBuffer [lit "a"; lit "b"] 0 1 noSelection) [])
           (mkEditor
              (mkBuffer [lit "ab"] [] 1 0 0 0 noSelection None None
                 [] true 0 0)
              plainPane [] [] 0 [])
           KeyBackspace).
  - vm_compute. discriminate.
  - vm_compute. reflexivity.
Defined.

(** ** What text insertion computes *)

Lemma sliceTo_app {A : Type} (l k : list A) :
  sliceTo (l ++ k) (len l) = Some l.
Proof.
  rewrite sliceTo_ok.
  - unfold len. rewrite Nat2Z.id, take_app_length. reflexivity.
  - rewrite len_app. pose proof (len_nonneg l). pose proof (len_nonneg k). lia.
Qed.

Lemma sliceFrom_app {A : Type} (l k : list A) :
  sliceFrom (l ++ k) (len l) = Some k.
Proof.
  rewrite sliceFrom_ok.
  - unfold len. rewrite Nat2Z.id, drop_app_length. reflexivity.
  - rewrite len_app. pose proof (len_nonneg l). pose proof (len_nonneg k). lia.
Qed.

Lemma InsertText_one_line (b : Buffer) (text : str)
    (pre : list str) (cur : str) (post : list str) :
  Lines b = pre ++ cur :: post ->
  CursorY b = len pre ->
  0 <= CursorX b <= len cur ->
  len (strings.SplitNL text) = 1 ->
  exists b',
    InsertText b text = Some b'
    /\ Lines b'
       = pre ++ (take (Z.to_nat (CursorX b)) cur ++ text
                 ++ drop (Z.to_nat (CursorX b)) cur) :: post.
Proof.
  intros HL HY HX Hn. unfold InsertText. rewrite Hn, Z.eqb_refl.
  rewrite HL, HY, index_middle.
  rewrite sliceTo_ok, sliceFrom_ok by lia.
  rewrite store_middle. eexists. split; reflexivity.
Qed.

Lemma InsertText_lines (b : Buffer) (text : str)
    (pre : list str) (cur : str) (post : list str)
    (l0 : str) (mid : list str) (ll : str) :
  Lines b = pre ++ cur :: post ->
  CursorY b = len pre ->
  0 <= CursorX b <= len cur ->
  strings.SplitNL text = l0 :: mid ++ [ll] ->
  exists b',
    InsertText b text = Some b'
    /\ Lines b'
       = pre ++ (take (Z.to_nat (CursorX b)) cur ++ l0) :: mid
         ++ (ll ++ drop (Z.to_nat (CursorX b)) cur) :: post.
Proof.
  intros HL HY HX Hs. unfold InsertText. rewrite Hs.
  assert (Hlen : len (l0 :: mid ++ [ll]) = len mid + 2)
    by (rewrite len_cons, len_snoc; lia).
  pose proof (len_nonneg mid) as Hmid.
  destruct (Z.eqb_spec (len (l0 :: mid ++ [ll])) 1); [lia|].
  rewrite HL, HY, index_middle.
  rewrite sliceTo_ok, sliceFrom_ok by lia.
  assert (Hi0 : index (l0 :: mid ++ [ll]) 0 = Some l0) by reflexivity.
  rewrite Hi0, store_middle.
  set (x := (take (Z.to_nat (CursorX b)) cur ++ l0) : str).
  assert (Hm : pre ++ x :: post = (pre ++ [x]) ++ post)
    by (rewrite <- app_assoc; reflexivity).
  rewrite Hm, <- (len_snoc pre x), sliceTo_app, sliceFrom_app.
  assert (Hil : index (l0 :: mid ++ [ll]) (len (l0 :: mid ++ [ll]) - 1)
                = Some ll).
  { replace (len (l0 :: mid ++ [ll]) - 1) with (len (l0 :: mid))
      by (rewrite Hlen, len_cons; lia).
    apply (index_middle (l0 :: mid) [] ll). }
  rewrite Hil. eexists. split; [reflexivity|].
  cbn [Lines withLines withCursorX withCursorY MarkDirtyLines withDirty].
  rewrite <- !app_assoc. cbn [app].
  replace (Z.to_nat (len (l0 :: mid ++ [ll]) - 2)) with (length mid)
    by (unfold len in *; lia).
  change (drop 1 (l0 :: mid ++ [ll])) with (mid ++ [ll]).
  rewrite take_app_length. reflexivity.
Qed.

Lemma SplitNL_joined (a : str) (mid : list str) (z : str) :
  ~ In NL a -> (forall l, In l mid -> ~ In NL l) -> ~ In NL z ->
  strings.SplitNL (a ++ [NL] ++ concat (map (fun l => l ++ [NL]) mid) ++ z)
  = a :: mid ++ [z].
Proof.
  intros Ha Hmid Hz. cbn [app]. rewrite SplitNL_app_NL by exact Ha. f_equal.
  induction mid as [|m mid IH]; cbn [map concat app].
  - apply SplitNL_no_NL. exact Hz.
  - rewrite <- !app_assoc. cbn [app].
    rewrite SplitNL_app_NL by (apply Hmid; left; reflexivity).
    f_equal. apply IH. intros l Hl. apply Hmid. right. exact Hl.
Qed.

Lemma take_mid_drop {A : Type} (l : list A) (a c : nat) :
  (a <= c)%nat ->
  take a l ++ take (c - a) (drop a l) ++ drop c l = l.
Proof.
  intros H.
  replace (drop c l) with (drop (c - a) (drop a l))
    by (rewrite drop_drop; f_equal; lia).
  rewrite (take_drop (c - a) (drop a l)). apply take_drop.
Qed.

Lemma notin_take {A : Type} (c : A) (l : list A) (n : nat) :
  ~ In c l -> ~ In c (take n l).
Proof.
  intros H Hin. apply H. apply list_elem_of_In. apply list_elem_of_In in Hin.
  eapply subseteq_take, Hin.
Qed.

Lemma notin_drop {A : Type} (c : A) (l : list A) (n : nat) :
  ~ In c l -> ~ In c (drop n l).
Proof.
  intros H Hin. apply H. apply list_elem_of_In. apply list_elem_of_In in Hin.
  eapply subseteq_drop, Hin.
Qed.

(** ** Cut and paste *)

(** C1.  Take a buffer whose lines hold no line break and an active
    selection with both endpoints on lines of the store and non-negative
    columns; let [(sl, sc)-(el, ec)] be its normalized endpoints.  Then
    [GetSelectedText] returns a text, [DeleteSelection] returns a buffer
    whose cursor is at the low endpoint (its column clamped to the line),
    and [InsertText] of that text into that buffer returns a buffer whose
    line store is the one before the deletion. *)
Theorem C1_extract_delete_insert_restores_lines
    (b : Buffer) (sl sc el ec : Z) :
  Selection.Active (Selection b) = true ->
  selectionInBounds b ->
  (forall l, In l (Lines b) -> ~ In NL l) ->
  normalize (Selection b) = (sl, sc, el, ec) ->
  exists text b1 b2 first,
    GetSelectedText b = Some text
    /\ DeleteSelection b = Some b1
    /\ index (Lines b) sl = Some first
    /\ CursorY b1 = sl /\ CursorX b1 = Z.min sc (len first)
    /\ InsertText b1 text = Some b2
    /\ Lines b2 = Lines b.
Proof.
  intros Ha Hs Hnl Hn. destruct (Hs Ha) as (H1 & H2 & H3 & H4).
  apply normalize_cases in Hn as Hn'. destruct Hn' as [Hcase Hord].
  assert (Hb : 0 <= sl < len (Lines b) /\ 0 <= el < len (Lines b)
               /\ 0 <= sc /\ 0 <= ec).
  { destruct Hcase as [Hcase|Hcase]; injection Hcase as -> -> -> ->; lia. }
  destruct Hb as (Hsl & Hel & Hsc & Hec).
  destruct Hord as [Hlt|[<- Hle]].
  - (* the selection spans several lines *)
    destruct (split_two_lines (Lines b) sl el)
      as (pre & first & mid & last & post & HL & Hp & Hm & Hf & Hl
          & Hpre & Hpost); [lia..|].
    assert (Hnf : ~ In NL first)
      by (apply Hnl; rewrite HL; apply in_elt).
    assert (Hnlast : ~ In NL last).
    { apply Hnl. rewrite HL. apply in_or_app. right. right.
      apply in_elt. }
    assert (Hnm : forall l, In l mid -> ~ In NL l).
    { intros l Hin. apply Hnl. rewrite HL. apply in_or_app. right. right.
      apply in_or_app. left. exact Hin. }
    pose proof (clamp_bounds (len first) sc (len_nonneg _) Hsc) as Hcs.
    pose proof (clamp_bounds (len last) ec (len_nonneg _) Hec) as Hce.
    set (sc' := if len first <? sc then len first else sc) in *.
    set (ec' := if len last <? ec then len last else ec) in *.
    set (cur := (take (Z.to_nat sc') first ++ drop (Z.to_nat ec') last) : str).
    pose proof (DeleteSelection_active b sl sc el ec first last
                  Ha Hn Hf Hl Hsc Hec) as Hdel.
    cbv zeta in Hdel. fold sc' ec' in Hdel. cbn [app] in Hdel.
    rewrite Hpre, Hpost in Hdel. fold cur in Hdel.
    match type of Hdel with _ = Some ?x => set (b1 := x) in * end.
    destruct (InsertText_lines b1
                (drop (Z.to_nat sc') first ++ [NL]
                 ++ concat (map (fun l => l ++ [NL]) mid)
                 ++ take (Z.to_nat ec') last)
                pre cur post (drop (Z.to_nat sc') first) mid
                (take (Z.to_nat ec') last))
      as (b2 & Hins & HL2).
    + reflexivity.
    + simpl. lia.
    + simpl. subst cur. rewrite len_app, len_take by lia.
      pose proof (len_nonneg (drop (Z.to_nat ec') last)). lia.
    + apply SplitNL_joined;
        [apply notin_drop; exact Hnf | exact Hnm
        | apply notin_take; exact Hnlast].
    + eexists _, b1, b2, first. split.
      { apply (GetSelectedText_lines b sl sc el ec pre first mid last post);
          assumption. }
      split; [exact Hdel|]. split; [exact Hf|]. split; [reflexivity|].
      split; [simpl; subst sc'; destruct (Z.ltb_spec (len first) sc); lia|].
      split; [exact Hins|]. rewrite HL2, HL. simpl CursorX. subst cur.
      rewrite take_app_length', drop_app_length'
        by (rewrite length_take; unfold len in *; lia).
      rewrite !take_drop. reflexivity.
  - (* the selection lies inside one line *)
    destruct (index_in_range (Lines b) sl Hsl) as [line Hl].
    assert (Hnline : ~ In NL line).
    { apply Hnl. rewrite index_lookup in Hl by lia.
      apply list_elem_of_In, list_elem_of_lookup. eauto. }
    pose proof (clamp_bounds (len line) sc (len_nonneg _) Hsc) as Hcs.
    pose proof (clamp_bounds (len line) ec (len_nonneg _) Hec) as Hce.
    pose proof (DeleteSelection_active b sl sc sl ec line line
                  Ha Hn Hl Hl Hsc Hec) as Hdel.
    pose proof (GetSelectedText_one_line b sl sc ec line Ha Hn Hl Hsc Hle)
      as Hget.
    cbv zeta in Hdel, Hget.
    set (sc' := if len line <? sc then len line else sc) in *.
    set (ec' := if len line <? ec then len line else ec) in *.
    assert (Hle' : sc' <= ec').
    { subst sc' ec'. destruct (Z.ltb_spec (len line) sc);
        destruct (Z.ltb_spec (len line) ec); lia. }
    set (cur := (take (Z.to_nat sc') line ++ drop (Z.to_nat ec') line) : str)
      in *.
    set (text := take (Z.to_nat (ec' - sc')) (drop (Z.to_nat sc') line))
      in *.
    cbn [app] in Hdel.
    match type of Hdel with _ = Some ?x => set (b1 := x) in * end.
    destruct (InsertText_one_line b1 text
                (take (Z.to_nat sl) (Lines b)) cur
                (drop (Z.to_nat (sl + 1)) (Lines b)))
      as (b2 & Hins & HL2).
    + reflexivity.
    + simpl. rewrite len_take; lia.
    + simpl. subst cur. rewrite len_app, len_take by lia.
      pose proof (len_nonneg (drop (Z.to_nat ec') line)). lia.
    + rewrite SplitNL_no_NL; [reflexivity|].
      subst text. apply notin_take, notin_drop. exact Hnline.
    + exists text, b1, b2, line. split; [exact Hget|].
      split; [exact Hdel|]. split; [exact Hl|]. split; [reflexivity|].
      split; [simpl; subst sc'; destruct (Z.ltb_spec (len line) sc); lia|].
      split; [exact Hins|]. rewrite HL2. simpl CursorX. subst cur text.
      rewrite take_app_length', drop_app_length'
        by (rewrite length_take; unfold len in *; lia).
      replace (Z.to_nat (ec' - sc')) with (Z.to_nat ec' - Z.to_nat sc')%nat
        by lia.
      rewrite take_mid_drop by lia.
      replace (Z.to_nat (sl + 1)) with (S (Z.to_nat sl)) by lia.
      apply take_drop_middle. rewrite <- index_lookup by lia. exact Hl.
Qed.

Lemma C1_extract_delete_insert_restores_lines_witness :
  let b := plainBuffer [lit "hello"; lit "big"; lit "world"] 2 0
             (Selection.mk 2 3 0 2 true) in
  exists text b1 b2 first,
    GetSelectedText b = Some text
    /\ DeleteSelection b = Some b1
    /\ index (Lines b) 0 = Some first
    /\ CursorY b1 = 0 /\ CursorX b1 = Z.min 2 (len first)
    /\ InsertText b1 text = Some b2
    /\ Lines b2 = Lines b.
Proof.
  apply (C1_extract_delete_insert_restores_lines
           (plainBuffer [lit "hello"; lit "big"; lit "world"] 2 0
              (Selection.mk 2 3 0 2 true)) 0 2 2 3).
  - reflexivity.
  - intros _. vm_compute. repeat split; discriminate.
  - simpl. intros l [<-|[<-|[<-|[]]]] Hin; simpl in Hin;
      repeat (destruct Hin as [Hin|Hin]; [discriminate Hin|]); exact Hin.
  - reflexivity.
Defined.

(** ** The highlight cache outside the refreshed window *)

Lemma countNL_app (s t : str) : countNL (s ++ t) = (countNL s + countNL t)%nat.
Proof. induction s as [|c s IH]; simpl; [reflexivity|]. rewrite IH. lia. Qed.

Lemma countNL_zero (s : str) : ~ In NL s -> countNL s = 0%nat.
Proof.
  induction s as [|c s IH]; intros H; [reflexivity|]. simpl.
  destruct (byte_eqb_spec c NL) as [->|_];
    [exfalso; apply H; left; reflexivity|].
  apply IH. intros Hin. apply H. right. exact Hin.
Qed.

Lemma SplitNL_length (s : str) : length (strings.SplitNL s) = S (countNL s).
Proof.
  induction s as [|c s IH]; [reflexivity|]. simpl.
  destruct (Byte.eqb c NL); simpl; [rewrite IH; reflexivity|].
  destruct (strings.SplitNL s); simpl in *; lia.
Qed.

Lemma countNL_Join (window : list str) :
  (forall l, In l window -> ~ In NL l) ->
  countNL (strings.Join window [NL]) = (length window - 1)%nat.
Proof.
  induction window as [|l rest IH]; intros H; [reflexivity|].
  destruct rest as [|l' rest].
  - simpl. apply countNL_zero. apply H. left. reflexivity.
  - rewrite Join_cons by discriminate. rewrite !countNL_app.
    rewrite (countNL_zero l) by (apply H; left; reflexivity).
    rewrite IH by (intros k Hk; apply H; right; exact Hk).
    simpl. lia.
Qed.

(** The inner loop writes only to lines from [lineNum] to the line it
    ends on, and ends [k] lines further, where [k] counts the parts that
    start a new line. *)
Lemma walkParts_frame (style : tcell.Style) (parts : list str) :
  forall (isFirst : bool) (lineNum col : Z) (cache : Cache),
    0 <= lineNum ->
    let k := if isFirst then (length parts - 1)%nat else length parts in
    let '(lineNum', _, cache') :=
      walkParts style isFirst parts lineNum col cache in
    (parts <> [] \/ isFirst = false -> lineNum' = lineNum + Z.of_nat k)
    /\ lineNum <= lineNum' <= lineNum + Z.of_nat k
    /\ length cache' = length cache
    /\ forall i : nat,
         Z.of_nat i < lineNum \/ lineNum + Z.of_nat k < Z.of_nat i ->
         cache' !! i = cache !! i.
Proof.
  induction parts as [|part rest IH]; intros isFirst lineNum col cache Hl.
  - cbn [walkParts]. destruct isFirst; simpl; repeat split; lia.
  - cbn [walkParts length].
    set (ln := if isFirst then lineNum else lineNum + 1).
    set (c := if isFirst then col else 0).
    set (cache1 := if (ln <? len cache) && (0 <? len part)
                   then alter _ (Z.to_nat ln) cache else cache).
    assert (Hln : 0 <= ln) by (subst ln; destruct isFirst; lia).
    specialize (IH false ln (c + len part) cache1 Hln).
    destruct (walkParts style false rest ln (c + len part) cache1)
      as [[ln' c'] cache'].
    destruct IH as (IH1 & IH2 & IH3 & IH4).
    assert (Hlen1 : length cache1 = length cache).
    { subst cache1. destruct (_ && _); [apply length_alter|reflexivity]. }
    assert (Hk : ln + Z.of_nat (length rest)
                 = lineNum + Z.of_nat (if isFirst then (S (length rest) - 1)%nat
                                       else S (length rest))).
    { subst ln. destruct isFirst; lia. }
    split; [intros _; rewrite IH1 by auto; exact Hk|].
    split; [subst ln; destruct isFirst; lia|].
    split; [lia|].
    intros i Hi. rewrite IH4 by (subst ln; destruct isFirst; lia).
    subst cache1. destruct (_ && _); [|reflexivity].
    apply list_lookup_alter_ne. subst ln. destruct isFirst; lia.
Qed.

Lemma walkTokens_frame (st : chroma.Style) (tokens : list chroma.Token) :
  forall (lineNum col : Z) (cache : Cache),
    0 <= lineNum ->
    length (walkTokens st tokens lineNum col cache) = length cache
    /\ forall i : nat,
         Z.of_nat i < lineNum
         \/ lineNum + Z.of_nat (countNL (concat (map chroma.Value tokens)))
            < Z.of_nat i ->
         walkTokens st tokens lineNum col cache !! i = cache !! i.
Proof.
  induction tokens as [|token rest IH]; intros lineNum col cache Hl.
  - simpl. auto.
  - cbn [walkTokens map concat].
    pose proof (walkParts_frame (tokenStyle st (chroma.TType token))
                  (strings.SplitNL (chroma.Value token)) true lineNum col
                  cache Hl) as Hp.
    destruct (walkParts _ true _ lineNum col cache) as [[ln' c'] cache'].
    cbv zeta in Hp. rewrite SplitNL_length in Hp.
    replace (S (countNL (chroma.Value token)) - 1)%nat
      with (countNL (chroma.Value token)) in Hp by lia.
    destruct Hp as (_ & Hp2 & Hp3 & Hp4).
    destruct (IH ln' c' cache' ltac:(lia)) as (IH1 & IH2).
    split; [lia|]. intros i Hi. rewrite countNL_app in Hi.
    rewrite IH2 by lia. apply Hp4. lia.
Qed.

Lemma clearRange_frame (cache : Cache) (lo hi : Z) :
  length (clearRange cache lo hi) = length cache
  /\ forall i : nat,
       Z.of_nat i < lo \/ hi < Z.of_nat i ->
       clearRange cache lo hi !! i = cache !! i.
Proof.
  unfold clearRange. split; [apply length_imap|].
  intros i Hi. rewrite list_lookup_imap.
  destruct (cache !! i) as [e|]; [|reflexivity]. simpl.
  destruct (Z.leb_spec lo (Z.of_nat i));
    destruct (Z.leb_spec (Z.of_nat i) hi); simpl; try reflexivity; lia.
Qed.

Lemma resizeCache_length (old : Cache) (n : nat) :
  length (resizeCache old n) = n.
Proof.
  unfold resizeCache. rewrite length_app, length_take, length_replicate. lia.
Qed.

Lemma resizeCache_lookup (old : Cache) (n i : nat) :
  (i < n)%nat ->
  resizeCache old n !! i
  = if decide (i < length old)%nat then old !! i else Some [].
Proof.
  intros Hi. unfold resizeCache. destruct (decide (i < length old)%nat).
  - rewrite lookup_app_l by (rewrite length_take; lia).
    apply lookup_take_lt. lia.
  - rewrite lookup_app_r by (rewrite length_take; lia).
    apply lookup_replicate_2. rewrite length_take. lia.
Qed.

Lemma UpdateTokenCacheRange_outside (b b' : Buffer) (s e line col : Z) :
  (forall l, In l (Lines b) -> ~ In NL l) ->
  (forall lexer, Lexer b = Some lexer -> lexerKeepsLines lexer) ->
  UpdateTokenCacheRange b s e = Some b' ->
  Z.max 0 (s - contextLines) <= Z.min (len (Lines b) - 1) (e + contextLines) ->
  0 <= line < len (Lines b) ->
  line < Z.max 0 (s - contextLines)
  \/ Z.min (len (Lines b) - 1) (e + contextLines) < line ->
  GetStyleAt b' line col = GetStyleAt b line col
  /\ forall spans,
       index (TokenCache b) line = Some spans ->
       index (TokenCache b') line = Some spans.
Proof.
  intros Hnl Hlex H Hwin Hline Hout. unfold UpdateTokenCacheRange in H.
  destruct (Lexer b) as [lexer|] eqn:HL; [|injection H as <-; auto].
  destruct (Style b) as [st|]; [|injection H as <-; auto].
  set (lo := Z.max 0 (s - contextLines)) in *.
  set (hi := Z.min (len (Lines b) - 1) (e + contextLines)) in *.
  set (cache0 := if len (TokenCache b) =? len (Lines b) then TokenCache b
                 else resizeCache (TokenCache b) (length (Lines b))) in *.
  destruct (slice (Lines b) lo (hi + 1)) as [window|] eqn:Hs; [|discriminate].
  apply slice_Some in Hs as (Hs1 & Hs2 & Hs3 & Hw).
  assert (Hwlen : length window = Z.to_nat (hi + 1 - lo)).
  { rewrite Hw, length_take, length_drop. unfold len in *. lia. }
  assert (Hwnl : forall l, In l window -> ~ In NL l).
  { intros l Hin. apply Hnl. rewrite Hw in Hin.
    apply list_elem_of_In. apply list_elem_of_In in Hin.
    eapply subseteq_drop, subseteq_take, Hin. }
  destruct (clearRange_frame cache0 lo hi) as (Hc1 & Hc2).
  set (i := Z.to_nat line).
  assert (Hi : Z.of_nat i < lo \/ hi < Z.of_nat i) by (subst i; lia).
  (* the cache of the result agrees with [cache0] at [i] *)
  assert (Hres : length (TokenCache b') = length cache0
                 /\ TokenCache b' !! i = cache0 !! i).
  { destruct (chroma.Tokenise lexer (strings.Join window [NL]))
      as [tokens|] eqn:Ht; injection H as <-; cbn [TokenCache withTokenCache].
    - destruct (walkTokens_frame st tokens lo 0 (clearRange cache0 lo hi)
                  ltac:(lia)) as (Hw1 & Hw2).
      split; [lia|]. rewrite Hw2; [apply Hc2, Hi|].
      pose proof (Hlex lexer eq_refl _ _ Ht) as Hk.
      rewrite countNL_Join in Hk by exact Hwnl. lia.
    - split; [exact Hc1|apply Hc2, Hi]. }
  destruct Hres as (Hlen' & Hlk').
  assert (Hlen0 : length cache0 = length (Lines b)).
  { subst cache0. destruct (Z.eqb_spec (len (TokenCache b)) (len (Lines b)));
      [unfold len in *; lia|apply resizeCache_length]. }
  assert (Hlk0 : cache0 !! i
                 = if decide (i < length (TokenCache b))%nat
                   then TokenCache b !! i else Some []).
  { subst cache0. destruct (Z.eqb_spec (len (TokenCache b)) (len (Lines b))).
    - destruct (decide (i < length (TokenCache b))%nat); [reflexivity|].
      unfold len in *. lia.
    - apply resizeCache_lookup. unfold len in *. lia. }
  unfold GetStyleAt.
  destruct (Z.leb_spec (len (TokenCache b')) line); [unfold len in *; lia|].
  rewrite !index_lookup by lia. fold i. rewrite Hlk', Hlk0.
  destruct (decide (i < length (TokenCache b))%nat) as [Hlt|Hge].
  - destruct (Z.leb_spec (len (TokenCache b)) line); [unfold len in *; lia|].
    auto.
  - destruct (Z.leb_spec (len (TokenCache b)) line); [|unfold len in *; lia].
    split; [reflexivity|]. intros spans Hsp.
    apply lookup_lt_Some in Hsp. lia.
Qed.

(** Only the lines of the window are read. *)
Lemma UpdateTokenCacheRange_reads_window (b : Buffer) (ls : list str)
    (s e : Z) :
  len ls = len (Lines b) ->
  slice ls (Z.max 0 (s - contextLines))
        (Z.min (len (Lines b) - 1) (e + contextLines) + 1)
  = slice (Lines b) (Z.max 0 (s - contextLines))
          (Z.min (len (Lines b) - 1) (e + contextLines) + 1) ->
  option_map TokenCache (UpdateTokenCacheRange (withLines b ls) s e)
  = option_map TokenCache (UpdateTokenCacheRange b s e).
Proof.
  intros Hlen Hsl. unfold UpdateTokenCacheRange.
  cbn [Lexer Style Lines TokenCache withLines].
  destruct (Lexer b) as [lexer|]; [|reflexivity].
  destruct (Style b) as [st|]; [|reflexivity].
  rewrite Hlen, Hsl.
  replace (length ls) with (length (Lines b)) by (unfold len in Hlen; lia).
  destruct (slice (Lines b) _ _); [|reflexivity].
  destruct (chroma.Tokenise lexer _); reflexivity.
Qed.

(** The buffer of the example is reached from its file: loading it (with
    the line-end normalising lexer as the fallback lexer), inserting "a"
    at the start of line 61, refreshing, and inserting "x" at the start
    of line 10. *)
Lemma carriageReturnDocument_is_reached :
  exists opened inserted refreshed : Buffer,
    LoadFile (fun _ => None) lineFeedLexer (fun l => l) (NewBuffer oneColour)
      (lit "f.txt") (ReadOk carriageReturnFile) = Some (opened, false)
    /\ InsertText (withCursorY opened 61) (lit "a") = Some inserted
    /\ RefreshIfDirty inserted = Some refreshed
    /\ InsertText (withCursorX (withCursorY refreshed 10) 0) (lit "x")
       = Some carriageReturnDocument.
Proof.
  do 3 eexists. split; [vm_compute; reflexivity|].
  split; [vm_compute; reflexivity|].
  split; [vm_compute; reflexivity|].
  vm_compute. reflexivity.
Qed.

(** C5 (the code departs from the claim).  The loop that clears the rows
    of the window stops at the window's last line, but the walk over the
    tokens is bounded by the length of the cache only.  When the token
    stream has more line breaks than the window's text, the walk runs past
    the window and appends spans to rows that were not cleared.  Take a
    document of 63 lines whose line 10 holds a carriage return on its own
    and a lexer that reads it as a line break: with line 10 dirty the
    window is lines 0 to 60, and the refresh appends the span of line 60
    ("abc") to the cached spans of line 61, outside the window; the style
    at column 1 of line 61 was the default style and is the token's style
    afterwards. *)
Theorem C5_refresh_writes_below_the_window :
  let b := carriageReturnDocument in
  Dirty b = true /\ DirtyLineStart b = 10 /\ DirtyLineEnd b = 10
  /\ len (Lines b) = 63
  /\ index (Lines b) 10 = Some (lit "xa" ++ [CR] ++ lit "b")
  /\ Z.max 0 (DirtyLineStart b - contextLines) = 0
  /\ Z.min (len (Lines b) - 1) (DirtyLineEnd b + contextLines) = 60
  /\ exists b',
       RefreshIfDirty b = Some b'
       /\ Lines b' = Lines b
       /\ index (TokenCache b) 61 = Some [textSpan 1]
       /\ index (TokenCache b') 61 = Some [textSpan 1; textSpan 3]
       /\ GetStyleAt b 61 1 = Some tcell.StyleDefault
       /\ GetStyleAt b' 61 1
          = Some (tcell.mkStyle (tcell.RGBColor 248 248 242) false false).
Proof.
  cbv zeta. do 7 (split; [vm_compute; reflexivity|]).
  eexists. split; [vm_compute; reflexivity|].
  repeat split; vm_compute; reflexivity.
Qed.

(** * Further properties of the code *)

(** ** The selection test *)

(** X1.  For an active selection with normalized endpoints
    [(sl, sc)-(el, ec)], a cell is selected exactly when it lies in the
    half-open range: at or after the low endpoint and strictly before the
    high endpoint, in line-then-column order.  The test does not depend on
    the direction in which the selection was made, and an inactive
    selection selects nothing. *)
Theorem X1_isSelected_is_the_half_open_range (b : Buffer) (line col : Z) :
  (forall sl sc el ec : Z,
     Selection.Active (Selection b) = true ->
     normalize (Selection b) = (sl, sc, el, ec) ->
     (isSelected b line col = true
      <-> (sl < line \/ (sl = line /\ sc <= col))
          /\ (line < el \/ (line = el /\ col < ec))))
  /\ isSelected
       (withSelection b
          (Selection.mk (Selection.EndLine (Selection b))
             (Selection.EndCol (Selection b))
             (Selection.StartLine (Selection b))
             (Selection.StartCol (Selection b))
             (Selection.Active (Selection b)))) line col
     = isSelected b line col
  /\ (Selection.Active (Selection b) = false -> isSelected b line col = false).
Proof.
  split; [|split].
  - intros sl sc el ec Ha Hn. unfold isSelected. rewrite Ha, Hn. cbn [negb].
    apply normalize_cases in Hn as [_ Hord].
    destruct (Z.ltb_spec line sl); destruct (Z.ltb_spec el line);
      destruct (Z.eqb_spec line sl); destruct (Z.eqb_spec line el);
      cbn [orb andb];
      try destruct (Z.leb_spec sc col); try destruct (Z.ltb_spec col ec);
      cbn [andb]; split; try discriminate; try lia; auto.
  - unfold isSelected, normalize. destruct (Selection b) as [a c d f g].
    cbn [Selection withSelection Selection.Active Selection.StartLine
         Selection.StartCol Selection.EndLine Selection.EndCol].
    destruct g; [|reflexivity]. cbn [negb].
    destruct (Z.ltb_spec d a); destruct (Z.eqb_spec a d);
      destruct (Z.ltb_spec f c); destruct (Z.ltb_spec a d);
      destruct (Z.eqb_spec d a); destruct (Z.ltb_spec c f);
      cbn [orb andb]; try lia; try reflexivity; subst;
      destruct (Z.ltb_spec line d); destruct (Z.ltb_spec d line);
      destruct (Z.eqb_spec line d); cbn [orb andb]; try lia; try reflexivity;
      destruct (Z.leb_spec f col); destruct (Z.ltb_spec col c);
      destruct (Z.leb_spec c col); destruct (Z.ltb_spec col f);
      cbn [andb]; try lia; reflexivity.
  - intros Ha. unfold isSelected. rewrite Ha. reflexivity.
Qed.

Lemma X1_isSelected_is_the_half_open_range_witness :
  isSelected (plainBuffer [lit "hello"; lit "big"; lit "world"] 2 0
                (Selection.mk 2 3 0 2 true)) 1 7 = true
  <-> (0 < 1 \/ (0 = 1 /\ 2 <= 7)) /\ (1 < 2 \/ (1 = 2 /\ 7 < 3)).
Proof.
  apply (proj1 (X1_isSelected_is_the_half_open_range
                  (plainBuffer [lit "hello"; lit "big"; lit "world"] 2 0
                     (Selection.mk 2 3 0 2 true)) 1 7) 0 2 2 3).
  - reflexivity.
  - reflexivity.
Defined.

(** ** Word motion to the left *)

Lemma lookup_rev {A : Type} (l : list A) (k : nat) :
  (k < length l)%nat -> rev l !! k = l !! (length l - S k)%nat.
Proof.
  induction l as [|a l IH]; intros Hk; [simpl in Hk; lia|].
  cbn [rev length]. destruct (decide (k < length l)%nat) as [Hlt|Hge].
  - rewrite lookup_app_l by (rewrite length_rev; exact Hlt).
    rewrite IH by exact Hlt.
    replace (S (length l) - S k)%nat with (S (length l - S k)) by lia.
    reflexivity.
  - rewrite lookup_app_r by (rewrite length_rev; lia).
    rewrite length_rev. simpl in Hk.
    replace (k - length l)%nat with 0%nat by lia.
    replace (S (length l) - S k)%nat with 0%nat by lia. reflexivity.
Qed.

Lemma skipLeft_run (p : rune -> bool) (before : list rune) (x : Z) :
  let x' := skipLeft p before x in
  x - len before <= x' <= x
  /\ (forall (k : nat) (ch : rune),
        (k < Z.to_nat (x - x'))%nat -> before !! k = Some ch -> p ch = true)
  /\ (forall ch : rune, before !! Z.to_nat (x - x') = Some ch -> p ch = false).
Proof.
  revert x. induction before as [|c before IH]; intros x; cbn [skipLeft].
  - rewrite Z.sub_diag. unfold len. simpl. repeat split; try lia.
    intros ch H. discriminate H.
  - destruct (p c) eqn:Hp.
    + destruct (IH (x - 1)) as (H1 & H2 & H3). rewrite len_cons.
      split; [lia|]. split.
      * intros [|k] ch Hk Hl; [simpl in Hl; congruence|].
        simpl in Hl. apply (H2 k); [lia|exact Hl].
      * intros ch Hl.
        replace (Z.to_nat (x - skipLeft p before (x - 1)))
          with (S (Z.to_nat (x - 1 - skipLeft p before (x - 1))))
          in Hl by lia.
        apply H3. exact Hl.
    + rewrite Z.sub_diag, len_cons. pose proof (len_nonneg before).
      split; [lia|]. split; [intros k ch Hk; simpl in Hk; lia|].
      simpl. congruence.
Qed.

Lemma skipLeft_beginsRun (p : rune -> bool) (rs : list rune) (x : Z) :
  0 <= x <= len rs ->
  beginsRun p rs x (skipLeft p (rev (take (Z.to_nat x) rs)) x).
Proof.
  intros Hx.
  destruct (skipLeft_run p (rev (take (Z.to_nat x) rs)) x) as (H1 & H2 & H3).
  set (x' := skipLeft p (rev (take (Z.to_nat x) rs)) x) in *.
  assert (Hlen : length (take (Z.to_nat x) rs) = Z.to_nat x)
    by (rewrite length_take; unfold len in Hx; lia).
  assert (Hlen' : len (rev (take (Z.to_nat x) rs)) = x)
    by (unfold len; rewrite length_rev, Hlen; lia).
  assert (Hlk : forall k : nat, (k < Z.to_nat x)%nat ->
            rev (take (Z.to_nat x) rs) !! k = rs !! (Z.to_nat x - S k)%nat).
  { intros k Hk. rewrite lookup_rev by lia. rewrite Hlen.
    apply lookup_take_lt. lia. }
  split; [lia|]. split.
  - intros i ch Hi Hl. rewrite index_lookup in Hl by lia.
    apply (H2 (Z.to_nat (x - 1 - i))); [lia|].
    rewrite Hlk by lia. rewrite <- Hl. f_equal. lia.
  - intros ch Hl. apply index_Some in Hl as Hr.
    rewrite index_lookup in Hl by lia.
    apply H3. rewrite Hlk by lia. rewrite <- Hl. f_equal. lia.
Qed.

(** X2.  From a cursor at a positive column [MoveWordLeft] first clamps
    the column to the line length in runes, then goes left over the
    maximal run of non-word characters before the cursor (possibly empty)
    and then over the maximal run of word characters before that, staying
    on its line; at column 0 of a line that is not the first it moves to
    the end of the previous line and skips nothing; at column 0 of the
    first line it does not move. *)
Theorem X2_moveWordLeft_skips_nonword_then_word
    (IsLetter IsDigit : rune -> bool) (b : Buffer) (line : str) :
  index (Lines b) (CursorY b) = Some line ->
  (0 < CursorX b ->
   exists m x',
     MoveWordLeft IsLetter IsDigit b = Some (withCursorX b x')
     /\ beginsRun (fun ch => negb (isWordChar IsLetter IsDigit ch))
          (runes line) (Z.min (CursorX b) (len (runes line))) m
     /\ beginsRun (isWordChar IsLetter IsDigit) (runes line) m x')
  /\ (CursorX b = 0 -> 0 < CursorY b ->
      exists prev,
        index (Lines b) (CursorY b - 1) = Some prev
        /\ MoveWordLeft IsLetter IsDigit b
           = Some (withCursorX (withCursorY b (CursorY b - 1))
                     (len (runes prev))))
  /\ (CursorX b = 0 -> CursorY b <= 0 ->
      MoveWordLeft IsLetter IsDigit b = Some b).
Proof.
  intros Hl. unfold MoveWordLeft. rewrite Hl.
  pose proof (index_Some _ _ _ Hl) as Hy. repeat split.
  - intros Hx. destruct (Z.eqb_spec (CursorX b) 0); [lia|].
    pose proof (len_nonneg (runes line)) as Hn.
    set (x0 := if len (runes line) <? CursorX b then len (runes line)
               else CursorX b).
    assert (Hx0 : x0 = Z.min (CursorX b) (len (runes line)))
      by (subst x0; destruct (Z.ltb_spec (len (runes line)) (CursorX b)); lia).
    pose proof (skipLeft_beginsRun
                  (fun ch => negb (isWordChar IsLetter IsDigit ch))
                  (runes line) x0 ltac:(lia)) as Hm.
    set (m := skipLeft _ (rev (take (Z.to_nat x0) (runes line))) x0) in *.
    assert (Hm' := Hm). destruct Hm' as (Hm1 & _).
    pose proof (skipLeft_beginsRun (isWordChar IsLetter IsDigit)
                  (runes line) m ltac:(lia)) as Hx'.
    eexists m, _. split; [reflexivity|]. rewrite <- Hx0. split; assumption.
  - intros Hx Hy0. destruct (Z.eqb_spec (CursorX b) 0); [|lia].
    destruct (Z.ltb_spec 0 (CursorY b)); [|lia].
    destruct (index_in_range (Lines b) (CursorY b - 1)) as [prev Hp]; [lia|].
    exists prev. rewrite Hp. auto.
  - intros Hx Hy0. destruct (Z.eqb_spec (CursorX b) 0); [|lia].
    destruct (Z.ltb_spec 0 (CursorY b)); [lia|]. reflexivity.
Qed.

Lemma X2_moveWordLeft_skips_nonword_then_word_witness :
  let b := plainBuffer [lit "e"; lit "ab  cd"] 4 1 noSelection in
  (0 < CursorX b ->
   exists m x',
     MoveWordLeft asciiIsLetter asciiIsDigit b = Some (withCursorX b x')
     /\ beginsRun (fun ch => negb (isWordChar asciiIsLetter asciiIsDigit ch))
          (runes (lit "ab  cd"))
          (Z.min (CursorX b) (len (runes (lit "ab  cd")))) m
     /\ beginsRun (isWordChar asciiIsLetter asciiIsDigit)
          (runes (lit "ab  cd")) m x')
  /\ (CursorX b = 0 -> 0 < CursorY b ->
      exists prev,
        index (Lines b) (CursorY b - 1) = Some prev
        /\ MoveWordLeft asciiIsLetter asciiIsDigit b
           = Some (withCursorX (withCursorY b (CursorY b - 1))
                     (len (runes prev))))
  /\ (CursorX b = 0 -> CursorY b <= 0 ->
      MoveWordLeft asciiIsLetter asciiIsDigit b = Some b).
Proof.
  apply (X2_moveWordLeft_skips_nonword_then_word asciiIsLetter asciiIsDigit
           (plainBuffer [lit "e"; lit "ab  cd"] 4 1 noSelection)
           (lit "ab  cd")).
  reflexivity.
Defined.

(** ** Scrolling brings the cursor into view *)

Lemma charToVisualCol_Lines (b1 b2 : Buffer) (line charCol : Z) :
  Lines b1 = Lines b2 ->
  charToVisualCol b1 line charCol = charToVisualCol b2 line charCol.
Proof. intros H. unfold charToVisualCol. rewrite H. reflexivity. Qed.

Lemma ScrollToCursor_visible (pane : Pane) (b : Buffer) (v : Z) :
  charToVisualCol b (CursorY b) (CursorX b) = Some v ->
  OffsetY b <= CursorY b < OffsetY b + Height pane ->
  OffsetX b <= v < OffsetX b + Z.max 1 (Width pane - GutterWidth pane) ->
  ScrollToCursor pane b = Some b.
Proof.
  intros Hv Hy Hx. unfold ScrollToCursor. cbv zeta.
  destruct (Z.ltb_spec (CursorY b) (OffsetY b)); [lia|].
  destruct (Z.leb_spec (OffsetY b + Height pane) (CursorY b)); [lia|].
  rewrite Hv.
  destruct (Z.ltb_spec v (OffsetX b)); [lia|].
  destruct (Z.ltb_spec (Width pane - GutterWidth pane) 1);
    match goal with |- context [?a <=? v] => destruct (Z.leb_spec a v) end;
    try lia; reflexivity.
Qed.

(** Whatever [ScrollToCursor] returns is its argument with new offsets:
    the text, file name, cursor, selection, lexer, style, cache and dirty
    range are the argument's. *)
Lemma ScrollToCursor_offsets_only (pane : Pane) (b b' : Buffer) :
  ScrollToCursor pane b = Some b' ->
  b' = withOffsetX (withOffsetY b (OffsetY b')) (OffsetX b').
Proof.
  unfold ScrollToCursor. destruct b as [ls f cx cy ox oy sel lx st tc d ds de].
  cbn [CursorY CursorX OffsetY OffsetX withOffsetY withOffsetX Lines Filename
       Selection Lexer Style TokenCache Dirty DirtyLineStart DirtyLineEnd].
  destruct (cy <? oy); [|destruct (oy + Height pane <=? cy)];
    cbn [CursorY CursorX OffsetY OffsetX withOffsetY withOffsetX Lines
         Filename Selection Lexer Style TokenCache Dirty DirtyLineStart
         DirtyLineEnd];
    (destruct (charToVisualCol _ cy cx) as [v|]; [|discriminate]);
    (destruct (v <? ox); [|destruct (_ <=? v)]);
    intros [= <-]; reflexivity.
Qed.

(** X3.  In a pane at least one row high, for a cursor on a non-negative
    line, [ScrollToCursor] returns a buffer that differs only in its
    offsets (it is the argument with the two offsets replaced: text, file
    name, cursor, selection, lexer, style, cache and dirty range are kept)
    and in which the cursor is in view: its line is within the
    [Height] rows from the vertical offset and its visual column within
    the text width (pane width minus gutter, at least 1) from the
    horizontal offset.  A cursor already in view moves nothing, so
    scrolling twice is scrolling once. *)
Theorem X3_scrollToCursor_brings_cursor_into_view (pane : Pane) (b : Buffer) :
  0 <= CursorY b -> 1 <= Height pane ->
  exists b' v,
    ScrollToCursor pane b = Some b'
    /\ charToVisualCol b (CursorY b) (CursorX b) = Some v
    /\ b' = withOffsetX (withOffsetY b (OffsetY b')) (OffsetX b')
    /\ Lines b' = Lines b /\ CursorX b' = CursorX b /\ CursorY b' = CursorY b
    /\ Filename b' = Filename b /\ Selection b' = Selection b
    /\ Lexer b' = Lexer b /\ Style b' = Style b
    /\ TokenCache b' = TokenCache b
    /\ Dirty b' = Dirty b /\ DirtyLineStart b' = DirtyLineStart b
    /\ DirtyLineEnd b' = DirtyLineEnd b
    /\ OffsetY b' <= CursorY b < OffsetY b' + Height pane
    /\ OffsetX b' <= v
       < OffsetX b' + Z.max 1 (Width pane - GutterWidth pane)
    /\ (OffsetY b <= CursorY b < OffsetY b + Height pane ->
        OffsetX b <= v < OffsetX b + Z.max 1 (Width pane - GutterWidth pane) ->
        b' = b)
    /\ ScrollToCursor pane b' = Some b'.
Proof.
  intros Hy Hh.
  destruct (charToVisualCol_total b (CursorY b) (CursorX b) Hy) as [v Hv].
  destruct (ScrollToCursor_total pane b Hy) as [b' Hb'].
  exists b', v. split; [exact Hb'|]. split; [exact Hv|].
  destruct (ScrollToCursor_fields pane b b' Hb') as (HL & HX & HY & _).
  pose proof (ScrollToCursor_offsets_only pane b b' Hb') as Hoff.
  split; [exact Hoff|].
  split; [exact HL|]. split; [exact HX|]. split; [exact HY|].
  do 8 (split; [rewrite Hoff; reflexivity|]).
  assert (Hpost : OffsetY b' <= CursorY b < OffsetY b' + Height pane
                  /\ OffsetX b' <= v
                     < OffsetX b' + Z.max 1 (Width pane - GutterWidth pane)).
  { unfold ScrollToCursor in Hb'. cbv zeta in Hb'.
    set (b1 := if CursorY b <? OffsetY b then _ else _) in Hb'.
    assert (H1 : Lines b1 = Lines b /\ CursorX b1 = CursorX b
                 /\ CursorY b1 = CursorY b /\ OffsetX b1 = OffsetX b
                 /\ OffsetY b1 <= CursorY b < OffsetY b1 + Height pane).
    { subst b1. destruct (Z.ltb_spec (CursorY b) (OffsetY b));
        [simpl; repeat split; lia|].
      destruct (Z.leb_spec (OffsetY b + Height pane) (CursorY b)); simpl;
        repeat split; lia. }
    destruct H1 as (E1 & E2 & E3 & E4 & E5).
    rewrite E2, E3, (charToVisualCol_Lines b1 b _ _ E1), Hv in Hb'.
    destruct (Z.ltb_spec v (OffsetX b1)).
    { injection Hb' as <-. simpl. lia. }
    destruct (Z.ltb_spec (Width pane - GutterWidth pane) 1);
      match type of Hb' with context [?a <=? v] =>
        destruct (Z.leb_spec a v) end;
      injection Hb' as <-; simpl; lia. }
  destruct Hpost as (Hpy & Hpx). split; [exact Hpy|]. split; [exact Hpx|].
  split.
  - intros Hvy Hvx.
    rewrite (ScrollToCursor_visible pane b v Hv Hvy Hvx) in Hb'.
    congruence.
  - apply (ScrollToCursor_visible pane b' v).
    + rewrite HX, HY, (charToVisualCol_Lines b' b _ _ HL). exact Hv.
    + rewrite HY. exact Hpy.
    + exact Hpx.
Qed.

Lemma X3_scrollToCursor_brings_cursor_into_view_witness :
  let b := plainBuffer (replicate 100 ([x09] ++ lit "x")) 2 70 noSelection in
  exists b' v,
    ScrollToCursor (mkPane 0 0 6 24 4) b = Some b'
    /\ charToVisualCol b 70 2 = Some v
    /\ b' = withOffsetX (withOffsetY b (OffsetY b')) (OffsetX b')
    /\ Lines b' = Lines b /\ CursorX b' = 2 /\ CursorY b' = 70
    /\ Filename b' = Filename b /\ Selection b' = Selection b
    /\ Lexer b' = Lexer b /\ Style b' = Style b
    /\ TokenCache b' = TokenCache b
    /\ Dirty b' = Dirty b /\ DirtyLineStart b' = DirtyLineStart b
    /\ DirtyLineEnd b' = DirtyLineEnd b
    /\ OffsetY b' <= 70 < OffsetY b' + 24
    /\ OffsetX b' <= v < OffsetX b' + Z.max 1 (6 - 4)
    /\ (OffsetY b <= 70 < OffsetY b + 24 ->
        OffsetX b <= v < OffsetX b + Z.max 1 (6 - 4) -> b' = b)
    /\ ScrollToCursor (mkPane 0 0 6 24 4) b' = Some b'.
Proof.
  apply (X3_scrollToCursor_brings_cursor_into_view (mkPane 0 0 6 24 4)
           (plainBuffer (replicate 100 ([x09] ++ lit "x")) 2 70 noSelection)).
  - simpl. lia.
  - simpl. lia.
Defined.

(** ** Layout *)

(** X4.  [UpdatePaneSizes] keeps the buffers, the active index and the
    split kind, and is idempotent.  A single pane gets the whole edit area
    (the screen minus two rows).  Two panes tile it exactly: stacked for a
    horizontal split (same width, the second starts where the first ends,
    heights add up to the edit height), side by side otherwise (same
    height, the second starts where the first ends, widths add up to the
    screen width); on a non-negative extent the first part is the smaller
    one, by at most one cell. *)
Theorem X4_updatePaneSizes_tiles_the_edit_area (w h : Z) (l : Layout) :
  UpdatePaneSizes w h (UpdatePaneSizes w h l) = UpdatePaneSizes w h l
  /\ map PaneBuffer (Panes (UpdatePaneSizes w h l)) = map PaneBuffer (Panes l)
  /\ ActivePane (UpdatePaneSizes w h l) = ActivePane l
  /\ Split (UpdatePaneSizes w h l) = Split l
  /\ (forall p0, Panes l = [p0] ->
      map Geometry (Panes (UpdatePaneSizes w h l))
      = [mkPane 0 0 w (h - 2) (GutterWidth (Geometry p0))])
  /\ (forall p0 p1, Panes l = [p0; p1] ->
      exists g0 g1,
        map Geometry (Panes (UpdatePaneSizes w h l)) = [g0; g1]
        /\ X g0 = 0 /\ Y g0 = 0
        /\ (Split l = SplitHorizontal ->
            X g1 = 0 /\ Width g0 = w /\ Width g1 = w
            /\ Y g1 = Height g0 /\ Height g0 + Height g1 = h - 2
            /\ (0 <= h - 2 ->
                0 <= Height g0 <= Height g1 /\ Height g1 <= Height g0 + 1))
        /\ (Split l <> SplitHorizontal ->
            Y g1 = 0 /\ Height g0 = h - 2 /\ Height g1 = h - 2
            /\ X g1 = Width g0 /\ Width g0 + Width g1 = w
            /\ (0 <= w ->
                0 <= Width g0 <= Width g1 /\ Width g1 <= Width g0 + 1))).
Proof.
  unfold UpdatePaneSizes.
  destruct (Panes l) as [|p0 [|p1 [|p2 rest]]] eqn:HP.
  - rewrite HP. repeat split; try discriminate. 
  - cbn [Panes]. repeat split; try discriminate.
    intros q [= <-]. reflexivity.
  - destruct (Split l) eqn:HS; cbn [Panes Split ActivePane];
      (split; [reflexivity|]); (split; [reflexivity|]);
      (split; [reflexivity|]); (split; [reflexivity|]);
      (split; [discriminate|]); intros q0 q1 [= <- <-];
      do 2 eexists; (split; [reflexivity|]); cbn [place Geometry X Y Width Height];
      (split; [reflexivity|]); (split; [reflexivity|]);
      (split; [intros Hh; try discriminate Hh | intros Hh; try congruence]).
    + repeat split; try lia.
      * pose proof (Z.quot_pos w 2). pose proof (Z.quot_rem' w 2).
        pose proof (Z.rem_bound_pos w 2). lia.
      * pose proof (Z.quot_rem' w 2). pose proof (Z.rem_bound_pos w 2). lia.
      * pose proof (Z.quot_rem' w 2). pose proof (Z.rem_bound_pos w 2). lia.
    + repeat split; try lia.
      * pose proof (Z.quot_pos (h - 2) 2). lia.
      * pose proof (Z.quot_rem' (h - 2) 2).
        pose proof (Z.rem_bound_pos (h - 2) 2). lia.
      * pose proof (Z.quot_rem' (h - 2) 2).
        pose proof (Z.rem_bound_pos (h - 2) 2). lia.
    + repeat split; try lia.
      * pose proof (Z.quot_pos w 2). pose proof (Z.quot_rem' w 2).
        pose proof (Z.rem_bound_pos w 2). lia.
      * pose proof (Z.quot_rem' w 2). pose proof (Z.rem_bound_pos w 2). lia.
      * pose proof (Z.quot_rem' w 2). pose proof (Z.rem_bound_pos w 2). lia.
  - rewrite HP. repeat split; try discriminate.
Qed.

(** X5.  On a layout of one or two panes with a valid active index:
    splitting keeps it so, adds one pane bound to a fresh buffer after the
    existing one when there was a single pane, and does nothing when there
    are already two; closing returns, keeps it so, does nothing on a
    single pane and otherwise removes exactly the active pane, leaving the
    other one active with no split; switching panes keeps it so and, done
    twice, comes back to the same layout. *)
Theorem X5_layout_has_one_or_two_panes
    (kind : SplitType) (monokai : chroma.Style) (l : Layout) :
  layoutOk l ->
  layoutOk (splitPane kind monokai l)
  /\ (len (Panes l) = 1 ->
      exists p, Panes (splitPane kind monokai l) = Panes l ++ [p]
                /\ PaneBuffer p = NewBuffer monokai
                /\ Split (splitPane kind monokai l) = kind
                /\ ActivePane (splitPane kind monokai l) = ActivePane l)
  /\ (len (Panes l) = 2 -> splitPane kind monokai l = l)
  /\ (exists l',
        closePane l = Some l' /\ layoutOk l'
        /\ (len (Panes l) = 1 -> l' = l)
        /\ (forall p0 p1, Panes l = [p0; p1] ->
            Panes l' = [if ActivePane l =? 0 then p1 else p0]
            /\ ActivePane l' = 0 /\ Split l' = SplitNone))
  /\ layoutOk (nextPane l)
  /\ nextPane (nextPane l) = l.
Proof.
  intros ((H1 & H2) & Ha). unfold layoutOk, splitPane, closePane, nextPane.
  destruct l as [panes active split]. cbn [Panes ActivePane Split] in *.
  destruct panes as [|p0 [|p1 [|p2 rest]]];
    unfold len in *; cbn [length] in *; try lia.
  - (* one pane *)
    assert (active = 0) as -> by lia. cbn.
    repeat split; try lia; try discriminate.
    + intros _. eexists. repeat split.
    + eexists. repeat split; simpl; try lia; congruence.
  - (* two panes *)
    assert (Hact : active = 0 \/ active = 1) by lia.
    destruct Hact as [-> | ->]; cbn.
    + repeat split; try lia; try discriminate.
      eexists. repeat split; simpl; try lia; congruence.
    + repeat split; try lia; try discriminate.
      eexists. repeat split; simpl; try lia; congruence.
Qed.

Lemma X5_layout_has_one_or_two_panes_witness :
  let l := mkLayout
             [mkBoundPane plainPane (plainBuffer [lit "a"] 0 0 noSelection);
              mkBoundPane plainPane (plainBuffer [lit "b"] 0 0 noSelection)]
             1 SplitVertical in
  exists l',
    closePane l = Some l'
    /\ Panes l'
       = [mkBoundPane plainPane (plainBuffer [lit "a"] 0 0 noSelection)]
    /\ ActivePane l' = 0 /\ Split l' = SplitNone.
Proof.
  cbv zeta.
  destruct (X5_layout_has_one_or_two_panes SplitHorizontal noStyle
              (mkLayout
                 [mkBoundPane plainPane (plainBuffer [lit "a"] 0 0 noSelection);
                  mkBoundPane plainPane (plainBuffer [lit "b"] 0 0 noSelection)]
                 1 SplitVertical))
    as (_ & _ & _ & (l' & Hc & _ & _ & H2) & _).
  - unfold layoutOk, len. simpl. lia.
  - exists l'. split; [exact Hc|]. exact (H2 _ _ eq_refl).
Defined.

(** ** Going to a line *)

Lemma wrapInt_id (z : Z) : minInt <= z <= maxInt -> wrapInt z = z.
Proof.
  unfold wrapInt, minInt, maxInt. intros H.
  rewrite Z.mod_small by lia. lia.
Qed.

Lemma wrapInt_below : wrapInt (minInt - 1) = maxInt.
Proof. reflexivity. Qed.

(** X6.  Let the line store be non-empty (and, as every slice, no longer
    than [maxInt]), and let [n] be the [int] that [strconv.Atoi] returned.
    Going to line number [n] (1-based) returns, changes no text, and puts
    the cursor at column 0 of line [n - 1] when that is a line of the
    document, of the first line when [n] is too small and of the last line
    when [n] is too large.  The one exception is [n = minInt], the
    smallest [int]: there [lineNum--] wraps around to [maxInt] and the
    cursor goes to the last line, not the first.  In every case the cursor
    stays in the document. *)
Theorem X6_goto_clamps_to_the_document (e : Editor) (n : Z) :
  minInt <= n <= maxInt ->
  1 <= len (Lines (CurrentBuffer e)) <= maxInt ->
  exists e',
    gotoLine e n = Some e'
    /\ Lines (CurrentBuffer e') = Lines (CurrentBuffer e)
    /\ CursorX (CurrentBuffer e') = 0
    /\ CursorY (CurrentBuffer e')
       = (if n =? minInt then len (Lines (CurrentBuffer e)) - 1
          else Z.max 0 (Z.min (n - 1) (len (Lines (CurrentBuffer e)) - 1)))
    /\ 0 <= CursorY (CurrentBuffer e') < len (Lines (CurrentBuffer e'))
    /\ cursorOnRune (CurrentBuffer e').
Proof.
  intros Hint Hn. unfold gotoLine.
  set (ln := if wrapInt (n - 1) <? 0 then 0 else _).
  assert (Hln : ln = if n =? minInt then len (Lines (CurrentBuffer e)) - 1
                     else Z.max 0 (Z.min (n - 1)
                                     (len (Lines (CurrentBuffer e)) - 1))).
  { subst ln. destruct (Z.eqb_spec n minInt) as [->|Hne].
    - rewrite wrapInt_below.
      destruct (Z.ltb_spec maxInt 0); [unfold maxInt in *; lia|].
      destruct (Z.leb_spec (len (Lines (CurrentBuffer e))) maxInt); lia.
    - rewrite wrapInt_id by lia.
      destruct (Z.ltb_spec (n - 1) 0); [lia|].
      destruct (Z.leb_spec (len (Lines (CurrentBuffer e))) (n - 1)); lia. }
  assert (Hrange : 0 <= ln < len (Lines (CurrentBuffer e))).
  { rewrite Hln. destruct (n =? minInt); lia. }
  destruct (ScrollToCursor_total (CurrentPane e)
              (withCursorX (withCursorY (CurrentBuffer e) ln) 0))
    as [b' Hb']; [simpl; lia|].
  rewrite Hb'. eexists. split; [reflexivity|].
  apply ScrollToCursor_fields in Hb' as (HL & HX & HY & _).
  cbn [CurrentBuffer withBuffer]. simpl in HL, HX, HY.
  rewrite HL, HX, HY. split; [reflexivity|]. split; [reflexivity|].
  split; [exact Hln|]. split; [lia|].
  destruct (index_in_range (Lines (CurrentBuffer e)) ln) as [line Hline];
    [lia|].
  exists line. rewrite HL, HX, HY. split; [exact Hline|].
  pose proof (len_nonneg (runes line)). lia.
Qed.

Lemma X6_goto_clamps_to_the_document_witness :
  let e := plainEditor
             (plainBuffer [lit "foo"; lit "bar"; lit "baz"] 2 0 noSelection)
             [] in
  (exists e',
     gotoLine e 2 = Some e'
     /\ Lines (CurrentBuffer e') = [lit "foo"; lit "bar"; lit "baz"]
     /\ CursorX (CurrentBuffer e') = 0
     /\ CursorY (CurrentBuffer e') = 1
     /\ 0 <= CursorY (CurrentBuffer e') < len (Lines (CurrentBuffer e'))
     /\ cursorOnRune (CurrentBuffer e'))
  /\ (exists e',
        gotoLine e (-9223372036854775808) = Some e'
        /\ Lines (CurrentBuffer e') = [lit "foo"; lit "bar"; lit "baz"]
        /\ CursorX (CurrentBuffer e') = 0
        /\ CursorY (CurrentBuffer e') = 2
        /\ 0 <= CursorY (CurrentBuffer e') < len (Lines (CurrentBuffer e'))
        /\ cursorOnRune (CurrentBuffer e')).
Proof.
  split.
  - apply (X6_goto_clamps_to_the_document
             (plainEditor
                (plainBuffer [lit "foo"; lit "bar"; lit "baz"] 2 0 noSelection)
                []) 2).
    + vm_compute. split; discriminate.
    + vm_compute. split; discriminate.
  - apply (X6_goto_clamps_to_the_document
             (plainEditor
                (plainBuffer [lit "foo"; lit "bar"; lit "baz"] 2 0 noSelection)
                []) (-9223372036854775808)).
    + vm_compute. split; discriminate.
    + vm_compute. split; discriminate.
Defined.

(** ** Cursor keys *)

Lemma HandleArrow_steps (IsLetter IsDigit : rune -> bool)
    (e : Editor) (k : ArrowKey) (mods : Z) :
  HandleArrow IsLetter IsDigit e k mods
  = let? b1 := arrowMove IsLetter IsDigit k mods
                 (beginSelection (extendsSelection k mods) (CurrentBuffer e)) in
    let? b2 := ScrollToCursor (CurrentPane e)
                 (endSelection (extendsSelection k mods) b1) in
    Some (withBuffer e b2).
Proof.
  destruct k; try reflexivity.
  unfold HandleArrow, arrowMove, jumpsByWord.
  destruct (index _ _); reflexivity.
Qed.

Lemma beginSelection_fields (sel : bool) (b : Buffer) :
  Lines (beginSelection sel b) = Lines b
  /\ CursorX (beginSelection sel b) = CursorX b
  /\ CursorY (beginSelection sel b) = CursorY b.
Proof. unfold beginSelection. destruct (_ && _); simpl; auto. Qed.

Lemma endSelection_fields (sel : bool) (b : Buffer) :
  Lines (endSelection sel b) = Lines b
  /\ CursorX (endSelection sel b) = CursorX b
  /\ CursorY (endSelection sel b) = CursorY b.
Proof. unfold endSelection. destruct sel; simpl; auto. Qed.

Lemma cursorOnRune_ext (b b' : Buffer) :
  Lines b' = Lines b -> CursorX b' = CursorX b -> CursorY b' = CursorY b ->
  cursorOnRune b -> cursorOnRune b'.
Proof.
  intros HL HX HY (line & H1 & H2). exists line. rewrite HL, HX, HY. auto.
Qed.

Lemma clampToLine_spec (b : Buffer) (line : str) :
  index (Lines b) (CursorY b) = Some line -> 0 <= CursorX b ->
  exists b',
    clampToLine b = Some b'
    /\ Lines b' = Lines b /\ Selection b' = Selection b
    /\ CursorY b' = CursorY b
    /\ CursorX b' = Z.min (CursorX b) (len (runes line))
    /\ cursorOnRune b'.
Proof.
  intros Hl Hx. unfold clampToLine. rewrite Hl. eexists. split; [reflexivity|].
  destruct (clampCursorX_fields b (runes line)) as (HL & HY & HS).
  pose proof (clampCursorX_bounds b (runes line) Hx) as HX.
  assert (HX' : CursorX (clampCursorX b (runes line))
                = Z.min (CursorX b) (len (runes line))).
  { unfold clampCursorX.
    destruct (Z.ltb_spec (len (runes line)) (CursorX b)); simpl; lia. }
  repeat split; try assumption.
  exists line. rewrite HL, HY. auto.
Qed.

Lemma MoveWordRight_onRune (IsLetter IsDigit : rune -> bool) (b : Buffer) :
  cursorOnRune b ->
  exists b',
    MoveWordRight IsLetter IsDigit b = Some b'
    /\ Lines b' = Lines b /\ Selection b' = Selection b /\ cursorOnRune b'.
Proof.
  intros (line & Hl & Hx). unfold MoveWordRight. rewrite Hl.
  pose proof (index_Some _ _ _ Hl) as Hy.
  destruct (Z.leb_spec (len (runes line)) (CursorX b)).
  - destruct (Z.ltb_spec (CursorY b) (len (Lines b) - 1)).
    + eexists. split; [reflexivity|]. repeat split.
      destruct (index_in_range (Lines b) (CursorY b + 1)) as [nl Hn]; [lia|].
      exists nl. simpl. split; [exact Hn|]. pose proof (len_nonneg (runes nl)).
      lia.
    + exists b. repeat split. exists line. auto.
  - destruct (Z.ltb_spec (CursorX b) 0); [lia|].
    pose proof (skipRight_endsRun (isWordChar IsLetter IsDigit)
                  (runes line) (CursorX b) ltac:(lia)) as (Hm & _).
    set (m := skipRight (isWordChar IsLetter IsDigit) _ (CursorX b)) in *.
    pose proof (skipRight_endsRun
                  (fun ch => negb (isWordChar IsLetter IsDigit ch))
                  (runes line) m ltac:(lia)) as (Hx' & _).
    eexists. split; [reflexivity|]. repeat split.
    exists line. simpl. split; [exact Hl|]. lia.
Qed.

Lemma MoveWordLeft_onRune (IsLetter IsDigit : rune -> bool) (b : Buffer) :
  cursorOnRune b ->
  exists b',
    MoveWordLeft IsLetter IsDigit b = Some b'
    /\ Lines b' = Lines b /\ Selection b' = Selection b /\ cursorOnRune b'.
Proof.
  intros (line & Hl & Hx). unfold MoveWordLeft. rewrite Hl.
  pose proof (index_Some _ _ _ Hl) as Hy.
  destruct (Z.eqb_spec (CursorX b) 0).
  - destruct (Z.ltb_spec 0 (CursorY b)).
    + destruct (index_in_range (Lines b) (CursorY b - 1)) as [prev Hp]; [lia|].
      rewrite Hp. eexists. split; [reflexivity|]. repeat split.
      exists prev. simpl. split; [exact Hp|].
      pose proof (len_nonneg (runes prev)). lia.
    + exists b. repeat split. exists line. auto.
  - set (x0 := if len (runes line) <? CursorX b then len (runes line)
               else CursorX b).
    assert (Hx0 : 0 <= x0 <= len (runes line))
      by (subst x0; destruct (Z.ltb_spec (len (runes line)) (CursorX b)); lia).
    pose proof (skipLeft_beginsRun
                  (fun ch => negb (isWordChar IsLetter IsDigit ch))
                  (runes line) x0 Hx0) as (Hm & _).
    set (m := skipLeft _ (rev (take (Z.to_nat x0) (runes line))) x0) in *.
    pose proof (skipLeft_beginsRun (isWordChar IsLetter IsDigit)
                  (runes line) m ltac:(lia)) as (Hx' & _).
    eexists. split; [reflexivity|]. repeat split.
    exists line. simpl. split; [exact Hl|]. lia.
Qed.

Lemma arrowMove_onRune (IsLetter IsDigit : rune -> bool) (k : ArrowKey)
    (mods : Z) (b : Buffer) :
  cursorOnRune b ->
  exists b',
    arrowMove IsLetter IsDigit k mods b = Some b'
    /\ Lines b' = Lines b /\ Selection b' = Selection b /\ cursorOnRune b'.
Proof.
  intros Hc. assert (Hc' := Hc). destruct Hc' as (line & Hl & Hx).
  pose proof (index_Some _ _ _ Hl) as Hy.
  destruct k; cbn [arrowMove].
  - destruct (Z.ltb_spec 0 (CursorY b)); [|exists b; auto].
    destruct (index_in_range (Lines b) (CursorY b - 1)) as [pl Hp]; [lia|].
    destruct (clampToLine_spec (withCursorY b (CursorY b - 1)) pl)
      as (b' & H1 & H2 & H3 & _ & _ & H6); [exact Hp|simpl; lia|].
    exists b'. auto.
  - destruct (Z.ltb_spec (CursorY b) (len (Lines b) - 1)); [|exists b; auto].
    destruct (index_in_range (Lines b) (CursorY b + 1)) as [nl Hn]; [lia|].
    destruct (clampToLine_spec (withCursorY b (CursorY b + 1)) nl)
      as (b' & H1 & H2 & H3 & _ & _ & H6); [exact Hn|simpl; lia|].
    exists b'. auto.
  - destruct (jumpsByWord mods); [apply MoveWordLeft_onRune; exact Hc|].
    destruct (Z.ltb_spec 0 (CursorX b)).
    { eexists. split; [reflexivity|]. repeat split.
      exists line. simpl. split; [exact Hl|]. lia. }
    destruct (Z.ltb_spec 0 (CursorY b)); [|exists b; auto].
    destruct (index_in_range (Lines b) (CursorY b - 1)) as [pl Hp]; [lia|].
    rewrite Hp. eexists. split; [reflexivity|]. repeat split.
    exists pl. simpl. split; [exact Hp|]. pose proof (len_nonneg (runes pl)).
    lia.
  - rewrite Hl.
    destruct (jumpsByWord mods); [apply MoveWordRight_onRune; exact Hc|].
    destruct (Z.ltb_spec (CursorX b) (len (runes line))).
    { eexists. split; [reflexivity|]. repeat split.
      exists line. simpl. split; [exact Hl|]. lia. }
    destruct (Z.ltb_spec (CursorY b) (len (Lines b) - 1)); [|exists b; auto].
    destruct (index_in_range (Lines b) (CursorY b + 1)) as [nl Hn]; [lia|].
    eexists. split; [reflexivity|]. repeat split.
    exists nl. simpl. split; [exact Hn|]. pose proof (len_nonneg (runes nl)).
    lia.
Qed.

Lemma HandleArrow_onRune
    (IsLetter IsDigit : rune -> bool) (e : Editor) (k : ArrowKey) (mods : Z) :
  cursorOnRune (CurrentBuffer e) ->
  exists e',
    HandleArrow IsLetter IsDigit e k mods = Some e'
    /\ Lines (CurrentBuffer e') = Lines (CurrentBuffer e)
    /\ cursorOnRune (CurrentBuffer e').
Proof.
  intros Hc. rewrite HandleArrow_steps.
  set (sel := extendsSelection k mods).
  destruct (beginSelection_fields sel (CurrentBuffer e)) as (BL & BX & BY).
  destruct (arrowMove_onRune IsLetter IsDigit k mods
              (beginSelection sel (CurrentBuffer e)))
    as (b1 & -> & HL1 & _ & Hc1).
  { apply (cursorOnRune_ext (CurrentBuffer e)); assumption. }
  destruct (endSelection_fields sel b1) as (EL & EX & EY).
  assert (Hc2 : cursorOnRune (endSelection sel b1))
    by (apply (cursorOnRune_ext b1); assumption).
  destruct (ScrollToCursor_total (CurrentPane e) (endSelection sel b1))
    as [b2 Hb2].
  { destruct Hc2 as (l2 & Hl2 & _). apply index_Some in Hl2. lia. }
  rewrite Hb2. eexists. split; [reflexivity|].
  apply ScrollToCursor_fields in Hb2 as (SL & SX & SY & _).
  cbn [CurrentBuffer withBuffer]. split; [congruence|].
  apply (cursorOnRune_ext (endSelection sel b1)); assumption.
Qed.


(** X7.  Every cursor key, with any modifiers (plain, selecting, jumping by
    words), on a cursor that is on a line of the store at a rune position
    inside it, returns, changes no text, and leaves the cursor on a line of
    the store at a rune position inside it. *)
Theorem X7_cursor_keys_keep_the_cursor_on_the_text
    (IsLetter IsDigit : rune -> bool) (e : Editor) (k : ArrowKey) (mods : Z) :
  cursorOnRune (CurrentBuffer e) ->
  exists e',
    HandleArrow IsLetter IsDigit e k mods = Some e'
    /\ Lines (CurrentBuffer e') = Lines (CurrentBuffer e)
    /\ cursorOnRune (CurrentBuffer e').
Proof. apply HandleArrow_onRune. Qed.

Lemma X7_cursor_keys_keep_the_cursor_on_the_text_witness :
  let e := plainEditor
             (plainBuffer [lit "a long line"; eAcute] 9 0 noSelection) [] in
  exists e',
    HandleArrow asciiIsLetter asciiIsDigit e KeyDown ModCtrl = Some e'
    /\ Lines (CurrentBuffer e') = [lit "a long line"; eAcute]
    /\ cursorOnRune (CurrentBuffer e').
Proof.
  apply (X7_cursor_keys_keep_the_cursor_on_the_text asciiIsLetter asciiIsDigit
           (plainEditor
              (plainBuffer [lit "a long line"; eAcute] 9 0 noSelection) [])
           KeyDown ModCtrl).
  exists (lit "a long line"). split; [reflexivity|]. vm_compute.
  split; discriminate.
Defined.

Lemma HandleArrow_result (IsLetter IsDigit : rune -> bool)
    (e e' : Editor) (k : ArrowKey) (mods : Z) :
  HandleArrow IsLetter IsDigit e k mods = Some e' ->
  exists b1,
    arrowMove IsLetter IsDigit k mods
      (beginSelection (extendsSelection k mods) (CurrentBuffer e)) = Some b1
    /\ Lines (CurrentBuffer e') = Lines b1
    /\ CursorX (CurrentBuffer e') = CursorX b1
    /\ CursorY (CurrentBuffer e') = CursorY b1
    /\ Selection (CurrentBuffer e')
       = Selection (endSelection (extendsSelection k mods) b1)
    /\ CurrentPane e' = CurrentPane e.
Proof.
  rewrite HandleArrow_steps. intros H. run_inv H. subst e'.
  eexists. split; [reflexivity|].
  match goal with E : ScrollToCursor _ _ = Some _ |- _ =>
    apply ScrollToCursor_fields in E as (HL & HX & HY & HS & _) end.
  destruct (endSelection_fields (extendsSelection k mods) b) as (EL & EX & EY).
  cbn [CurrentBuffer CurrentPane withBuffer]. repeat split; congruence.
Qed.

(** X8.  A vertical cursor key moves the cursor by one line when there is
    one in that direction and clamps the column to the length of the new
    line in runes (the column is not remembered); on the first line Up,
    and on the last line Down, leave the cursor where it is. *)
Theorem X8_vertical_move_clamps_the_column
    (IsLetter IsDigit : rune -> bool) (e : Editor) (mods : Z) :
  cursorOnRune (CurrentBuffer e) ->
  let b := CurrentBuffer e in
  (exists e',
     HandleArrow IsLetter IsDigit e KeyUp mods = Some e'
     /\ CursorY (CurrentBuffer e') = Z.max 0 (CursorY b - 1)
     /\ (CursorY b = 0 -> CursorX (CurrentBuffer e') = CursorX b)
     /\ (forall prev, index (Lines b) (CursorY b - 1) = Some prev ->
         CursorX (CurrentBuffer e') = Z.min (CursorX b) (len (runes prev))))
  /\ (exists e',
        HandleArrow IsLetter IsDigit e KeyDown mods = Some e'
        /\ CursorY (CurrentBuffer e')
           = Z.min (len (Lines b) - 1) (CursorY b + 1)
        /\ (CursorY b = len (Lines b) - 1 ->
            CursorX (CurrentBuffer e') = CursorX b)
        /\ (forall next, index (Lines b) (CursorY b + 1) = Some next ->
            CursorX (CurrentBuffer e') = Z.min (CursorX b) (len (runes next)))).
Proof.
  intros Hc b. assert (Hc' := Hc). destruct Hc' as (line & Hl & Hx).
  pose proof (index_Some _ _ _ Hl) as Hy. subst b.
  split.
  - destruct (HandleArrow_onRune IsLetter IsDigit e KeyUp mods Hc)
      as (e' & He' & _).
    exists e'. split; [exact He'|].
    apply HandleArrow_result in He' as (b1 & Hm & _ & HX & HY & _).
    set (sel := extendsSelection KeyUp mods) in *. clearbody sel.
    destruct (beginSelection_fields sel (CurrentBuffer e)) as (BL & BX & BY).
    cbn [arrowMove] in Hm. rewrite BY in Hm.
    destruct (Z.ltb_spec 0 (CursorY (CurrentBuffer e))).
    + destruct (index_in_range (Lines (CurrentBuffer e))
                  (CursorY (CurrentBuffer e) - 1)) as [pl Hp]; [lia|].
      destruct (clampToLine_spec
                  (withCursorY (beginSelection sel (CurrentBuffer e))
                     (CursorY (CurrentBuffer e) - 1)) pl)
        as (b' & H1 & _ & _ & H4 & H5 & _);
        [cbn [Lines CursorX CursorY withCursorY]; rewrite BL; exact Hp
        |cbn [Lines CursorX CursorY withCursorY]; lia|].
      rewrite H1 in Hm. injection Hm as <-.
      cbn [Lines CursorX CursorY withCursorY] in H4, H5.
      rewrite HX, HY, H4, H5, BX. split; [lia|]. split; [lia|].
      intros prev Hprev. congruence.
    + injection Hm as <-. rewrite HX, HY, BX, BY. split; [lia|].
      split; [reflexivity|]. intros prev Hprev. apply index_Some in Hprev. lia.
  - destruct (HandleArrow_onRune IsLetter IsDigit e KeyDown mods Hc)
      as (e' & He' & _).
    exists e'. split; [exact He'|].
    apply HandleArrow_result in He' as (b1 & Hm & _ & HX & HY & _).
    set (sel := extendsSelection KeyDown mods) in *. clearbody sel.
    destruct (beginSelection_fields sel (CurrentBuffer e)) as (BL & BX & BY).
    cbn [arrowMove] in Hm. rewrite BY, BL in Hm.
    destruct (Z.ltb_spec (CursorY (CurrentBuffer e))
                (len (Lines (CurrentBuffer e)) - 1)).
    + destruct (index_in_range (Lines (CurrentBuffer e))
                  (CursorY (CurrentBuffer e) + 1)) as [nl Hn]; [lia|].
      destruct (clampToLine_spec
                  (withCursorY (beginSelection sel (CurrentBuffer e))
                     (CursorY (CurrentBuffer e) + 1)) nl)
        as (b' & H1 & _ & _ & H4 & H5 & _);
        [cbn [Lines CursorX CursorY withCursorY]; rewrite BL; exact Hn
        |cbn [Lines CursorX CursorY withCursorY]; lia|].
      rewrite H1 in Hm. injection Hm as <-.
      cbn [Lines CursorX CursorY withCursorY] in H4, H5.
      rewrite HX, HY, H4, H5, BX. split; [lia|]. split; [lia|].
      intros next Hnext. congruence.
    + injection Hm as <-. rewrite HX, HY, BX, BY. split; [lia|].
      split; [reflexivity|]. intros next Hnext. apply index_Some in Hnext. lia.
Qed.

Lemma X8_vertical_move_clamps_the_column_witness :
  let e := plainEditor
             (plainBuffer [lit "a long line"; eAcute] 9 0 noSelection) [] in
  exists e',
    HandleArrow asciiIsLetter asciiIsDigit e KeyDown 0 = Some e'
    /\ CursorY (CurrentBuffer e') = Z.min (2 - 1) (0 + 1)
    /\ (0 = 2 - 1 -> CursorX (CurrentBuffer e') = 9)
    /\ (forall next, index [lit "a long line"; eAcute] (0 + 1) = Some next ->
        CursorX (CurrentBuffer e') = Z.min 9 (len (runes next))).
Proof.
  apply (proj2 (X8_vertical_move_clamps_the_column asciiIsLetter asciiIsDigit
                  (plainEditor
                     (plainBuffer [lit "a long line"; eAcute] 9 0 noSelection)
                     []) 0
                  ltac:(exists (lit "a long line");
                        split; [reflexivity|vm_compute; split; discriminate]))).
Defined.

Lemma plain_left_cursor (IsLetter IsDigit : rune -> bool) (b b1 : Buffer)
    (line : str) :
  index (Lines b) (CursorY b) = Some line ->
  arrowMove IsLetter IsDigit KeyLeft 0 b = Some b1 ->
  Lines b1 = Lines b
  /\ (0 < CursorX b ->
      CursorX b1 = CursorX b - 1 /\ CursorY b1 = CursorY b)
  /\ (CursorX b <= 0 -> 0 < CursorY b ->
      exists prev, index (Lines b) (CursorY b - 1) = Some prev
                   /\ CursorX b1 = len (runes prev)
                   /\ CursorY b1 = CursorY b - 1)
  /\ (CursorX b <= 0 -> CursorY b <= 0 -> b1 = b).
Proof.
  intros Hl H. cbn [arrowMove] in H.
  change (jumpsByWord 0) with false in H. cbv iota in H.
  destruct (Z.ltb_spec 0 (CursorX b)).
  { injection H as <-. simpl. repeat split; lia. }
  destruct (Z.ltb_spec 0 (CursorY b)).
  - destruct (index (Lines b) (CursorY b - 1)) as [prev|] eqn:Hp;
      [|discriminate]. injection H as <-. simpl.
    repeat split; try lia. intros _ _. exists prev. auto.
  - injection H as <-. repeat split; lia.
Qed.

Lemma plain_right_cursor (IsLetter IsDigit : rune -> bool) (b b1 : Buffer)
    (line : str) :
  index (Lines b) (CursorY b) = Some line ->
  arrowMove IsLetter IsDigit KeyRight 0 b = Some b1 ->
  Lines b1 = Lines b
  /\ (CursorX b < len (runes line) ->
      CursorX b1 = CursorX b + 1 /\ CursorY b1 = CursorY b)
  /\ (len (runes line) <= CursorX b -> CursorY b < len (Lines b) - 1 ->
      CursorX b1 = 0 /\ CursorY b1 = CursorY b + 1)
  /\ (len (runes line) <= CursorX b -> len (Lines b) - 1 <= CursorY b ->
      b1 = b).
Proof.
  intros Hl H. cbn [arrowMove] in H. rewrite Hl in H.
  change (jumpsByWord 0) with false in H. cbv iota in H.
  destruct (Z.ltb_spec (CursorX b) (len (runes line))).
  { injection H as <-. simpl. repeat split; lia. }
  destruct (Z.ltb_spec (CursorY b) (len (Lines b) - 1)).
  - injection H as <-. simpl. repeat split; lia.
  - injection H as <-. repeat split; lia.
Qed.

Lemma HandleArrow_plain (IsLetter IsDigit : rune -> bool)
    (e : Editor) (k : ArrowKey) :
  cursorOnRune (CurrentBuffer e) ->
  exists e' b1,
    HandleArrow IsLetter IsDigit e k 0 = Some e'
    /\ arrowMove IsLetter IsDigit k 0 (CurrentBuffer e) = Some b1
    /\ Lines (CurrentBuffer e') = Lines b1
    /\ CursorX (CurrentBuffer e') = CursorX b1
    /\ CursorY (CurrentBuffer e') = CursorY b1
    /\ cursorOnRune (CurrentBuffer e').
Proof.
  intros Hc.
  destruct (HandleArrow_onRune IsLetter IsDigit e k 0 Hc) as (e' & He' & _ & Hc').
  apply HandleArrow_result in He' as Hr.
  destruct Hr as (b1 & Hm & HL & HX & HY & _).
  exists e', b1. split; [exact He'|]. split; [|auto].
  destruct k; exact Hm.
Qed.

(** X9.  The plain Left and Right keys undo each other.  From a cursor on
    the text that is not at the very start of the document, Left then
    Right brings the cursor back to where it was; from a cursor that is
    not at the very end of the document, Right then Left does.  Both cross
    line ends: the position before column 0 is the end of the previous
    line. *)
Theorem X9_left_and_right_undo_each_other
    (IsLetter IsDigit : rune -> bool) (e : Editor) (line : str) :
  index (Lines (CurrentBuffer e)) (CursorY (CurrentBuffer e)) = Some line ->
  0 <= CursorX (CurrentBuffer e) <= len (runes line) ->
  (0 < CursorX (CurrentBuffer e) \/ 0 < CursorY (CurrentBuffer e) ->
   exists e1 e2,
     HandleArrow IsLetter IsDigit e KeyLeft 0 = Some e1
     /\ HandleArrow IsLetter IsDigit e1 KeyRight 0 = Some e2
     /\ CursorX (CurrentBuffer e2) = CursorX (CurrentBuffer e)
     /\ CursorY (CurrentBuffer e2) = CursorY (CurrentBuffer e)
     /\ Lines (CurrentBuffer e2) = Lines (CurrentBuffer e))
  /\ (CursorX (CurrentBuffer e) < len (runes line)
      \/ CursorY (CurrentBuffer e) < len (Lines (CurrentBuffer e)) - 1 ->
      exists e1 e2,
        HandleArrow IsLetter IsDigit e KeyRight 0 = Some e1
        /\ HandleArrow IsLetter IsDigit e1 KeyLeft 0 = Some e2
        /\ CursorX (CurrentBuffer e2) = CursorX (CurrentBuffer e)
        /\ CursorY (CurrentBuffer e2) = CursorY (CurrentBuffer e)
        /\ Lines (CurrentBuffer e2) = Lines (CurrentBuffer e)).
Proof.
  intros Hl Hx. pose proof (index_Some _ _ _ Hl) as Hy.
  assert (Hc : cursorOnRune (CurrentBuffer e)) by (exists line; auto).
  split; intros Hpos.
  - destruct (HandleArrow_plain IsLetter IsDigit e KeyLeft Hc)
      as (e1 & b1 & He1 & Hm1 & L1 & X1 & Y1 & Hc1).
    destruct (plain_left_cursor _ _ _ _ line Hl Hm1) as (ML & Ma & Mb & _).
    destruct (HandleArrow_plain IsLetter IsDigit e1 KeyRight Hc1)
      as (e2 & b2 & He2 & Hm2 & L2 & X2 & Y2 & _).
    exists e1, e2. split; [exact He1|]. split; [exact He2|].
    destruct (Z.ltb_spec 0 (CursorX (CurrentBuffer e))) as [Hp|Hp].
    + destruct (Ma Hp) as (Ex & Ey).
      assert (Hl1 : index (Lines (CurrentBuffer e1)) (CursorY (CurrentBuffer e1))
                    = Some line) by (rewrite L1, Y1, ML, Ey; exact Hl).
      destruct (plain_right_cursor _ _ _ _ line Hl1 Hm2) as (RL & Ra & _).
      destruct Ra as (Rx & Ry); [lia|]. repeat split; congruence || lia.
    + destruct (Mb Hp ltac:(lia)) as (prev & Hprev & Ex & Ey).
      assert (Hl1 : index (Lines (CurrentBuffer e1)) (CursorY (CurrentBuffer e1))
                    = Some prev) by (rewrite L1, Y1, ML, Ey; exact Hprev).
      destruct (plain_right_cursor _ _ _ _ prev Hl1 Hm2) as (RL & _ & Rb & _).
      destruct Rb as (Rx & Ry); [lia|rewrite L1, ML; lia|].
      repeat split; congruence || lia.
  - destruct (HandleArrow_plain IsLetter IsDigit e KeyRight Hc)
      as (e1 & b1 & He1 & Hm1 & L1 & X1 & Y1 & Hc1).
    destruct (plain_right_cursor _ _ _ _ line Hl Hm1) as (ML & Ma & Mb & _).
    destruct (HandleArrow_plain IsLetter IsDigit e1 KeyLeft Hc1)
      as (e2 & b2 & He2 & Hm2 & L2 & X2 & Y2 & _).
    exists e1, e2. split; [exact He1|]. split; [exact He2|].
    destruct (Z.ltb_spec (CursorX (CurrentBuffer e)) (len (runes line)))
      as [Hp|Hp].
    + destruct (Ma Hp) as (Ex & Ey).
      assert (Hl1 : index (Lines (CurrentBuffer e1)) (CursorY (CurrentBuffer e1))
                    = Some line) by (rewrite L1, Y1, ML, Ey; exact Hl).
      destruct (plain_left_cursor _ _ _ _ line Hl1 Hm2) as (RL & Ra & _).
      destruct Ra as (Rx & Ry); [lia|]. repeat split; congruence || lia.
    + destruct (Mb Hp ltac:(lia)) as (Ex & Ey).
      destruct Hc1 as (l1 & Hl1 & _).
      destruct (plain_left_cursor _ _ _ _ l1 Hl1 Hm2) as (RL & _ & Rb & _).
      destruct Rb as (prev & Hprev & Rx & Ry); [lia|lia|].
      assert (prev = line).
      { rewrite L1, Y1, ML, Ey in Hprev.
        replace (CursorY (CurrentBuffer e) + 1 - 1)
          with (CursorY (CurrentBuffer e)) in Hprev by lia. congruence. }
      subst prev. repeat split; congruence || lia.
Qed.

Lemma X9_left_and_right_undo_each_other_witness :
  let e := plainEditor
             (plainBuffer [eAcute; lit "bc"] 0 1 noSelection) [] in
  exists e1 e2,
    HandleArrow asciiIsLetter asciiIsDigit e KeyLeft 0 = Some e1
    /\ HandleArrow asciiIsLetter asciiIsDigit e1 KeyRight 0 = Some e2
    /\ CursorX (CurrentBuffer e2) = 0
    /\ CursorY (CurrentBuffer e2) = 1
    /\ Lines (CurrentBuffer e2) = [eAcute; lit "bc"].
Proof.
  apply (proj1 (X9_left_and_right_undo_each_other asciiIsLetter asciiIsDigit
                  (plainEditor
                     (plainBuffer [eAcute; lit "bc"] 0 1 noSelection) [])
                  (lit "bc") eq_refl
                  ltac:(vm_compute; split; discriminate))).
  right. simpl. lia.
Defined.

Lemma no_ctrl_no_extension (k : ArrowKey) (mods : Z) :
  Z.land mods ModCtrl = 0 -> extendsSelection k mods = false.
Proof.
  intros H. unfold extendsSelection. rewrite H.
  assert (Hw : (Z.land mods (Z.lor ModCtrl ModAlt) =? Z.lor ModCtrl ModAlt)
               = false).
  { destruct (Z.eqb_spec (Z.land mods (Z.lor ModCtrl ModAlt))
                (Z.lor ModCtrl ModAlt)) as [E|E]; [|reflexivity].
    assert (E2 : Z.land (Z.land mods (Z.lor ModCtrl ModAlt)) ModCtrl = ModCtrl)
      by (rewrite E; reflexivity).
    rewrite <- Z.land_assoc in E2.
    change (Z.land (Z.lor ModCtrl ModAlt) ModCtrl) with ModCtrl in E2.
    rewrite H in E2. discriminate E2. }
  rewrite Hw. destruct k; reflexivity.
Qed.

Lemma ctrl_extends (k : ArrowKey) (mods : Z) :
  Z.land mods ModCtrl <> 0 -> extendsSelection k mods = true.
Proof.
  intros H. unfold extendsSelection.
  destruct (Z.eqb_spec (Z.land mods ModCtrl) 0); [contradiction|].
  destruct k; reflexivity.
Qed.

Lemma arrowMove_Selection (IsLetter IsDigit : rune -> bool) (k : ArrowKey)
    (mods : Z) (b b1 : Buffer) :
  cursorOnRune b ->
  arrowMove IsLetter IsDigit k mods b = Some b1 ->
  Selection b1 = Selection b.
Proof.
  intros Hc H.
  destruct (arrowMove_onRune IsLetter IsDigit k mods b Hc)
    as (b' & H' & _ & HS & _).
  congruence.
Qed.

(** X10.  A cursor key pressed with Ctrl extends the selection: the
    selection becomes active, starts at the cursor position before the key
    if it was not active (and keeps its start if it was), and ends at the
    cursor position after the key.  A cursor key pressed without Ctrl
    deactivates the selection and keeps its four coordinates. *)
Theorem X10_ctrl_cursor_keys_extend_the_selection
    (IsLetter IsDigit : rune -> bool) (e : Editor) (k : ArrowKey) (mods : Z) :
  cursorOnRune (CurrentBuffer e) ->
  exists e',
    HandleArrow IsLetter IsDigit e k mods = Some e'
    /\ let s := Selection (CurrentBuffer e) in
       let s' := Selection (CurrentBuffer e') in
       (Z.land mods ModCtrl <> 0 ->
        Selection.Active s' = true
        /\ Selection.EndLine s' = CursorY (CurrentBuffer e')
        /\ Selection.EndCol s' = CursorX (CurrentBuffer e')
        /\ Selection.StartLine s'
           = (if Selection.Active s then Selection.StartLine s
              else CursorY (CurrentBuffer e))
        /\ Selection.StartCol s'
           = (if Selection.Active s then Selection.StartCol s
              else CursorX (CurrentBuffer e)))
       /\ (Z.land mods ModCtrl = 0 ->
           Selection.Active s' = false
           /\ Selection.StartLine s' = Selection.StartLine s
           /\ Selection.StartCol s' = Selection.StartCol s
           /\ Selection.EndLine s' = Selection.EndLine s
           /\ Selection.EndCol s' = Selection.EndCol s).
Proof.
  intros Hc.
  destruct (HandleArrow_onRune IsLetter IsDigit e k mods Hc)
    as (e' & He' & _).
  exists e'. split; [exact He'|].
  apply HandleArrow_result in He' as (b1 & Hm & _ & HX & HY & HS & _).
  destruct (beginSelection_fields (extendsSelection k mods) (CurrentBuffer e))
    as (BL & BX & BY).
  apply arrowMove_Selection in Hm as HS1;
    [|apply (cursorOnRune_ext (CurrentBuffer e)); assumption].
  cbv zeta. rewrite HS, HX, HY. split; intros Hctrl.
  - rewrite (ctrl_extends k mods Hctrl) in *.
    unfold endSelection. cbn [Selection withSelection Selection.Active
      Selection.StartLine Selection.StartCol Selection.EndLine Selection.EndCol].
    rewrite HS1. unfold beginSelection. cbn [andb].
    destruct (Selection.Active (Selection (CurrentBuffer e))) eqn:Ha;
      cbn [negb Selection withSelection Selection.Active
           Selection.StartLine Selection.StartCol]; rewrite ?Ha; auto.
  - rewrite (no_ctrl_no_extension k mods Hctrl) in *.
    change (beginSelection false (CurrentBuffer e)) with (CurrentBuffer e)
      in HS1.
    unfold endSelection. cbn [Selection withActive Selection.Active
      Selection.StartLine Selection.StartCol Selection.EndLine Selection.EndCol].
    rewrite HS1. auto.
Qed.

Lemma X10_ctrl_cursor_keys_extend_the_selection_witness :
  let e := plainEditor
             (plainBuffer [lit "abc"; lit "de"] 2 0 noSelection) [] in
  exists e',
    HandleArrow asciiIsLetter asciiIsDigit e KeyRight ModCtrl = Some e'
    /\ let s := Selection (CurrentBuffer e) in
       let s' := Selection (CurrentBuffer e') in
       (Z.land ModCtrl ModCtrl <> 0 ->
        Selection.Active s' = true
        /\ Selection.EndLine s' = CursorY (CurrentBuffer e')
        /\ Selection.EndCol s' = CursorX (CurrentBuffer e')
        /\ Selection.StartLine s'
           = (if Selection.Active s then Selection.StartLine s
              else CursorY (CurrentBuffer e))
        /\ Selection.StartCol s'
           = (if Selection.Active s then Selection.StartCol s
              else CursorX (CurrentBuffer e)))
       /\ (Z.land ModCtrl ModCtrl = 0 ->
           Selection.Active s' = false
           /\ Selection.StartLine s' = Selection.StartLine s
           /\ Selection.StartCol s' = Selection.StartCol s
           /\ Selection.EndLine s' = Selection.EndLine s
           /\ Selection.EndCol s' = Selection.EndCol s).
Proof.
  apply (X10_ctrl_cursor_keys_extend_the_selection asciiIsLetter asciiIsDigit
           (plainEditor (plainBuffer [lit "abc"; lit "de"] 2 0 noSelection) [])
           KeyRight ModCtrl).
  exists (lit "abc"). split; [reflexivity|]. vm_compute. split; discriminate.
Defined.

(** ** Every edit marks what it changed *)

Lemma edits_same (b b' : Buffer) :
  Lines b' = Lines b -> Dirty b' = Dirty b ->
  DirtyLineStart b' = DirtyLineStart b -> DirtyLineEnd b' = DirtyLineEnd b ->
  marksChanges b b' /\ keepsDirty b b'.
Proof.
  intros HL HD HS HE. split.
  - intros i l' H1 H2. rewrite HL in H1. contradiction.
  - intros H1 H2. rewrite HD, HS, HE. repeat split; lia || assumption.
Qed.

Lemma edits_trans (b b1 b2 : Buffer) :
  marksChanges b b1 /\ keepsDirty b b1 ->
  marksChanges b1 b2 /\ keepsDirty b1 b2 ->
  marksChanges b b2 /\ keepsDirty b b2.
Proof.
  intros (M1 & K1) (M2 & K2). split.
  - intros i l' H1 H2.
    assert (Hdec : index (Lines b1) i = Some l'
                   \/ index (Lines b1) i <> Some l').
    { destruct (index (Lines b1) i) as [l1|]; [|right; discriminate].
      destruct (@Stdlib.Lists.List.list_eq_dec byte byte_eq_dec l1 l')
        as [->|Hne]; [left; reflexivity|right; congruence]. }
    destruct Hdec as [E|E].
    + destruct (M1 i l' E H2) as (D1 & S1 & E1).
      destruct (K2 D1 ltac:(lia)) as (D2 & S2 & E2). repeat split; lia || auto.
    + apply (M2 i l' H1 E).
  - intros D S. destruct (K1 D S) as (D1 & S1 & E1).
    destruct (K2 D1 ltac:(lia)) as (D2 & S2 & E2). repeat split; lia || auto.
Qed.

Lemma edits_marked (b b' : Buffer) (s e : Z) :
  0 <= s ->
  Dirty b' = true ->
  DirtyLineStart b'
  = (if (DirtyLineStart b <? 0) || (s <? DirtyLineStart b) then s
     else DirtyLineStart b) ->
  DirtyLineEnd b' = (if DirtyLineEnd b <? e then e else DirtyLineEnd b) ->
  (forall (i : Z) (l' : str),
     index (Lines b') i = Some l' -> index (Lines b) i <> Some l' ->
     s <= i <= e) ->
  marksChanges b b' /\ keepsDirty b b'.
Proof.
  intros Hs HD HS HE Hloc.
  assert (Hr : 0 <= DirtyLineStart b' <= s /\ e <= DirtyLineEnd b'
               /\ (0 <= DirtyLineStart b ->
                   DirtyLineStart b' <= DirtyLineStart b)
               /\ DirtyLineEnd b <= DirtyLineEnd b').
  { rewrite HS, HE.
    destruct (Z.ltb_spec (DirtyLineStart b) 0);
      destruct (Z.ltb_spec s (DirtyLineStart b));
      destruct (Z.ltb_spec (DirtyLineEnd b) e); cbn [orb]; lia. }
  split.
  - intros i l' H1 H2. specialize (Hloc i l' H1 H2). repeat split; lia || auto.
  - intros D S. repeat split; lia || auto.
Qed.

(** A line written at index [y] is the only line that can differ. *)
Lemma insert_local (L : list str) (y i : Z) (v l' : str) :
  0 <= y ->
  index (<[Z.to_nat y := v]> L) i = Some l' -> index L i <> Some l' ->
  y <= i <= y.
Proof.
  intros Hy H1 H2. apply index_Some in H1 as Hi.
  destruct (Z.eq_dec i y) as [->|Hne]; [lia|]. exfalso. apply H2.
  rewrite index_lookup in * by lia.
  rewrite list_lookup_insert_ne in H1 by lia. exact H1.
Qed.

(** When the lines before [s] are unchanged, a line that differs lies
    between [s] and the last line. *)
Lemma prefix_local (L L' : list str) (s i : Z) (l' : str) :
  (forall k : nat, Z.of_nat k < s -> L' !! k = L !! k) ->
  index L' i = Some l' -> index L i <> Some l' ->
  s <= i <= len L' - 1.
Proof.
  intros Hp H1 H2. apply index_Some in H1 as Hi. split; [|lia].
  destruct (Z.lt_ge_cases i s) as [Hlt|Hge]; [|exact Hge].
  exfalso. apply H2. rewrite index_lookup in * by lia.
  rewrite <- Hp by lia. exact H1.
Qed.

Lemma lookup_take_insert (L : list str) (n y k : nat) (v : str)
    (rest : list str) :
  (k < y)%nat -> (y < n)%nat -> (n <= length L)%nat ->
  (take n (<[y := v]> L) ++ rest) !! k = L !! k.
Proof.
  intros Hk Hy Hn.
  rewrite lookup_app_l by (rewrite length_take, length_insert; lia).
  rewrite lookup_take_lt by lia. apply list_lookup_insert_ne. lia.
Qed.

Lemma ScrollToCursor_dirty (pane : Pane) (b b' : Buffer) :
  ScrollToCursor pane b = Some b' ->
  Dirty b' = Dirty b /\ DirtyLineStart b' = DirtyLineStart b
  /\ DirtyLineEnd b' = DirtyLineEnd b.
Proof.
  unfold ScrollToCursor. cbv zeta.
  set (b1 := if CursorY b <? OffsetY b then _ else _).
  assert (H1 : Dirty b1 = Dirty b /\ DirtyLineStart b1 = DirtyLineStart b
               /\ DirtyLineEnd b1 = DirtyLineEnd b).
  { subst b1. destruct (CursorY b <? OffsetY b); [simpl; auto|].
    destruct (OffsetY b + Height pane <=? CursorY b); simpl; auto. }
  destruct H1 as (E1 & E2 & E3).
  destruct (charToVisualCol b1 (CursorY b1) (CursorX b1)) as [v|];
    [|discriminate].
  destruct (v <? OffsetX b1).
  { intros [= <-]. simpl. auto. }
  destruct (_ <=? v); intros [= <-]; simpl; auto.
Qed.

Lemma edits_scroll (pane : Pane) (b b' : Buffer) :
  ScrollToCursor pane b = Some b' ->
  marksChanges b b' /\ keepsDirty b b'.
Proof.
  intros H. destruct (ScrollToCursor_dirty pane b b' H) as (D & S & E).
  apply ScrollToCursor_fields in H as (HL & _). apply edits_same; assumption.
Qed.

Ltac inv_slices :=
  repeat match goal with
  | H : sliceTo _ _ = Some _ |- _ => apply sliceTo_Some in H as [? ->]
  | H : sliceFrom _ _ = Some _ |- _ => apply sliceFrom_Some in H as [? ->]
  | H : store _ _ _ = Some _ |- _ => apply store_Some in H as [? ->]
  end.

Ltac proj_simpl :=
  cbn [Lines CursorX CursorY Dirty DirtyLineStart DirtyLineEnd Selection
       MarkDirtyLines MarkDirty withDirty withActive withCursorX withCursorY
       withLines] in *.

Lemma edits_DeleteSelection (b b' : Buffer) :
  DeleteSelection b = Some b' -> marksChanges b b' /\ keepsDirty b b'.
Proof.
  intros H. unfold DeleteSelection in H.
  destruct (Selection.Active (Selection b));
    [|injection H as <-; apply edits_same; reflexivity].
  cbn [negb] in H. destruct (normalize (Selection b)) as [[[sl sc] el] ec].
  run_inv H. subst b'.
  match goal with E : index (Lines b) sl = Some _ |- _ =>
    apply index_Some in E as Hsl end.
  inv_slices.
  match goal with |- context [MarkDirtyLines _ sl ?e] =>
    apply (edits_marked _ _ sl e) end; try reflexivity; [lia|].
  intros i l' Hidx Hdiff. proj_simpl.
  eapply prefix_local; [|exact Hidx|exact Hdiff].
  intros k Hk. rewrite lookup_app_l by (rewrite length_take; unfold len in *; lia).
  apply lookup_take_lt. lia.
Qed.

Lemma edits_deleteIfActive (b b' : Buffer) :
  deleteIfActive b = Some b' -> marksChanges b b' /\ keepsDirty b b'.
Proof.
  unfold deleteIfActive. destruct (Selection.Active (Selection b)).
  - apply edits_DeleteSelection.
  - intros [= <-]. apply edits_same; reflexivity.
Qed.

Lemma edits_InsertText (b b' : Buffer) (text : str) :
  InsertText b text = Some b' -> marksChanges b b' /\ keepsDirty b b'.
Proof.
  intros H. unfold InsertText in H.
  destruct (len (strings.SplitNL text) =? 1).
  - run_inv H. subst b'.
    match goal with E : index (Lines b) _ = Some _ |- _ =>
      apply index_Some in E as Hy end.
    inv_slices.
    apply (edits_marked _ _ (CursorY b) (CursorY b)); try reflexivity; [lia|].
    intros i l' Hidx Hdiff. proj_simpl. eapply insert_local; eauto. lia.
  - run_inv H. subst b'.
    match goal with E : index (Lines b) _ = Some _ |- _ =>
      apply index_Some in E as Hy end.
    inv_slices.
    match goal with |- context [MarkDirtyLines _ (CursorY b) ?e] =>
      apply (edits_marked _ _ (CursorY b) e) end; try reflexivity; [lia|].
    intros i l' Hidx Hdiff. proj_simpl.
    eapply prefix_local; [|exact Hidx|exact Hdiff].
    intros k Hk. apply lookup_take_insert; unfold len in *; lia.
Qed.

Lemma edits_insertRune (b b' : Buffer) (r : rune) :
  insertRune b r = Some b' -> marksChanges b b' /\ keepsDirty b b'.
Proof.
  intros H. unfold insertRune in H. run_inv H. subst b'.
  match goal with E : deleteIfActive b = Some ?b1 |- _ =>
    apply (edits_trans b b1); [apply edits_deleteIfActive; exact E|];
    clear E end.
  match goal with E : index (Lines ?b1) _ = Some _ |- _ =>
    apply index_Some in E as Hy end.
  unfold clampCursorX in *.
  match goal with |- context [if ?c then _ else _] => destruct c end;
    proj_simpl; inv_slices;
    match goal with |- marksChanges ?b1 _ /\ _ =>
      apply (edits_marked _ _ (CursorY b1) (CursorY b1)) end;
    try reflexivity; try lia;
    intros i l' Hidx Hdiff; proj_simpl; eapply insert_local; eauto; lia.
Qed.

Lemma edits_insertNewline (b b' : Buffer) :
  insertNewline b = Some b' -> marksChanges b b' /\ keepsDirty b b'.
Proof.
  intros H. unfold insertNewline in H. run_inv H. subst b'.
  match goal with E : deleteIfActive b = Some ?b1 |- _ =>
    apply (edits_trans b b1); [apply edits_deleteIfActive; exact E|];
    clear E end.
  match goal with E : index (Lines ?b1) _ = Some _ |- _ =>
    apply index_Some in E as Hy end.
  unfold clampCursorX in *.
  match goal with |- context [if ?c then _ else _] => destruct c end;
    proj_simpl; inv_slices;
    match goal with |- context [MarkDirtyLines _ (CursorY ?b1) ?e] =>
      apply (edits_marked _ _ (CursorY b1) e) end;
    try reflexivity; try lia;
    intros i l' Hidx Hdiff; proj_simpl;
    (eapply prefix_local; [|exact Hidx|exact Hdiff]);
    intros k Hk; apply lookup_take_insert; unfold len in *; lia.
Qed.

Lemma edits_deleteBackward (b b' : Buffer) :
  deleteBackward b = Some b' -> marksChanges b b' /\ keepsDirty b b'.
Proof.
  intros H. unfold deleteBackward in H.
  destruct (Selection.Active (Selection b));
    [apply edits_DeleteSelection; exact H|].
  destruct (Z.ltb_spec 0 (CursorX b)).
  - run_inv H.
    match goal with E : index (Lines b) _ = Some _ |- _ =>
      apply index_Some in E as Hy end.
    unfold clampCursorX in *.
    match type of H with context [if len ?rs <? CursorX b then _ else _] =>
      destruct (len rs <? CursorX b) end; proj_simpl;
      match type of H with context [if ?c then _ else _] => destruct c end;
      run_inv H; subst b'; try (apply edits_same; reflexivity);
      inv_slices;
      apply (edits_marked _ _ (CursorY b) (CursorY b));
      try reflexivity; try lia;
      intros i l' Hidx Hdiff; proj_simpl; eapply insert_local; eauto; lia.
  - destruct (Z.ltb_spec 0 (CursorY b));
      [|injection H as <-; apply edits_same; reflexivity].
    run_inv H. subst b'. proj_simpl. inv_slices.
    match goal with |- context [MarkDirtyLines _ (CursorY b - 1) ?e] =>
      apply (edits_marked _ _ (CursorY b - 1) e) end;
      try reflexivity; try lia.
    intros i l' Hidx Hdiff. proj_simpl.
    eapply prefix_local; [|exact Hidx|exact Hdiff].
    intros k Hk. apply lookup_take_insert; unfold len in *; lia.
Qed.

Lemma edits_deleteForward (b b' : Buffer) :
  deleteForward b = Some b' -> marksChanges b b' /\ keepsDirty b b'.
Proof.
  intros H. unfold deleteForward in H.
  destruct (Selection.Active (Selection b));
    [apply edits_DeleteSelection; exact H|].
  run_inv H.
  match goal with E : index (Lines b) _ = Some _ |- _ =>
    apply index_Some in E as Hy end.
  match type of H with context [if ?c then _ else _] => destruct c end.
  - run_inv H. subst b'. inv_slices.
    apply (edits_marked _ _ (CursorY b) (CursorY b));
      try reflexivity; try lia.
    intros i l' Hidx Hdiff. proj_simpl. eapply insert_local; eauto. lia.
  - destruct (Z.ltb_spec (CursorY b) (len (Lines b) - 1));
      [|injection H as <-; apply edits_same; reflexivity].
    run_inv H. subst b'. proj_simpl. inv_slices.
    match goal with |- context [MarkDirtyLines _ (CursorY b) ?e] =>
      apply (edits_marked _ _ (CursorY b) e) end;
      try reflexivity; try lia.
    intros i l' Hidx Hdiff. proj_simpl.
    eapply prefix_local; [|exact Hidx|exact Hdiff].
    intros k Hk. apply lookup_take_insert; unfold len in *; lia.
Qed.

Lemma edits_JumpToSearchMatch (e e' : Editor) :
  JumpToSearchMatch e = Some e' ->
  marksChanges (CurrentBuffer e) (CurrentBuffer e')
  /\ keepsDirty (CurrentBuffer e) (CurrentBuffer e').
Proof.
  intros H. unfold JumpToSearchMatch in H.
  destruct (len (SearchMatches e) =? 0);
    [injection H as <-; apply edits_same; reflexivity|].
  run_inv H. subst e'. cbn [CurrentBuffer withBuffer].
  match goal with E : ScrollToCursor _ ?b1 = Some _ |- _ =>
    apply (edits_trans _ b1); [apply edits_same; reflexivity|];
    apply (edits_scroll _ _ _ E) end.
Qed.

Lemma HandleKey_edits (e e' : Editor) (k : Key) :
  HandleKey e k = Some e' ->
  marksChanges (CurrentBuffer e) (CurrentBuffer e')
  /\ keepsDirty (CurrentBuffer e) (CurrentBuffer e').
Proof.
  intros H. unfold HandleKey in H. destruct k.
  - destruct (_ && _);
      [apply edits_JumpToSearchMatch in H; exact H|].
    destruct (_ && _);
      [apply edits_JumpToSearchMatch in H; exact H|].
    run_inv H. subst e'. cbn [CurrentBuffer withBuffer].
    match goal with E : insertRune _ _ = Some ?b1 |- _ =>
      apply (edits_trans _ b1); [apply (edits_insertRune _ _ _ E)|] end.
    eapply edits_scroll; eassumption.
  - run_inv H. subst e'. cbn [CurrentBuffer withBuffer].
    match goal with E : insertNewline _ = Some ?b1 |- _ =>
      apply (edits_trans _ b1); [apply (edits_insertNewline _ _ E)|] end.
    eapply edits_scroll; eassumption.
  - run_inv H. subst e'. cbn [CurrentBuffer withBuffer].
    match goal with E : deleteBackward _ = Some ?b1 |- _ =>
      apply (edits_trans _ b1); [apply (edits_deleteBackward _ _ E)|] end.
    eapply edits_scroll; eassumption.
  - run_inv H. subst e'. cbn [CurrentBuffer withBuffer].
    apply edits_deleteForward. assumption.
  - run_inv H. subst e'. cbn [CurrentBuffer withBuffer].
    match goal with E : deleteIfActive _ = Some ?b1 |- _ =>
      apply (edits_trans _ b1); [apply (edits_deleteIfActive _ _ E)|] end.
    eapply edits_InsertText; eassumption.
  - destruct (Selection.Active _); run_inv H; subst e';
      apply edits_same; reflexivity.
  - destruct (Clipboard e); run_inv H; subst e';
      [apply edits_same; reflexivity|].
    cbn [CurrentBuffer withBuffer].
    match goal with E : deleteIfActive _ = Some ?b1 |- _ =>
      apply (edits_trans _ b1); [apply (edits_deleteIfActive _ _ E)|] end.
    eapply edits_InsertText; eassumption.
  - destruct (Selection.Active _); run_inv H; subst e';
      [|apply edits_same; reflexivity].
    cbn [CurrentBuffer withBuffer]. apply edits_DeleteSelection. assumption.
Qed.

(** X11.  After any editing key of [HandleKey], every line that is not
    the line that stood at the same index before the key lies inside the
    dirty range, which is pending; and a dirty range that was pending
    before the key is still pending after it and has not shrunk.  So no
    edit leaves a changed line out of the next highlight refresh. *)
Theorem X11_every_changed_line_is_marked_dirty (e e' : Editor) (k : Key) :
  HandleKey e k = Some e' ->
  (forall (i : Z) (l' : str),
     index (Lines (CurrentBuffer e')) i = Some l' ->
     index (Lines (CurrentBuffer e)) i <> Some l' ->
     Dirty (CurrentBuffer e') = true
     /\ 0 <= DirtyLineStart (CurrentBuffer e') <= i
     /\ i <= DirtyLineEnd (CurrentBuffer e'))
  /\ (Dirty (CurrentBuffer e) = true ->
      0 <= DirtyLineStart (CurrentBuffer e) ->
      Dirty (CurrentBuffer e') = true
      /\ 0 <= DirtyLineStart (CurrentBuffer e')
         <= DirtyLineStart (CurrentBuffer e)
      /\ DirtyLineEnd (CurrentBuffer e) <= DirtyLineEnd (CurrentBuffer e')).
Proof. apply HandleKey_edits. Qed.

Lemma X11_every_changed_line_is_marked_dirty_witness :
  let e := plainEditor (plainBuffer [lit "a"; lit "b"; lit "c"] 0 1 noSelection)
             [] in
  let e' := mkEditor
              (mkBuffer [lit "ab"; lit "c"] [] 1 0 0 0 noSelection None None
                 [] true 0 1)
              plainPane [] [] 0 [] in
  (forall (i : Z) (l' : str),
     index (Lines (CurrentBuffer e')) i = Some l' ->
     index (Lines (CurrentBuffer e)) i <> Some l' ->
     Dirty (CurrentBuffer e') = true
     /\ 0 <= DirtyLineStart (CurrentBuffer e') <= i
     /\ i <= DirtyLineEnd (CurrentBuffer e'))
  /\ (Dirty (CurrentBuffer e) = true ->
      0 <= DirtyLineStart (CurrentBuffer e) ->
      Dirty (CurrentBuffer e') = true
      /\ 0 <= DirtyLineStart (CurrentBuffer e')
         <= DirtyLineStart (CurrentBuffer e)
      /\ DirtyLineEnd (CurrentBuffer e) <= DirtyLineEnd (CurrentBuffer e')).
Proof.
  apply (X11_every_changed_line_is_marked_dirty
           (plainEditor (plainBuffer [lit "a"; lit "b"; lit "c"] 0 1 noSelection)
              [])
           (mkEditor
              (mkBuffer [lit "ab"; lit "c"] [] 1 0 0 0 noSelection None None
                 [] true 0 1)
              plainPane [] [] 0 [])
           KeyBackspace).
  vm_compute. reflexivity.
Defined.

(** ** Insert, then delete what was inserted *)

Lemma first_mid_last {A : Type} (l : list A) :
  (2 <= length l)%nat -> exists a mid z, l = a :: mid ++ [z].
Proof.
  intros H. destruct l as [|a l]; [simpl in H; lia|].
  destruct (exists_last (l := l)) as (mid & z & ->);
    [destruct l; [simpl in H; lia|discriminate]|].
  exists a, mid, z. reflexivity.
Qed.

Lemma Join_first_mid_last (a : str) (mid : list str) (z : str) :
  strings.Join (a :: mid ++ [z]) [NL]
  = a ++ [NL] ++ concat (map (fun l => l ++ [NL]) mid) ++ z.
Proof.
  rewrite Join_cons by (destruct mid; discriminate). f_equal. f_equal.
  induction mid as [|m mid IH]; [reflexivity|].
  cbn [app map concat]. rewrite Join_cons by (destruct mid; discriminate).
  rewrite IH, <- !app_assoc. reflexivity.
Qed.

(** The buffer that [InsertText] returns for a text without line break. *)
Lemma InsertText_one_line_eq (b : Buffer) (text : str)
    (pre : list str) (cur : str) (post : list str) :
  Lines b = pre ++ cur :: post ->
  CursorY b = len pre ->
  0 <= CursorX b <= len cur ->
  len (strings.SplitNL text) = 1 ->
  InsertText b text
  = Some (MarkDirty
            (withCursorX
               (withLines b
                  (pre ++ (take (Z.to_nat (CursorX b)) cur ++ text
                           ++ drop (Z.to_nat (CursorX b)) cur) :: post))
               (CursorX b + len text))).
Proof.
  intros HL HY HX Hn. unfold InsertText. rewrite Hn, Z.eqb_refl.
  rewrite HL, HY, index_middle.
  rewrite sliceTo_ok, sliceFrom_ok by lia.
  rewrite store_middle. reflexivity.
Qed.

(** The buffer that [InsertText] returns for a text of several lines. *)
Lemma InsertText_lines_eq (b : Buffer) (text : str)
    (pre : list str) (cur : str) (post : list str)
    (l0 : str) (mid : list str) (ll : str) :
  Lines b = pre ++ cur :: post ->
  CursorY b = len pre ->
  0 <= CursorX b <= len cur ->
  strings.SplitNL text = l0 :: mid ++ [ll] ->
  exists b',
    InsertText b text = Some b'
    /\ Lines b'
       = pre ++ (take (Z.to_nat (CursorX b)) cur ++ l0) :: mid
         ++ (ll ++ drop (Z.to_nat (CursorX b)) cur) :: post
    /\ CursorY b' = CursorY b + len mid + 1
    /\ CursorX b' = len ll
    /\ Selection b' = Selection b.
Proof.
  intros HL HY HX Hs. unfold InsertText. rewrite Hs.
  assert (Hlen : len (l0 :: mid ++ [ll]) = len mid + 2)
    by (rewrite len_cons, len_snoc; lia).
  pose proof (len_nonneg mid) as Hmid.
  destruct (Z.eqb_spec (len (l0 :: mid ++ [ll])) 1); [lia|].
  rewrite HL, HY, index_middle.
  rewrite sliceTo_ok, sliceFrom_ok by lia.
  assert (Hi0 : index (l0 :: mid ++ [ll]) 0 = Some l0) by reflexivity.
  rewrite Hi0, store_middle.
  set (x := (take (Z.to_nat (CursorX b)) cur ++ l0) : str).
  assert (Hm : pre ++ x :: post = (pre ++ [x]) ++ post)
    by (rewrite <- app_assoc; reflexivity).
  rewrite Hm, <- (len_snoc pre x), sliceTo_app, sliceFrom_app.
  assert (Hil : index (l0 :: mid ++ [ll]) (len (l0 :: mid ++ [ll]) - 1)
                = Some ll).
  { replace (len (l0 :: mid ++ [ll]) - 1) with (len (l0 :: mid))
      by (rewrite Hlen, len_cons; lia).
    apply (index_middle (l0 :: mid) [] ll). }
  rewrite Hil. eexists. split; [reflexivity|].
  cbn [Lines CursorX CursorY Selection withLines withCursorX withCursorY
       MarkDirtyLines withDirty].
  split; [|rewrite HY; repeat split; lia].
  rewrite <- !app_assoc. cbn [app].
  replace (Z.to_nat (len (l0 :: mid ++ [ll]) - 2)) with (length mid)
    by (unfold len in *; lia).
  change (drop 1 (l0 :: mid ++ [ll])) with (mid ++ [ll]).
  rewrite take_app_length. reflexivity.
Qed.

Lemma cursor_split (b : Buffer) :
  cursorInBounds b ->
  exists pre cur post,
    Lines b = pre ++ cur :: post /\ CursorY b = len pre
    /\ 0 <= CursorX b <= len cur.
Proof.
  intros (cur & Hl & Hx). pose proof (index_Some _ _ _ Hl) as Hy.
  rewrite index_lookup in Hl by lia.
  exists (take (Z.to_nat (CursorY b)) (Lines b)), cur,
    (drop (S (Z.to_nat (CursorY b))) (Lines b)).
  split; [symmetry; apply take_drop_middle; exact Hl|].
  split; [|exact Hx]. rewrite len_take; lia.
Qed.

(** X12.  Insert, then delete the inserted range.  On a buffer whose
    cursor is on a line of the store at a byte offset inside it,
    [InsertText] of any text returns; the selection from the old cursor to
    the new cursor then extracts exactly the inserted text, and deleting
    it gives back the line store and the cursor position from before the
    insertion. *)
Theorem X12_insert_then_delete_restores_the_buffer (b : Buffer) (text : str) :
  cursorInBounds b ->
  exists b1 b2,
    InsertText b text = Some b1
    /\ let sel := Selection.mk (CursorY b) (CursorX b)
                    (CursorY b1) (CursorX b1) true in
       GetSelectedText (withSelection b1 sel) = Some text
       /\ DeleteSelection (withSelection b1 sel) = Some b2
       /\ Lines b2 = Lines b
       /\ CursorX b2 = CursorX b /\ CursorY b2 = CursorY b.
Proof.
  intros Hc. destruct (cursor_split b Hc) as (pre & cur & post & HL & HY & HX).
  pose proof (len_nonneg pre) as Hpre.
  pose proof (SplitNL_len text) as Hn.
  destruct (Z.eq_dec (len (strings.SplitNL text)) 1) as [H1|H1].
  - (* no line break in the text *)
    pose proof (InsertText_one_line_eq b text pre cur post HL HY HX H1) as Hi.
    match type of Hi with _ = Some ?x => set (b1 := x) in * end.
    set (nl := (take (Z.to_nat (CursorX b)) cur ++ text
                ++ drop (Z.to_nat (CursorX b)) cur) : str) in *.
    pose proof (len_nonneg text) as Ht.
    assert (Hnl : len nl = len cur + len text).
    { subst nl. rewrite !len_app, len_take, len_drop by lia. lia. }
    set (sel := Selection.mk (CursorY b) (CursorX b) (CursorY b)
                  (CursorX b + len text) true).
    assert (Hsel : normalize sel
                   = (CursorY b, CursorX b, CursorY b, CursorX b + len text)).
    { unfold normalize, sel. cbn [Selection.StartLine Selection.StartCol
        Selection.EndLine Selection.EndCol].
      destruct (Z.ltb_spec (CursorY b) (CursorY b)); [lia|].
      destruct (Z.ltb_spec (CursorX b + len text) (CursorX b)); [lia|].
      rewrite andb_false_r. reflexivity. }
    assert (Hidx : index (Lines (withSelection b1 sel)) (CursorY b) = Some nl)
      by (cbn; rewrite HY; apply index_middle).
    pose proof (DeleteSelection_active (withSelection b1 sel)
                  (CursorY b) (CursorX b) (CursorY b) (CursorX b + len text)
                  nl nl eq_refl Hsel Hidx Hidx ltac:(lia) ltac:(lia)) as Hdel.
    pose proof (GetSelectedText_one_line (withSelection b1 sel)
                  (CursorY b) (CursorX b) (CursorX b + len text) nl
                  eq_refl Hsel Hidx ltac:(lia) ltac:(lia)) as Hget.
    cbv zeta in Hdel, Hget.
    destruct (Z.ltb_spec (len nl) (CursorX b)); [lia|].
    destruct (Z.ltb_spec (len nl) (CursorX b + len text)); [lia|].
    exists b1. eexists. split; [exact Hi|]. cbv zeta.
    change (CursorY b1) with (CursorY b).
    change (CursorX b1) with (CursorX b + len text). fold sel.
    split; [|split; [exact Hdel|]].
    + rewrite Hget. f_equal. subst nl.
      rewrite drop_app_length' by (rewrite length_take; unfold len in *; lia).
      replace (Z.to_nat (CursorX b + len text - CursorX b))
        with (length text) by (unfold len; lia).
      apply take_app_length.
    + change (Lines (withSelection b1 sel)) with (pre ++ nl :: post).
      cbn [Lines CursorX CursorY withLines withCursorX withCursorY withActive
           MarkDirtyLines MarkDirty withDirty withSelection].
      split; [|auto]. rewrite HL, HY.
      replace (Z.to_nat (len pre)) with (length pre) by (unfold len; lia).
      replace (Z.to_nat (len pre + 1)) with (S (length pre))
        by (unfold len; lia).
      rewrite take_app_length.
      rewrite (cons_middle nl pre post), (app_assoc pre [nl] post).
      rewrite drop_app_length' by (rewrite length_app; simpl; lia).
      cbn [app]. f_equal. f_equal. subst nl.
      rewrite take_app_length' by (rewrite length_take; unfold len in *; lia).
      rewrite app_assoc.
      rewrite drop_app_length'
        by (rewrite length_app, length_take; unfold len in *; lia).
      rewrite take_drop. reflexivity.
  - (* the text has line breaks *)
    destruct (first_mid_last (strings.SplitNL text))
      as (l0 & mid & ll & Hs); [unfold len in *; lia|].
    destruct (InsertText_lines_eq b text pre cur post l0 mid ll HL HY HX Hs)
      as (b1 & Hi & HL1 & HY1 & HX1 & _).
    pose proof (len_nonneg mid) as Hmid. pose proof (len_nonneg ll) as Hll.
    set (first := (take (Z.to_nat (CursorX b)) cur ++ l0) : str) in *.
    set (last := (ll ++ drop (Z.to_nat (CursorX b)) cur) : str) in *.
    set (sel := Selection.mk (CursorY b) (CursorX b) (CursorY b1)
                  (CursorX b1) true).
    assert (Hsel : normalize sel
                   = (CursorY b, CursorX b, CursorY b1, CursorX b1)).
    { unfold normalize, sel. cbn [Selection.StartLine Selection.StartCol
        Selection.EndLine Selection.EndCol].
      destruct (Z.ltb_spec (CursorY b1) (CursorY b)); [lia|].
      destruct (Z.eqb_spec (CursorY b) (CursorY b1)); [lia|]. reflexivity. }
    assert (HLs : Lines (withSelection b1 sel)
                  = pre ++ first :: mid ++ last :: post) by exact HL1.
    assert (Hfirst : len first = CursorX b + len l0)
      by (subst first; rewrite len_app, len_take by lia; lia).
    assert (Hif : index (Lines (withSelection b1 sel)) (CursorY b)
                  = Some first) by (rewrite HLs, HY; apply index_middle).
    assert (Hil : index (Lines (withSelection b1 sel)) (CursorY b1)
                  = Some last).
    { rewrite HLs, HY1, HY.
      replace (pre ++ first :: mid ++ last :: post)
        with ((pre ++ first :: mid) ++ last :: post)
        by (rewrite <- app_assoc; reflexivity).
      replace (len pre + len mid + 1) with (len (pre ++ first :: mid))
        by (rewrite len_app, len_cons; lia).
      apply index_middle. }
    pose proof (len_nonneg l0) as Hl0.
    pose proof (len_nonneg (drop (Z.to_nat (CursorX b)) cur)) as Hdr.
    assert (Hlast : len last = len ll + len (drop (Z.to_nat (CursorX b)) cur))
      by (subst last; apply len_app).
    pose proof (DeleteSelection_active (withSelection b1 sel)
                  (CursorY b) (CursorX b) (CursorY b1) (CursorX b1)
                  first last eq_refl Hsel Hif Hil ltac:(lia) ltac:(lia))
      as Hdel.
    pose proof (GetSelectedText_lines (withSelection b1 sel)
                  (CursorY b) (CursorX b) (CursorY b1) (CursorX b1)
                  pre first mid last post eq_refl Hsel HLs
                  ltac:(lia) ltac:(lia) ltac:(lia) ltac:(lia)) as Hget.
    cbv zeta in Hdel, Hget.
    destruct (Z.ltb_spec (len first) (CursorX b)); [lia|].
    destruct (Z.ltb_spec (len last) (CursorX b1)); [lia|].
    exists b1. eexists. split; [exact Hi|]. cbv zeta. fold sel.
    split; [|split; [exact Hdel|]].
    + rewrite Hget. f_equal. subst first last. rewrite HX1.
      rewrite drop_app_length' by (rewrite length_take; unfold len in *; lia).
      unfold len. rewrite Nat2Z.id, take_app_length.
      rewrite <- Join_first_mid_last, <- Hs. apply Join_SplitNL.
    + cbn [Lines CursorX CursorY withLines withCursorX withCursorY withActive
           MarkDirtyLines MarkDirty withDirty].
      split; [|auto]. rewrite HLs, HL, HY1, HY.
      replace (Z.to_nat (len pre)) with (length pre) by (unfold len; lia).
      replace (Z.to_nat (len pre + len mid + 1 + 1))
        with (length (pre ++ first :: mid ++ [last]))
        by (rewrite length_app; simpl; rewrite length_app; simpl;
            unfold len; lia).
      rewrite take_app_length.
      replace (pre ++ first :: mid ++ last :: post)
        with ((pre ++ first :: mid ++ [last]) ++ post)
        by (rewrite <- !app_assoc; cbn [app]; rewrite <- !app_assoc;
            reflexivity).
      rewrite drop_app_length.
      cbn [app]. f_equal. f_equal. subst first last. rewrite HX1.
      rewrite take_app_length' by (rewrite length_take; unfold len in *; lia).
      replace (Z.to_nat (len ll)) with (length ll) by (unfold len; lia).
      rewrite drop_app_length. apply take_drop.
Qed.

Lemma X12_insert_then_delete_restores_the_buffer_witness :
  let b := plainBuffer [lit "hello"; lit "world"] 2 0 noSelection in
  let text := lit "a" ++ [NL] ++ lit "b" in
  exists b1 b2,
    InsertText b text = Some b1
    /\ let sel := Selection.mk (CursorY b) (CursorX b)
                    (CursorY b1) (CursorX b1) true in
       GetSelectedText (withSelection b1 sel) = Some text
       /\ DeleteSelection (withSelection b1 sel) = Some b2
       /\ Lines b2 = Lines b
       /\ CursorX b2 = CursorX b /\ CursorY b2 = CursorY b.
Proof.
  apply (X12_insert_then_delete_restores_the_buffer
           (plainBuffer [lit "hello"; lit "world"] 2 0 noSelection)
           (lit "a" ++ [NL] ++ lit "b")).
  exists (lit "hello"). split; [reflexivity|]. vm_compute.
  split; discriminate.
Defined.

(** ** Edits, seen on the saved text *)

Lemma Join_split (pre : list str) (a c : str) (post : list str) :
  strings.Join (pre ++ (a ++ c) :: post) [NL]
  = strings.Join (pre ++ [a]) [NL] ++ strings.Join (c :: post) [NL].
Proof.
  induction pre as [|p pre IH].
  - cbn [app]. destruct post as [|q post]; [reflexivity|].
    rewrite !Join_cons by discriminate. cbn [strings.Join].
    rewrite <- app_assoc. reflexivity.
  - cbn [app]. rewrite !Join_cons by (destruct pre; discriminate).
    rewrite IH, <- !app_assoc. reflexivity.
Qed.

Lemma Join_split_head (a c : str) (post : list str) :
  strings.Join ((a ++ c) :: post) [NL] = a ++ strings.Join (c :: post) [NL].
Proof. apply (Join_split [] a c post). Qed.

Lemma Join_snoc_app (pre : list str) (a c : str) :
  strings.Join (pre ++ [a ++ c]) [NL] = strings.Join (pre ++ [a]) [NL] ++ c.
Proof. apply (Join_split pre a c []). Qed.

(** X13.  [InsertText], seen on the saved text.  On a buffer whose cursor
    is on a line of the store at a byte offset inside it, [InsertText]
    returns; the text that [SaveFile] would write (the lines joined with
    "\n") is the old one with the inserted text spliced in at the cursor,
    whatever bytes the text holds; the store grows by one line for every
    line break of the text; and the cursor ends on a line of the store,
    inside it, right behind the inserted text. *)
Theorem X13_insertText_splices_the_saved_text (b : Buffer) (text : str) :
  cursorInBounds b ->
  exists b' line line',
    InsertText b text = Some b'
    /\ index (Lines b) (CursorY b) = Some line
    /\ index (Lines b') (CursorY b') = Some line'
    /\ 0 <= CursorX b' <= len line'
    /\ len (Lines b') = len (Lines b) + Z.of_nat (countNL text)
    /\ let before :=
         strings.Join (take (Z.to_nat (CursorY b)) (Lines b)
                       ++ [take (Z.to_nat (CursorX b)) line]) [NL] in
       let after :=
         strings.Join (drop (Z.to_nat (CursorX b)) line
                       :: drop (S (Z.to_nat (CursorY b))) (Lines b)) [NL] in
       strings.Join (Lines b) [NL] = before ++ after
       /\ strings.Join (Lines b') [NL] = before ++ text ++ after
       /\ strings.Join (take (Z.to_nat (CursorY b')) (Lines b')
                        ++ [take (Z.to_nat (CursorX b')) line']) [NL]
          = before ++ text.
Proof.
  intros Hc. destruct (cursor_split b Hc) as (pre & cur & post & HL & HY & HX).
  pose proof (len_nonneg pre) as Hpre. pose proof (len_nonneg text) as Ht.
  pose proof (SplitNL_length text) as Hcount.
  assert (Htk : take (Z.to_nat (CursorY b)) (Lines b) = pre).
  { rewrite HL, HY. unfold len. rewrite Nat2Z.id. apply take_app_length. }
  assert (Hdr : drop (S (Z.to_nat (CursorY b))) (Lines b) = post).
  { rewrite HL, HY. unfold len. rewrite Nat2Z.id.
    rewrite (cons_middle cur pre post), (app_assoc pre [cur] post).
    apply drop_app_length'. rewrite length_app. simpl. lia. }
  assert (Hcur : index (Lines b) (CursorY b) = Some cur)
    by (rewrite HL, HY; apply index_middle).
  set (tk := take (Z.to_nat (CursorX b)) cur : str).
  set (dr := drop (Z.to_nat (CursorX b)) cur : str).
  assert (Htkl : len tk = CursorX b) by (apply len_take; lia).
  assert (Hold : strings.Join (Lines b) [NL]
                 = strings.Join (pre ++ [tk]) [NL]
                   ++ strings.Join (dr :: post) [NL]).
  { rewrite HL. rewrite <- (take_drop (Z.to_nat (CursorX b)) cur) at 1.
    apply Join_split. }
  destruct (Z.eq_dec (len (strings.SplitNL text)) 1) as [H1|H1].
  - pose proof (InsertText_one_line_eq b text pre cur post HL HY HX H1) as Hi.
    fold tk dr in Hi.
    set (nl := (tk ++ text ++ dr) : str) in *.
    eexists _, cur, nl. split; [exact Hi|]. split; [exact Hcur|].
    cbn [Lines CursorX CursorY withLines withCursorX MarkDirty MarkDirtyLines
         withDirty].
    split; [rewrite HY; apply index_middle|].
    split.
    { subst nl. rewrite !len_app. pose proof (len_nonneg dr). lia. }
    split.
    { rewrite HL, !len_app, !len_cons. unfold len in *. lia. }
    cbv zeta. rewrite Htk, Hdr. fold tk dr.
    split; [exact Hold|]. split.
    + subst nl. rewrite Join_split. f_equal. apply Join_split_head.
    + rewrite HY. unfold len at 1. rewrite Nat2Z.id, take_app_length.
      replace (take (Z.to_nat (CursorX b + len text)) nl) with (tk ++ text).
      * apply Join_snoc_app.
      * subst nl. rewrite app_assoc. symmetry. apply take_app_length'.
        rewrite length_app. unfold len in *. lia.
  - destruct (first_mid_last (strings.SplitNL text))
      as (l0 & mid & ll & Hs);
      [pose proof (SplitNL_len text); unfold len in *; lia|].
    destruct (InsertText_lines_eq b text pre cur post l0 mid ll HL HY HX Hs)
      as (b' & Hi & HL' & HY' & HX' & _).
    fold tk dr in HL'.
    pose proof (len_nonneg mid) as Hmid. pose proof (len_nonneg ll) as Hll.
    assert (Htext : strings.Join (l0 :: mid ++ [ll]) [NL] = text)
      by (rewrite <- Hs; apply Join_SplitNL).
    assert (Hidx : index (Lines b') (CursorY b') = Some (ll ++ dr)).
    { rewrite HL', HY', HY.
      replace (pre ++ (tk ++ l0) :: mid ++ (ll ++ dr) :: post)
        with ((pre ++ (tk ++ l0) :: mid) ++ (ll ++ dr) :: post)
        by (rewrite <- app_assoc; reflexivity).
      replace (len pre + len mid + 1) with (len (pre ++ (tk ++ l0) :: mid))
        by (rewrite len_app, len_cons; lia).
      apply index_middle. }
    exists b', cur, (ll ++ dr). split; [exact Hi|]. split; [exact Hcur|].
    split; [exact Hidx|]. split.
    { rewrite HX', len_app. pose proof (len_nonneg dr). lia. }
    split.
    { rewrite HL', HL, !len_app, !len_cons, !len_app, !len_cons.
      rewrite Hs in Hcount. rewrite length_cons, length_app in Hcount.
      simpl in Hcount. unfold len in *. lia. }
    cbv zeta. rewrite Htk, Hdr. fold tk dr.
    split; [exact Hold|]. split.
    + rewrite HL', Join_split. f_equal.
      change (l0 :: mid ++ (ll ++ dr) :: post)
        with ((l0 :: mid) ++ (ll ++ dr) :: post).
      rewrite Join_split. cbn [app]. rewrite Htext. reflexivity.
    + rewrite HL', HY', HY, HX'.
      replace (Z.to_nat (len pre + len mid + 1))
        with (length (pre ++ (tk ++ l0) :: mid))
        by (rewrite length_app; simpl; unfold len; lia).
      replace (pre ++ (tk ++ l0) :: mid ++ (ll ++ dr) :: post)
        with ((pre ++ (tk ++ l0) :: mid) ++ (ll ++ dr) :: post)
        by (rewrite <- app_assoc; reflexivity).
      rewrite take_app_length.
      replace (Z.to_nat (len ll)) with (length ll) by (unfold len; lia).
      rewrite take_app_length, <- app_assoc. cbn [app].
      rewrite Join_split. f_equal. exact Htext.
Qed.

Lemma X13_insertText_splices_the_saved_text_witness :
  let b := plainBuffer [lit "hello"; lit "world"] 2 1 noSelection in
  let text := lit "a" ++ [NL] ++ [NL] ++ eAcute in
  exists b' line line',
    InsertText b text = Some b'
    /\ index (Lines b) (CursorY b) = Some line
    /\ index (Lines b') (CursorY b') = Some line'
    /\ 0 <= CursorX b' <= len line'
    /\ len (Lines b') = len (Lines b) + Z.of_nat (countNL text)
    /\ let before :=
         strings.Join (take (Z.to_nat (CursorY b)) (Lines b)
                       ++ [take (Z.to_nat (CursorX b)) line]) [NL] in
       let after :=
         strings.Join (drop (Z.to_nat (CursorX b)) line
                       :: drop (S (Z.to_nat (CursorY b))) (Lines b)) [NL] in
       strings.Join (Lines b) [NL] = before ++ after
       /\ strings.Join (Lines b') [NL] = before ++ text ++ after
       /\ strings.Join (take (Z.to_nat (CursorY b')) (Lines b')
                        ++ [take (Z.to_nat (CursorX b')) line']) [NL]
          = before ++ text.
Proof.
  apply (X13_insertText_splices_the_saved_text
           (plainBuffer [lit "hello"; lit "world"] 2 1 noSelection)
           (lit "a" ++ [NL] ++ [NL] ++ eAcute)).
  exists (lit "world"). split; [reflexivity|]. vm_compute.
  split; discriminate.
Defined.

(** X14.  [DeleteSelection], seen on the saved text.  For an active
    selection with both endpoints on lines of the store and non-negative
    columns, [GetSelectedText] and [DeleteSelection] both return; the text
    that [SaveFile] would write is cut into a part before the selection,
    the selected text and a part after it, and after the deletion it is
    the two outer parts put together.  The cursor ends on a line of the
    store, inside it, at the seam; the selection is switched off; and the
    store loses as many lines as lie between the two endpoints. *)
Theorem X14_deleteSelection_removes_the_selected_text (b : Buffer) :
  Selection.Active (Selection b) = true ->
  selectionInBounds b ->
  exists text b' line' before after,
    GetSelectedText b = Some text
    /\ DeleteSelection b = Some b'
    /\ strings.Join (Lines b) [NL] = before ++ text ++ after
    /\ strings.Join (Lines b') [NL] = before ++ after
    /\ index (Lines b') (CursorY b') = Some line'
    /\ 0 <= CursorX b' <= len line'
    /\ strings.Join (take (Z.to_nat (CursorY b')) (Lines b')
                     ++ [take (Z.to_nat (CursorX b')) line']) [NL] = before
    /\ Selection.Active (Selection b') = false
    /\ len (Lines b')
       = len (Lines b)
         - Z.abs (Selection.EndLine (Selection b)
                  - Selection.StartLine (Selection b)).
Proof.
  intros Ha Hs. destruct (Hs Ha) as (H1 & H2 & H3 & H4).
  destruct (normalize (Selection b)) as [[[sl sc] el] ec] eqn:Hn.
  apply normalize_cases in Hn as Hn'. destruct Hn' as [Hcase Hord].
  assert (Hb : 0 <= sl < len (Lines b) /\ 0 <= el < len (Lines b)
               /\ 0 <= sc /\ 0 <= ec
               /\ Z.abs (Selection.EndLine (Selection b)
                         - Selection.StartLine (Selection b)) = el - sl).
  { destruct Hcase as [Hcase|Hcase]; injection Hcase as -> -> -> ->; lia. }
  destruct Hb as (Hsl & Hel & Hsc & Hec & Habs). rewrite Habs.
  destruct Hord as [Hlt|[<- Hle]].
  - (* the selection spans several lines *)
    destruct (split_two_lines (Lines b) sl el)
      as (pre & first & mid & last & post & HL & Hp & Hm & Hf & Hl
          & Hpre & Hpost); [lia..|].
    pose proof (clamp_bounds (len first) sc (len_nonneg _) Hsc) as Hcs.
    pose proof (clamp_bounds (len last) ec (len_nonneg _) Hec) as Hce.
    set (sc' := if len first <? sc then len first else sc) in *.
    set (ec' := if len last <? ec then len last else ec) in *.
    set (tsf := take (Z.to_nat sc') first : str).
    set (dsf := drop (Z.to_nat sc') first : str).
    set (tel := take (Z.to_nat ec') last : str).
    set (del := drop (Z.to_nat ec') last : str).
    pose proof (DeleteSelection_active b sl sc el ec first last
                  Ha Hn Hf Hl Hsc Hec) as Hdel.
    cbv zeta in Hdel. fold sc' ec' in Hdel. cbn [app] in Hdel.
    rewrite Hpre, Hpost in Hdel. fold tsf del in Hdel.
    pose proof (GetSelectedText_lines b sl sc el ec pre first mid last post
                  Ha Hn HL Hp Hm Hsc Hec) as Hget.
    cbv zeta in Hget. fold sc' ec' in Hget. fold dsf tel in Hget.
    rewrite <- Join_first_mid_last in Hget.
    eexists _, _, (tsf ++ del), (strings.Join (pre ++ [tsf]) [NL]),
      (strings.Join (del :: post) [NL]).
    split; [exact Hget|]. split; [exact Hdel|].
    cbn [Lines CursorX CursorY Selection withLines withCursorX withCursorY
         withActive MarkDirtyLines withDirty Selection.Active].
    split.
    { rewrite HL. rewrite <- (take_drop (Z.to_nat sc') first).
      fold tsf dsf. rewrite Join_split. f_equal.
      rewrite <- (take_drop (Z.to_nat ec') last). fold tel del.
      change (dsf :: mid ++ (tel ++ del) :: post)
        with ((dsf :: mid) ++ (tel ++ del) :: post).
      rewrite Join_split. reflexivity. }
    split; [apply Join_split|].
    split; [rewrite <- Hp; apply index_middle|].
    split.
    { rewrite len_app. subst tsf. rewrite len_take by lia.
      pose proof (len_nonneg del). lia. }
    split.
    { rewrite <- Hp. unfold len at 1. rewrite Nat2Z.id, take_app_length.
      subst tsf. rewrite take_app_length'; [reflexivity|].
      rewrite length_take. unfold len in *. lia. }
    split; [reflexivity|].
    rewrite HL, !len_app, !len_cons, !len_app, !len_cons. lia.
  - (* the selection lies inside one line *)
    destruct (index_in_range (Lines b) sl Hsl) as [line Hl].
    pose proof (clamp_bounds (len line) sc (len_nonneg _) Hsc) as Hcs.
    pose proof (clamp_bounds (len line) ec (len_nonneg _) Hec) as Hce.
    pose proof (DeleteSelection_active b sl sc sl ec line line
                  Ha Hn Hl Hl Hsc Hec) as Hdel.
    pose proof (GetSelectedText_one_line b sl sc ec line Ha Hn Hl Hsc Hle)
      as Hget.
    cbv zeta in Hdel, Hget.
    set (sc' := if len line <? sc then len line else sc) in *.
    set (ec' := if len line <? ec then len line else ec) in *.
    assert (Hle' : sc' <= ec').
    { subst sc' ec'. destruct (Z.ltb_spec (len line) sc);
        destruct (Z.ltb_spec (len line) ec); lia. }
    set (pre := take (Z.to_nat sl) (Lines b)) in *.
    set (post := drop (Z.to_nat (sl + 1)) (Lines b)) in *.
    set (tsl := take (Z.to_nat sc') line : str) in *.
    set (del := drop (Z.to_nat ec') line : str) in *.
    set (text := take (Z.to_nat (ec' - sc')) (drop (Z.to_nat sc') line))
      in *.
    cbn [app] in Hdel.
    assert (HL : Lines b = pre ++ line :: post).
    { subst pre post. replace (Z.to_nat (sl + 1)) with (S (Z.to_nat sl)) by lia.
      symmetry. apply take_drop_middle. rewrite <- index_lookup by lia.
      exact Hl. }
    assert (Hp : len pre = sl) by (subst pre; apply len_take; lia).
    assert (Hline : line = tsl ++ text ++ del).
    { subst tsl text del.
      replace (Z.to_nat (ec' - sc')) with (Z.to_nat ec' - Z.to_nat sc')%nat
        by lia.
      symmetry. apply take_mid_drop. lia. }
    eexists text, _, (tsl ++ del), (strings.Join (pre ++ [tsl]) [NL]),
      (strings.Join (del :: post) [NL]).
    split; [exact Hget|]. split; [exact Hdel|].
    cbn [Lines CursorX CursorY Selection withLines withCursorX withCursorY
         withActive MarkDirtyLines withDirty Selection.Active].
    split.
    { rewrite HL. rewrite Hline at 1. rewrite Join_split. f_equal.
      apply Join_split_head. }
    split; [apply Join_split|].
    split; [rewrite <- Hp; apply index_middle|].
    split.
    { rewrite len_app. subst tsl. rewrite len_take by lia.
      pose proof (len_nonneg del). lia. }
    split.
    { rewrite <- Hp. unfold len at 1. rewrite Nat2Z.id, take_app_length.
      subst tsl. rewrite take_app_length'; [reflexivity|].
      rewrite length_take. unfold len in *. lia. }
    split; [reflexivity|].
    rewrite HL, !len_app, !len_cons. lia.
Qed.

Lemma X14_deleteSelection_removes_the_selected_text_witness :
  let b := plainBuffer [lit "hello"; lit "big"; lit "world"] 2 0
             (Selection.mk 2 3 0 2 true) in
  exists text b' line' before after,
    GetSelectedText b = Some text
    /\ DeleteSelection b = Some b'
    /\ strings.Join (Lines b) [NL] = before ++ text ++ after
    /\ strings.Join (Lines b') [NL] = before ++ after
    /\ index (Lines b') (CursorY b') = Some line'
    /\ 0 <= CursorX b' <= len line'
    /\ strings.Join (take (Z.to_nat (CursorY b')) (Lines b')
                     ++ [take (Z.to_nat (CursorX b')) line']) [NL] = before
    /\ Selection.Active (Selection b') = false
    /\ len (Lines b')
       = len (Lines b)
         - Z.abs (Selection.EndLine (Selection b)
                  - Selection.StartLine (Selection b)).
Proof.
  apply (X14_deleteSelection_removes_the_selected_text
           (plainBuffer [lit "hello"; lit "big"; lit "world"] 2 0
              (Selection.mk 2 3 0 2 true))).
  - reflexivity.
  - intros _. vm_compute. repeat split; discriminate.
Defined.

(** ** Search: what is found, what is highlighted, where the cursor goes *)

Lemma HasPrefix_spec (s p : str) :
  strings.HasPrefix s p = true <-> exists post, s = p ++ post.
Proof.
  revert s. induction p as [|c p IH]; intros s.
  - split; [intros _; exists s; reflexivity|destruct s; reflexivity].
  - destruct s as [|d s]; simpl.
    + split; [discriminate|intros [post H]; discriminate H].
    + rewrite andb_true_iff, IH. split.
      * intros [Hc [post ->]]. destruct (byte_eqb_spec d c); [|discriminate].
        subst. eauto.
      * intros [post [= -> ->]]. split; [|eauto].
        destruct (byte_eqb_spec c c); congruence.
Qed.

Lemma occurrencesFrom_spec (query s : str) (c0 c : Z) :
  In c (occurrencesFrom query s c0)
  <-> exists pre post, s = pre ++ query ++ post /\ c = c0 + len pre.
Proof.
  revert c0. induction s as [|a s IH]; intros c0.
  - cbn [occurrencesFrom]. rewrite app_nil_r. split.
    + destruct (strings.HasPrefix [] query) eqn:Hp; [|intros []].
      intros [<-|[]]. apply HasPrefix_spec in Hp as [post Hp].
      exists [], post. split; [exact Hp|]. unfold len. simpl. lia.
    + intros (pre & post & Hs & ->). destruct pre; [|discriminate Hs].
      cbn [app] in Hs. assert (Hp : strings.HasPrefix [] query = true)
        by (apply HasPrefix_spec; eauto).
      rewrite Hp. left. unfold len. simpl. lia.
  - cbn [occurrencesFrom]. rewrite in_app_iff, IH. split.
    + intros [H|(pre & post & -> & ->)].
      * destruct (strings.HasPrefix (a :: s) query) eqn:Hp; [|destruct H].
        destruct H as [<-|[]]. apply HasPrefix_spec in Hp as [post Hp].
        exists [], post. split; [exact Hp|]. unfold len. simpl. lia.
      * exists (a :: pre), post. split; [reflexivity|].
        rewrite len_cons. lia.
    + intros (pre & post & Hs & ->). destruct pre as [|a' pre].
      * left. cbn [app] in Hs.
        assert (Hp : strings.HasPrefix (a :: s) query = true)
          by (apply HasPrefix_spec; eauto).
        rewrite Hp. left. unfold len. simpl. lia.
      * right. injection Hs as -> ->. exists pre, post.
        split; [reflexivity|]. rewrite len_cons. lia.
Qed.

Lemma allMatches_spec (query : str) (lines : list str) (i0 : Z)
    (m : SearchMatch.t) :
  In m (allMatches query lines i0)
  <-> exists (k : nat) (line : str),
        lines !! k = Some line
        /\ SearchMatch.Line m = i0 + Z.of_nat k
        /\ occursAt query line (SearchMatch.Col m)
        /\ SearchMatch.Len m = len query.
Proof.
  revert i0. induction lines as [|l rest IH]; intros i0.
  - split; [intros []|intros (k & line & H & _); discriminate H].
  - cbn [allMatches]. rewrite in_app_iff, IH. unfold matchesOfLine.
    rewrite in_map_iff. split.
    + intros [(c & <- & Hc)|(k & line & Hk & HL & Ho & Hlen)].
      * exists 0%nat, l. split; [reflexivity|].
        cbn [SearchMatch.Line SearchMatch.Col SearchMatch.Len].
        split; [lia|]. split; [|reflexivity].
        apply occurrencesFrom_spec in Hc as (pre & post & -> & ->).
        exists pre, post. split; [reflexivity|lia].
      * exists (S k), line. split; [exact Hk|]. split; [lia|]. auto.
    + intros (k & line & Hk & HL & (pre & post & Hline & Hpre) & Hlen).
      destruct k as [|k].
      * left. injection Hk as ->. exists (SearchMatch.Col m). split.
        -- destruct m as [ml mc mn]. cbn in *. f_equal; lia.
        -- apply occurrencesFrom_spec. exists pre, post.
           split; [exact Hline|lia].
      * right. exists k, line. split; [exact Hk|]. split; [lia|].
        split; [exists pre, post; auto|exact Hlen].
Qed.

Lemma JumpToSearchMatch_result (e : Editor) :
  0 <= SearchIndex e < len (SearchMatches e) ->
  (forall m, In m (SearchMatches e) -> 0 <= SearchMatch.Line m) ->
  exists e' m,
    JumpToSearchMatch e = Some e'
    /\ index (SearchMatches e) (SearchIndex e) = Some m
    /\ CursorY (CurrentBuffer e') = SearchMatch.Line m
    /\ CursorX (CurrentBuffer e') = SearchMatch.Col m
    /\ Lines (CurrentBuffer e') = Lines (CurrentBuffer e)
    /\ SearchMatches e' = SearchMatches e
    /\ SearchIndex e' = SearchIndex e
    /\ SearchQuery e' = SearchQuery e
    /\ CurrentPane e' = CurrentPane e.
Proof.
  intros Hi Hm. unfold JumpToSearchMatch.
  destruct (Z.eqb_spec (len (SearchMatches e)) 0); [lia|].
  destruct (index_in_range (SearchMatches e) (SearchIndex e) Hi) as [m Hx].
  rewrite Hx.
  assert (0 <= SearchMatch.Line m).
  { apply Hm. rewrite index_lookup in Hx by lia.
    apply list_elem_of_In, list_elem_of_lookup. eauto. }
  match goal with |- context [ScrollToCursor ?p ?x] =>
    destruct (ScrollToCursor_total p x) as [b' Hb']; [simpl; lia|] end.
  rewrite Hb'. apply ScrollToCursor_fields in Hb' as (HL & HX & HY & _).
  exists (withBuffer e b'), m. cbn [CurrentBuffer withBuffer SearchMatches
    SearchIndex SearchQuery CurrentPane].
  rewrite HL, HX, HY. simpl. repeat split; reflexivity.
Qed.

(** X15.  What a search reports.  For a non-empty query [ExecuteSearch]
    returns, and a match is in its list exactly when the match's line is a
    line of the store, the query stands in that line at the match's byte
    offset, and the match has the query's length.  [isSearchMatch] then
    holds of a cell exactly when an occurrence of the query covers it.
    When something was found the search index is 0 and the cursor is on
    the first match; when nothing was found the buffer and the search
    index are as before. *)
Theorem X15_search_reports_exactly_the_occurrences (e : Editor) :
  SearchQuery e <> [] ->
  exists e',
    ExecuteSearch e = Some e'
    /\ (forall m,
          In m (SearchMatches e')
          <-> exists line,
                index (Lines (CurrentBuffer e)) (SearchMatch.Line m)
                = Some line
                /\ occursAt (SearchQuery e) line (SearchMatch.Col m)
                /\ SearchMatch.Len m = len (SearchQuery e))
    /\ (forall line col,
          isSearchMatch e' line col = true
          <-> exists l c,
                index (Lines (CurrentBuffer e)) line = Some l
                /\ occursAt (SearchQuery e) l c
                /\ c <= col < c + len (SearchQuery e))
    /\ (SearchMatches e' <> [] ->
        exists m,
          head (SearchMatches e') = Some m
          /\ SearchIndex e' = 0
          /\ CursorY (CurrentBuffer e') = SearchMatch.Line m
          /\ CursorX (CurrentBuffer e') = SearchMatch.Col m)
    /\ (SearchMatches e' = [] ->
        CurrentBuffer e' = CurrentBuffer e /\ SearchIndex e' = SearchIndex e).
Proof.
  intros Hq.
  set (found := allMatches (SearchQuery e) (Lines (CurrentBuffer e)) 0).
  assert (Hin : forall m,
            In m found
            <-> exists line,
                  index (Lines (CurrentBuffer e)) (SearchMatch.Line m)
                  = Some line
                  /\ occursAt (SearchQuery e) line (SearchMatch.Col m)
                  /\ SearchMatch.Len m = len (SearchQuery e)).
  { intros m. subst found. rewrite allMatches_spec. split.
    - intros (k & line & Hk & HL & Ho & Hlen). exists line.
      split; [|auto]. rewrite HL, index_lookup by lia.
      rewrite Z.add_0_l, Nat2Z.id. exact Hk.
    - intros (line & Hl & Ho & Hlen).
      pose proof (index_Some _ _ _ Hl) as Hr.
      rewrite index_lookup in Hl by lia.
      exists (Z.to_nat (SearchMatch.Line m)), line.
      split; [exact Hl|]. split; [lia|auto]. }
  assert (Hfound : exists e',
            ExecuteSearch e = Some e' /\ SearchMatches e' = found
            /\ (found <> [] ->
                exists m, head found = Some m /\ SearchIndex e' = 0
                  /\ CursorY (CurrentBuffer e') = SearchMatch.Line m
                  /\ CursorX (CurrentBuffer e') = SearchMatch.Col m)
            /\ (found = [] ->
                CurrentBuffer e' = CurrentBuffer e
                /\ SearchIndex e' = SearchIndex e)).
  { unfold ExecuteSearch.
    destruct (SearchQuery e) as [|q0 q] eqn:Eq; [congruence|].
    rewrite searchLines_all by discriminate. cbn [app]. fold found.
    destruct (Z.ltb_spec 0 (len found)) as [Hlen|Hlen].
    - destruct (JumpToSearchMatch_result (withSearch e (q0 :: q) found 0))
        as (e' & m & Hj & Hm & HY & HX & _ & HM & HI & _).
      + cbn [SearchIndex SearchMatches withSearch]. lia.
      + cbn [SearchMatches withSearch]. intros m Hm.
        apply (allMatches_line (q0 :: q) (Lines (CurrentBuffer e))).
        exact Hm.
      + exists e'. split; [exact Hj|]. split; [exact HM|]. split.
        * intros _. exists m. cbn [SearchMatches SearchIndex withSearch] in Hm.
          split; [destruct found; [discriminate Hm|exact Hm]|]. auto.
        * intros ->. unfold len in Hlen. simpl in Hlen. lia.
    - eexists. split; [reflexivity|]. cbn [SearchMatches withSearch].
      split; [reflexivity|]. split.
      + intros Hne. destruct found; [congruence|].
        rewrite len_cons in Hlen. pose proof (len_nonneg found). lia.
      + intros _. split; reflexivity. }
  destruct Hfound as (e' & He & HM & Hfirst & Hnone).
  exists e'. split; [exact He|]. rewrite HM.
  split; [exact Hin|]. split; [|split; assumption].
  intros line col. unfold isSearchMatch. rewrite HM, existsb_exists. split.
  - intros (m & Hm & Hc). apply Hin in Hm as (l & Hl & Ho & Hlen).
    apply andb_true_iff in Hc as [Hc H3]. apply andb_true_iff in Hc as [H1 H2].
    apply Z.eqb_eq in H1. apply Z.leb_le in H2. apply Z.ltb_lt in H3.
    exists l, (SearchMatch.Col m). rewrite <- H1, <- Hlen. auto.
  - intros (l & c & Hl & Ho & Hc).
    exists (SearchMatch.mk line c (len (SearchQuery e))). split.
    + apply Hin. exists l. auto.
    + cbn [SearchMatch.Line SearchMatch.Col SearchMatch.Len].
      rewrite Z.eqb_refl. cbn [andb]. apply andb_true_iff.
      split; [apply Z.leb_le|apply Z.ltb_lt]; lia.
Qed.

Lemma X15_search_reports_exactly_the_occurrences_witness :
  let e := mkEditor (plainBuffer [lit "xaaa"; lit "aa"] 0 0 noSelection)
             plainPane (lit "aa") [] 0 [] in
  exists e',
    ExecuteSearch e = Some e'
    /\ (forall m,
          In m (SearchMatches e')
          <-> exists line,
                index (Lines (CurrentBuffer e)) (SearchMatch.Line m)
                = Some line
                /\ occursAt (SearchQuery e) line (SearchMatch.Col m)
                /\ SearchMatch.Len m = len (SearchQuery e))
    /\ (forall line col,
          isSearchMatch e' line col = true
          <-> exists l c,
                index (Lines (CurrentBuffer e)) line = Some l
                /\ occursAt (SearchQuery e) l c
                /\ c <= col < c + len (SearchQuery e))
    /\ (SearchMatches e' <> [] ->
        exists m,
          head (SearchMatches e') = Some m
          /\ SearchIndex e' = 0
          /\ CursorY (CurrentBuffer e') = SearchMatch.Line m
          /\ CursorX (CurrentBuffer e') = SearchMatch.Col m)
    /\ (SearchMatches e' = [] ->
        CurrentBuffer e' = CurrentBuffer e /\ SearchIndex e' = SearchIndex e).
Proof.
  apply (X15_search_reports_exactly_the_occurrences
           (mkEditor (plainBuffer [lit "xaaa"; lit "aa"] 0 0 noSelection)
              plainPane (lit "aa") [] 0 [])).
  discriminate.
Defined.

(** ** Stepping through the matches *)

Lemma rem_next (i n : Z) :
  0 <= i < n -> Z.rem (i + 1) n = if i + 1 =? n then 0 else i + 1.
Proof.
  intros H. rewrite Z.rem_mod_nonneg by lia.
  destruct (Z.eqb_spec (i + 1) n) as [->|Hne];
    [apply Z.mod_same; lia|apply Z.mod_small; lia].
Qed.

Lemma rem_prev (i n : Z) :
  0 <= i < n -> Z.rem (i - 1 + n) n = if i =? 0 then n - 1 else i - 1.
Proof.
  intros H. rewrite Z.rem_mod_nonneg by lia.
  destruct (Z.eqb_spec i 0) as [->|Hne].
  - replace (0 - 1 + n) with (n - 1) by lia. apply Z.mod_small. lia.
  - replace (i - 1 + n) with (i - 1 + 1 * n) by lia.
    rewrite Z_mod_plus_full. apply Z.mod_small. lia.
Qed.

Lemma HandleKey_n (e : Editor) :
  0 < len (SearchMatches e) ->
  HandleKey e (KeyRune 110)
  = JumpToSearchMatch
      (withSearch e (SearchQuery e) (SearchMatches e)
         (Z.rem (SearchIndex e + 1) (len (SearchMatches e)))).
Proof.
  intros H. unfold HandleKey.
  destruct (Z.ltb_spec 0 (len (SearchMatches e))); [reflexivity|lia].
Qed.

Lemma HandleKey_N (e : Editor) :
  0 < len (SearchMatches e) ->
  HandleKey e (KeyRune 78)
  = JumpToSearchMatch
      (withSearch e (SearchQuery e) (SearchMatches e)
         (Z.rem (SearchIndex e - 1 + len (SearchMatches e))
            (len (SearchMatches e)))).
Proof.
  intros H. unfold HandleKey.
  destruct (Z.ltb_spec 0 (len (SearchMatches e))); [reflexivity|lia].
Qed.

(** One step through the matches: the key moves the search index to
    [i'], and the cursor to the match at [i']. *)
Lemma search_step (e : Editor) (i' : Z) :
  0 <= i' < len (SearchMatches e) ->
  (forall m, In m (SearchMatches e) -> 0 <= SearchMatch.Line m) ->
  exists e' m,
    JumpToSearchMatch (withSearch e (SearchQuery e) (SearchMatches e) i')
    = Some e'
    /\ SearchIndex e' = i'
    /\ index (SearchMatches e) i' = Some m
    /\ CursorY (CurrentBuffer e') = SearchMatch.Line m
    /\ CursorX (CurrentBuffer e') = SearchMatch.Col m
    /\ SearchMatches e' = SearchMatches e
    /\ Lines (CurrentBuffer e') = Lines (CurrentBuffer e).
Proof.
  intros Hi Hm.
  destruct (JumpToSearchMatch_result
              (withSearch e (SearchQuery e) (SearchMatches e) i'))
    as (e' & m & Hj & Hx & HY & HX & HL & HM & HI & _);
    [exact Hi|exact Hm|].
  exists e', m. cbn [withSearch SearchIndex SearchMatches CurrentBuffer] in *.
  auto 10.
Qed.

(** X16.  The keys 'n' and 'N' of normal mode.  With a non-empty match
    list whose entries lie on non-negative lines and a search index inside
    it, 'n' returns with the index advanced by one, wrapping from the last
    match to the first, and 'N' returns with the index moved back by one,
    wrapping from the first match to the last; either way the cursor is
    put on the match at the new index, and the lines and the match list
    are kept.  'N' after 'n' comes back to the match one started from. *)
Theorem X16_n_and_N_step_through_the_matches (e : Editor) :
  0 <= SearchIndex e < len (SearchMatches e) ->
  (forall m, In m (SearchMatches e) -> 0 <= SearchMatch.Line m) ->
  let n := len (SearchMatches e) in
  let onMatch (e' : Editor) (i : Z) :=
    SearchIndex e' = i
    /\ (exists m,
          index (SearchMatches e) i = Some m
          /\ CursorY (CurrentBuffer e') = SearchMatch.Line m
          /\ CursorX (CurrentBuffer e') = SearchMatch.Col m)
    /\ SearchMatches e' = SearchMatches e
    /\ Lines (CurrentBuffer e') = Lines (CurrentBuffer e) in
  exists e1 e2 e3,
    HandleKey e (KeyRune 110) = Some e1
    /\ onMatch e1 (if SearchIndex e + 1 =? n then 0 else SearchIndex e + 1)
    /\ HandleKey e (KeyRune 78) = Some e2
    /\ onMatch e2 (if SearchIndex e =? 0 then n - 1 else SearchIndex e - 1)
    /\ HandleKey e1 (KeyRune 78) = Some e3
    /\ onMatch e3 (SearchIndex e).
Proof.
  intros Hi Hm n onMatch. subst onMatch. cbv beta.
  assert (Hn : 0 < len (SearchMatches e)) by lia.
  set (i1 := if SearchIndex e + 1 =? n then 0 else SearchIndex e + 1).
  set (i2 := if SearchIndex e =? 0 then n - 1 else SearchIndex e - 1).
  assert (H1 : 0 <= i1 < len (SearchMatches e)).
  { subst i1 n. destruct (Z.eqb_spec (SearchIndex e + 1)
                            (len (SearchMatches e))); lia. }
  assert (H2 : 0 <= i2 < len (SearchMatches e)).
  { subst i2 n. destruct (Z.eqb_spec (SearchIndex e) 0); lia. }
  destruct (search_step e i1 H1 Hm)
    as (e1 & m1 & Hj1 & HI1 & Hx1 & HY1 & HX1 & HM1 & HL1).
  destruct (search_step e i2 H2 Hm)
    as (e2 & m2 & Hj2 & HI2 & Hx2 & HY2 & HX2 & HM2 & HL2).
  assert (Hm1 : forall m, In m (SearchMatches e1) -> 0 <= SearchMatch.Line m)
    by (rewrite HM1; exact Hm).
  assert (H3 : 0 <= SearchIndex e < len (SearchMatches e1))
    by (rewrite HM1; exact Hi).
  destruct (search_step e1 (SearchIndex e) H3 Hm1)
    as (e3 & m3 & Hj3 & HI3 & Hx3 & HY3 & HX3 & HM3 & HL3).
  exists e1, e2, e3.
  split; [rewrite HandleKey_n, rem_next by lia; exact Hj1|].
  split; [eauto 10|].
  split; [rewrite HandleKey_N, rem_prev by lia; exact Hj2|].
  split; [eauto 10|].
  split.
  - rewrite HandleKey_N by (rewrite HM1; exact Hn).
    rewrite rem_prev by (rewrite HI1, HM1; exact H1).
    rewrite <- Hj3. f_equal. f_equal. rewrite HI1, HM1. subst i1 n.
    destruct (Z.eqb_spec (SearchIndex e + 1) (len (SearchMatches e)));
      [change (0 =? 0) with true; cbv iota; lia|].
    destruct (Z.eqb_spec (SearchIndex e + 1) 0); lia.
  - rewrite HM1 in Hx3, HM3. rewrite HL1 in HL3. eauto 10.
Qed.

Lemma X16_n_and_N_step_through_the_matches_witness :
  let e := mkEditor (plainBuffer [lit "abab"; lit "ab"] 0 0 noSelection)
             plainPane (lit "ab")
             [SearchMatch.mk 0 0 2; SearchMatch.mk 0 2 2; SearchMatch.mk 1 0 2]
             2 [] in
  let n := len (SearchMatches e) in
  let onMatch (e' : Editor) (i : Z) :=
    SearchIndex e' = i
    /\ (exists m,
          index (SearchMatches e) i = Some m
          /\ CursorY (CurrentBuffer e') = SearchMatch.Line m
          /\ CursorX (CurrentBuffer e') = SearchMatch.Col m)
    /\ SearchMatches e' = SearchMatches e
    /\ Lines (CurrentBuffer e') = Lines (CurrentBuffer e) in
  exists e1 e2 e3,
    HandleKey e (KeyRune 110) = Some e1
    /\ onMatch e1 (if SearchIndex e + 1 =? n then 0 else SearchIndex e + 1)
    /\ HandleKey e (KeyRune 78) = Some e2
    /\ onMatch e2 (if SearchIndex e =? 0 then n - 1 else SearchIndex e - 1)
    /\ HandleKey e1 (KeyRune 78) = Some e3
    /\ onMatch e3 (SearchIndex e).
Proof.
  apply (X16_n_and_N_step_through_the_matches
           (mkEditor (plainBuffer [lit "abab"; lit "ab"] 0 0 noSelection)
              plainPane (lit "ab")
              [SearchMatch.mk 0 0 2; SearchMatch.mk 0 2 2;
               SearchMatch.mk 1 0 2] 2 [])).
  - vm_compute. split; [discriminate|reflexivity].
  - intros m [<-|[<-|[<-|[]]]]; vm_compute; discriminate.
Defined.

(** ** The highlight cache inside the refreshed window *)

Lemma tiles_snoc (spans : list TokenInfo.t) (c col n : Z) (st : tcell.Style) :
  tiles c spans col -> 0 < n ->
  tiles c (spans ++ [TokenInfo.mk col n st]) (col + n).
Proof.
  revert c. induction spans as [|t rest IH]; intros c H Hn.
  - simpl in *. subst. auto.
  - destruct H as (H1 & H2 & H3). cbn [app tiles]. auto.
Qed.

Lemma findStyle_tiles (spans : list TokenInfo.t) (c limit col : Z) :
  tiles c spans limit -> c <= col < limit ->
  exists t,
    In t spans
    /\ TokenInfo.Col t <= col < TokenInfo.Col t + TokenInfo.Len t
    /\ findStyle spans col = TokenInfo.Style t.
Proof.
  revert c. induction spans as [|t rest IH]; intros c H Hc.
  - simpl in H. lia.
  - destruct H as (H1 & H2 & H3). cbn [findStyle].
    destruct (Z.leb_spec (TokenInfo.Col t) col); [|lia].
    destruct (Z.ltb_spec col (TokenInfo.Col t + TokenInfo.Len t)).
    + exists t. split; [left; reflexivity|]. split; [lia|reflexivity].
    + destruct (IH _ H3) as (t' & Hin & Hr & Hs); [lia|].
      exists t'. split; [right; exact Hin|]. auto.
Qed.

Lemma SplitNL_parts_no_NL (s l : str) :
  In l (strings.SplitNL s) -> ~ In NL l.
Proof.
  revert l. induction s as [|c s IH]; intros l Hl.
  - destruct Hl as [<-|[]]. intros [].
  - cbn [strings.SplitNL] in Hl. destruct (byte_eqb_spec c NL) as [->|Hc].
    + destruct Hl as [<-|Hl]; [intros []|apply IH; exact Hl].
    + pose proof (SplitNL_nonempty s) as Hne.
      destruct (strings.SplitNL s) as [|h t]; [congruence|].
      destruct Hl as [<-|Hl].
      * intros [H|H]; [congruence|]. apply (IH h); [left; reflexivity|exact H].
      * apply IH. right. exact Hl.
Qed.

Lemma Join_tail (w : str) (ws : list str) :
  strings.Join (w :: ws) [NL] = w ++ tailText ws.
Proof.
  revert w. induction ws as [|v ws IH]; intros w.
  - unfold tailText. simpl. rewrite app_nil_r. reflexivity.
  - rewrite Join_cons by discriminate. rewrite IH. reflexivity.
Qed.

(** A text without line break that starts a text is a prefix of the
    latter's first line. *)
Lemma first_line_prefix (a ta p X : str) :
  a ++ ta = p ++ X -> ~ In NL p ->
  (ta = [] \/ exists ta', ta = NL :: ta') ->
  exists a', a = p ++ a' /\ X = a' ++ ta.
Proof.
  revert a. induction p as [|c p IH]; intros a H Hp Hta.
  - exists a. auto.
  - destruct a as [|d a].
    + cbn [app] in H. destruct Hta as [->|[ta' ->]]; [discriminate H|].
      injection H as <- _. exfalso. apply Hp. left. reflexivity.
    + injection H as -> H.
      destruct (IH a H) as (a' & -> & ->);
        [intros Hin; apply Hp; right; exact Hin|exact Hta|].
      exists a'. auto.
Qed.

Lemma tailText_head (ls : list str) :
  tailText ls = [] \/ exists t, tailText ls = NL :: t.
Proof. destruct ls; [left; reflexivity|right; eexists; reflexivity]. Qed.

Lemma tailText_nil_inv (ls : list str) : tailText ls = [] -> ls = [].
Proof. destruct ls; [reflexivity|discriminate]. Qed.

Lemma drop_all_inv {A : Type} (l : list A) (n : Z) :
  0 <= n <= len l -> drop (Z.to_nat n) l = [] -> n = len l.
Proof.
  intros Hn H. apply (f_equal length) in H. rewrite length_drop in H.
  simpl in H. unfold len in *. lia.
Qed.

Section Walk.

Variable W : list str.
Variable lo : nat.
Hypothesis W_no_NL : forall l, In l W -> ~ In NL l.

(** One part of a token value, read on the current line. *)
Lemma step_part (k : nat) (col : Z) (cache : Cache) (part X : str)
    (style : tcell.Style) :
  walkInv W lo k col cache (part ++ X) -> ~ In NL part ->
  walkInv W lo k (col + len part)
    (if (Z.of_nat (lo + k) <? len cache) && (0 <? len part)
     then alter (fun l => l ++ [TokenInfo.mk col (len part) style])
                (Z.to_nat (Z.of_nat (lo + k))) cache
     else cache) X.
Proof.
  intros (wk & Hk & Hcol & HR & Hprev & (spans & Hrow & Htiles) & Hnext) Hp.
  symmetry in HR.
  destruct (first_line_prefix _ _ _ _ HR Hp (tailText_head _))
    as (a' & Ha & HX).
  pose proof (len_nonneg part) as Hlp. pose proof (len_nonneg a') as Hla.
  assert (Hlen : len wk - col = len part + len a').
  { rewrite <- len_drop by lia. rewrite Ha. apply len_app. }
  assert (Hdrop : drop (Z.to_nat (col + len part)) wk = a').
  { replace (Z.to_nat (col + len part))
      with (Z.to_nat col + length part)%nat by (unfold len; lia).
    rewrite <- drop_drop, Ha. apply drop_app_length. }
  pose proof (lookup_lt_Some _ _ _ Hrow) as Hlt.
  destruct (Z.ltb_spec (Z.of_nat (lo + k)) (len cache));
    [|unfold len in *; lia].
  rewrite Nat2Z.id. cbn [andb].
  destruct (Z.ltb_spec 0 (len part)) as [Hpos|Hzero].
  - exists wk. split; [exact Hk|]. split; [lia|].
    split; [rewrite Hdrop; exact HX|]. split; [|split].
    + intros j wj Hj Hwj. rewrite list_lookup_alter_ne by lia. eauto.
    + exists (spans ++ [TokenInfo.mk col (len part) style]). split.
      * rewrite list_lookup_alter, decide_True by reflexivity.
        rewrite Hrow. reflexivity.
      * apply tiles_snoc; assumption.
    + intros j Hj. rewrite list_lookup_alter_ne by lia. auto.
  - assert (Hz : len part = 0) by lia. rewrite Hz, Z.add_0_r in *.
    exists wk. split; [exact Hk|]. split; [lia|].
    split; [rewrite Hdrop; exact HX|]. eauto.
Qed.

(** A line break inside a token value: the current line has been read to
    its end, and reading goes on at column 0 of the next line. *)
Lemma newline_step (k : nat) (col : Z) (cache : Cache) (Y : str) :
  walkInv W lo k col cache (NL :: Y) ->
  walkInv W lo (S k) 0 cache Y.
Proof.
  intros (wk & Hk & Hcol & HR & Hprev & (spans & Hrow & Htiles) & Hnext).
  assert (Hnl : ~ In NL wk).
  { apply W_no_NL, list_elem_of_In, list_elem_of_lookup. eauto. }
  destruct (drop (Z.to_nat col) wk) as [|d rest] eqn:Hd.
  - apply drop_all_inv in Hd; [|exact Hcol]. subst col. cbn [app] in HR.
    destruct (drop (S k) W) as [|w ws] eqn:HW; [discriminate HR|].
    assert (Hlt : (S k < length W)%nat).
    { apply (f_equal length) in HW. rewrite length_drop in HW.
      simpl in HW. lia. }
    destruct (lookup_lt_is_Some_2 W (S k) Hlt) as [w' Hw'].
    rewrite (drop_S _ _ _ Hw') in HW. injection HW as -> Hws.
    unfold tailText in HR. cbn [map concat app] in HR. injection HR as ->.
    exists w. split; [exact Hw'|]. split; [pose proof (len_nonneg w); lia|].
    split; [rewrite Hws; reflexivity|]. split; [|split].
    + intros j wj Hj Hwj. destruct (decide (j = k)) as [->|Hne].
      * rewrite Hk in Hwj. injection Hwj as <-. eauto.
      * apply Hprev; [lia|exact Hwj].
    + exists []. split; [apply Hnext; lia|reflexivity].
    + intros j Hj. apply Hnext. lia.
  - cbn [app] in HR. injection HR as <- _. exfalso.
    apply (notin_drop NL wk (Z.to_nat col) Hnl). rewrite Hd.
    left. reflexivity.
Qed.

Lemma walkParts_inv (style : tcell.Style) (parts : list str) :
  forall (isFirst : bool) (k : nat) (col : Z) (cache : Cache) (R' : str),
    (forall p, In p parts -> ~ In NL p) ->
    (isFirst = true -> parts <> []) ->
    walkInv W lo k col cache
      ((if isFirst then strings.Join parts [NL] else tailText parts) ++ R') ->
    exists k' col' cache',
      walkParts style isFirst parts (Z.of_nat (lo + k)) col cache
      = (Z.of_nat (lo + k'), col', cache')
      /\ walkInv W lo k' col' cache' R'.
Proof.
  induction parts as [|part rest IH];
    intros isFirst k col cache R' Hnl Hne Hinv.
  - destruct isFirst; [exfalso; apply Hne; reflexivity|].
    exists k, col, cache. split; [reflexivity|exact Hinv].
  - assert (Hp : ~ In NL part) by (apply Hnl; left; reflexivity).
    assert (Hrest : forall p, In p rest -> ~ In NL p)
      by (intros p Hin; apply Hnl; right; exact Hin).
    cbn [walkParts]. destruct isFirst.
    + rewrite Join_tail, <- app_assoc in Hinv.
      apply (step_part _ _ _ _ _ style) in Hinv; [|exact Hp].
      apply (IH false k _ _ R' Hrest); [discriminate|exact Hinv].
    + unfold tailText in Hinv. cbn [map concat] in Hinv.
      fold (tailText rest) in Hinv. cbn [app] in Hinv.
      rewrite <- app_assoc in Hinv.
      apply newline_step in Hinv.
      apply (step_part _ _ _ _ _ style) in Hinv; [|exact Hp].
      replace (Z.of_nat (lo + k) + 1) with (Z.of_nat (lo + S k)) by lia.
      apply (IH false (S k) _ _ R' Hrest); [discriminate|exact Hinv].
Qed.

Lemma walkTokens_inv (st : chroma.Style) (tokens : list chroma.Token) :
  forall (k : nat) (col : Z) (cache : Cache),
    walkInv W lo k col cache (concat (map chroma.Value tokens)) ->
    exists k' col',
      walkInv W lo k' col'
        (walkTokens st tokens (Z.of_nat (lo + k)) col cache) [].
Proof.
  induction tokens as [|token rest IH]; intros k col cache Hinv.
  - exists k, col. exact Hinv.
  - cbn [walkTokens map concat] in *.
    rewrite <- (Join_SplitNL (chroma.Value token)) in Hinv.
    destruct (walkParts_inv (tokenStyle st (chroma.TType token))
                (strings.SplitNL (chroma.Value token)) true k col cache
                (concat (map chroma.Value rest)))
      as (k' & col' & cache' & -> & Hinv').
    + intros p Hin. eapply SplitNL_parts_no_NL. exact Hin.
    + intros _. apply SplitNL_nonempty.
    + exact Hinv.
    + apply IH. exact Hinv'.
Qed.

(** When nothing is left to read, every row of the window is tiled. *)
Lemma walkInv_done (k : nat) (col : Z) (cache : Cache) :
  walkInv W lo k col cache [] ->
  forall j wj,
    W !! j = Some wj ->
    exists spans,
      cache !! (lo + j)%nat = Some spans /\ tiles 0 spans (len wj).
Proof.
  intros (wk & Hk & Hcol & HR & Hprev & (spans & Hrow & Htiles) & Hnext)
         j wj Hwj.
  symmetry in HR. apply app_eq_nil in HR as [Hd Ht].
  apply drop_all_inv in Hd; [|exact Hcol]. subst col.
  apply tailText_nil_inv in Ht.
  apply (f_equal length) in Ht. rewrite length_drop in Ht. simpl in Ht.
  pose proof (lookup_lt_Some _ _ _ Hwj) as Hj. unfold str in *.
  destruct (decide (j = k)) as [->|Hne].
  - rewrite Hk in Hwj. injection Hwj as <-. eauto.
  - apply Hprev; [lia|exact Hwj].
Qed.

End Walk.

Lemma clearRange_inside (cache : Cache) (lo hi : Z) (i : nat) :
  (i < length cache)%nat -> lo <= Z.of_nat i <= hi ->
  clearRange cache lo hi !! i = Some [].
Proof.
  intros Hi Hr. unfold clearRange. rewrite list_lookup_imap.
  destruct (lookup_lt_is_Some_2 cache i Hi) as [x ->]. simpl.
  destruct (Z.leb_spec lo (Z.of_nat i)); [|lia].
  destruct (Z.leb_spec (Z.of_nat i) hi); [|lia]. reflexivity.
Qed.

(** X17.  The highlight cache inside the refreshed window.  Take a buffer
    with lexer and style whose lines hold no line break, a lexer whose
    tokens spell the text they were made from, and a range whose widened
    window [lo..hi] is not empty.  [UpdateTokenCacheRange] returns, and
    the cache then has one row per line.  If the lexer failed on the
    window's text, the rows of the window are empty; otherwise the spans
    of every window row tile their line from column 0 to its end, one span
    after the other and none empty, so that [GetStyleAt] gives every byte
    of such a line the style of a cached span that covers it. *)
Theorem X17_refresh_tiles_the_window_lines
    (b : Buffer) (s e : Z) (lexer : chroma.Lexer) (st : chroma.Style) :
  Lexer b = Some lexer -> Style b = Some st ->
  lexerSpellsContent lexer ->
  (forall l, In l (Lines b) -> ~ In NL l) ->
  let lo := Z.max 0 (s - contextLines) in
  let hi := Z.min (len (Lines b) - 1) (e + contextLines) in
  lo <= hi ->
  exists b' window,
    UpdateTokenCacheRange b s e = Some b'
    /\ slice (Lines b) lo (hi + 1) = Some window
    /\ len (TokenCache b') = len (Lines b)
    /\ forall line l,
         lo <= line <= hi -> index (Lines b) line = Some l ->
         exists spans,
           index (TokenCache b') line = Some spans
           /\ match chroma.Tokenise lexer (strings.Join window [NL]) with
              | None => spans = []
              | Some _ =>
                tiles 0 spans (len l)
                /\ forall col,
                     0 <= col < len l ->
                     exists t,
                       In t spans
                       /\ TokenInfo.Col t <= col
                          < TokenInfo.Col t + TokenInfo.Len t
                       /\ GetStyleAt b' line col = Some (TokenInfo.Style t)
              end.
Proof.
  intros HLx HSt Hspell Hnl lo hi Hwin.
  assert (Hlo : 0 <= lo) by (subst lo; lia).
  assert (Hhi : hi < len (Lines b)) by (subst hi; lia).
  unfold UpdateTokenCacheRange. rewrite HLx, HSt. fold lo hi.
  rewrite slice_ok by lia.
  set (W := take (Z.to_nat (hi + 1 - lo)) (drop (Z.to_nat lo) (Lines b))).
  set (cacheR := if len (TokenCache b) =? len (Lines b) then TokenCache b
                 else resizeCache (TokenCache b) (length (Lines b))).
  assert (HcR : length cacheR = length (Lines b)).
  { subst cacheR. destruct (Z.eqb_spec (len (TokenCache b)) (len (Lines b)));
      [unfold len in *; lia|apply resizeCache_length]. }
  set (cache0 := clearRange cacheR lo hi).
  assert (Hc0 : length cache0 = length (Lines b)).
  { subst cache0. rewrite (proj1 (clearRange_frame _ _ _)). exact HcR. }
  assert (HWlen : length W = Z.to_nat (hi + 1 - lo)).
  { subst W. rewrite length_take, length_drop. unfold len in *. lia. }
  assert (HWl : forall j, (j < length W)%nat ->
                          W !! j = Lines b !! (Z.to_nat lo + j)%nat).
  { intros j Hj. subst W. rewrite lookup_take_lt by lia. apply lookup_drop. }
  assert (HWnl : forall l, In l W -> ~ In NL l).
  { intros l Hin. apply Hnl. apply list_elem_of_In.
    apply list_elem_of_In in Hin. subst W.
    eapply subseteq_drop, subseteq_take, Hin. }
  assert (Hrows : forall line, lo <= line <= hi ->
                    index cache0 line = Some []).
  { intros line Hl. rewrite index_lookup by lia. subst cache0.
    apply clearRange_inside; [rewrite HcR; unfold len in *|]; lia. }
  assert (Hrow_of : forall (cache : Cache) line l,
            lo <= line <= hi -> index (Lines b) line = Some l ->
            W !! (Z.to_nat line - Z.to_nat lo)%nat = Some l).
  { intros _ line l Hl Hidx. rewrite HWl by lia.
    rewrite index_lookup in Hidx by lia. rewrite <- Hidx. f_equal. lia. }
  destruct (chroma.Tokenise lexer (strings.Join W [NL])) as [tokens|] eqn:Htok.
  - (* the lexer answered *)
    assert (Hinit : walkInv W (Z.to_nat lo) 0 0 cache0
                      (concat (map chroma.Value tokens))).
    { rewrite (Hspell _ _ Htok).
      destruct W as [|w ws] eqn:HW; [simpl in HWlen; lia|].
      exists w. split; [reflexivity|].
      split; [pose proof (len_nonneg w); lia|].
      split; [apply Join_tail|]. split; [intros j wj Hj; lia|]. split.
      - exists []. split; [|reflexivity].
        rewrite Nat.add_0_r, <- index_lookup by lia. apply Hrows. lia.
      - intros j Hj. rewrite <- (Nat2Z.id (Z.to_nat lo + j)).
        rewrite <- index_lookup by lia. apply Hrows.
        rewrite HWlen in Hj. lia. }
    destruct (walkTokens_inv W (Z.to_nat lo) HWnl st tokens 0 0 cache0 Hinit)
      as (k' & col' & Hdone).
    replace (Z.of_nat (Z.to_nat lo + 0)) with lo in Hdone by lia.
    set (cache1 := walkTokens st tokens lo 0 cache0) in *.
    assert (Hc1 : length cache1 = length (Lines b)).
    { subst cache1. rewrite (proj1 (walkTokens_frame st tokens lo 0 cache0 Hlo)).
      exact Hc0. }
    eexists _, W. split; [reflexivity|]. split; [reflexivity|].
    cbn [TokenCache withTokenCache Lines]. split; [unfold len; lia|].
    intros line l Hl Hidx.
    pose proof (Hrow_of cache1 line l Hl Hidx) as HWj.
    destruct (walkInv_done W (Z.to_nat lo) k' col' cache1 Hdone _ _ HWj)
      as (spans & Hsp & Ht).
    replace (Z.to_nat lo + (Z.to_nat line - Z.to_nat lo))%nat
      with (Z.to_nat line) in Hsp by lia.
    exists spans. rewrite index_lookup by lia. split; [exact Hsp|].
    rewrite Htok. split; [exact Ht|]. intros col Hcol.
    destruct (findStyle_tiles spans 0 (len l) col Ht Hcol)
      as (t & Hin & Hr & Hs).
    exists t. split; [exact Hin|]. split; [exact Hr|].
    unfold GetStyleAt. cbn [TokenCache withTokenCache].
    destruct (Z.leb_spec (len cache1) line); [unfold len in *; lia|].
    rewrite index_lookup by lia. rewrite Hsp, Hs. reflexivity.
  - (* the lexer failed *)
    eexists _, W. split; [reflexivity|]. split; [reflexivity|].
    cbn [TokenCache withTokenCache Lines]. split; [unfold len; lia|].
    intros line l Hl Hidx. exists []. split; [apply Hrows; exact Hl|].
    rewrite Htok. reflexivity.
Qed.

Lemma X17_refresh_tiles_the_window_lines_witness :
  let b := thousandLines in
  let lo := Z.max 0 (10 - contextLines) in
  let hi := Z.min (len (Lines b) - 1) (10 + contextLines) in
  exists b' window,
    UpdateTokenCacheRange b 10 10 = Some b'
    /\ slice (Lines b) lo (hi + 1) = Some window
    /\ len (TokenCache b') = len (Lines b)
    /\ forall line l,
         lo <= line <= hi -> index (Lines b) line = Some l ->
         exists spans,
           index (TokenCache b') line = Some spans
           /\ match chroma.Tokenise wholeLexer (strings.Join window [NL]) with
              | None => spans = []
              | Some _ =>
                tiles 0 spans (len l)
                /\ forall col,
                     0 <= col < len l ->
                     exists t,
                       In t spans
                       /\ TokenInfo.Col t <= col
                          < TokenInfo.Col t + TokenInfo.Len t
                       /\ GetStyleAt b' line col = Some (TokenInfo.Style t)
              end.
Proof.
  apply (X17_refresh_tiles_the_window_lines thousandLines 10 10
           wholeLexer noStyle).
  - reflexivity.
  - reflexivity.
  - intros content tokens [= <-]. simpl. apply app_nil_r.
  - intros l Hin. apply list_elem_of_In, elem_of_replicate in Hin as [-> _].
    simpl. intros [H|[]]. discriminate H.
  - vm_compute. discriminate.
Defined.

(** ** Saving, then loading *)

Lemma Join_bytes (lines : list str) (sep : str) (c : byte) :
  In c (strings.Join lines sep) ->
  In c sep \/ exists l, In l lines /\ In c l.
Proof.
  induction lines as [|l rest IH]; [intros []|].
  destruct rest as [|l' rest].
  - intros H. right. exists l. split; [left; reflexivity|exact H].
  - rewrite Join_cons by discriminate. rewrite !in_app_iff.
    intros [H|[H|H]].
    + right. exists l. split; [left; reflexivity|exact H].
    + left. exact H.
    + destruct (IH H) as [Hs|(x & Hx & Hc)]; [left; exact Hs|].
      right. exists x. split; [right; exact Hx|exact Hc].
Qed.

(** X18.  Save, then load.  For a named buffer whose store is not empty
    and whose lines hold neither a line break nor a carriage return,
    [SaveFile] hands a content to the file system, and [LoadFile] of that
    content, into any buffer and whatever the lexers, returns without
    error a buffer with the same line store. *)
Theorem X18_save_then_load_restores_the_lines
    (lexersMatch : str -> option chroma.Lexer)
    (lexersFallback : chroma.Lexer)
    (Coalesce : chroma.Lexer -> chroma.Lexer)
    (b b0 : Buffer) :
  Filename b <> [] ->
  Lines b <> [] ->
  (forall l, In l (Lines b) -> ~ In NL l /\ ~ In CR l) ->
  exists content b',
    SaveFile b = SaveWrite (Filename b) content
    /\ LoadFile lexersMatch lexersFallback Coalesce b0 (Filename b)
         (ReadOk content) = Some (b', false)
    /\ Lines b' = Lines b.
Proof.
  intros Hf Hne Hl.
  destruct (LoadFile_ok lexersMatch lexersFallback Coalesce b0 (Filename b)
              (strings.Join (Lines b) [NL])) as (b' & Hload & HL).
  exists (strings.Join (Lines b) [NL]), b'. split.
  - unfold SaveFile. destruct (Filename b); [congruence|reflexivity].
  - split; [exact Hload|]. rewrite HL.
    assert (Hcr : ~ In CR (strings.Join (Lines b) [NL])).
    { intros Hc. apply Join_bytes in Hc as [Hc|(l & Hin & Hc)].
      - destruct Hc as [Hc|[]]. discriminate Hc.
      - exact (proj2 (Hl l Hin) Hc). }
    rewrite (ReplaceCRLF_id_upto _ _ (Nat.le_refl _) Hcr).
    apply SplitNL_Join; [exact Hne|]. intros l Hin. apply (Hl l Hin).
Qed.

Lemma X18_save_then_load_restores_the_lines_witness :
  let b := withFilename (plainBuffer [lit "ab"; []; lit "c"] 0 0 noSelection)
             (lit "f.txt") in
  exists content b',
    SaveFile b = SaveWrite (Filename b) content
    /\ LoadFile (fun _ => None) wholeLexer (fun l => l)
         (plainBuffer [[]] 0 0 noSelection) (Filename b)
         (ReadOk content) = Some (b', false)
    /\ Lines b' = Lines b.
Proof.
  apply (X18_save_then_load_restores_the_lines (fun _ => None) wholeLexer
           (fun l => l)
           (withFilename
              (plainBuffer [lit "ab"; []; lit "c"] 0 0 noSelection)
              (lit "f.txt"))
           (plainBuffer [[]] 0 0 noSelection)).
  - discriminate.
  - discriminate.
  - simpl. intros l [<-|[<-|[<-|[]]]]; split; intros Hin; simpl in Hin;
      repeat (destruct Hin as [Hin|Hin]; [discriminate Hin|]); exact Hin.
Defined.

(** ** UTF-8: decoding what was encoded *)

Lemma checkFrom_sound (P : Z -> bool) (fuel : nat) :
  forall z, checkFrom P fuel z = true ->
  forall x, z <= x < z + Z.of_nat fuel -> P x = true.
Proof.
  induction fuel as [|f IH]; intros z H x Hx; [lia|].
  cbn [checkFrom] in H. apply andb_true_iff in H as [Hz Hf].
  destruct (Z.eq_dec x z) as [->|Hne]; [exact Hz|].
  apply (IH (z + 1) Hf). lia.
Qed.

(** One- and two-byte encodings, one by one. *)
Lemma roundTrips_short : checkFrom roundTrips 2048 0 = true.
Proof. vm_compute. reflexivity. Qed.

Lemma lead3_low : checkFrom lead3 832 32 = true.
Proof. vm_compute. reflexivity. Qed.

Lemma lead3_high : checkFrom lead3 128 896 = true.
Proof. vm_compute. reflexivity. Qed.

Lemma lead4_all : checkFrom lead4 256 16 = true.
Proof. vm_compute. reflexivity. Qed.

Lemma trail_all : checkFrom trail 64 0 = true.
Proof. vm_compute. reflexivity. Qed.

(** Bits that do not meet add up. *)
Lemma lor_low (x y k : Z) :
  0 <= k -> 0 <= y < 2 ^ k -> Z.lor (x * 2 ^ k) y = x * 2 ^ k + y.
Proof.
  intros Hk Hy. rewrite <- Z.add_lor_land.
  assert (H0 : Z.land (x * 2 ^ k) y = 0); [|rewrite H0; lia].
  apply Z.bits_inj'. intros n Hn. rewrite Z.land_spec, Z.bits_0.
  destruct (Z_lt_le_dec n k) as [Hlt|Hge].
  - rewrite Z.mul_pow2_bits_low by exact Hlt. reflexivity.
  - destruct (Z.eq_dec y 0) as [->|Hy0];
      [rewrite Z.bits_0; apply andb_false_r|].
    rewrite (Z.bits_above_log2 y n), andb_false_r; [reflexivity|lia|].
    apply Z.log2_lt_pow2; [lia|].
    apply Z.lt_le_trans with (2 ^ k); [lia|].
    apply Z.pow_le_mono_r; lia.
Qed.

Lemma low6 (r : Z) :
  Z.shiftr r 6 = r / 64 /\ Z.land r 63 = r mod 64.
Proof.
  split; [apply (Z.shiftr_div_pow2 r 6); lia|].
  change 63 with (Z.ones 6). apply (Z.land_ones r 6). lia.
Qed.

Lemma validRune_id (r : rune) :
  0 <= r <= 1114111 -> ~ 55296 <= r <= 57343 -> validRune r = r.
Proof.
  intros H1 H2. unfold validRune, utf8.MaxRune.
  destruct (Z.ltb_spec r 0); [lia|].
  destruct (Z.ltb_spec 1114111 r); [lia|]. cbn [orb].
  destruct (Z.leb_spec 55296 r); destruct (Z.leb_spec r 57343);
    cbn [andb]; try reflexivity; lia.
Qed.

Lemma roundTrips_three (r : rune) :
  2048 <= r <= 65535 -> ~ 55296 <= r <= 57343 -> roundTrips r = true.
Proof.
  intros Hr Hs. unfold roundTrips.
  rewrite validRune_id by lia.
  unfold utf8.EncodeRune, utf8.MaxRune.
  destruct (Z.leb_spec r 127); [lia|]. rewrite andb_false_r.
  destruct (Z.leb_spec r 2047); [lia|]. rewrite andb_false_r.
  destruct (Z.ltb_spec r 0); [lia|].
  destruct (Z.ltb_spec 1114111 r); [lia|]. cbn [orb].
  assert (E : (55296 <=? r) && (r <=? 57343) = false).
  { destruct (Z.leb_spec 55296 r); destruct (Z.leb_spec r 57343);
      cbn [andb]; try reflexivity; lia. }
  rewrite E. destruct (Z.leb_spec r 65535); [|lia].
  destruct (low6 r) as [Hp Hd].
  replace (Z.shiftr r 12) with (Z.shiftr (Z.shiftr r 6) 6)
    by (rewrite Z.shiftr_shiftr by lia; reflexivity).
  assert (Hlead : lead3 (Z.shiftr r 6) = true).
  { destruct (Z_lt_le_dec (Z.shiftr r 6) 864).
    - apply (checkFrom_sound _ _ _ lead3_low). rewrite Hp in *.
      Z.to_euclidean_division_equations. lia.
    - apply (checkFrom_sound _ _ _ lead3_high). rewrite Hp in *.
      Z.to_euclidean_division_equations. lia. }
  assert (Htrail : trail (Z.land r 63) = true).
  { apply (checkFrom_sound _ _ _ trail_all). rewrite Hd.
    Z.to_euclidean_division_equations. lia. }
  assert (Hval : Z.shiftr r 6 * 2 ^ 6 + Z.land r 63 = r).
  { rewrite Hp, Hd. change (2 ^ 6) with 64.
    Z.to_euclidean_division_equations. lia. }
  assert (Hlow : 0 <= Z.land r 63 < 2 ^ 6).
  { rewrite Hd. change (2 ^ 6) with 64.
    Z.to_euclidean_division_equations. lia. }
  revert Hlead Htrail Hval Hlow.
  generalize (Z.shiftr r 6) (Z.land r 63). intros p d.
  unfold lead3, trail, utf8.DecodeRune.
  set (b0 := byteZ (zbyte (Z.lor 224 (Z.shiftr p 6)))).
  set (b1 := byteZ (zbyte (Z.lor 128 (Z.land p 63)))).
  set (b2 := byteZ (zbyte (Z.lor 128 d))).
  intros Hlead Htrail Hval Hlow.
  apply andb_true_iff in Hlead as [Hb0 Hlead].
  apply negb_true_iff in Hb0. rewrite Hb0.
  destruct (utf8.first b0) as [[[sz lo] hi]|]; [|discriminate Hlead].
  apply andb_true_iff in Hlead as [Hlead Hv].
  apply andb_true_iff in Hlead as [Hsz Hrange].
  apply Z.eqb_eq in Hsz. subst sz. apply negb_true_iff in Hrange.
  apply Z.eqb_eq in Hv.
  apply andb_true_iff in Htrail as [Hc Hd2]. apply Z.eqb_eq in Hd2.
  match goal with |- context [len ?l] => change (len l) with 3 end.
  change (3 <? 3) with false. change (3 <=? 2) with false.
  change (3 <=? 3) with true. cbv iota.
  rewrite Hrange, Hc. cbn [negb]. cbv iota. rewrite Hv, Hd2.
  rewrite lor_low, Hval by lia. rewrite Z.eqb_refl. reflexivity.
Qed.

Lemma roundTrips_four (r : rune) :
  65536 <= r <= 1114111 -> roundTrips r = true.
Proof.
  intros Hr. unfold roundTrips.
  rewrite validRune_id by lia.
  unfold utf8.EncodeRune, utf8.MaxRune.
  destruct (Z.leb_spec r 127); [lia|]. rewrite andb_false_r.
  destruct (Z.leb_spec r 2047); [lia|]. rewrite andb_false_r.
  destruct (Z.ltb_spec r 0); [lia|].
  destruct (Z.ltb_spec 1114111 r); [lia|]. cbn [orb].
  assert (E : (55296 <=? r) && (r <=? 57343) = false).
  { destruct (Z.leb_spec 55296 r); destruct (Z.leb_spec r 57343);
      cbn [andb]; try reflexivity; lia. }
  rewrite E. destruct (Z.leb_spec r 65535); [lia|].
  assert (Hq : Z.shiftr r 12 = r / 4096)
    by (apply (Z.shiftr_div_pow2 r 12); lia).
  assert (Hc : Z.land (Z.shiftr r 6) 63 = (r / 64) mod 64).
  { destruct (low6 (Z.shiftr r 6)) as [_ ->].
    destruct (low6 r) as [-> _]. reflexivity. }
  destruct (low6 r) as [_ Hd].
  replace (Z.shiftr r 18) with (Z.shiftr (Z.shiftr r 12) 6)
    by (rewrite Z.shiftr_shiftr by lia; reflexivity).
  assert (Hlead : lead4 (Z.shiftr r 12) = true).
  { apply (checkFrom_sound _ _ _ lead4_all). rewrite Hq.
    Z.to_euclidean_division_equations. lia. }
  assert (Ht1 : trail (Z.land (Z.shiftr r 6) 63) = true).
  { apply (checkFrom_sound _ _ _ trail_all). rewrite Hc.
    Z.to_euclidean_division_equations. lia. }
  assert (Ht2 : trail (Z.land r 63) = true).
  { apply (checkFrom_sound _ _ _ trail_all). rewrite Hd.
    Z.to_euclidean_division_equations. lia. }
  assert (Hval : (Z.shiftr r 12 * 2 ^ 6 + Z.land (Z.shiftr r 6) 63) * 2 ^ 6
                 + Z.land r 63 = r).
  { rewrite Hq, Hc, Hd. change (2 ^ 6) with 64.
    Z.to_euclidean_division_equations. lia. }
  assert (Hlc : 0 <= Z.land (Z.shiftr r 6) 63 < 2 ^ 6).
  { rewrite Hc. change (2 ^ 6) with 64.
    Z.to_euclidean_division_equations. lia. }
  assert (Hld : 0 <= Z.land r 63 < 2 ^ 6).
  { rewrite Hd. change (2 ^ 6) with 64.
    Z.to_euclidean_division_equations. lia. }
  revert Hlead Ht1 Ht2 Hval Hlc Hld.
  generalize (Z.shiftr r 12) (Z.land (Z.shiftr r 6) 63) (Z.land r 63).
  intros q c d.
  unfold lead4, trail, utf8.DecodeRune.
  set (b0 := byteZ (zbyte (Z.lor 240 (Z.shiftr q 6)))).
  set (b1 := byteZ (zbyte (Z.lor 128 (Z.land q 63)))).
  set (b2 := byteZ (zbyte (Z.lor 128 c))).
  set (b3 := byteZ (zbyte (Z.lor 128 d))).
  intros Hlead Ht1 Ht2 Hval Hlc Hld.
  apply andb_true_iff in Hlead as [Hb0 Hlead].
  apply negb_true_iff in Hb0. rewrite Hb0.
  destruct (utf8.first b0) as [[[sz lo] hi]|]; [|discriminate Hlead].
  apply andb_true_iff in Hlead as [Hlead Hv].
  apply andb_true_iff in Hlead as [Hsz Hrange].
  apply Z.eqb_eq in Hsz. subst sz. apply negb_true_iff in Hrange.
  apply Z.eqb_eq in Hv.
  apply andb_true_iff in Ht1 as [Hc1 Hc2]. apply Z.eqb_eq in Hc2.
  apply andb_true_iff in Ht2 as [Hd1 Hd2]. apply Z.eqb_eq in Hd2.
  match goal with |- context [len ?l] => change (len l) with 4 end.
  change (4 <? 4) with false. change (4 <=? 2) with false.
  change (4 <=? 3) with false. cbv iota.
  rewrite Hrange, Hc1, Hd1. cbn [negb]. cbv iota. rewrite Hv, Hc2, Hd2.
  rewrite (Z.shiftl_mul_pow2 c 6) by lia.
  replace (q * 2 ^ 12) with (q * 2 ^ 6 * 2 ^ 6)
    by (change (2 ^ 12) with (2 ^ 6 * 2 ^ 6); lia).
  replace (Z.lor (q * 2 ^ 6 * 2 ^ 6) (c * 2 ^ 6))
    with ((q * 2 ^ 6 + c) * 2 ^ 6).
  - rewrite lor_low, Hval by lia. rewrite Z.eqb_refl. reflexivity.
  - rewrite <- !Z.shiftl_mul_pow2 by lia.
    rewrite <- Z.shiftl_lor. f_equal.
    rewrite Z.shiftl_mul_pow2 by lia. symmetry. apply lor_low; lia.
Qed.

Lemma roundTrips_all (r : rune) : roundTrips r = true.
Proof.
  destruct (Z_lt_ge_dec r 0) as [Hneg|Hpos].
  { unfold roundTrips, utf8.EncodeRune, validRune, utf8.MaxRune.
    destruct (Z.leb_spec 0 r); [lia|]. cbn [andb].
    destruct (Z.ltb_spec r 0); [|lia]. cbn [orb]. reflexivity. }
  destruct (Z_lt_ge_dec r 2048) as [Hshort|Hlong].
  { apply (checkFrom_sound _ _ _ roundTrips_short). lia. }
  destruct (Z_le_gt_dec r 1114111) as [Hin|Hbig].
  - destruct (Z_le_gt_dec r 65535) as [H3|H4]; [|apply roundTrips_four; lia].
    destruct (Z_lt_ge_dec r 55296) as [Hlo|Hhi];
      [apply roundTrips_three; lia|].
    destruct (Z_le_gt_dec r 57343) as [Hsur|Hnot];
      [|apply roundTrips_three; lia].
    unfold roundTrips, utf8.EncodeRune, validRune, utf8.MaxRune.
    destruct (Z.leb_spec r 127); [lia|]. rewrite andb_false_r.
    destruct (Z.leb_spec r 2047); [lia|]. rewrite andb_false_r.
    destruct (Z.leb_spec 55296 r); [|lia].
    destruct (Z.leb_spec r 57343); [|lia].
    cbn [andb]. rewrite !orb_true_r. reflexivity.
  - unfold roundTrips, utf8.EncodeRune, validRune, utf8.MaxRune.
    destruct (Z.leb_spec r 127); [lia|]. rewrite andb_false_r.
    destruct (Z.leb_spec r 2047); [lia|]. rewrite andb_false_r.
    destruct (Z.ltb_spec 1114111 r); [|lia]. rewrite orb_true_r.
    cbn [orb]. reflexivity.
Qed.

Lemma first_size (b0 sz lo hi : Z) :
  utf8.first b0 = Some (sz, lo, hi) -> sz = 2 \/ sz = 3 \/ sz = 4.
Proof.
  unfold utf8.first.
  repeat match goal with
         | |- context [if ?c then _ else _] => destruct c
         end; intros [= <- <- <-]; auto.
Qed.

(** A decoding that reads the whole of [s] is not changed by what follows
    [s]. *)
Lemma DecodeRune_app (s rest : str) (r : rune) :
  utf8.DecodeRune s = (r, length s) ->
  (length s = 1%nat -> byteZ (hd x00 s) < 128) ->
  s <> [] ->
  utf8.DecodeRune (s ++ rest) = (r, length s).
Proof.
  intros H H1 Hne. destruct s as [|c0 s1]; [congruence|]. clear Hne.
  cbn [hd] in H1. revert H. unfold utf8.DecodeRune. cbn [app].
  destruct (Z.ltb_spec (byteZ c0) 128) as [E0|E0]; [auto|].
  assert (Hbad : forall (x : rune * nat),
            (utf8.RuneError, 1%nat) = (r, length (c0 :: s1)) ->
            x = (r, length (c0 :: s1))).
  { intros x [= _ Hw]. exfalso.
    assert (Hl : length (c0 :: s1) = 1%nat) by (simpl; lia).
    specialize (H1 Hl). lia. }
  destruct (utf8.first (byteZ c0)) as [[[sz lo] hi]|] eqn:Ef; [|apply Hbad].
  pose proof (first_size _ _ _ _ Ef) as Hsz.
  destruct (Z.ltb_spec (len (c0 :: s1)) sz) as [El|El]; [apply Hbad|].
  assert (El' : (len (c0 :: s1 ++ rest) <? sz) = false).
  { apply Z.ltb_ge. rewrite len_cons, len_app in *.
    pose proof (len_nonneg rest). lia. }
  rewrite El'.
  destruct s1 as [|c1 s2]; [apply Hbad|]. cbn [app].
  destruct ((byteZ c1 <? lo) || (hi <? byteZ c1)); [apply Hbad|].
  destruct (sz <=? 2); [auto|].
  destruct s2 as [|c2 s3]; [apply Hbad|]. cbn [app].
  destruct (negb (utf8.cont (byteZ c2))); [apply Hbad|].
  destruct (sz <=? 3); [auto|].
  destruct s3 as [|c3 s4]; [apply Hbad|]. cbn [app].
  destruct (negb (utf8.cont (byteZ c3))); [apply Hbad|]. auto.
Qed.

Lemma EncodeRune_nonempty (r : rune) : utf8.EncodeRune r <> [].
Proof.
  unfold utf8.EncodeRune.
  repeat match goal with
         | |- context [if ?c then _ else _] => destruct c
         end; discriminate.
Qed.

Lemma DecodeRune_EncodeRune (r : rune) (rest : str) :
  utf8.DecodeRune (utf8.EncodeRune r ++ rest)
  = (validRune r, length (utf8.EncodeRune r)).
Proof.
  pose proof (roundTrips_all r) as H. unfold roundTrips in H.
  destruct (utf8.DecodeRune (utf8.EncodeRune r)) as [r' w] eqn:Hd.
  apply andb_true_iff in H as [H H3]. apply andb_true_iff in H as [H1 H2].
  apply Z.eqb_eq in H1. apply Nat.eqb_eq in H2. subst r' w.
  apply DecodeRune_app; [exact Hd| |apply EncodeRune_nonempty].
  intros Hl. rewrite Hl in H3. cbn in H3. apply Z.ltb_lt. exact H3.
Qed.

Lemma ofRunes_app (rs1 rs2 : list rune) :
  ofRunes (rs1 ++ rs2) = ofRunes rs1 ++ ofRunes rs2.
Proof. unfold ofRunes. rewrite map_app. apply concat_app. Qed.

Lemma decodeRunes_ofRunes (rs : list rune) :
  forall fuel : nat,
    (length (ofRunes rs) <= fuel)%nat ->
    decodeRunes fuel (ofRunes rs) = map validRune rs.
Proof.
  induction rs as [|r rs IH]; intros fuel Hf.
  - destruct fuel; reflexivity.
  - change (ofRunes (r :: rs)) with (utf8.EncodeRune r ++ ofRunes rs) in *.
    pose proof (EncodeRune_nonempty r) as Hne.
    destruct (utf8.EncodeRune r) as [|c enc] eqn:He; [congruence|].
    destruct fuel as [|fuel]; [simpl in Hf; lia|].
    cbn [app decodeRunes]. change (c :: enc ++ ofRunes rs)
      with ((c :: enc) ++ ofRunes rs).
    rewrite <- He, DecodeRune_EncodeRune, drop_app_length. cbn [map].
    f_equal. apply IH. rewrite length_app in Hf. simpl in Hf. lia.
Qed.

Lemma runes_ofRunes (rs : list rune) : runes (ofRunes rs) = map validRune rs.
Proof. unfold runes. apply decodeRunes_ofRunes. lia. Qed.

Lemma validRune_idem (r : rune) : validRune (validRune r) = validRune r.
Proof.
  unfold validRune, utf8.MaxRune, utf8.RuneError.
  destruct ((r <? 0) || (1114111 <? r) || ((55296 <=? r) && (r <=? 57343)))
    eqn:E; [reflexivity|]. rewrite E. reflexivity.
Qed.

(** The runes of a valid line are runes that encoding keeps. *)
Lemma validUTF8_runes (line : str) :
  validUTF8 line -> map validRune (runes line) = runes line.
Proof.
  intros H. unfold validUTF8 in H. rewrite <- H at 2. symmetry.
  apply runes_ofRunes.
Qed.

Lemma map_valid_take (rs : list rune) (n : nat) :
  map validRune rs = rs -> map validRune (take n rs) = take n rs.
Proof. intros H. rewrite <- firstn_map, H. reflexivity. Qed.

Lemma map_valid_drop (rs : list rune) (n : nat) :
  map validRune rs = rs -> map validRune (drop n rs) = drop n rs.
Proof. intros H. rewrite <- skipn_map, H. reflexivity. Qed.

(** ** Single-character edits *)

Lemma EncodeRune_validRune (r : rune) :
  utf8.EncodeRune (validRune r) = utf8.EncodeRune r.
Proof.
  unfold validRune, utf8.MaxRune.
  destruct ((r <? 0) || (1114111 <? r) || ((55296 <=? r) && (r <=? 57343)))
    eqn:E; [|reflexivity].
  unfold utf8.EncodeRune at 2. unfold utf8.MaxRune. rewrite E.
  destruct (Z.leb_spec 0 r); destruct (Z.leb_spec r 127);
    destruct (Z.leb_spec r 2047); cbn [andb]; try reflexivity;
    exfalso; revert E;
    destruct (Z.ltb_spec r 0); destruct (Z.ltb_spec 1114111 r);
    destruct (Z.leb_spec 55296 r); destruct (Z.leb_spec r 57343);
    cbn; intros; try discriminate; lia.
Qed.

Lemma ofRunes_valid (rs : list rune) :
  ofRunes (map validRune rs) = ofRunes rs.
Proof.
  unfold ofRunes. rewrite map_map. f_equal. apply map_ext.
  apply EncodeRune_validRune.
Qed.

Lemma ofRunes_cons (r : rune) (rs : list rune) :
  ofRunes (r :: rs) = utf8.EncodeRune r ++ ofRunes rs.
Proof. reflexivity. Qed.

Lemma clampCursorX_id (b : Buffer) (rs : list rune) :
  CursorX b <= len rs -> clampCursorX b rs = b.
Proof.
  intros H. unfold clampCursorX.
  destruct (Z.ltb_spec (len rs) (CursorX b)); [lia|reflexivity].
Qed.

Section OnALine.

Variable b : Buffer.
Variables (pre : list str) (line : str) (post : list str).
Hypothesis HL : Lines b = pre ++ line :: post.
Hypothesis HY : CursorY b = len pre.
Hypothesis Hoff : Selection.Active (Selection b) = false.

Lemma on_line : index (Lines b) (CursorY b) = Some line.
Proof. rewrite HL, HY. apply index_middle. Qed.

Lemma insertRune_at (r : rune) :
  0 <= CursorX b <= len (runes line) ->
  insertRune b r
  = Some (MarkDirty
            (withCursorX
               (withLines b
                  (pre ++ (ofRunes (take (Z.to_nat (CursorX b)) (runes line))
                           ++ utf8.EncodeRune r
                           ++ ofRunes (drop (Z.to_nat (CursorX b))
                                         (runes line))) :: post))
               (CursorX b + 1))).
Proof.
  intros HX. unfold insertRune, deleteIfActive. rewrite Hoff, on_line.
  rewrite clampCursorX_id by lia.
  rewrite sliceTo_ok, sliceFrom_ok by lia.
  rewrite HL, HY, store_middle. reflexivity.
Qed.

Lemma deleteBackward_inline :
  0 < CursorX b <= len (runes line) ->
  deleteBackward b
  = Some (MarkDirty
            (withCursorX
               (withLines b
                  (pre ++ (ofRunes (take (Z.to_nat (CursorX b - 1))
                                      (runes line))
                           ++ ofRunes (drop (Z.to_nat (CursorX b))
                                         (runes line))) :: post))
               (CursorX b - 1))).
Proof.
  intros HX. unfold deleteBackward. rewrite Hoff.
  destruct (Z.ltb_spec 0 (CursorX b)); [|lia].
  rewrite on_line, clampCursorX_id by lia.
  destruct (Z.ltb_spec 0 (CursorX b)); [|lia].
  rewrite sliceTo_ok, sliceFrom_ok by lia.
  rewrite HL, HY, store_middle. reflexivity.
Qed.

Lemma deleteForward_inline :
  0 <= CursorX b < len (runes line) ->
  deleteForward b
  = Some (MarkDirty
            (withLines b
               (pre ++ (ofRunes (take (Z.to_nat (CursorX b)) (runes line))
                        ++ ofRunes (drop (Z.to_nat (CursorX b + 1))
                                      (runes line))) :: post))).
Proof.
  intros HX. unfold deleteForward. rewrite Hoff, on_line.
  destruct (Z.ltb_spec (CursorX b) (len (runes line))); [|lia].
  rewrite sliceTo_ok, sliceFrom_ok by lia.
  rewrite HL, HY, store_middle. reflexivity.
Qed.

Lemma insertNewline_at :
  0 <= CursorX b <= len (runes line) ->
  exists b',
    insertNewline b = Some b'
    /\ Lines b'
       = pre ++ ofRunes (take (Z.to_nat (CursorX b)) (runes line))
             :: ofRunes (drop (Z.to_nat (CursorX b)) (runes line)) :: post
    /\ CursorX b' = 0 /\ CursorY b' = len pre + 1
    /\ Selection b' = Selection b.
Proof.
  intros HX. unfold insertNewline, deleteIfActive. rewrite Hoff, on_line.
  rewrite clampCursorX_id by lia.
  rewrite sliceTo_ok by lia. rewrite HL, HY, store_middle.
  cbn [Lines CursorX CursorY withLines].
  rewrite sliceFrom_ok by lia.
  set (A := ofRunes (take (Z.to_nat (CursorX b)) (runes line))).
  set (B := ofRunes (drop (Z.to_nat (CursorX b)) (runes line))).
  rewrite HY.
  assert (E : pre ++ A :: post = (pre ++ [A]) ++ post)
    by (rewrite <- app_assoc; reflexivity).
  rewrite E, <- (len_snoc pre A), sliceTo_app, sliceFrom_app.
  eexists. split; [reflexivity|].
  cbn [Lines CursorX CursorY Selection withLines withCursorX withCursorY
       MarkDirtyLines withDirty].
  rewrite <- app_assoc. cbn [app]. rewrite ?len_snoc, ?HY.
  repeat split; reflexivity.
Qed.

End OnALine.

Lemma two_lines_index {A : Type} (pre : list A) (x y : A) (post : list A) :
  index (pre ++ x :: y :: post) (len pre + 1) = Some y.
Proof.
  replace (pre ++ x :: y :: post) with ((pre ++ [x]) ++ y :: post)
    by (rewrite <- app_assoc; reflexivity).
  rewrite <- (len_snoc pre x). apply index_middle.
Qed.

Lemma two_lines_head {A : Type} (pre : list A) (x y : A) (post : list A) :
  sliceTo (pre ++ x :: y :: post) (len pre + 1) = Some (pre ++ [x]).
Proof.
  replace (pre ++ x :: y :: post) with ((pre ++ [x]) ++ y :: post)
    by (rewrite <- app_assoc; reflexivity).
  rewrite <- (len_snoc pre x). apply sliceTo_app.
Qed.

Lemma two_lines_tail {A : Type} (pre : list A) (x y : A) (post : list A) :
  sliceFrom (pre ++ x :: y :: post) (len pre + 2) = Some post.
Proof.
  replace (pre ++ x :: y :: post) with ((pre ++ [x; y]) ++ post)
    by (rewrite <- app_assoc; reflexivity).
  replace (len pre + 2) with (len (pre ++ [x; y]))
    by (rewrite len_app, !len_cons; unfold len; simpl; lia).
  apply sliceFrom_app.
Qed.

Lemma deleteBackward_join (b : Buffer) (pre : list str) (prev cur : str)
    (post : list str) :
  Lines b = pre ++ prev :: cur :: post ->
  CursorY b = len pre + 1 ->
  CursorX b <= 0 ->
  Selection.Active (Selection b) = false ->
  exists b',
    deleteBackward b = Some b'
    /\ Lines b' = pre ++ (prev ++ cur) :: post
    /\ CursorX b' = len (runes prev) /\ CursorY b' = len pre
    /\ Selection b' = Selection b.
Proof.
  intros HL HY HX Hoff. pose proof (len_nonneg pre) as Hp.
  unfold deleteBackward. rewrite Hoff.
  destruct (Z.ltb_spec 0 (CursorX b)); [lia|].
  destruct (Z.ltb_spec 0 (CursorY b)); [|lia].
  rewrite HL, HY. replace (len pre + 1 - 1) with (len pre) by lia.
  rewrite index_middle. cbn [Lines CursorX CursorY withCursorX].
  rewrite HL, HY, two_lines_index.
  replace (len pre + 1 - 1) with (len pre) by lia.
  rewrite store_middle. cbn [Lines CursorX CursorY withLines withCursorX].
  rewrite HY, two_lines_head.
  replace (len pre + 1 + 1) with (len pre + 2) by lia.
  rewrite two_lines_tail.
  eexists. split; [reflexivity|].
  cbn [Lines CursorX CursorY Selection withLines withCursorX withCursorY
       MarkDirtyLines withDirty].
  rewrite <- app_assoc. cbn [app]. rewrite ?HY.
  repeat split; try reflexivity; lia.
Qed.

Lemma deleteForward_join (b : Buffer) (pre : list str) (line next : str)
    (post : list str) :
  Lines b = pre ++ line :: next :: post ->
  CursorY b = len pre ->
  len (runes line) <= CursorX b ->
  Selection.Active (Selection b) = false ->
  exists b',
    deleteForward b = Some b'
    /\ Lines b' = pre ++ (line ++ next) :: post
    /\ CursorX b' = CursorX b /\ CursorY b' = len pre
    /\ Selection b' = Selection b.
Proof.
  intros HL HY HX Hoff. pose proof (len_nonneg pre) as Hp.
  pose proof (len_nonneg post) as Hq.
  unfold deleteForward. rewrite Hoff, HL, HY, index_middle.
  destruct (Z.ltb_spec (CursorX b) (len (runes line))); [lia|].
  destruct (Z.ltb_spec (len pre) (len (pre ++ line :: next :: post) - 1));
    [|rewrite len_app, !len_cons in *; lia].
  rewrite two_lines_index, store_middle.
  cbn [Lines CursorX CursorY withLines]. rewrite HY.
  rewrite two_lines_head, two_lines_tail.
  eexists. split; [reflexivity|].
  cbn [Lines CursorX CursorY Selection withLines withCursorX withCursorY
       MarkDirtyLines withDirty].
  rewrite <- app_assoc. cbn [app]. rewrite ?HY.
  repeat split; try reflexivity; lia.
Qed.

(** The scroll that ends a key handler keeps text, cursor and selection. *)
Lemma scroll_after (pane : Pane) (b1 : Buffer) :
  0 <= CursorY b1 ->
  exists b2,
    ScrollToCursor pane b1 = Some b2
    /\ Lines b2 = Lines b1 /\ CursorX b2 = CursorX b1
    /\ CursorY b2 = CursorY b1 /\ Selection b2 = Selection b1.
Proof.
  intros H. destruct (ScrollToCursor_total pane b1 H) as [b2 Hs].
  exists b2. split; [exact Hs|].
  apply ScrollToCursor_fields in Hs as (H1 & H2 & H3 & H4 & _). auto.
Qed.

Lemma HandleKey_rune (e : Editor) (r : rune) (b1 : Buffer) :
  SearchMatches e = [] \/ (r <> 110 /\ r <> 78) ->
  insertRune (CurrentBuffer e) r = Some b1 ->
  0 <= CursorY b1 ->
  exists e',
    HandleKey e (KeyRune r) = Some e'
    /\ Lines (CurrentBuffer e') = Lines b1
    /\ CursorX (CurrentBuffer e') = CursorX b1
    /\ CursorY (CurrentBuffer e') = CursorY b1
    /\ Selection (CurrentBuffer e') = Selection b1
    /\ SearchMatches e' = SearchMatches e.
Proof.
  intros Hs Hi Hy. unfold HandleKey.
  assert (E1 : (r =? 110) && (0 <? len (SearchMatches e)) = false).
  { destruct Hs as [->|[H _]]; [apply andb_false_r|].
    destruct (Z.eqb_spec r 110); [congruence|reflexivity]. }
  assert (E2 : (r =? 78) && (0 <? len (SearchMatches e)) = false).
  { destruct Hs as [->|[_ H]]; [apply andb_false_r|].
    destruct (Z.eqb_spec r 78); [congruence|reflexivity]. }
  rewrite E1, E2, Hi.
  destruct (scroll_after (CurrentPane e) b1 Hy) as (b2 & -> & H1 & H2 & H3 & H4).
  eexists. split; [reflexivity|]. simpl. auto 10.
Qed.

Lemma HandleKey_backspace (e : Editor) (b1 : Buffer) :
  deleteBackward (CurrentBuffer e) = Some b1 ->
  0 <= CursorY b1 ->
  exists e',
    HandleKey e KeyBackspace = Some e'
    /\ Lines (CurrentBuffer e') = Lines b1
    /\ CursorX (CurrentBuffer e') = CursorX b1
    /\ CursorY (CurrentBuffer e') = CursorY b1
    /\ Selection (CurrentBuffer e') = Selection b1.
Proof.
  intros Hi Hy. unfold HandleKey. rewrite Hi.
  destruct (scroll_after (CurrentPane e) b1 Hy) as (b2 & -> & H1 & H2 & H3 & H4).
  eexists. split; [reflexivity|]. simpl. auto 10.
Qed.


Lemma index_split {A : Type} (L : list A) (i : Z) (x : A) :
  index L i = Some x ->
  exists pre post, L = pre ++ x :: post /\ len pre = i.
Proof.
  intros H. pose proof (index_Some _ _ _ H) as Hi.
  rewrite index_lookup in H by lia.
  exists (take (Z.to_nat i) L), (drop (S (Z.to_nat i)) L).
  split; [symmetry; apply take_drop_middle; exact H|].
  apply len_take. lia.
Qed.

Lemma index_split2 {A : Type} (L : list A) (i : Z) (x y : A) :
  index L i = Some x -> index L (i + 1) = Some y ->
  exists pre post, L = pre ++ x :: y :: post /\ len pre = i.
Proof.
  intros Hx Hy. destruct (index_split L i x Hx) as (pre & post & -> & Hp).
  exists pre. destruct post as [|y' post].
  - apply index_Some in Hy. rewrite len_app, len_cons in Hy.
    unfold len in *. simpl in *. lia.
  - rewrite <- Hp, two_lines_index in Hy. injection Hy as ->.
    exists post. auto.
Qed.

Lemma validUTF8_ofRunes (rs : list rune) : validUTF8 (ofRunes rs).
Proof. unfold validUTF8. rewrite runes_ofRunes. apply ofRunes_valid. Qed.

Lemma runes_ofRunes_valid (rs : list rune) :
  map validRune rs = rs -> runes (ofRunes rs) = rs.
Proof. intros H. rewrite runes_ofRunes. exact H. Qed.


(** X19.  The character keys edit one rune.  Take the cursor on a line
    that is valid UTF-8, at a rune position inside it, with no active
    selection.  Typing a rune (a key that is not taken for stepping
    through search matches) puts that rune (U+FFFD for a value that is not
    a rune) between the runes before and after the cursor and moves the
    cursor one to the right; Backspace at a positive column removes the
    rune before the cursor and moves the cursor one to the left; Delete
    before the end of the line removes the rune at the cursor and leaves
    the cursor.  In all three cases the other lines are kept and the line
    stays valid UTF-8. *)
Theorem X19_character_keys_edit_one_rune
    (e : Editor) (pre : list str) (line : str) (post : list str) (r : rune) :
  Lines (CurrentBuffer e) = pre ++ line :: post ->
  CursorY (CurrentBuffer e) = len pre ->
  Selection.Active (Selection (CurrentBuffer e)) = false ->
  validUTF8 line ->
  0 <= CursorX (CurrentBuffer e) <= len (runes line) ->
  let rs := runes line in
  let x := Z.to_nat (CursorX (CurrentBuffer e)) in
  let edited (k : Key) (rs' : list rune) (dx : Z) :=
    exists e' line',
      HandleKey e k = Some e'
      /\ Lines (CurrentBuffer e') = pre ++ line' :: post
      /\ runes line' = rs' /\ validUTF8 line'
      /\ CursorX (CurrentBuffer e') = CursorX (CurrentBuffer e) + dx
      /\ CursorY (CurrentBuffer e') = len pre in
  (SearchMatches e = [] \/ (r <> 110 /\ r <> 78) ->
   edited (KeyRune r) (take x rs ++ validRune r :: drop x rs) 1)
  /\ (0 < CursorX (CurrentBuffer e) ->
      edited KeyBackspace (take (x - 1) rs ++ drop x rs) (-1))
  /\ (CursorX (CurrentBuffer e) < len (runes line) ->
      edited KeyDelete (take x rs ++ drop (S x) rs) 0).
Proof.
  intros HL HY Hoff Hv HX rs x edited. subst edited. cbv beta.
  pose proof (validUTF8_runes line Hv) as Hrs. fold rs in Hrs.
  pose proof (len_nonneg pre) as Hp.
  split; [|split].
  - intros Hs.
    pose proof (insertRune_at (CurrentBuffer e) pre line post HL HY Hoff r HX)
      as Hi.
    destruct (HandleKey_rune e r _ Hs Hi) as (e' & He & H1 & H2 & H3 & _);
      [simpl; lia|].
    cbn [Lines CursorX CursorY withLines withCursorX MarkDirty MarkDirtyLines
         withDirty] in H1, H2, H3.
    eexists e', _. split; [exact He|]. split; [exact H1|].
    fold rs x. rewrite <- ofRunes_cons, <- ofRunes_app.
    split; [|split; [apply validUTF8_ofRunes|split; [exact H2|lia]]].
    rewrite runes_ofRunes, map_app. cbn [map].
    rewrite (map_valid_take _ _ Hrs), (map_valid_drop _ _ Hrs). reflexivity.
  - intros Hpos.
    pose proof (deleteBackward_inline (CurrentBuffer e) pre line post HL HY
                  Hoff ltac:(lia)) as Hi.
    destruct (HandleKey_backspace e _ Hi) as (e' & He & H1 & H2 & H3 & _);
      [simpl; lia|].
    cbn [Lines CursorX CursorY withLines withCursorX MarkDirty MarkDirtyLines
         withDirty] in H1, H2, H3.
    eexists e', _. split; [exact He|]. split; [exact H1|].
    fold rs. replace (Z.to_nat (CursorX (CurrentBuffer e) - 1))
      with (x - 1)%nat by lia. fold x.
    rewrite <- ofRunes_app.
    split; [|split; [apply validUTF8_ofRunes|split; [exact H2|lia]]].
    rewrite runes_ofRunes, map_app.
    rewrite (map_valid_take _ _ Hrs), (map_valid_drop _ _ Hrs). reflexivity.
  - intros Hlt.
    pose proof (deleteForward_inline (CurrentBuffer e) pre line post HL HY
                  Hoff ltac:(lia)) as Hi.
    unfold HandleKey. rewrite Hi.
    eexists _, _. split; [reflexivity|].
    cbn [CurrentBuffer withBuffer Lines CursorX CursorY withLines MarkDirty
         MarkDirtyLines withDirty].
    split; [reflexivity|].
    fold rs. replace (Z.to_nat (CursorX (CurrentBuffer e) + 1))
      with (S x) by lia. fold x.
    rewrite <- ofRunes_app.
    split; [|split; [apply validUTF8_ofRunes|split; [lia|exact HY]]].
    rewrite runes_ofRunes, map_app.
    rewrite (map_valid_take _ _ Hrs), (map_valid_drop _ _ Hrs). reflexivity.
Qed.

Lemma X19_character_keys_edit_one_rune_witness :
  let e := plainEditor
             (plainBuffer [lit "ab"; eAcute ++ lit "x"; lit "c"] 1 1
                noSelection) [] in
  let pre := [lit "ab"] in
  let post := [lit "c"] in
  let rs := runes (eAcute ++ lit "x") in
  let x := Z.to_nat (CursorX (CurrentBuffer e)) in
  let edited (k : Key) (rs' : list rune) (dx : Z) :=
    exists e' line',
      HandleKey e k = Some e'
      /\ Lines (CurrentBuffer e') = pre ++ line' :: post
      /\ runes line' = rs' /\ validUTF8 line'
      /\ CursorX (CurrentBuffer e') = CursorX (CurrentBuffer e) + dx
      /\ CursorY (CurrentBuffer e') = len pre in
  (SearchMatches e = [] \/ (233 <> 110 /\ 233 <> 78) ->
   edited (KeyRune 233) (take x rs ++ validRune 233 :: drop x rs) 1)
  /\ (0 < CursorX (CurrentBuffer e) ->
      edited KeyBackspace (take (x - 1) rs ++ drop x rs) (-1))
  /\ (CursorX (CurrentBuffer e) < len (runes (eAcute ++ lit "x")) ->
      edited KeyDelete (take x rs ++ drop (S x) rs) 0).
Proof.
  apply (X19_character_keys_edit_one_rune
           (plainEditor
              (plainBuffer [lit "ab"; eAcute ++ lit "x"; lit "c"] 1 1
                 noSelection) [])
           [lit "ab"] (eAcute ++ lit "x") [lit "c"] 233).
  - reflexivity.
  - reflexivity.
  - reflexivity.
  - vm_compute. reflexivity.
  - vm_compute. split; discriminate.
Defined.



(** A cursor key without modifiers: the motion, and no selection after. *)
Lemma plain_key (IsLetter IsDigit : rune -> bool) (e : Editor) (k : ArrowKey) :
  cursorOnRune (CurrentBuffer e) ->
  exists e' b1,
    HandleArrow IsLetter IsDigit e k 0 = Some e'
    /\ arrowMove IsLetter IsDigit k 0 (CurrentBuffer e) = Some b1
    /\ Lines (CurrentBuffer e') = Lines b1
    /\ CursorX (CurrentBuffer e') = CursorX b1
    /\ CursorY (CurrentBuffer e') = CursorY b1
    /\ Selection.Active (Selection (CurrentBuffer e')) = false.
Proof.
  intros Hc.
  destruct (HandleArrow_plain IsLetter IsDigit e k Hc)
    as (e' & b1 & He & Hm & HL & HX & HY & _).
  exists e', b1. split; [exact He|]. split; [exact Hm|].
  split; [exact HL|]. split; [exact HX|]. split; [exact HY|].
  apply HandleArrow_result in He as (b1' & _ & _ & _ & _ & HS & _).
  rewrite HS. destruct k; reflexivity.
Qed.

(** X21.  Backspace is Left then Delete, and Delete is Right then
    Backspace.  With the cursor on the text and no active selection: if
    the cursor is not at the very start of the document, pressing
    Backspace leaves the same lines and the same cursor as pressing the
    plain Left key and then Delete; if it is not at the very end, pressing
    Delete leaves the same lines and the same cursor as pressing the plain
    Right key and then Backspace.  This holds inside a line and across a
    line end, where the two lines are joined. *)
Theorem X21_backspace_is_left_then_delete
    (IsLetter IsDigit : rune -> bool) (e : Editor) (line : str) :
  index (Lines (CurrentBuffer e)) (CursorY (CurrentBuffer e)) = Some line ->
  0 <= CursorX (CurrentBuffer e) <= len (runes line) ->
  Selection.Active (Selection (CurrentBuffer e)) = false ->
  let same (e1 e3 : Editor) :=
    Lines (CurrentBuffer e3) = Lines (CurrentBuffer e1)
    /\ CursorX (CurrentBuffer e3) = CursorX (CurrentBuffer e1)
    /\ CursorY (CurrentBuffer e3) = CursorY (CurrentBuffer e1) in
  (0 < CursorX (CurrentBuffer e) \/ 0 < CursorY (CurrentBuffer e) ->
   exists e1 e2 e3,
     HandleKey e KeyBackspace = Some e1
     /\ HandleArrow IsLetter IsDigit e KeyLeft 0 = Some e2
     /\ HandleKey e2 KeyDelete = Some e3
     /\ same e1 e3)
  /\ (CursorX (CurrentBuffer e) < len (runes line)
      \/ CursorY (CurrentBuffer e) < len (Lines (CurrentBuffer e)) - 1 ->
      exists e1 e2 e3,
        HandleKey e KeyDelete = Some e1
        /\ HandleArrow IsLetter IsDigit e KeyRight 0 = Some e2
        /\ HandleKey e2 KeyBackspace = Some e3
        /\ same e1 e3).
Proof.
  intros Hidx HX Hoff same. subst same. cbv beta.
  set (b := CurrentBuffer e) in *.
  pose proof (index_Some _ _ _ Hidx) as HYr.
  assert (Hc : cursorOnRune b) by (exists line; auto).
  split.
  - intros Hstart.
    destruct (plain_key IsLetter IsDigit e KeyLeft Hc)
      as (e2 & b1 & He2 & Hm & L2 & X2 & Y2 & Off2).
    fold b in Hm.
    destruct (plain_left_cursor IsLetter IsDigit b b1 line Hidx Hm)
      as (ML & Min & Mjoin & _).
    rewrite ML in L2.
    destruct (Z_lt_le_dec 0 (CursorX b)) as [Hpos|Hzero].
    + (* inside the line *)
      destruct (Min Hpos) as [MX MY]. rewrite MX in X2. rewrite MY in Y2.
      destruct (index_split _ _ _ Hidx) as (pre & post & HL & Hp).
      symmetry in Hp.
      pose proof (deleteBackward_inline b pre line post HL Hp Hoff
                    ltac:(lia)) as Hd.
      destruct (HandleKey_backspace e _ Hd) as (e1 & He1 & G1 & G2 & G3 & _);
        [simpl; lia|].
      cbn [Lines CursorX CursorY withLines withCursorX MarkDirty
           MarkDirtyLines withDirty] in G1, G2, G3.
      rewrite HL in L2. rewrite Hp in Y2.
      pose proof (deleteForward_inline (CurrentBuffer e2) pre line post
                    L2 Y2 Off2 ltac:(lia)) as Hf.
      exists e1, e2. eexists. split; [exact He1|]. split; [exact He2|].
      split; [unfold HandleKey; rewrite Hf; reflexivity|].
      cbn [CurrentBuffer withBuffer Lines CursorX CursorY withLines MarkDirty
           MarkDirtyLines withDirty].
      rewrite G1, G2, G3, X2, Y2.
      replace (CursorX b - 1 + 1) with (CursorX b) by lia.
      repeat split; try reflexivity; lia.
    + (* at column 0: the line is joined to the one before *)
      assert (HY0 : 0 < CursorY b) by lia.
      destruct (Mjoin Hzero HY0) as (prev & Hprev & MX & MY).
      rewrite MX in X2. rewrite MY in Y2.
      assert (Hidx' : index (Lines b) (CursorY b - 1 + 1) = Some line)
        by (replace (CursorY b - 1 + 1) with (CursorY b) by lia; exact Hidx).
      destruct (index_split2 _ _ _ _ Hprev Hidx') as (pre & post & HL & Hp).
      destruct (deleteBackward_join b pre prev line post HL ltac:(lia) Hzero
                  Hoff) as (b' & Hd & D1 & D2 & D3 & _).
      destruct (HandleKey_backspace e b' Hd) as (e1 & He1 & G1 & G2 & G3 & _);
        [pose proof (len_nonneg pre); lia|].
      rewrite HL in L2.
      destruct (deleteForward_join (CurrentBuffer e2) pre prev line post
                  L2 ltac:(lia) ltac:(lia) Off2)
        as (b3 & Hf & F1 & F2 & F3 & _).
      exists e1, e2. eexists. split; [exact He1|]. split; [exact He2|].
      split; [unfold HandleKey; rewrite Hf; reflexivity|].
      cbn [CurrentBuffer withBuffer].
      rewrite G1, G2, G3, D1, D2, D3, F1, F2, F3, X2.
      repeat split; try reflexivity; lia.
  - intros Hend.
    destruct (plain_key IsLetter IsDigit e KeyRight Hc)
      as (e2 & b1 & He2 & Hm & L2 & X2 & Y2 & Off2).
    fold b in Hm.
    destruct (plain_right_cursor IsLetter IsDigit b b1 line Hidx Hm)
      as (ML & Min & Mjoin & _).
    rewrite ML in L2.
    destruct (Z_lt_le_dec (CursorX b) (len (runes line))) as [Hin|Hlast].
    + (* inside the line *)
      destruct (Min Hin) as [MX MY]. rewrite MX in X2. rewrite MY in Y2.
      destruct (index_split _ _ _ Hidx) as (pre & post & HL & Hp).
      symmetry in Hp.
      pose proof (deleteForward_inline b pre line post HL Hp Hoff
                    ltac:(lia)) as Hf.
      rewrite HL in L2. rewrite Hp in Y2.
      pose proof (deleteBackward_inline (CurrentBuffer e2) pre line post
                    L2 Y2 Off2 ltac:(lia)) as Hd.
      destruct (HandleKey_backspace e2 _ Hd) as (e3 & He3 & G1 & G2 & G3 & _);
        [simpl; pose proof (len_nonneg pre); lia|].
      cbn [Lines CursorX CursorY withLines withCursorX MarkDirty
           MarkDirtyLines withDirty] in G1, G2, G3.
      eexists. exists e2, e3.
      split; [unfold HandleKey; fold b; rewrite Hf; reflexivity|].
      split; [exact He2|]. split; [exact He3|].
      cbn [CurrentBuffer withBuffer Lines CursorX CursorY withLines MarkDirty
           MarkDirtyLines withDirty].
      rewrite G1, G2, G3, X2, Y2.
      replace (CursorX b + 1 - 1) with (CursorX b) by lia.
      repeat split; try reflexivity; lia.
    + (* at the end of the line: the next line is joined to it *)
      assert (HYl : CursorY b < len (Lines b) - 1) by lia.
      destruct (Mjoin Hlast HYl) as [MX MY].
      rewrite MX in X2. rewrite MY in Y2.
      destruct (index_in_range (Lines b) (CursorY b + 1)) as [next Hnext];
        [lia|].
      destruct (index_split2 _ _ _ _ Hidx Hnext) as (pre & post & HL & Hp).
      destruct (deleteForward_join b pre line next post HL ltac:(lia) Hlast
                  Hoff) as (b' & Hf & F1 & F2 & F3 & _).
      rewrite HL in L2.
      destruct (deleteBackward_join (CurrentBuffer e2) pre line next post
                  L2 ltac:(lia) ltac:(lia) Off2)
        as (b3 & Hd & D1 & D2 & D3 & _).
      destruct (HandleKey_backspace e2 b3 Hd) as (e3 & He3 & G1 & G2 & G3 & _);
        [pose proof (len_nonneg pre); lia|].
      eexists. exists e2, e3.
      split; [unfold HandleKey; fold b; rewrite Hf; reflexivity|].
      split; [exact He2|]. split; [exact He3|].
      cbn [CurrentBuffer withBuffer].
      rewrite G1, G2, G3, D1, D2, D3, F1, F2, F3.
      repeat split; try reflexivity; lia.
Qed.

Lemma X21_backspace_is_left_then_delete_witness :
  let e := plainEditor
             (plainBuffer [lit "ab"; eAcute ++ lit "x"; lit "c"] 0 1
                noSelection) [] in
  let same (e1 e3 : Editor) :=
    Lines (CurrentBuffer e3) = Lines (CurrentBuffer e1)
    /\ CursorX (CurrentBuffer e3) = CursorX (CurrentBuffer e1)
    /\ CursorY (CurrentBuffer e3) = CursorY (CurrentBuffer e1) in
  (0 < CursorX (CurrentBuffer e) \/ 0 < CursorY (CurrentBuffer e) ->
   exists e1 e2 e3,
     HandleKey e KeyBackspace = Some e1
     /\ HandleArrow asciiIsLetter asciiIsDigit e KeyLeft 0 = Some e2
     /\ HandleKey e2 KeyDelete = Some e3
     /\ same e1 e3)
  /\ (CursorX (CurrentBuffer e) < len (runes (eAcute ++ lit "x"))
      \/ CursorY (CurrentBuffer e) < len (Lines (CurrentBuffer e)) - 1 ->
      exists e1 e2 e3,
        HandleKey e KeyDelete = Some e1
        /\ HandleArrow asciiIsLetter asciiIsDigit e KeyRight 0 = Some e2
        /\ HandleKey e2 KeyBackspace = Some e3
        /\ same e1 e3).
Proof.
  apply (X21_backspace_is_left_then_delete asciiIsLetter asciiIsDigit
           (plainEditor
              (plainBuffer [lit "ab"; eAcute ++ lit "x"; lit "c"] 0 1
                 noSelection) [])
           (eAcute ++ lit "x")).
  - reflexivity.
  - vm_compute. split; discriminate.
  - reflexivity.
Defined.

(** ** Sessions of keys *)

Lemma decodeRunes_length (fuel : nat) (s : str) :
  (length (decodeRunes fuel s) <= length s)%nat.
Proof.
  revert s. induction fuel as [|fuel IH]; intros s; [simpl; lia|].
  destruct s as [|c s]; [simpl; lia|]. cbn [decodeRunes].
  pose proof (DecodeRune_width c s) as Hw.
  destruct (utf8.DecodeRune (c :: s)) as [r w]. simpl in Hw.
  cbn [length]. specialize (IH (drop w (c :: s))).
  rewrite length_drop in IH. simpl in IH. simpl. lia.
Qed.

Lemma runes_len (s : str) : len (runes s) <= len s.
Proof. unfold len, runes. pose proof (decodeRunes_length (length s) s). lia. Qed.

Lemma ofRunes_len (rs : list rune) : len rs <= len (ofRunes rs).
Proof.
  induction rs as [|r rs IH]; [unfold len; simpl; lia|].
  rewrite ofRunes_cons, len_app, len_cons.
  pose proof (EncodeRune_nonempty r) as Hne.
  destruct (utf8.EncodeRune r) as [|c enc]; [congruence|].
  rewrite len_cons. pose proof (len_nonneg enc). lia.
Qed.

Lemma onRune_inBounds (b : Buffer) : cursorOnRune b -> cursorInBounds b.
Proof.
  intros (line & Hl & Hx). exists line. split; [exact Hl|].
  pose proof (runes_len line). lia.
Qed.

Lemma inBounds_ext (b b' : Buffer) :
  Lines b' = Lines b -> CursorX b' = CursorX b -> CursorY b' = CursorY b ->
  cursorInBounds b -> cursorInBounds b'.
Proof.
  intros HL HX HY (line & H1 & H2). exists line. rewrite HL, HX, HY. auto.
Qed.

Lemma selection_ext (b b' : Buffer) :
  Lines b' = Lines b -> Selection b' = Selection b ->
  selectionInBounds b -> selectionInBounds b'.
Proof. intros HL HS H. unfold selectionInBounds. rewrite HL, HS. exact H. Qed.

Lemma selection_off (b : Buffer) :
  Selection.Active (Selection b) = false -> selectionInBounds b.
Proof. intros H Ha. congruence. Qed.

(** *** The editing keys *)

Lemma deleteIfActive_off (b : Buffer) :
  cursorInBounds b -> selectionInBounds b ->
  exists b',
    deleteIfActive b = Some b' /\ cursorInBounds b'
    /\ Selection.Active (Selection b') = false.
Proof.
  intros Hc Hs. unfold deleteIfActive.
  destruct (Selection.Active (Selection b)) eqn:Ha; [|eauto].
  apply DeleteSelection_total; assumption.
Qed.

Lemma index_after {A : Type} (pre : list A) (x : A) (mid : list A) (y : A)
    (post : list A) :
  index (pre ++ x :: mid ++ y :: post) (len pre + len mid + 1) = Some y.
Proof.
  replace (pre ++ x :: mid ++ y :: post)
    with ((pre ++ x :: mid) ++ y :: post)
    by (rewrite <- app_assoc; reflexivity).
  replace (len pre + len mid + 1) with (len (pre ++ x :: mid))
    by (rewrite len_app, len_cons; lia).
  apply index_middle.
Qed.

Lemma InsertText_inBounds (b : Buffer) (text : str) :
  cursorInBounds b ->
  exists b',
    InsertText b text = Some b' /\ cursorInBounds b'
    /\ Selection b' = Selection b.
Proof.
  intros Hc. destruct (cursor_split b Hc) as (pre & cur & post & HL & HY & HX).
  pose proof (len_nonneg pre) as Hpre. pose proof (len_nonneg text) as Ht.
  destruct (Z.eq_dec (len (strings.SplitNL text)) 1) as [H1|H1].
  - rewrite (InsertText_one_line_eq b text pre cur post HL HY HX H1).
    eexists. split; [reflexivity|]. split; [|reflexivity].
    unfold cursorInBounds.
    eexists. cbn [Lines CursorX CursorY withLines withCursorX MarkDirty
                  MarkDirtyLines withDirty].
    split; [rewrite HY; apply index_middle|].
    rewrite !len_app, len_take by lia.
    pose proof (len_nonneg (drop (Z.to_nat (CursorX b)) cur)). lia.
  - destruct (first_mid_last (strings.SplitNL text))
      as (l0 & mid & ll & Hs);
      [pose proof (SplitNL_len text); unfold len in *; lia|].
    destruct (InsertText_lines_eq b text pre cur post l0 mid ll HL HY HX Hs)
      as (b' & Hi & HL' & HY' & HX' & HS').
    exists b'. split; [exact Hi|]. split; [|exact HS'].
    exists (ll ++ drop (Z.to_nat (CursorX b)) cur). split.
    + rewrite HL', HY', HY. apply index_after.
    + rewrite HX', len_app. pose proof (len_nonneg ll).
      pose proof (len_nonneg (drop (Z.to_nat (CursorX b)) cur)). lia.
Qed.

Lemma clampCursorX_onRune (b : Buffer) (line : str) :
  index (Lines b) (CursorY b) = Some line -> 0 <= CursorX b ->
  let bc := clampCursorX b (runes line) in
  Lines bc = Lines b /\ CursorY bc = CursorY b /\ Selection bc = Selection b
  /\ 0 <= CursorX bc <= len (runes line)
  /\ clampCursorX bc (runes line) = bc.
Proof.
  intros Hl Hx bc. subst bc.
  destruct (clampCursorX_fields b (runes line)) as (H1 & H2 & H3).
  pose proof (clampCursorX_bounds b (runes line) Hx) as H4.
  repeat split; try assumption; try lia.
  apply clampCursorX_id. lia.
Qed.

Lemma insertRune_clamped (b : Buffer) (line : str) (r : rune) :
  Selection.Active (Selection b) = false ->
  index (Lines b) (CursorY b) = Some line -> 0 <= CursorX b ->
  insertRune b r = insertRune (clampCursorX b (runes line)) r.
Proof.
  intros Hoff Hl Hx.
  destruct (clampCursorX_onRune b line Hl Hx) as (H1 & H2 & H3 & H4 & H5).
  unfold insertRune, deleteIfActive. rewrite H3, Hoff, H1, H2, Hl, H5.
  reflexivity.
Qed.

Lemma insertNewline_clamped (b : Buffer) (line : str) :
  Selection.Active (Selection b) = false ->
  index (Lines b) (CursorY b) = Some line -> 0 <= CursorX b ->
  insertNewline b = insertNewline (clampCursorX b (runes line)).
Proof.
  intros Hoff Hl Hx.
  destruct (clampCursorX_onRune b line Hl Hx) as (H1 & H2 & H3 & H4 & H5).
  unfold insertNewline, deleteIfActive. rewrite H3, Hoff, H1, H2, Hl, H5.
  reflexivity.
Qed.

Lemma insertRune_keeps (b : Buffer) (r : rune) :
  cursorInBounds b -> Selection.Active (Selection b) = false ->
  exists b',
    insertRune b r = Some b' /\ cursorInBounds b'
    /\ Selection.Active (Selection b') = false.
Proof.
  intros (line & Hl & Hx) Hoff.
  rewrite (insertRune_clamped b line r Hoff Hl) by lia.
  destruct (clampCursorX_onRune b line Hl ltac:(lia))
    as (H1 & H2 & H3 & H4 & _).
  set (bc := clampCursorX b (runes line)) in *. clearbody bc.
  destruct (index_split _ _ _ Hl) as (pre & post & HL & Hp).
  rewrite <- H1 in HL. rewrite <- H2 in Hp. symmetry in Hp.
  rewrite (insertRune_at bc pre line post HL Hp) by (rewrite ?H3; auto).
  eexists. split; [reflexivity|]. unfold cursorInBounds.
  cbn [Lines CursorX CursorY Selection withLines withCursorX MarkDirty
       MarkDirtyLines withDirty].
  split; [|rewrite H3; exact Hoff].
  eexists. split; [rewrite Hp; apply index_middle|].
  rewrite !len_app.
  pose proof (ofRunes_len (take (Z.to_nat (CursorX bc)) (runes line))) as Ho.
  rewrite len_take in Ho by lia.
  pose proof (EncodeRune_nonempty r) as Hne.
  destruct (utf8.EncodeRune r) as [|c enc]; [congruence|].
  rewrite len_cons. pose proof (len_nonneg enc).
  pose proof (len_nonneg (ofRunes (drop (Z.to_nat (CursorX bc)) (runes line)))).
  lia.
Qed.

Lemma insertNewline_keeps (b : Buffer) :
  cursorInBounds b -> Selection.Active (Selection b) = false ->
  exists b',
    insertNewline b = Some b' /\ cursorInBounds b'
    /\ Selection.Active (Selection b') = false.
Proof.
  intros (line & Hl & Hx) Hoff.
  rewrite (insertNewline_clamped b line Hoff Hl) by lia.
  destruct (clampCursorX_onRune b line Hl ltac:(lia))
    as (H1 & H2 & H3 & H4 & _).
  set (bc := clampCursorX b (runes line)) in *. clearbody bc.
  destruct (index_split _ _ _ Hl) as (pre & post & HL & Hp).
  rewrite <- H1 in HL. rewrite <- H2 in Hp. symmetry in Hp.
  destruct (insertNewline_at bc pre line post HL Hp) as (b' & -> & N1 & N2 & N3 & N4);
    [rewrite H3; exact Hoff|exact H4|].
  exists b'. split; [reflexivity|]. split; [|rewrite N4, H3; exact Hoff].
  eexists. rewrite N1, N2, N3. split; [apply two_lines_index|].
  split; [lia|apply len_nonneg].
Qed.

Lemma after_delete {A : Type} (b : Buffer) (K : Buffer -> option A) :
  cursorInBounds b -> selectionInBounds b ->
  exists b1,
    (let? b' := deleteIfActive b in K b') = K b1
    /\ cursorInBounds b1 /\ Selection.Active (Selection b1) = false.
Proof.
  intros Hc Hs. destruct (deleteIfActive_off b Hc Hs) as (b1 & -> & H1 & H2).
  exists b1. auto.
Qed.

Lemma deleteBackward_clamped (b : Buffer) (line : str) :
  Selection.Active (Selection b) = false ->
  index (Lines b) (CursorY b) = Some line -> 0 < CursorX b ->
  deleteBackward b
  = if 0 <? CursorX (clampCursorX b (runes line))
    then deleteBackward (clampCursorX b (runes line))
    else Some (clampCursorX b (runes line)).
Proof.
  intros Hoff Hl Hx.
  destruct (clampCursorX_onRune b line Hl ltac:(lia))
    as (H1 & H2 & H3 & H4 & H5).
  unfold deleteBackward at 1. rewrite Hoff, Hl.
  destruct (Z.ltb_spec 0 (CursorX b)); [|lia].
  destruct (Z.ltb_spec 0 (CursorX (clampCursorX b (runes line))));
    [|reflexivity].
  unfold deleteBackward. rewrite H3, Hoff, H1, H2, Hl, H5.
  destruct (Z.ltb_spec 0 (CursorX (clampCursorX b (runes line)))); [|lia].
  rewrite ?H1, ?H2. reflexivity.
Qed.

Lemma deleteBackward_keeps (b : Buffer) :
  cursorInBounds b -> Selection.Active (Selection b) = false ->
  exists b',
    deleteBackward b = Some b' /\ cursorInBounds b'
    /\ Selection.Active (Selection b') = false.
Proof.
  intros Hc Hoff. assert (Hc' := Hc). destruct Hc' as (line & Hl & Hx).
  pose proof (index_Some _ _ _ Hl) as Hy.
  destruct (Z_lt_le_dec 0 (CursorX b)) as [Hpos|Hzero].
  - rewrite (deleteBackward_clamped b line Hoff Hl Hpos).
    destruct (clampCursorX_onRune b line Hl ltac:(lia))
      as (H1 & H2 & H3 & H4 & _).
    set (bc := clampCursorX b (runes line)) in *. clearbody bc.
    destruct (Z.ltb_spec 0 (CursorX bc)) as [Hc0|Hc0].
    + destruct (index_split _ _ _ Hl) as (pre & post & HL & Hp).
      rewrite <- H1 in HL. rewrite <- H2 in Hp. symmetry in Hp.
      rewrite (deleteBackward_inline bc pre line post HL Hp)
        by (rewrite ?H3; auto; lia).
      eexists. split; [reflexivity|]. unfold cursorInBounds.
      cbn [Lines CursorX CursorY Selection withLines withCursorX MarkDirty
           MarkDirtyLines withDirty].
      split; [|rewrite H3; exact Hoff].
      eexists. split; [rewrite Hp; apply index_middle|].
      rewrite len_app.
      pose proof (ofRunes_len (take (Z.to_nat (CursorX bc - 1)) (runes line)))
        as Ho.
      rewrite len_take in Ho by lia.
      pose proof (len_nonneg
                    (ofRunes (drop (Z.to_nat (CursorX bc)) (runes line)))).
      lia.
    + exists bc. split; [reflexivity|]. split; [|rewrite H3; exact Hoff].
      exists line. rewrite H1, H2. split; [exact Hl|].
      pose proof (runes_len line). lia.
  - destruct (Z_lt_le_dec 0 (CursorY b)) as [HY0|HY0].
    + destruct (index_in_range (Lines b) (CursorY b - 1)) as [prev Hprev];
        [lia|].
      assert (Hidx' : index (Lines b) (CursorY b - 1 + 1) = Some line)
        by (replace (CursorY b - 1 + 1) with (CursorY b) by lia; exact Hl).
      destruct (index_split2 _ _ _ _ Hprev Hidx') as (pre & post & HL & Hp).
      destruct (deleteBackward_join b pre prev line post HL ltac:(lia) Hzero
                  Hoff) as (b' & Hd & D1 & D2 & D3 & D4).
      exists b'. split; [exact Hd|]. split; [|rewrite D4; exact Hoff].
      exists (prev ++ line). rewrite D1, D2, D3.
      split; [apply index_middle|].
      rewrite len_app. pose proof (runes_len prev).
      pose proof (len_nonneg (runes prev)). pose proof (len_nonneg line). lia.
    + exists b. split; [|auto]. unfold deleteBackward. rewrite Hoff.
      destruct (Z.ltb_spec 0 (CursorX b)); [lia|].
      destruct (Z.ltb_spec 0 (CursorY b)); [lia|]. reflexivity.
Qed.

Lemma deleteForward_keeps (b : Buffer) :
  cursorInBounds b -> Selection.Active (Selection b) = false ->
  exists b',
    deleteForward b = Some b' /\ cursorInBounds b'
    /\ Selection.Active (Selection b') = false.
Proof.
  intros Hc Hoff. assert (Hc' := Hc). destruct Hc' as (line & Hl & Hx).
  pose proof (index_Some _ _ _ Hl) as Hy.
  destruct (Z_lt_le_dec (CursorX b) (len (runes line))) as [Hin|Hlast].
  - destruct (index_split _ _ _ Hl) as (pre & post & HL & Hp).
    symmetry in Hp.
    rewrite (deleteForward_inline b pre line post HL Hp Hoff) by lia.
    eexists. split; [reflexivity|]. unfold cursorInBounds.
    cbn [Lines CursorX CursorY Selection withLines withCursorX MarkDirty
         MarkDirtyLines withDirty].
    split; [|exact Hoff].
    eexists. split; [rewrite Hp; apply index_middle|].
    rewrite len_app.
    pose proof (ofRunes_len (take (Z.to_nat (CursorX b)) (runes line))) as Ho.
    rewrite len_take in Ho by lia.
    pose proof (len_nonneg
                  (ofRunes (drop (Z.to_nat (CursorX b + 1)) (runes line)))).
    lia.
  - destruct (Z_lt_le_dec (CursorY b) (len (Lines b) - 1)) as [HYl|HYl].
    + destruct (index_in_range (Lines b) (CursorY b + 1)) as [next Hnext];
        [lia|].
      destruct (index_split2 _ _ _ _ Hl Hnext) as (pre & post & HL & Hp).
      destruct (deleteForward_join b pre line next post HL ltac:(lia) Hlast
                  Hoff) as (b' & Hf & F1 & F2 & F3 & F4).
      exists b'. split; [exact Hf|]. split; [|rewrite F4; exact Hoff].
      exists (line ++ next). rewrite F1, F2, F3.
      split; [apply index_middle|].
      rewrite len_app. pose proof (len_nonneg next). lia.
    + exists b. split; [|auto]. unfold deleteForward. rewrite Hoff, Hl.
      destruct (Z.ltb_spec (CursorX b) (len (runes line))); [lia|].
      destruct (Z.ltb_spec (CursorY b) (len (Lines b) - 1)); [lia|].
      reflexivity.
Qed.

Lemma steady_buffer (e : Editor) (b : Buffer) :
  SearchMatches e = [] -> cursorInBounds b ->
  Selection.Active (Selection b) = false ->
  steady (withBuffer e b).
Proof.
  intros Hm Hc Hoff. split; [exact Hc|].
  split; [apply selection_off; exact Hoff|exact Hm].
Qed.

Lemma steady_scrolled (e : Editor) (b : Buffer) :
  SearchMatches e = [] -> cursorInBounds b ->
  Selection.Active (Selection b) = false ->
  exists b',
    ScrollToCursor (CurrentPane e) b = Some b' /\ steady (withBuffer e b').
Proof.
  intros Hm Hc Hoff. assert (Hc' := Hc). destruct Hc' as (line & Hl & _).
  apply index_Some in Hl.
  destruct (scroll_after (CurrentPane e) b ltac:(lia))
    as (b' & Hs & H1 & H2 & H3 & H4).
  exists b'. split; [exact Hs|]. apply steady_buffer; [exact Hm| |].
  - apply (inBounds_ext b); assumption.
  - rewrite H4. exact Hoff.
Qed.

Lemma HandleKey_steady (e : Editor) (k : Key) :
  steady e -> exists e', HandleKey e k = Some e' /\ steady e'.
Proof.
  intros (Hc & Hs & Hm). unfold HandleKey. destruct k.
  - (* a rune *)
    rewrite Hm. cbn [len length Z.of_nat Z.ltb Z.compare]. rewrite !andb_false_r.
    unfold insertRune at 1.
    destruct (deleteIfActive_off _ Hc Hs) as (b1 & Hd & Hc1 & Hoff1).
    destruct (insertRune_keeps b1 r Hc1 Hoff1) as (b2 & Hi & Hc2 & Hoff2).
    assert (E : insertRune (CurrentBuffer e) r = Some b2).
    { rewrite <- Hi. unfold insertRune. rewrite Hd.
      unfold deleteIfActive. rewrite Hoff1. reflexivity. }
    fold (insertRune (CurrentBuffer e) r). rewrite E.
    destruct (steady_scrolled e b2 Hm Hc2 Hoff2) as (b3 & -> & Hst). eauto.
  - (* Enter *)
    destruct (deleteIfActive_off _ Hc Hs) as (b1 & Hd & Hc1 & Hoff1).
    destruct (insertNewline_keeps b1 Hc1 Hoff1) as (b2 & Hi & Hc2 & Hoff2).
    assert (E : insertNewline (CurrentBuffer e) = Some b2).
    { rewrite <- Hi. unfold insertNewline. rewrite Hd.
      unfold deleteIfActive. rewrite Hoff1. reflexivity. }
    rewrite E.
    destruct (steady_scrolled e b2 Hm Hc2 Hoff2) as (b3 & -> & Hst). eauto.
  - (* Backspace *)
    assert (E : exists b2, deleteBackward (CurrentBuffer e) = Some b2
                /\ cursorInBounds b2
                /\ Selection.Active (Selection b2) = false).
    { destruct (Selection.Active (Selection (CurrentBuffer e))) eqn:Ha.
      - unfold deleteBackward. rewrite Ha.
        apply DeleteSelection_total; assumption.
      - apply deleteBackward_keeps; assumption. }
    destruct E as (b2 & -> & Hc2 & Hoff2).
    destruct (steady_scrolled e b2 Hm Hc2 Hoff2) as (b3 & -> & Hst). eauto.
  - (* Delete *)
    assert (E : exists b2, deleteForward (CurrentBuffer e) = Some b2
                /\ cursorInBounds b2
                /\ Selection.Active (Selection b2) = false).
    { destruct (Selection.Active (Selection (CurrentBuffer e))) eqn:Ha.
      - unfold deleteForward. rewrite Ha.
        apply DeleteSelection_total; assumption.
      - apply deleteForward_keeps; assumption. }
    destruct E as (b2 & -> & Hc2 & Hoff2).
    eexists. split; [reflexivity|]. apply steady_buffer; assumption.
  - (* Tab *)
    destruct (deleteIfActive_off _ Hc Hs) as (b1 & -> & Hc1 & Hoff1).
    destruct (InsertText_inBounds b1 [x09] Hc1) as (b2 & -> & Hc2 & HS2).
    eexists. split; [reflexivity|].
    apply steady_buffer; [exact Hm|exact Hc2|rewrite HS2; exact Hoff1].
  - (* Ctrl-C *)
    destruct (Selection.Active _) eqn:Ha;
      [|exists e; split; [reflexivity|]; split; [exact Hc|]; split;
        [exact Hs|exact Hm]].
    destruct (GetSelectedText_total _ Hs) as (text & ->).
    eexists. split; [reflexivity|]. split; [exact Hc|]. split;
      [exact Hs|exact Hm].
  - (* Ctrl-V *)
    destruct (Clipboard e) as [|c0 clip] eqn:Hclip;
      [exists e; split; [reflexivity|]; split; [exact Hc|]; split;
        [exact Hs|exact Hm]|].
    destruct (deleteIfActive_off _ Hc Hs) as (b1 & -> & Hc1 & Hoff1).
    destruct (InsertText_inBounds b1 (c0 :: clip) Hc1) as (b2 & -> & Hc2 & HS2).
    eexists. split; [reflexivity|].
    apply steady_buffer; [exact Hm|exact Hc2|rewrite HS2; exact Hoff1].
  - (* Ctrl-X *)
    destruct (Selection.Active _) eqn:Ha;
      [|exists e; split; [reflexivity|]; split; [exact Hc|]; split;
        [exact Hs|exact Hm]].
    destruct (GetSelectedText_total _ Hs) as (text & ->).
    destruct (DeleteSelection_total _ Hc Hs) as (b2 & -> & Hc2 & Hoff2).
    eexists. split; [reflexivity|].
    apply (steady_buffer (withClipboard e text)); assumption.
Qed.

(** *** The cursor keys *)

Lemma MoveWordRight_inBounds (IsLetter IsDigit : rune -> bool) (b : Buffer) :
  cursorInBounds b ->
  exists b',
    MoveWordRight IsLetter IsDigit b = Some b'
    /\ Lines b' = Lines b /\ Selection b' = Selection b /\ cursorInBounds b'.
Proof.
  intros Hc. assert (Hc' := Hc). destruct Hc' as (line & Hl & Hx).
  unfold MoveWordRight. rewrite Hl.
  pose proof (index_Some _ _ _ Hl) as Hy. pose proof (runes_len line) as Hr.
  destruct (Z.leb_spec (len (runes line)) (CursorX b)).
  - destruct (Z.ltb_spec (CursorY b) (len (Lines b) - 1)).
    + eexists. split; [reflexivity|]. repeat split.
      destruct (index_in_range (Lines b) (CursorY b + 1)) as [nl Hn]; [lia|].
      exists nl. simpl. split; [exact Hn|]. pose proof (len_nonneg nl).
      lia.
    + exists b. repeat split. exact Hc.
  - destruct (Z.ltb_spec (CursorX b) 0); [lia|].
    pose proof (skipRight_endsRun (isWordChar IsLetter IsDigit)
                  (runes line) (CursorX b) ltac:(lia)) as (Hm & _).
    set (m := skipRight (isWordChar IsLetter IsDigit) _ (CursorX b)) in *.
    pose proof (skipRight_endsRun
                  (fun ch => negb (isWordChar IsLetter IsDigit ch))
                  (runes line) m ltac:(lia)) as (Hx' & _).
    eexists. split; [reflexivity|]. repeat split.
    exists line. simpl. split; [exact Hl|]. lia.
Qed.

Lemma MoveWordLeft_inBounds (IsLetter IsDigit : rune -> bool) (b : Buffer) :
  cursorInBounds b ->
  exists b',
    MoveWordLeft IsLetter IsDigit b = Some b'
    /\ Lines b' = Lines b /\ Selection b' = Selection b /\ cursorInBounds b'.
Proof.
  intros Hc. assert (Hc' := Hc). destruct Hc' as (line & Hl & Hx).
  unfold MoveWordLeft. rewrite Hl.
  pose proof (index_Some _ _ _ Hl) as Hy. pose proof (runes_len line) as Hr.
  destruct (Z.eqb_spec (CursorX b) 0).
  - destruct (Z.ltb_spec 0 (CursorY b)).
    + destruct (index_in_range (Lines b) (CursorY b - 1)) as [prev Hp]; [lia|].
      rewrite Hp. eexists. split; [reflexivity|]. repeat split.
      exists prev. simpl. split; [exact Hp|].
      pose proof (len_nonneg (runes prev)). pose proof (runes_len prev). lia.
    + exists b. repeat split. exact Hc.
  - set (x0 := if len (runes line) <? CursorX b then len (runes line)
               else CursorX b).
    pose proof (len_nonneg (runes line)) as Hn.
    assert (Hx0 : 0 <= x0 <= len (runes line))
      by (subst x0; destruct (Z.ltb_spec (len (runes line)) (CursorX b)); lia).
    pose proof (skipLeft_beginsRun
                  (fun ch => negb (isWordChar IsLetter IsDigit ch))
                  (runes line) x0 Hx0) as (Hm & _).
    set (m := skipLeft _ (rev (take (Z.to_nat x0) (runes line))) x0) in *.
    pose proof (skipLeft_beginsRun (isWordChar IsLetter IsDigit)
                  (runes line) m ltac:(lia)) as (Hx' & _).
    eexists. split; [reflexivity|]. repeat split.
    exists line. simpl. split; [exact Hl|]. lia.
Qed.

Lemma arrowMove_inBounds (IsLetter IsDigit : rune -> bool) (k : ArrowKey)
    (mods : Z) (b : Buffer) :
  cursorInBounds b ->
  exists b',
    arrowMove IsLetter IsDigit k mods b = Some b'
    /\ Lines b' = Lines b /\ Selection b' = Selection b /\ cursorInBounds b'.
Proof.
  intros Hc. assert (Hc' := Hc). destruct Hc' as (line & Hl & Hx).
  pose proof (index_Some _ _ _ Hl) as Hy. pose proof (runes_len line) as Hr.
  destruct k; cbn [arrowMove].
  - destruct (Z.ltb_spec 0 (CursorY b)); [|exists b; auto].
    destruct (index_in_range (Lines b) (CursorY b - 1)) as [pl Hp]; [lia|].
    destruct (clampToLine_spec (withCursorY b (CursorY b - 1)) pl)
      as (b' & H1 & H2 & H3 & _ & _ & H6); [exact Hp|simpl; lia|].
    exists b'. split; [exact H1|]. split; [exact H2|].
    split; [exact H3|apply onRune_inBounds; exact H6].
  - destruct (Z.ltb_spec (CursorY b) (len (Lines b) - 1)); [|exists b; auto].
    destruct (index_in_range (Lines b) (CursorY b + 1)) as [nl Hn]; [lia|].
    destruct (clampToLine_spec (withCursorY b (CursorY b + 1)) nl)
      as (b' & H1 & H2 & H3 & _ & _ & H6); [exact Hn|simpl; lia|].
    exists b'. split; [exact H1|]. split; [exact H2|].
    split; [exact H3|apply onRune_inBounds; exact H6].
  - destruct (jumpsByWord mods); [apply MoveWordLeft_inBounds; exact Hc|].
    destruct (Z.ltb_spec 0 (CursorX b)).
    { eexists. split; [reflexivity|]. repeat split.
      exists line. simpl. split; [exact Hl|lia]. }
    destruct (Z.ltb_spec 0 (CursorY b)); [|exists b; auto].
    destruct (index_in_range (Lines b) (CursorY b - 1)) as [pl Hp]; [lia|].
    rewrite Hp. eexists. split; [reflexivity|]. repeat split.
    exists pl. simpl. split; [exact Hp|].
    pose proof (len_nonneg (runes pl)). pose proof (runes_len pl). lia.
  - rewrite Hl.
    destruct (jumpsByWord mods); [apply MoveWordRight_inBounds; exact Hc|].
    destruct (Z.ltb_spec (CursorX b) (len (runes line))).
    { eexists. split; [reflexivity|]. repeat split.
      exists line. simpl. split; [exact Hl|lia]. }
    destruct (Z.ltb_spec (CursorY b) (len (Lines b) - 1)); [|exists b; auto].
    destruct (index_in_range (Lines b) (CursorY b + 1)) as [nl Hn]; [lia|].
    eexists. split; [reflexivity|]. repeat split.
    exists nl. simpl. split; [exact Hn|]. pose proof (len_nonneg nl). lia.
Qed.

Lemma HandleArrow_steady (IsLetter IsDigit : rune -> bool)
    (e : Editor) (k : ArrowKey) (mods : Z) :
  steady e ->
  exists e', HandleArrow IsLetter IsDigit e k mods = Some e' /\ steady e'.
Proof.
  intros (Hc & Hs & Hm). rewrite HandleArrow_steps.
  set (sel := extendsSelection k mods). set (b := CurrentBuffer e) in *.
  destruct (beginSelection_fields sel b) as (BL & BX & BY).
  assert (Hc0 : cursorInBounds (beginSelection sel b))
    by (apply (inBounds_ext b); assumption).
  destruct (arrowMove_inBounds IsLetter IsDigit k mods _ Hc0)
    as (b1 & -> & HL1 & HS1 & Hc1).
  destruct (endSelection_fields sel b1) as (EL & EX & EY).
  assert (Hc2 : cursorInBounds (endSelection sel b1))
    by (apply (inBounds_ext b1); assumption).
  assert (Hs2 : selectionInBounds (endSelection sel b1)).
  { destruct Hc as (l0 & Hl0 & Hx0). apply index_Some in Hl0.
    destruct Hc1 as (l1 & Hl1 & Hx1). apply index_Some in Hl1.
    unfold selectionInBounds. rewrite EL, HL1, BL.
    unfold endSelection. destruct sel; [|simpl; congruence].
    cbn [Selection withSelection Selection.Active Selection.StartLine
         Selection.StartCol Selection.EndLine Selection.EndCol].
    rewrite HS1, HL1, BL in *. unfold beginSelection. cbn [andb].
    destruct (Selection.Active (Selection b)) eqn:Ha; cbn [negb].
    - intros _. destruct (Hs Ha) as (S1 & S2 & S3 & S4). fold b in Hl1.
      repeat split; lia.
    - cbn [Selection withSelection Selection.Active Selection.StartLine
           Selection.StartCol]. intros _. fold b in Hl0, Hl1.
      repeat split; lia. }
  assert (Hy : 0 <= CursorY (endSelection sel b1)).
  { destruct Hc2 as (l2 & Hl2 & _). apply index_Some in Hl2. lia. }
  destruct (scroll_after (CurrentPane e) _ Hy) as (b3 & -> & H1 & H2 & H3 & H4).
  eexists. split; [reflexivity|]. split; [|split; [|exact Hm]].
  - apply (inBounds_ext (endSelection sel b1)); assumption.
  - apply (selection_ext (endSelection sel b1)); assumption.
Qed.

(** X22.  No sequence of keys of normal mode makes the editor panic.
    Start from a state in which the cursor is on a line of the store at a
    byte offset inside it, an active selection has its endpoints on lines
    of the store, and no search matches are held (the state of a new
    editor is such a state).  Then every sequence of editing keys (runes,
    Enter, Backspace, Delete, Tab, copy, paste, cut) and cursor keys (with
    any modifiers) runs to its end, and ends in such a state again, with a
    store that is not empty. *)
Theorem X22_no_sequence_of_keys_panics
    (IsLetter IsDigit : rune -> bool) (e : Editor) (ks : list NormalKey) :
  steady e ->
  exists e',
    pressKeys IsLetter IsDigit e ks = Some e'
    /\ steady e'
    /\ 1 <= len (Lines (CurrentBuffer e')).
Proof.
  revert e. induction ks as [|k ks IH]; intros e Hst.
  - exists e. split; [reflexivity|]. split; [exact Hst|].
    destruct Hst as ((line & Hl & _) & _). apply index_Some in Hl. lia.
  - cbn [pressKeys].
    assert (Hk : exists e1, pressKey IsLetter IsDigit e k = Some e1
                            /\ steady e1).
    { destruct k as [k|k mods]; cbn [pressKey].
      - apply HandleKey_steady. exact Hst.
      - apply HandleArrow_steady. exact Hst. }
    destruct Hk as (e1 & -> & Hst1). apply IH. exact Hst1.
Qed.

Lemma X22_no_sequence_of_keys_panics_witness :
  exists e',
    pressKeys asciiIsLetter asciiIsDigit
      (mkEditor (NewBuffer noStyle) plainPane [] [] 0 (eAcute ++ [NL] ++ eAcute))
      [EditKey KeyCtrlV; CursorKey KeyUp ModCtrl; EditKey KeyCtrlX;
       EditKey KeyBackspace; CursorKey KeyRight ModAlt; EditKey (KeyRune 110)]
    = Some e'
    /\ steady e'
    /\ 1 <= len (Lines (CurrentBuffer e')).
Proof.
  apply (X22_no_sequence_of_keys_panics asciiIsLetter asciiIsDigit
           (mkEditor (NewBuffer noStyle) plainPane [] [] 0
              (eAcute ++ [NL] ++ eAcute))).
  split; [|split; [|reflexivity]].
  - exists []. split; [reflexivity|]. vm_compute. split; discriminate.
  - intros Ha. discriminate Ha.
Defined.

(** X23.  A stale search match can make the next edit panic.  The match
    list is not updated by edits.  If the match that 'n' steps to lies on
    a line of the store but starts past the end of that line, 'n' returns
    and puts the cursor there, outside the line; with no active selection,
    Tab then panics, and so does a paste of a non-empty clipboard
    ([InsertText] slices the line at the cursor column). *)
Theorem X23_stale_match_makes_the_next_insert_panic
    (e : Editor) (m : SearchMatch.t) (line : str) :
  0 <= SearchIndex e < len (SearchMatches e) ->
  index (SearchMatches e)
    (Z.rem (SearchIndex e + 1) (len (SearchMatches e))) = Some m ->
  index (Lines (CurrentBuffer e)) (SearchMatch.Line m) = Some line ->
  len line < SearchMatch.Col m ->
  Selection.Active (Selection (CurrentBuffer e)) = false ->
  exists e1,
    HandleKey e (KeyRune 110) = Some e1
    /\ Lines (CurrentBuffer e1) = Lines (CurrentBuffer e)
    /\ CursorY (CurrentBuffer e1) = SearchMatch.Line m
    /\ CursorX (CurrentBuffer e1) = SearchMatch.Col m
    /\ ~ cursorInBounds (CurrentBuffer e1)
    /\ HandleKey e1 KeyTab = None
    /\ (Clipboard e <> [] -> HandleKey e1 KeyCtrlV = None).
Proof.
  intros Hi Hm Hl Hcol Hoff.
  pose proof (index_Some _ _ _ Hl) as Hy.
  rewrite HandleKey_n by lia. unfold JumpToSearchMatch.
  cbn [SearchMatches SearchIndex CurrentBuffer CurrentPane withSearch].
  destruct (Z.eqb_spec (len (SearchMatches e)) 0); [lia|]. rewrite Hm.
  destruct (scroll_after (CurrentPane e)
              (withCursorX (withCursorY (CurrentBuffer e) (SearchMatch.Line m))
                 (SearchMatch.Col m)))
    as (b1 & -> & H1 & H2 & H3 & H4); [simpl; lia|].
  cbn [Lines CursorX CursorY Selection withCursorX withCursorY] in H1, H2, H3, H4.
  eexists. split; [reflexivity|].
  cbn [CurrentBuffer withBuffer Clipboard withSearch].
  split; [exact H1|]. split; [exact H3|]. split; [exact H2|].
  assert (Hins : forall text, text <> [] -> InsertText b1 text = None).
  { intros text Ht. unfold InsertText. rewrite H1, H3, Hl, H2.
    assert (Hs : sliceTo line (SearchMatch.Col m) = None).
    { unfold sliceTo, slice. cbn [Z.leb Z.compare].
      destruct (Z.leb_spec 0 (SearchMatch.Col m)); [|reflexivity].
      destruct (Z.leb_spec (SearchMatch.Col m) (len line)); [lia|].
      reflexivity. }
    rewrite Hs. destruct (len (strings.SplitNL text) =? 1); reflexivity. }
  split.
  { intros (l' & Hl' & Hx'). rewrite H1, H3, Hl in Hl'. injection Hl' as <-.
    lia. }
  unfold HandleKey. cbn [CurrentBuffer withBuffer Clipboard withSearch].
  unfold deleteIfActive. rewrite H4, Hoff.
  split.
  - rewrite Hins by discriminate. reflexivity.
  - intros Hclip. destruct (Clipboard e) as [|c0 clip]; [congruence|].
    rewrite Hins by discriminate. reflexivity.
Qed.

Lemma X23_stale_match_makes_the_next_insert_panic_witness :
  let e := mkEditor (plainBuffer [[]] 0 0 noSelection) plainPane (lit "x")
             [SearchMatch.mk 0 1 1] 0 (lit "y") in
  exists e1,
    HandleKey e (KeyRune 110) = Some e1
    /\ Lines (CurrentBuffer e1) = Lines (CurrentBuffer e)
    /\ CursorY (CurrentBuffer e1) = 0
    /\ CursorX (CurrentBuffer e1) = 1
    /\ ~ cursorInBounds (CurrentBuffer e1)
    /\ HandleKey e1 KeyTab = None
    /\ (Clipboard e <> [] -> HandleKey e1 KeyCtrlV = None).
Proof.
  apply (X23_stale_match_makes_the_next_insert_panic
           (mkEditor (plainBuffer [[]] 0 0 noSelection) plainPane (lit "x")
              [SearchMatch.mk 0 1 1] 0 (lit "y"))
           (SearchMatch.mk 0 1 1) []).
  - vm_compute. split; [discriminate|reflexivity].
  - reflexivity.
  - reflexivity.
  - vm_compute. reflexivity.
  - reflexivity.
Defined.

(** ** Tab stops *)

Lemma fold_advance_bounds (rs : list rune) (v : Z) :
  v + len rs <= fold_left advance rs v <= v + tabWidth * len rs.
Proof.
  revert v. induction rs as [|r rs IH]; intros v.
  - unfold len, tabWidth. simpl. lia.
  - cbn [fold_left]. rewrite len_cons. specialize (IH (advance v r)).
    pose proof (advance_gt v r) as Hgt.
    assert (Hle : advance v r <= v + tabWidth).
    { unfold advance, tabWidth. destruct (r =? TAB); [|lia].
      pose proof (Z.mod_pos_bound v 4). lia. }
    unfold tabWidth in *. lia.
Qed.

(** X24.  Tab stops.  On a line of the document, stepping over one
    character moves the visual column of [charToVisualCol] by one when the
    character is not a tab, and to the next multiple of 4 after it (by 1
    to 4 columns) when it is a tab; so two positions of a line never share
    a visual column, and the visual column of character [c] lies between
    [c] and [4 * c]. *)
Theorem X24_a_tab_goes_to_the_next_multiple_of_four
    (b : Buffer) (line c : Z) (l : str) (r : rune) :
  index (Lines b) line = Some l ->
  index (runes l) c = Some r ->
  exists v v',
    charToVisualCol b line c = Some v
    /\ charToVisualCol b line (c + 1) = Some v'
    /\ (r <> TAB -> v' = v + 1)
    /\ (r = TAB -> v < v' <= v + tabWidth /\ v' mod tabWidth = 0)
    /\ c <= v <= tabWidth * c.
Proof.
  intros Hl Hr. pose proof (index_Some _ _ _ Hl) as Hline.
  pose proof (index_Some _ _ _ Hr) as Hc.
  rewrite index_lookup in Hr by lia.
  unfold charToVisualCol.
  destruct (Z.leb_spec (len (Lines b)) line); [lia|]. rewrite Hl.
  do 2 eexists. split; [reflexivity|]. split; [reflexivity|].
  replace (Z.to_nat (c + 1)) with (S (Z.to_nat c)) by lia.
  rewrite (take_S_r _ _ _ Hr), fold_left_app. cbn [fold_left].
  set (v := fold_left advance (take (Z.to_nat c) (runes l)) 0).
  split; [|split].
  - intros Hne. unfold advance.
    destruct (Z.eqb_spec r TAB); [congruence|reflexivity].
  - intros ->. unfold advance, tabWidth. cbn [Z.eqb TAB Pos.eqb].
    pose proof (Z.mod_pos_bound v 4). split; [lia|].
    Z.to_euclidean_division_equations. lia.
  - pose proof (fold_advance_bounds (take (Z.to_nat c) (runes l)) 0) as Hb.
    fold v in Hb. rewrite len_take in Hb by lia. lia.
Qed.

Lemma X24_a_tab_goes_to_the_next_multiple_of_four_witness :
  let b := plainBuffer [lit "ab" ++ [x09] ++ lit "c"] 0 0 noSelection in
  exists v v',
    charToVisualCol b 0 2 = Some v
    /\ charToVisualCol b 0 (2 + 1) = Some v'
    /\ (TAB <> TAB -> v' = v + 1)
    /\ (TAB = TAB -> v < v' <= v + tabWidth /\ v' mod tabWidth = 0)
    /\ 2 <= v <= tabWidth * 2.
Proof.
  apply (X24_a_tab_goes_to_the_next_multiple_of_four
           (plainBuffer [lit "ab" ++ [x09] ++ lit "c"] 0 0 noSelection)
           0 2 (lit "ab" ++ [x09] ++ lit "c") TAB).
  - reflexivity.
  - reflexivity.
Defined.

(** ** The search prompt *)

Lemma EncodeRune_one_byte (r : rune) :
  length (utf8.EncodeRune r) = 1%nat <-> 0 <= r <= 127.
Proof.
  unfold utf8.EncodeRune.
  destruct (Z.leb_spec 0 r); destruct (Z.leb_spec r 127); cbn [andb];
    try (split; [lia|reflexivity]);
    repeat match goal with
           | |- context [if ?c then _ else _] => destruct c
           end; cbn [length]; split; intros; try lia; discriminate.
Qed.

(** X25.  Backspace in the search prompt removes one byte.  Typing a rune
    appends its UTF-8 encoding to the query; Backspace then returns and
    removes the last byte only, keeping search mode, the matches and the
    buffer: the query is the old one followed by the encoding without its
    last byte, which is the old query exactly when the rune is an ASCII
    character.  Backspace on an empty query changes nothing but leaves
    search mode. *)
Theorem X25_prompt_backspace_removes_one_byte
    (p : SearchPrompt) (r : rune) :
  (exists p1 p2,
     HandleSearchKey p (PromptRune r) = Some p1
     /\ SearchQuery (PromptEditor p1)
        = SearchQuery (PromptEditor p) ++ utf8.EncodeRune r
     /\ HandleSearchKey p1 PromptBackspace = Some p2
     /\ SearchQuery (PromptEditor p2)
        = SearchQuery (PromptEditor p) ++ removelast (utf8.EncodeRune r)
     /\ (SearchQuery (PromptEditor p2) = SearchQuery (PromptEditor p)
         <-> 0 <= r <= 127)
     /\ SearchMode p2 = SearchMode p
     /\ SearchMatches (PromptEditor p2) = SearchMatches (PromptEditor p)
     /\ CurrentBuffer (PromptEditor p2) = CurrentBuffer (PromptEditor p))
  /\ (SearchQuery (PromptEditor p) = [] ->
      HandleSearchKey p PromptBackspace
      = Some (mkSearchPrompt false (PromptEditor p))).
Proof.
  split.
  - set (q := SearchQuery (PromptEditor p)).
    pose proof (EncodeRune_nonempty r) as Hne.
    pose proof (len_nonneg q) as Hq.
    assert (Hlen : 0 < len (q ++ utf8.EncodeRune r)).
    { rewrite len_app. destruct (utf8.EncodeRune r) as [|c enc];
        [congruence|].
      rewrite len_cons. pose proof (len_nonneg enc). lia. }
    assert (Hcut : take (Z.to_nat (len (q ++ utf8.EncodeRune r) - 1))
                     (q ++ utf8.EncodeRune r)
                   = q ++ removelast (utf8.EncodeRune r)).
    { rewrite <- removelast_app by exact Hne.
      rewrite removelast_firstn_len. f_equal.
      unfold len. rewrite length_app. lia. }
    eexists. eexists. split; [reflexivity|].
    cbn [PromptEditor SearchQuery withSearch]. fold q.
    split; [reflexivity|].
    unfold HandleSearchKey.
    cbn [PromptEditor SearchMode SearchQuery SearchMatches SearchIndex
         CurrentBuffer withSearch]. fold q.
    destruct (Z.ltb_spec 0 (len (q ++ utf8.EncodeRune r))); [|lia].
    rewrite sliceTo_ok by lia. split; [reflexivity|].
    cbn [PromptEditor SearchMode SearchQuery SearchMatches SearchIndex
         CurrentBuffer withSearch].
    split; [exact Hcut|]. split; [|auto].
    rewrite Hcut, <- EncodeRune_one_byte. split.
    + intros He. apply (f_equal (@length byte)) in He.
      rewrite length_app in He.
      destruct (utf8.EncodeRune r) as [|c [|c' enc]];
        [congruence|reflexivity|].
      exfalso. cbn [removelast length] in He. lia.
    + intros He.
      destruct (utf8.EncodeRune r) as [|c [|c' enc]]; try discriminate He.
      cbn [removelast]. apply app_nil_r.
  - intros Hq. unfold HandleSearchKey. rewrite Hq. reflexivity.
Qed.

(** ** The refresh under a lexer that keeps lines *)

(** X26.  Let a refresh be pending on a buffer whose lines hold no line
    break, with dirty range [ds..de] starting on a line of the document,
    and let the lexer keep lines (its tokens hold no more line breaks than
    the text it was given).  Then [RefreshIfDirty] returns, clears
    the dirty range and leaves the text alone; with
    [lo = max(0, ds - 50)] and [hi = min(lineCount - 1, de + 50)], the
    window [lo..hi] has at most [de - ds + 101] lines, the cached spans and
    the style at every column of every document line outside the window
    are what they were, and the new cache is the same for any other line
    store of the same length with the same lines in the window: no line
    outside the window is read. *)
Theorem X26_refresh_is_confined_when_the_lexer_keeps_lines (b : Buffer) :
  Dirty b = true ->
  0 <= DirtyLineStart b <= DirtyLineEnd b ->
  DirtyLineStart b < len (Lines b) ->
  (forall l, In l (Lines b) -> ~ In NL l) ->
  (forall lexer, Lexer b = Some lexer -> lexerKeepsLines lexer) ->
  let lo := Z.max 0 (DirtyLineStart b - contextLines) in
  let hi := Z.min (len (Lines b) - 1) (DirtyLineEnd b + contextLines) in
  exists b',
    RefreshIfDirty b = Some b'
    /\ Lines b' = Lines b
    /\ Dirty b' = false /\ DirtyLineStart b' = -1 /\ DirtyLineEnd b' = -1
    /\ contextLines = 50
    /\ hi - lo + 1 <= DirtyLineEnd b - DirtyLineStart b + 101
    /\ (forall line col : Z,
          0 <= line < len (Lines b) ->
          line < lo \/ hi < line ->
          GetStyleAt b' line col = GetStyleAt b line col
          /\ forall spans,
               index (TokenCache b) line = Some spans ->
               index (TokenCache b') line = Some spans)
    /\ (forall ls : list str,
          len ls = len (Lines b) ->
          slice ls lo (hi + 1) = slice (Lines b) lo (hi + 1) ->
          option_map TokenCache (RefreshIfDirty (withLines b ls))
          = Some (TokenCache b')).
Proof.
  intros Hd Hr Hs Hnl Hlex lo hi. unfold RefreshIfDirty.
  destruct (Z.leb_spec 0 (DirtyLineStart b)); [|lia].
  rewrite Hd. cbn [andb].
  assert (Hwin : lo <= hi) by (subst lo hi; unfold contextLines; lia).
  destruct (UpdateTokenCacheRange_total b (DirtyLineStart b) (DirtyLineEnd b))
    as [b1 Hb1]; [fold lo hi; lia|].
  rewrite Hb1. eexists. split; [reflexivity|].
  apply UpdateTokenCacheRange_Lines in Hb1 as HF.
  destruct HF as (HL & _).
  split; [exact HL|]. do 4 (split; [reflexivity|]).
  split; [subst lo hi; unfold contextLines; lia|]. split.
  - intros line col Hline Hout.
    apply (UpdateTokenCacheRange_outside b b1 _ _ line col Hnl Hlex Hb1);
      assumption.
  - intros ls Hlen Hsl. cbn [Dirty DirtyLineStart DirtyLineEnd withLines].
    rewrite Hd. destruct (Z.leb_spec 0 (DirtyLineStart b)); [|lia].
    cbn [andb].
    pose proof (UpdateTokenCacheRange_reads_window b ls (DirtyLineStart b)
                  (DirtyLineEnd b) Hlen Hsl) as Hrw.
    rewrite Hb1 in Hrw.
    destruct (UpdateTokenCacheRange (withLines b ls) _ _) as [b2|];
      [|discriminate Hrw].
    simpl in Hrw. injection Hrw as Hrw. simpl. rewrite Hrw. reflexivity.
Qed.

Lemma X26_refresh_is_confined_when_the_lexer_keeps_lines_witness :
  exists b',
    RefreshIfDirty thousandLines = Some b'
    /\ Lines b' = Lines thousandLines
    /\ Dirty b' = false /\ DirtyLineStart b' = -1 /\ DirtyLineEnd b' = -1
    /\ contextLines = 50
    /\ 60 - 0 + 1 <= 10 - 10 + 101
    /\ (forall line col : Z,
          0 <= line < 1000 ->
          line < 0 \/ 60 < line ->
          GetStyleAt b' line col = GetStyleAt thousandLines line col
          /\ forall spans,
               index (TokenCache thousandLines) line = Some spans ->
               index (TokenCache b') line = Some spans)
    /\ (forall ls : list str,
          len ls = 1000 ->
          slice ls 0 (60 + 1) = slice (Lines thousandLines) 0 (60 + 1) ->
          option_map TokenCache (RefreshIfDirty (withLines thousandLines ls))
          = Some (TokenCache b')).
Proof.
  apply (X26_refresh_is_confined_when_the_lexer_keeps_lines thousandLines).
  - reflexivity.
  - simpl. lia.
  - vm_compute. reflexivity.
  - intros l Hin. apply list_elem_of_In, elem_of_replicate in Hin as [-> _].
    simpl. intros [H|[]]. discriminate H.
  - intros lexer [= <-] content tokens [= <-]. simpl.
    rewrite app_nil_r. lia.
Defined.
